(** * Fiwix buffer cache and page cache: a shallow embedding

    The development follows [fs/buffer.c], [mm/page.c] and
    [fs/minix/file.c].  The C globals become the fields of one [kernel]
    record that every function threads explicitly.  A [struct buffer *] or
    [struct page *] is an index into the corresponding table ([None] is
    [NULL]); the intrusive [prev]/[next] links are kept as they are in the
    source, so the list manipulation is modelled statement by statement.

    A function returns [option]: [None] stands for a call that never
    returns when the task runs alone (it sleeps on a lock nobody will
    release, or walks a cyclic chain for ever). *)

From Stdlib Require Import ZArith Lia Bool.
From stdpp Require Import base option list.

Local Open Scope Z_scope.

(** ** Constants of the headers *)

(** Modelled from the spec: the page size is declared in a header that is
    not among the sources; the spec fixes "raw 4 KiB frames". *)
Definition PAGE_SIZE : Z := 4096.
Definition PAGE_MASK : Z := Z.lnot (PAGE_SIZE - 1).

(** Modelled from the spec: the flag bits are declared in the headers
    [buffer.h] and [mm.h], which are not among the sources; the spec only
    needs them to be distinct single bits. *)
Definition BUFFER_VALID : Z := 1.
Definition BUFFER_LOCKED : Z := 2.
Definition BUFFER_DIRTY : Z := 4.
Definition PAGE_LOCKED : Z := 1.
Definition PAGE_RESERVED : Z := 256.

(** [flags & m], [flags |= m] and [flags &= ~m]. *)
Definition tst (flags m : Z) : bool := negb (Z.land flags m =? 0).
Definition bis (flags m : Z) : Z := Z.lor flags m.
Definition bic (flags m : Z) : Z := Z.land flags (Z.lnot m).

Definition MIN (a b : Z) : Z := if a <? b then a else b.

(** A pointer into a table. *)
Definition ptr : Type := option nat.

Definition ptr_eqb (p q : ptr) : bool :=
  match p, q with
  | Some a, Some b => Nat.eqb a b
  | None, None => true
  | _, _ => false
  end.

Definition is_null (p : ptr) : bool :=
  match p with None => true | Some _ => false end.

(** ** [struct buffer] *)
Module Buf.
Record t : Type := mk {
  dev : Z;
  block : Z;
  size : Z;
  data : ptr;            (* frame holding the block, by frame number *)
  flags : Z;
  prev_hash : ptr;
  next_hash : ptr;
  prev_free : ptr;
  next_free : ptr;
  prev_dirty : ptr;
  next_dirty : ptr
}.

Definition zero : t :=
  mk 0 0 0 None 0 None None None None None None.

Definition set_key (d b s : Z) (x : t) : t :=
  mk d b s (data x) (flags x) (prev_hash x) (next_hash x)
     (prev_free x) (next_free x) (prev_dirty x) (next_dirty x).
Definition set_data (v : ptr) (x : t) : t :=
  mk (dev x) (block x) (size x) v (flags x) (prev_hash x) (next_hash x)
     (prev_free x) (next_free x) (prev_dirty x) (next_dirty x).
Definition set_flags (v : Z) (x : t) : t :=
  mk (dev x) (block x) (size x) (data x) v (prev_hash x) (next_hash x)
     (prev_free x) (next_free x) (prev_dirty x) (next_dirty x).
Definition set_prev_hash (v : ptr) (x : t) : t :=
  mk (dev x) (block x) (size x) (data x) (flags x) v (next_hash x)
     (prev_free x) (next_free x) (prev_dirty x) (next_dirty x).
Definition set_next_hash (v : ptr) (x : t) : t :=
  mk (dev x) (block x) (size x) (data x) (flags x) (prev_hash x) v
     (prev_free x) (next_free x) (prev_dirty x) (next_dirty x).
Definition set_prev_free (v : ptr) (x : t) : t :=
  mk (dev x) (block x) (size x) (data x) (flags x) (prev_hash x)
     (next_hash x) v (next_free x) (prev_dirty x) (next_dirty x).
Definition set_next_free (v : ptr) (x : t) : t :=
  mk (dev x) (block x) (size x) (data x) (flags x) (prev_hash x)
     (next_hash x) (prev_free x) v (prev_dirty x) (next_dirty x).
Definition set_prev_dirty (v : ptr) (x : t) : t :=
  mk (dev x) (block x) (size x) (data x) (flags x) (prev_hash x)
     (next_hash x) (prev_free x) (next_free x) v (next_dirty x).
Definition set_next_dirty (v : ptr) (x : t) : t :=
  mk (dev x) (block x) (size x) (data x) (flags x) (prev_hash x)
     (next_hash x) (prev_free x) (next_free x) (prev_dirty x) v.
End Buf.

#[global] Instance buffer_inhabited : Inhabited Buf.t :=
  populate Buf.zero.

(** ** [struct page] *)
Module Pg.
Record t : Type := mk {
  page : Z;
  count : Z;
  flags : Z;
  inode : Z;
  offset : Z;
  dev : Z;
  data : ptr;            (* the frame of this entry, by frame number *)
  prev_hash : ptr;
  next_hash : ptr;
  prev_free : ptr;
  next_free : ptr
}.

Definition zero : t := mk 0 0 0 0 0 0 None None None None None.

Definition set_page (v : Z) (x : t) : t :=
  mk v (count x) (flags x) (inode x) (offset x) (dev x) (data x)
     (prev_hash x) (next_hash x) (prev_free x) (next_free x).
Definition set_count (v : Z) (x : t) : t :=
  mk (page x) v (flags x) (inode x) (offset x) (dev x) (data x)
     (prev_hash x) (next_hash x) (prev_free x) (next_free x).
Definition set_flags (v : Z) (x : t) : t :=
  mk (page x) (count x) v (inode x) (offset x) (dev x) (data x)
     (prev_hash x) (next_hash x) (prev_free x) (next_free x).
Definition set_key (i o d : Z) (x : t) : t :=
  mk (page x) (count x) (flags x) i o d (data x)
     (prev_hash x) (next_hash x) (prev_free x) (next_free x).
Definition set_data (v : ptr) (x : t) : t :=
  mk (page x) (count x) (flags x) (inode x) (offset x) (dev x) v
     (prev_hash x) (next_hash x) (prev_free x) (next_free x).
Definition set_prev_hash (v : ptr) (x : t) : t :=
  mk (page x) (count x) (flags x) (inode x) (offset x) (dev x) (data x)
     v (next_hash x) (prev_free x) (next_free x).
Definition set_next_hash (v : ptr) (x : t) : t :=
  mk (page x) (count x) (flags x) (inode x) (offset x) (dev x) (data x)
     (prev_hash x) v (prev_free x) (next_free x).
Definition set_prev_free (v : ptr) (x : t) : t :=
  mk (page x) (count x) (flags x) (inode x) (offset x) (dev x) (data x)
     (prev_hash x) (next_hash x) v (next_free x).
Definition set_next_free (v : ptr) (x : t) : t :=
  mk (page x) (count x) (flags x) (inode x) (offset x) (dev x) (data x)
     (prev_hash x) (next_hash x) (prev_free x) v.
End Pg.

#[global] Instance page_inhabited : Inhabited Pg.t := populate Pg.zero.

(** ** Devices, counters and the kernel state *)

(** A frame holds [PAGE_SIZE] bytes. *)
Definition frame : Type := list Byte.byte.

(** The calls that leave the caches: those that reach a block device
    driver, with what they returned, and the frames given back to the
    allocator.  [write_block_call] records the bytes handed to the driver
    ([None] when the buffer had no frame). *)
Inductive event : Type :=
| read_block_call (dev block size ret : Z)
| write_block_call (dev block : Z) (data : option frame) (size ret : Z)
| kfree_call (addr : nat).

(** The two methods of [struct fs_operations] that the caches call.  A
    driver is outside the caches: its answer may depend on every call made
    so far.  [read_block] answers with its return value and the bytes it
    stored in the buffer. *)
Record fs_operations : Type := mk_fsop {
  read_block : option (list event -> Z -> Z -> Z -> Z * frame);
  write_block : option (list event -> Z -> Z -> option frame -> Z -> Z)
}.

Record device : Type := mk_device { fsop : option fs_operations }.

(** The counters of [kstat] that the caches maintain. *)
Record kstat_t : Type := mk_kstat {
  buffers : Z;
  dirty : Z;
  cached : Z;
  free_pages : Z
}.

Definition kstat_add_buffers (d : Z) (s : kstat_t) : kstat_t :=
  mk_kstat (buffers s + d) (dirty s) (cached s) (free_pages s).
Definition kstat_add_dirty (d : Z) (s : kstat_t) : kstat_t :=
  mk_kstat (buffers s) (dirty s + d) (cached s) (free_pages s).
Definition kstat_add_cached (d : Z) (s : kstat_t) : kstat_t :=
  mk_kstat (buffers s) (dirty s) (cached s + d) (free_pages s).
Definition kstat_add_free_pages (d : Z) (s : kstat_t) : kstat_t :=
  mk_kstat (buffers s) (dirty s) (cached s) (free_pages s + d).

(** The globals of the two caches.  [frames] is the physical memory, one
    frame per page-table entry; [blk_devices] is the table [get_device]
    consults; [io] is the history of driver calls, oldest first;
    [NR_BUF_RECLAIM] is the header constant, never written. *)
Record kernel : Type := mk_kernel {
  buffer_table : list Buf.t;
  buffer_head : ptr;
  buffer_dirty_head : ptr;
  buffer_hash_table : list ptr;
  page_table : list Pg.t;
  page_head : ptr;
  page_hash_table : list ptr;
  kstat : kstat_t;
  frames : list frame;
  blk_devices : Z -> option device;
  io : list event;
  NR_BUF_RECLAIM : Z
}.

Definition set_buffer_table (v : list Buf.t) (k : kernel) : kernel :=
  mk_kernel v (buffer_head k) (buffer_dirty_head k) (buffer_hash_table k)
    (page_table k) (page_head k) (page_hash_table k) (kstat k) (frames k)
    (blk_devices k) (io k) (NR_BUF_RECLAIM k).
Definition set_buffer_head (v : ptr) (k : kernel) : kernel :=
  mk_kernel (buffer_table k) v (buffer_dirty_head k) (buffer_hash_table k)
    (page_table k) (page_head k) (page_hash_table k) (kstat k) (frames k)
    (blk_devices k) (io k) (NR_BUF_RECLAIM k).
Definition set_buffer_dirty_head (v : ptr) (k : kernel) : kernel :=
  mk_kernel (buffer_table k) (buffer_head k) v (buffer_hash_table k)
    (page_table k) (page_head k) (page_hash_table k) (kstat k) (frames k)
    (blk_devices k) (io k) (NR_BUF_RECLAIM k).
Definition set_buffer_hash_table (v : list ptr) (k : kernel) : kernel :=
  mk_kernel (buffer_table k) (buffer_head k) (buffer_dirty_head k) v
    (page_table k) (page_head k) (page_hash_table k) (kstat k) (frames k)
    (blk_devices k) (io k) (NR_BUF_RECLAIM k).
Definition set_page_table (v : list Pg.t) (k : kernel) : kernel :=
  mk_kernel (buffer_table k) (buffer_head k) (buffer_dirty_head k)
    (buffer_hash_table k) v (page_head k) (page_hash_table k) (kstat k)
    (frames k) (blk_devices k) (io k) (NR_BUF_RECLAIM k).
Definition set_page_head (v : ptr) (k : kernel) : kernel :=
  mk_kernel (buffer_table k) (buffer_head k) (buffer_dirty_head k)
    (buffer_hash_table k) (page_table k) v (page_hash_table k) (kstat k)
    (frames k) (blk_devices k) (io k) (NR_BUF_RECLAIM k).
Definition set_page_hash_table (v : list ptr) (k : kernel) : kernel :=
  mk_kernel (buffer_table k) (buffer_head k) (buffer_dirty_head k)
    (buffer_hash_table k) (page_table k) (page_head k) v (kstat k) (frames
    k) (blk_devices k) (io k) (NR_BUF_RECLAIM k).
Definition set_kstat (v : kstat_t) (k : kernel) : kernel :=
  mk_kernel (buffer_table k) (buffer_head k) (buffer_dirty_head k)
    (buffer_hash_table k) (page_table k) (page_head k) (page_hash_table k) v
    (frames k) (blk_devices k) (io k) (NR_BUF_RECLAIM k).
Definition set_frames (v : list frame) (k : kernel) : kernel :=
  mk_kernel (buffer_table k) (buffer_head k) (buffer_dirty_head k)
    (buffer_hash_table k) (page_table k) (page_head k) (page_hash_table k)
    (kstat k) v (blk_devices k) (io k) (NR_BUF_RECLAIM k).
Definition set_blk_devices (v : Z -> option device) (k : kernel) : kernel :=
  mk_kernel (buffer_table k) (buffer_head k) (buffer_dirty_head k)
    (buffer_hash_table k) (page_table k) (page_head k) (page_hash_table k)
    (kstat k) (frames k) v (io k) (NR_BUF_RECLAIM k).
Definition set_io (v : list event) (k : kernel) : kernel :=
  mk_kernel (buffer_table k) (buffer_head k) (buffer_dirty_head k)
    (buffer_hash_table k) (page_table k) (page_head k) (page_hash_table k)
    (kstat k) (frames k) (blk_devices k) v (NR_BUF_RECLAIM k).
Definition set_NR_BUF_RECLAIM (v : Z) (k : kernel) : kernel :=
  mk_kernel (buffer_table k) (buffer_head k) (buffer_dirty_head k)
    (buffer_hash_table k) (page_table k) (page_head k) (page_hash_table k)
    (kstat k) (frames k) (blk_devices k) (io k) v.

(** ** [struct inode] and [struct fd], as far as the caches read them *)

(** [bmap] is the block mapping of the file system, which lies outside the
    caches: it is carried by the inode as a function of the file offset and
    of the mode ([true] is [FOR_WRITING]). *)
Record inode_t : Type := mk_inode {
  inode : Z;
  dev : Z;
  i_size : Z;
  s_blocksize : Z;
  bmap : Z -> bool -> Z;
  i_dirty : Z
}.

Definition set_i_size (v : Z) (i : inode_t) : inode_t :=
  mk_inode (inode i) (dev i) v (s_blocksize i) (bmap i) (i_dirty i).
Definition set_i_dirty (v : Z) (i : inode_t) : inode_t :=
  mk_inode (inode i) (dev i) (i_size i) (s_blocksize i) (bmap i) v.

Record fd_t : Type := mk_fd { fd_flags : Z; fd_offset : Z }.

Definition set_fd_offset (v : Z) (f : fd_t) : fd_t := mk_fd (fd_flags f) v.

(** Modelled from the spec: [O_APPEND] comes from [fcntl.h], which is not
    among the sources; any single bit serves. *)
Definition O_APPEND : Z := 1024.

(** ** The page cache lists of [mm/page.c] *)
Module Page.

Definition NR_PAGES (k : kernel) : Z := Z.of_nat (length (page_table k)).
Definition NR_PAGE_HASH (k : kernel) : Z :=
  Z.of_nat (length (page_hash_table k)).
Definition PAGE_HASH (k : kernel) (ino off : Z) : nat :=
  Z.to_nat (Z.lxor ino off mod NR_PAGE_HASH k).

(** [page_table[n]], and an update of it in place. *)
Definition pg (k : kernel) (n : nat) : Pg.t := page_table k !!! n.
Definition upd (n : nat) (f : Pg.t -> Pg.t) (k : kernel) : kernel :=
  set_page_table (alter f n (page_table k)) k.

(** Access through a pointer.  Dereferencing [NULL] is undefined in C;
    here a read yields the zero entry and a write is dropped. *)
Definition rd (k : kernel) (p : ptr) : Pg.t :=
  match p with Some n => pg k n | None => Pg.zero end.
Definition wr (p : ptr) (f : Pg.t -> Pg.t) (k : kernel) : kernel :=
  match p with Some n => upd n f k | None => k end.

Definition bucket (k : kernel) (i : nat) : ptr := page_hash_table k !!! i.
Definition set_bucket (i : nat) (v : ptr) (k : kernel) : kernel :=
  set_page_hash_table (<[i := v]> (page_hash_table k)) k.

(** The variable [struct page **h]: it points at a bucket of the hash
    table or at the [next_hash] field of an entry. *)
Inductive hloc : Type := at_bucket (i : nat) | at_next (n : nat).

Definition deref (k : kernel) (h : hloc) : ptr :=
  match h with
  | at_bucket i => bucket k i
  | at_next n => Pg.next_hash (pg k n)
  end.
Definition assign (h : hloc) (v : ptr) (k : kernel) : kernel :=
  match h with
  | at_bucket i => set_bucket i v k
  | at_next n => upd n (Pg.set_next_hash v) k
  end.
Definition is_bucket (h : hloc) : bool :=
  match h with at_bucket _ => true | at_next _ => false end.

Definition add_cached (d : Z) (k : kernel) : kernel :=
  set_kstat (kstat_add_cached d (kstat k)) k.
Definition add_free_pages (d : Z) (k : kernel) : kernel :=
  set_kstat (kstat_add_free_pages d (kstat k)) k.

Definition insert_to_hash (n : nat) (k : kernel) : kernel :=
  let i := PAGE_HASH k (Pg.inode (pg k n)) (Pg.offset (pg k n)) in
  let k :=
    match bucket k i with
    | None =>
        let k := set_bucket i (Some n) k in
        let k := wr (bucket k i) (Pg.set_next_hash None) k in
        wr (bucket k i) (Pg.set_prev_hash None) k
    | Some _ =>
        let k := upd n (Pg.set_prev_hash None) k in
        let k := upd n (Pg.set_next_hash (bucket k i)) k in
        let k := wr (bucket k i) (Pg.set_prev_hash (Some n)) k in
        set_bucket i (Some n) k
    end in
  add_cached (PAGE_SIZE / 1024) k.

(** The body of the test [*h == pg] in [remove_from_hash]; every [*h] is
    read again, as the statements do. *)
Definition unlink (h : hloc) (k : kernel) : kernel :=
  let k :=
    if is_null (Pg.next_hash (rd k (deref k h))) then k
    else wr (Pg.next_hash (rd k (deref k h)))
            (Pg.set_prev_hash (Pg.prev_hash (rd k (deref k h)))) k in
  let k :=
    if is_null (Pg.prev_hash (rd k (deref k h))) then k
    else wr (Pg.prev_hash (rd k (deref k h)))
            (Pg.set_next_hash (Pg.next_hash (rd k (deref k h)))) k in
  let k :=
    if is_bucket h then assign h (Pg.next_hash (rd k (deref k h))) k
    else k in
  add_cached (- (PAGE_SIZE / 1024)) k.

Fixpoint remove_loop (fuel : nat) (n : nat) (h : hloc) (k : kernel)
  : option kernel :=
  match fuel with
  | O => None
  | S fuel =>
      match deref k h with
      | None => Some k
      | Some m =>
          if Nat.eqb m n then Some (unlink h k)
          else remove_loop fuel n (at_next m) k
      end
  end.

(** A walk along a chain that lasts longer than the table has entries
    has met an entry twice and goes on for ever. *)
Definition chain_fuel (k : kernel) : nat := length (page_table k) + 2.

Definition remove_from_hash (n : nat) (k : kernel) : option kernel :=
  if Pg.inode (pg k n) =? 0 then Some k
  else
    let i := PAGE_HASH k (Pg.inode (pg k n)) (Pg.offset (pg k n)) in
    remove_loop (chain_fuel k) n (at_bucket i) k.

Definition insert_on_free_list (n : nat) (k : kernel) : kernel :=
  let k :=
    match page_head k with
    | None =>
        let k := upd n (Pg.set_next_free (Some n)) k in
        let k := upd n (Pg.set_prev_free (Some n)) k in
        set_page_head (Some n) k
    | Some _ =>
        let k := upd n (Pg.set_next_free (page_head k)) k in
        let k := upd n (Pg.set_prev_free
                          (Pg.prev_free (rd k (page_head k)))) k in
        let k := wr (Pg.prev_free (rd k (page_head k)))
                    (Pg.set_next_free (Some n)) k in
        wr (page_head k) (Pg.set_prev_free (Some n)) k
    end in
  add_free_pages 1 k.

Definition remove_from_free_list (n : nat) (k : kernel) : kernel :=
  if free_pages (kstat k) =? 0 then k
  else
    let k := wr (Pg.prev_free (pg k n))
                (Pg.set_next_free (Pg.next_free (pg k n))) k in
    let k := wr (Pg.next_free (pg k n))
                (Pg.set_prev_free (Pg.prev_free (pg k n))) k in
    let k := add_free_pages (-1) k in
    let k :=
      if ptr_eqb (Some n) (page_head k)
      then set_page_head (Pg.next_free (pg k n)) k else k in
    if free_pages (kstat k) =? 0 then set_page_head None k else k.

(** [page_lock]: a task that finds the page locked sleeps and tests
    again; alone, it does so for ever. *)
Definition page_lock (n : nat) (k : kernel) : option kernel :=
  if tst (Pg.flags (pg k n)) PAGE_LOCKED then None
  else Some (upd n (fun x => Pg.set_flags (bis (Pg.flags x) PAGE_LOCKED) x) k).

Definition page_unlock (n : nat) (k : kernel) : kernel :=
  upd n (fun x => Pg.set_flags (bic (Pg.flags x) PAGE_LOCKED) x) k.

(** [get_free_page].  The sleep in it returns with the state as it was
    (no other task freed a page), so the second test of [free_pages]
    fails like the first and the function answers [NULL]. *)
Definition get_free_page (k : kernel) : option (ptr * kernel) :=
  if free_pages (kstat k) =? 0 then Some (None, k)
  else
    match page_head k with
    | None => None            (* [pg] is [NULL]: the kernel faults *)
    | Some n =>
        let k := remove_from_free_list n k in
        k ← remove_from_hash n k;
        let k := upd n (Pg.set_count 1) k in
        let k := upd n (Pg.set_key 0 0 0) k in
        Some (Some n, k)
    end.

Fixpoint search_loop (fuel : nat) (i : inode_t) (offset : Z) (p : ptr)
    (k : kernel) : option (ptr * kernel) :=
  match fuel with
  | O => None
  | S fuel =>
      match p with
      | None => Some (None, k)
      | Some n =>
          if (Pg.inode (pg k n) =? inode i) && (Pg.offset (pg k n) =? offset)
             && (Pg.dev (pg k n) =? dev i)
          then
            let k := if Pg.count (pg k n) =? 0
                     then remove_from_free_list n k else k in
            let k := upd n (fun x => Pg.set_count (Pg.count x + 1) x) k in
            Some (Some n, k)
          else search_loop fuel i offset (Pg.next_hash (pg k n)) k
      end
  end.

Definition search_page_hash (i : inode_t) (offset : Z) (k : kernel)
  : option (ptr * kernel) :=
  search_loop (chain_fuel k) i offset
              (bucket k (PAGE_HASH k (inode i) offset)) k.

Definition is_valid_page (k : kernel) (page : Z) : bool :=
  (0 <=? page) && (page <? NR_PAGES k).

(** [release_page]; [PANIC] halts the kernel, so the call never
    returns. *)
Definition release_page (page : Z) (k : kernel) : option kernel :=
  if negb (is_valid_page k page) then None
  else
    let n := Z.to_nat page in
    if Pg.count (pg k n) =? 0 then Some k
    else
      let k := upd n (fun x => Pg.set_count (Pg.count x - 1) x) k in
      if 0 <? Pg.count (pg k n) then Some k
      else
        let k := insert_on_free_list n k in
        let k := if Pg.inode (pg k n) =? 0
                 then set_page_head (Some n) k else k in
        Some k.

(** [page_init].  Whether a frame lies in the kernel image or outside the
    firmware memory map is decided by code outside the caches: [reserved]
    stands for the two tests. *)
Fixpoint page_init_loop (reserved : nat -> bool) (todo : nat) (n : nat)
    (k : kernel) : kernel :=
  match todo with
  | O => k
  | S todo =>
      let k := upd n (Pg.set_page (Z.of_nat n)) k in
      let k :=
        if reserved n then upd n (Pg.set_flags PAGE_RESERVED) k
        else
          let k := upd n (Pg.set_data (Some n)) k in
          insert_on_free_list n k in
      page_init_loop reserved todo (S n) k
  end.

Definition page_init (reserved : nat -> bool) (pages : nat) (k : kernel)
  : kernel :=
  let k := set_page_table (replicate (length (page_table k)) Pg.zero) k in
  let k := set_page_hash_table
             (replicate (length (page_hash_table k)) None) k in
  page_init_loop reserved pages 0%nat k.

End Page.

(** ** The frame allocator *)

(** Modelled from the spec: [kmalloc] and [kfree] are not among the
    sources.  The allocator contract says that [alloc_frame] answers the
    address of a frame or null, that [free_frame] gives it back, and that
    every frame corresponds to exactly one entry of the page table;
    [file_read] relies on it when it takes [&page_table[V2P(addr) >>
    PAGE_SHIFT]] for the page of a fresh frame.  A frame address is
    represented by the frame number, [kmalloc] takes the entry from
    [get_free_page] and [kfree] returns it with [release_page]. *)
Definition kmalloc (k : kernel) : option (ptr * kernel) :=
  '(p, k) ← Page.get_free_page k;
  match p with
  | None => Some (None, k)
  | Some n => Some (Some (Z.to_nat (Pg.page (Page.pg k n))), k)
  end.

Definition kfree (addr : nat) (k : kernel) : option kernel :=
  Page.release_page (Z.of_nat addr) (set_io (io k ++ [kfree_call addr]) k).

(** ** The buffer cache of [fs/buffer.c] *)
Module Buffer.

Definition NR_BUFFERS (k : kernel) : nat := length (buffer_table k).
Definition NR_BUF_HASH (k : kernel) : Z :=
  Z.of_nat (length (buffer_hash_table k)).
Definition BUFFER_HASH (k : kernel) (dev block : Z) : nat :=
  Z.to_nat (Z.lxor dev block mod NR_BUF_HASH k).

(** [buffer_table[n]], and an update of it in place. *)
Definition buf (k : kernel) (n : nat) : Buf.t := buffer_table k !!! n.
Definition upd (n : nat) (f : Buf.t -> Buf.t) (k : kernel) : kernel :=
  set_buffer_table (alter f n (buffer_table k)) k.

(** Access through a pointer, with the convention of [Page.rd] and
    [Page.wr] for [NULL]. *)
Definition rd (k : kernel) (p : ptr) : Buf.t :=
  match p with Some n => buf k n | None => Buf.zero end.
Definition wr (p : ptr) (f : Buf.t -> Buf.t) (k : kernel) : kernel :=
  match p with Some n => upd n f k | None => k end.

Definition bucket (k : kernel) (i : nat) : ptr :=
  buffer_hash_table k !!! i.
Definition set_bucket (i : nat) (v : ptr) (k : kernel) : kernel :=
  set_buffer_hash_table (<[i := v]> (buffer_hash_table k)) k.

(** The variable [struct buffer **h]. *)
Inductive hloc : Type := at_bucket (i : nat) | at_next (n : nat).

Definition deref (k : kernel) (h : hloc) : ptr :=
  match h with
  | at_bucket i => bucket k i
  | at_next n => Buf.next_hash (buf k n)
  end.
Definition assign (h : hloc) (v : ptr) (k : kernel) : kernel :=
  match h with
  | at_bucket i => set_bucket i v k
  | at_next n => upd n (Buf.set_next_hash v) k
  end.
Definition is_bucket (h : hloc) : bool :=
  match h with at_bucket _ => true | at_next _ => false end.

Definition flag (k : kernel) (n : nat) (m : Z) : bool :=
  tst (Buf.flags (buf k n)) m.
Definition set_flag (n : nat) (m : Z) (k : kernel) : kernel :=
  upd n (fun x => Buf.set_flags (bis (Buf.flags x) m) x) k.
Definition clear_flag (n : nat) (m : Z) (k : kernel) : kernel :=
  upd n (fun x => Buf.set_flags (bic (Buf.flags x) m) x) k.

Definition add_buffers (d : Z) (k : kernel) : kernel :=
  set_kstat (kstat_add_buffers d (kstat k)) k.
Definition add_dirty (d : Z) (k : kernel) : kernel :=
  set_kstat (kstat_add_dirty d (kstat k)) k.

Definition insert_to_hash (n : nat) (k : kernel) : kernel :=
  let i := BUFFER_HASH k (Buf.dev (buf k n)) (Buf.block (buf k n)) in
  match bucket k i with
  | None =>
      let k := set_bucket i (Some n) k in
      let k := wr (bucket k i) (Buf.set_next_hash None) k in
      wr (bucket k i) (Buf.set_prev_hash None) k
  | Some _ =>
      let k := upd n (Buf.set_prev_hash None) k in
      let k := upd n (Buf.set_next_hash (bucket k i)) k in
      let k := wr (bucket k i) (Buf.set_prev_hash (Some n)) k in
      set_bucket i (Some n) k
  end.

(** The body of the test [*h == buf] in [remove_from_hash]. *)
Definition unlink (h : hloc) (k : kernel) : kernel :=
  let k :=
    if is_null (Buf.next_hash (rd k (deref k h))) then k
    else wr (Buf.next_hash (rd k (deref k h)))
            (Buf.set_prev_hash (Buf.prev_hash (rd k (deref k h)))) k in
  let k :=
    if is_null (Buf.prev_hash (rd k (deref k h))) then k
    else wr (Buf.prev_hash (rd k (deref k h)))
            (Buf.set_next_hash (Buf.next_hash (rd k (deref k h)))) k in
  if is_bucket h then assign h (Buf.next_hash (rd k (deref k h))) k
  else k.

Fixpoint remove_loop (fuel : nat) (n : nat) (h : hloc) (k : kernel)
  : option kernel :=
  match fuel with
  | O => None
  | S fuel =>
      match deref k h with
      | None => Some k
      | Some m =>
          if Nat.eqb m n then Some (unlink h k)
          else remove_loop fuel n (at_next m) k
      end
  end.

(** As for the page cache: a longer walk never ends. *)
Definition chain_fuel (k : kernel) : nat := length (buffer_table k) + 2.

Definition remove_from_hash (n : nat) (k : kernel) : option kernel :=
  let i := BUFFER_HASH k (Buf.dev (buf k n)) (Buf.block (buf k n)) in
  remove_loop (chain_fuel k) n (at_bucket i) k.

Definition insert_on_dirty_list (n : nat) (k : kernel) : kernel :=
  if negb (is_null (Buf.prev_dirty (buf k n)))
     || negb (is_null (Buf.next_dirty (buf k n)))
  then k
  else
    let k :=
      match buffer_dirty_head k with
      | None => k
      | Some _ =>
          let k := upd n (Buf.set_next_dirty (buffer_dirty_head k)) k in
          wr (buffer_dirty_head k) (Buf.set_prev_dirty (Some n)) k
      end in
    let k := set_buffer_dirty_head (Some n) k in
    add_dirty (PAGE_SIZE / 1024) k.

Definition remove_from_dirty_list (n : nat) (k : kernel) : kernel :=
  let k :=
    if is_null (Buf.next_dirty (buf k n)) then k
    else wr (Buf.next_dirty (buf k n))
            (Buf.set_prev_dirty (Buf.prev_dirty (buf k n))) k in
  let k :=
    if is_null (Buf.prev_dirty (buf k n)) then k
    else wr (Buf.prev_dirty (buf k n))
            (Buf.set_next_dirty (Buf.next_dirty (buf k n))) k in
  let k :=
    if ptr_eqb (Some n) (buffer_dirty_head k)
    then set_buffer_dirty_head (Buf.next_dirty (buf k n)) k else k in
  let k := upd n (Buf.set_next_dirty None) k in
  let k := upd n (Buf.set_prev_dirty None) k in
  let k := clear_flag n BUFFER_DIRTY k in
  add_dirty (- (PAGE_SIZE / 1024)) k.

Definition insert_on_free_list (n : nat) (k : kernel) : kernel :=
  match buffer_head k with
  | None =>
      let k := upd n (Buf.set_next_free (Some n)) k in
      let k := upd n (Buf.set_prev_free (Some n)) k in
      set_buffer_head (Some n) k
  | Some _ =>
      let k := upd n (Buf.set_next_free (buffer_head k)) k in
      let k := upd n (Buf.set_prev_free
                        (Buf.prev_free (rd k (buffer_head k)))) k in
      let k := wr (Buf.prev_free (rd k (buffer_head k)))
                  (Buf.set_next_free (Some n)) k in
      let k := wr (buffer_head k) (Buf.set_prev_free (Some n)) k in
      if negb (flag k n BUFFER_VALID) then set_buffer_head (Some n) k
      else k
  end.

Definition remove_from_free_list (n : nat) (k : kernel) : kernel :=
  match buffer_head k with
  | None => k
  | Some _ =>
      let k := wr (Buf.prev_free (buf k n))
                  (Buf.set_next_free (Buf.next_free (buf k n))) k in
      let k := wr (Buf.next_free (buf k n))
                  (Buf.set_prev_free (Buf.prev_free (buf k n))) k in
      let k :=
        if ptr_eqb (Some n) (buffer_head k)
        then set_buffer_head (Buf.next_free (buf k n)) k else k in
      if ptr_eqb (buffer_head k) (Buf.next_free (rd k (buffer_head k)))
      then set_buffer_head None k else k
  end.

(** [buffer_wait]: a task that finds the buffer locked sleeps and tests
    again; alone, it does so for ever. *)
Definition buffer_wait (n : nat) (k : kernel) : option kernel :=
  if flag k n BUFFER_LOCKED then None
  else Some (set_flag n BUFFER_LOCKED k).

Definition get_free_buffer (k : kernel) : option (ptr * kernel) :=
  match buffer_head k with
  | None => Some (None, k)
  | Some n =>
      if flag k n BUFFER_LOCKED then None
      else
        let k := remove_from_free_list n k in
        let k := set_flag n BUFFER_LOCKED k in
        Some (Some n, k)
  end.

(** The [size] bytes behind [buf->data]. *)
Definition contents (k : kernel) (p : ptr) (size : Z) : option frame :=
  a ← p; take (Z.to_nat size) <$> frames k !! a.

Definition log (e : event) (k : kernel) : kernel :=
  set_io (io k ++ [e]) k.

Definition sync_one_buffer (n : nat) (k : kernel) : kernel :=
  match blk_devices k (Buf.dev (buf k n)) with
  | None => k
  | Some d =>
      match fsop d ≫= write_block with
      | Some write =>
          let b := buf k n in
          let bytes := contents k (Buf.data b) (Buf.size b) in
          let errno := write (io k) (Buf.dev b) (Buf.block b) bytes
                             (Buf.size b) in
          let k := log (write_block_call (Buf.dev b) (Buf.block b) bytes
                          (Buf.size b) errno) k in
          if errno <? 0 then k
          else remove_from_dirty_list n k
      | None => k
      end
  end.

Fixpoint search_loop (fuel : nat) (dev block size : Z) (p : ptr)
    (k : kernel) : option ptr :=
  match fuel with
  | O => None
  | S fuel =>
      match p with
      | None => Some None
      | Some n =>
          if (Buf.dev (buf k n) =? dev) && (Buf.block (buf k n) =? block)
             && (Buf.size (buf k n) =? size)
          then Some (Some n)
          else search_loop fuel dev block size (Buf.next_hash (buf k n)) k
      end
  end.

Definition search_buffer_hash (dev block size : Z) (k : kernel)
  : option ptr :=
  search_loop (chain_fuel k) dev block size
              (bucket k (BUFFER_HASH k dev block)) k.

Definition brelse (n : nat) (k : kernel) : kernel :=
  let k := if flag k n BUFFER_DIRTY then insert_on_dirty_list n k else k in
  let k := insert_on_free_list n k in
  clear_flag n BUFFER_LOCKED k.

(** [getblk].  Each [continue] of its loop follows a sleep that changed
    nothing, so the iteration repeats for ever: the loop body is run
    once. *)
Definition getblk (dev block size : Z) (k : kernel)
  : option (ptr * kernel) :=
  found ← search_buffer_hash dev block size k;
  match found with
  | Some n =>
      if flag k n BUFFER_LOCKED then None
      else
        let k := set_flag n BUFFER_LOCKED k in
        let k := remove_from_free_list n k in
        Some (Some n, k)
  | None =>
      '(free, k) ← get_free_buffer k;
      match free with
      | None => None
      | Some n =>
          r ← (if flag k n BUFFER_DIRTY then Some (true, sync_one_buffer n k)
               else if is_null (Buf.data (buf k n)) then
                 '(a, k) ← kmalloc k;
                 match a with
                 | None => Some (false, brelse n k)
                 | Some _ =>
                     let k := upd n (Buf.set_data a) k in
                     Some (true, add_buffers (PAGE_SIZE / 1024) k)
                 end
               else Some (true, k));
          let '(ok, k) := r in
          if negb ok then Some (None, k)
          else
            k ← remove_from_hash n k;
            let k := upd n (Buf.set_key dev block size) k in
            let k := insert_to_hash n k in
            let k := clear_flag n BUFFER_VALID k in
            Some (Some n, k)
      end
  end.

(** [memcpy_b(dst + off, src, n)] on a frame. *)
Definition memcpy_b (dst : frame) (off : nat) (src : list Byte.byte)
    (n : nat) : frame :=
  take off dst ++ take n src ++ drop (off + n) dst.

(** The same through a frame pointer. *)
Definition store (p : ptr) (off : nat) (src : list Byte.byte) (n : nat)
    (k : kernel) : kernel :=
  match p with
  | Some a => set_frames (alter (fun f => memcpy_b f off src n) a (frames k)) k
  | None => k
  end.

Definition bread (dev block size : Z) (k : kernel)
  : option (ptr * kernel) :=
  match blk_devices k dev with
  | None => Some (None, k)
  | Some d =>
      '(b, k) ← getblk dev block size k;
      match b with
      | None => Some (None, k)
      | Some n =>
          let k :=
            if negb (flag k n BUFFER_VALID) then
              match fsop d ≫= read_block with
              | Some read =>
                  let '(ret, bytes) := read (io k) dev block size in
                  let k := log (read_block_call dev block size ret) k in
                  let k := store (Buf.data (buf k n)) 0 bytes
                                 (Z.to_nat size) k in
                  if 0 <=? ret then set_flag n BUFFER_VALID k else k
              | None => k
              end
            else k in
          if flag k n BUFFER_VALID then Some (Some n, k)
          else Some (None, brelse n k)
      end
  end.

Definition bwrite (n : nat) (k : kernel) : kernel :=
  let k := set_flag n (Z.lor BUFFER_DIRTY BUFFER_VALID) k in
  brelse n k.

(** The loop of [sync_buffers].  The number of rounds is not bounded by
    the size of the table when the dirty list is malformed, so the fuel
    is an argument. *)
Fixpoint sync_loop (fuel : nat) (dev : Z) (b : ptr) (k : kernel)
  : option kernel :=
  match fuel with
  | O => None
  | S fuel =>
      match b with
      | None => Some k
      | Some n =>
          let next := Buf.next_dirty (buf k n) in
          k ← (if (dev =? 0) || (Buf.dev (buf k n) =? dev) then
                 k ← buffer_wait n k;
                 let k := sync_one_buffer n k in
                 Some (clear_flag n BUFFER_LOCKED k)
               else Some k);
          sync_loop fuel dev next k
      end
  end.

Definition sync_buffers (fuel : nat) (dev : Z) (k : kernel)
  : option kernel :=
  sync_loop fuel dev (buffer_dirty_head k) k.

Fixpoint invalidate_loop (todo n : nat) (dev : Z) (k : kernel)
  : option kernel :=
  match todo with
  | O => Some k
  | S todo =>
      k ← (if negb (flag k n BUFFER_LOCKED) && (Buf.dev (buf k n) =? dev)
           then
             k ← buffer_wait n k;
             k ← remove_from_hash n k;
             Some (clear_flag n (Z.lor BUFFER_VALID BUFFER_LOCKED) k)
           else Some k);
      invalidate_loop todo (S n) dev k
  end.

Definition invalidate_buffers (dev : Z) (k : kernel) : option kernel :=
  invalidate_loop (NR_BUFFERS k) 0%nat dev k.

(** The loop of [reclaim_buffers], with its locals [reclaimed] and
    [first].  An empty free list makes it sleep and try again, for
    ever. *)
Fixpoint reclaim_loop (fuel : nat) (reclaimed : Z) (first : ptr)
    (k : kernel) : option (Z * kernel) :=
  match fuel with
  | O => None
  | S fuel =>
      '(b, k) ← get_free_buffer k;
      match b with
      | None => None
      | Some n =>
          let k := if flag k n BUFFER_DIRTY then sync_one_buffer n k
                   else k in
          let k := set_flag n BUFFER_VALID k in
          if negb (is_null first) && ptr_eqb first (Some n)
          then Some (reclaimed, brelse n k)
          else
            let first := if is_null first then Some n else first in
            match Buf.data (buf k n) with
            | Some a =>
                k ← kfree a k;
                let k := upd n (Buf.set_data None) k in
                k ← remove_from_hash n k;
                let k := add_buffers (- (PAGE_SIZE / 1024)) k in
                let reclaimed := reclaimed + 1 in
                if reclaimed =? NR_BUF_RECLAIM k
                then Some (reclaimed, brelse n k)
                else reclaim_loop fuel reclaimed first (brelse n k)
            | None => reclaim_loop fuel reclaimed first (brelse n k)
            end
      end
  end.

Definition reclaim_buffers (fuel : nat) (k : kernel)
  : option (Z * kernel) :=
  reclaim_loop fuel 0 None k.

Fixpoint buffer_init_loop (todo n : nat) (k : kernel) : kernel :=
  match todo with
  | O => k
  | S todo => buffer_init_loop todo (S n) (insert_on_free_list n k)
  end.

Definition buffer_init (k : kernel) : kernel :=
  let k := set_buffer_table (replicate (NR_BUFFERS k) Buf.zero) k in
  let k := set_buffer_hash_table
             (replicate (length (buffer_hash_table k)) None) k in
  buffer_init_loop (NR_BUFFERS k) 0%nat k.

End Buffer.

(** ** The rest of [mm/page.c]: page fill, write-through and [file_read] *)

(** Modelled from the spec: the protection and mapping flags and the error
    numbers come from headers that are not among the sources. *)
Definition PROT_WRITE : Z := 2.
Definition MAP_SHARED : Z := 1.
Definition ENOMEM : Z := 12.
Definition EIO : Z := 5.

(** The outcome of a file operation: its return value, the inode and the
    descriptor as it leaves them, and the state. *)
Record outcome : Type := mk_outcome {
  ret : Z;
  o_inode : inode_t;
  o_fd : fd_t;
  o_state : kernel
}.

Definition update_page_cache (i : inode_t) (offset : Z)
    (buf : list Byte.byte) (count : Z) (k : kernel) : option kernel :=
  let poffset := offset mod PAGE_SIZE in
  let offset := Z.land offset PAGE_MASK in
  let bytes := PAGE_SIZE - poffset in
  if count =? 0 then Some k
  else
    let bytes := MIN bytes count in
    '(pg, k) ← Page.search_page_hash i offset k;
    match pg with
    | None => Some k
    | Some n =>
        k ← Page.page_lock n k;
        let k := Buffer.store (Pg.data (Page.pg k n)) (Z.to_nat poffset) buf
                              (Z.to_nat bytes) k in
        let k := Page.page_unlock n k in
        Page.release_page (Pg.page (Page.pg k n)) k
    end.

(** The loop of [bread_page]; [None] in the result stands for [return 1].
    Every round advances by [blksize], so more than [PAGE_SIZE] rounds
    mean that the loop never ends. *)
Fixpoint bread_page_loop (fuel : nat) (n : nat) (i : inode_t) (offset : Z)
    (size_read : Z) (k : kernel) : option (option unit * kernel) :=
  match fuel with
  | O => None
  | S fuel =>
      if negb (size_read <? PAGE_SIZE) then Some (Some tt, k)
      else
        let blksize := s_blocksize i in
        let block := bmap i (offset + size_read) false in
        if block <? 0 then Some (None, k)
        else
          r ← (if negb (block =? 0) then
                 '(b, k) ← Buffer.bread (dev i) block blksize k;
                 match b with
                 | None => Some (None, k)
                 | Some m =>
                     let src := default [] (a ← Buf.data (Buffer.buf k m);
                                            frames k !! a) in
                     let k := Buffer.store (Pg.data (Page.pg k n))
                                (Z.to_nat size_read) src
                                (Z.to_nat blksize) k in
                     Some (Some tt, Buffer.brelse m k)
                 end
               else
                 Some (Some tt,
                       Buffer.store (Pg.data (Page.pg k n))
                         (Z.to_nat size_read)
                         (replicate (Z.to_nat blksize) Byte.x00)
                         (Z.to_nat blksize) k));
          let '(ok, k) := r in
          match ok with
          | None => Some (None, k)
          | Some _ => bread_page_loop fuel n i offset (size_read + blksize) k
          end
  end.

Definition bread_page (n : nat) (i : inode_t) (offset : Z) (prot flags : Z)
    (k : kernel) : option (Z * kernel) :=
  '(ok, k) ← bread_page_loop (S (Z.to_nat PAGE_SIZE)) n i offset 0 k;
  match ok with
  | None => Some (1, k)
  | Some _ =>
      let k :=
        if negb (tst prot PROT_WRITE) || tst flags MAP_SHARED then
          let k := Page.upd n (Pg.set_key (inode i) offset (dev i)) k in
          Page.insert_to_hash n k
        else k in
      Some (0, k)
  end.

(** The loop of [file_read], with the bytes copied to the user buffer so
    far.  [inode_lock] and [inode_unlock] belong to the inode layer and
    leave the caches alone.  Every round copies at least one byte, so
    [count] bounds the number of rounds. *)
Fixpoint file_read_loop (fuel : nat) (i : inode_t) (fd : fd_t)
    (out : list Byte.byte) (count total_read : Z) (k : kernel)
    : option (outcome * list Byte.byte) :=
  match fuel with
  | O => None
  | S fuel =>
      let count := if i_size i <? fd_offset fd + count
                   then i_size i - fd_offset fd else count in
      if count =? 0 then Some (mk_outcome total_read i fd k, out)
      else
        let poffset := fd_offset fd mod PAGE_SIZE in
        '(pg, k) ← Page.search_page_hash i
                     (Z.land (fd_offset fd) PAGE_MASK) k;
        r ← match pg with
            | None =>
                '(addr, k) ← kmalloc k;
                match addr with
                | None => Some (inl (- ENOMEM), k)
                | Some a =>
                    '(err, k) ← bread_page a i
                                  (Z.land (fd_offset fd) PAGE_MASK)
                                  0 MAP_SHARED k;
                    if negb (err =? 0) then
                      k ← kfree a k; Some (inl (- EIO), k)
                    else Some (inr (a, a), k)
                end
            | Some n =>
                a ← Pg.data (Page.pg k n); Some (inr (n, a), k)
            end;
        match r with
        | (inl errno, k) => Some (mk_outcome errno i fd k, out)
        | (inr (n, addr), k) =>
            k ← Page.page_lock n k;
            let bytes := MIN (PAGE_SIZE - poffset) count in
            let src := default [] (a ← Pg.data (Page.pg k n);
                                   frames k !! a) in
            let out := out ++ take (Z.to_nat bytes)
                                   (drop (Z.to_nat poffset) src) in
            let total_read := total_read + bytes in
            let count := count - bytes in
            let fd := set_fd_offset (fd_offset fd + bytes) fd in
            k ← kfree addr k;
            let k := Page.page_unlock n k in
            file_read_loop fuel i fd out count total_read k
        end
  end.

Definition file_read (i : inode_t) (fd : fd_t) (count : Z) (k : kernel)
    : option (outcome * list Byte.byte) :=
  let fd := if i_size i <? fd_offset fd then set_fd_offset (i_size i) fd
            else fd in
  file_read_loop (S (Z.to_nat count)) i fd [] count 0 k.

(** ** [minix_file_write] of [fs/minix/file.c] *)

(** The loop of [minix_file_write].  The result carries the error code of
    an early [return], if any, and [total_written].  Every round writes at
    least one byte. *)
Fixpoint minix_file_write_loop (fuel : nat) (i : inode_t) (fd : fd_t)
    (buffer : list Byte.byte) (count total_written : Z) (k : kernel)
    : option (option Z * Z * fd_t * kernel) :=
  match fuel with
  | O => None
  | S fuel =>
      if negb (total_written <? count) then Some (None, total_written, fd, k)
      else
        let blksize := s_blocksize i in
        let boffset := fd_offset fd mod blksize in
        let block := bmap i (fd_offset fd) true in
        if block <? 0 then Some (Some block, total_written, fd, k)
        else
          let bytes := MIN (blksize - boffset) (count - total_written) in
          '(b, k) ← Buffer.bread (dev i) block blksize k;
          match b with
          | None => Some (Some (- EIO), total_written, fd, k)
          | Some m =>
              let src := drop (Z.to_nat total_written) buffer in
              let k := Buffer.store (Buf.data (Buffer.buf k m))
                         (Z.to_nat boffset) src (Z.to_nat bytes) k in
              k ← update_page_cache i (fd_offset fd) src bytes k;
              let k := Buffer.bwrite m k in
              minix_file_write_loop fuel i
                (set_fd_offset (fd_offset fd + bytes) fd) buffer count
                (total_written + bytes) k
          end
  end.

(** [minix_file_write].  The time stamps of the inode are not modelled. *)
Definition minix_file_write (i : inode_t) (fd : fd_t)
    (buffer : list Byte.byte) (count : Z) (k : kernel) : option outcome :=
  let fd := if tst (fd_flags fd) O_APPEND then set_fd_offset (i_size i) fd
            else fd in
  '(err, total_written, fd, k) ←
    minix_file_write_loop (S (Z.to_nat count)) i fd buffer count 0 k;
  match err with
  | Some errno => Some (mk_outcome errno i fd k)
  | None =>
      let i := if i_size i <? fd_offset fd
               then set_i_size (fd_offset fd) i else i in
      let i := set_i_dirty 1 i in
      Some (mk_outcome total_written i fd k)
  end.

(** ** Booted and freshly initialised states *)

(** The state at boot: tables of the given sizes, every global pointer
    [NULL], zeroed memory. *)
Definition boot (nbuf nhash npages nphash : nat)
    (devs : Z -> option device) (reclaim : Z) : kernel :=
  mk_kernel (replicate nbuf Buf.zero) None None (replicate nhash None)
            (replicate npages Pg.zero) None (replicate nphash None)
            (mk_kstat 0 0 0 0)
            (replicate npages (replicate (Z.to_nat PAGE_SIZE) Byte.x00))
            devs [] reclaim.

(** The state after [page_init] (no frame reserved) and [buffer_init]. *)
Definition fresh (nbuf nhash npages nphash : nat)
    (devs : Z -> option device) (reclaim : Z) : kernel :=
  Buffer.buffer_init
    (Page.page_init (fun _ => false) npages
       (boot nbuf nhash npages nphash devs reclaim)).

(** A well-behaved disk driver: reads answer a block of zero bytes, writes
    succeed. *)
Definition good_disk : device :=
  mk_device (Some (mk_fsop
    (Some (fun _ _ _ size => (size, replicate (Z.to_nat size) Byte.x00)))
    (Some (fun _ _ _ _ size => size)))).

(** A write-protected disk: reads succeed, writes answer [-EROFS]. *)
Definition readonly_disk : device :=
  mk_device (Some (mk_fsop
    (Some (fun _ _ _ size => (size, replicate (Z.to_nat size) Byte.x00)))
    (Some (fun _ _ _ _ _ => -30)))).

Definition one_disk (d : device) (dev : Z) : option device :=
  if dev =? 1 then Some d else None.

(** ** What an operation may modify

    A [mask] names the parts of the buffer cache that an operation is
    allowed to write: fields of the entries, bits of [flags] and globals.
    [same μ k k'] says that [k'] agrees with [k] everywhere outside the
    mask.  It is the frame condition used throughout the proofs. *)
Record mask : Type := mk_mask {
  m_key : bool; m_data : bool; m_flags : Z;
  m_hash : bool; m_free : bool; m_dirty : bool;
  m_head : bool; m_dhead : bool; m_buckets : bool;
  m_kstat : bool; m_io : bool; m_frames : bool; m_pages : bool
}.

Definition hide {A : Type} (b : bool) (d x : A) : A := if b then d else x.

Definition erase (μ : mask) (x : Buf.t) : Buf.t :=
  Buf.mk (hide (m_key μ) 0 (Buf.dev x)) (hide (m_key μ) 0 (Buf.block x))
         (hide (m_key μ) 0 (Buf.size x)) (hide (m_data μ) None (Buf.data x))
         (Z.lor (Buf.flags x) (m_flags μ))
         (hide (m_hash μ) None (Buf.prev_hash x))
         (hide (m_hash μ) None (Buf.next_hash x))
         (hide (m_free μ) None (Buf.prev_free x))
         (hide (m_free μ) None (Buf.next_free x))
         (hide (m_dirty μ) None (Buf.prev_dirty x))
         (hide (m_dirty μ) None (Buf.next_dirty x)).

Definition same (μ : mask) (k k' : kernel) : Prop :=
  length (buffer_table k') = length (buffer_table k)
  /\ length (buffer_hash_table k') = length (buffer_hash_table k)
  /\ (forall m, erase μ (Buffer.buf k' m) = erase μ (Buffer.buf k m))
  /\ hide (m_head μ) None (buffer_head k')
     = hide (m_head μ) None (buffer_head k)
  /\ hide (m_dhead μ) None (buffer_dirty_head k')
     = hide (m_dhead μ) None (buffer_dirty_head k)
  /\ hide (m_buckets μ) [] (buffer_hash_table k')
     = hide (m_buckets μ) [] (buffer_hash_table k)
  /\ hide (m_kstat μ) (mk_kstat 0 0 0 0) (kstat k')
     = hide (m_kstat μ) (mk_kstat 0 0 0 0) (kstat k)
  /\ hide (m_io μ) [] (io k') = hide (m_io μ) [] (io k)
  /\ hide (m_frames μ) [] (frames k') = hide (m_frames μ) [] (frames k)
  /\ hide (m_pages μ) ([], None, []) (page_table k', page_head k', page_hash_table k')
     = hide (m_pages μ) ([], None, []) (page_table k, page_head k, page_hash_table k)
  /\ blk_devices k' = blk_devices k
  /\ NR_BUF_RECLAIM k' = NR_BUF_RECLAIM k.

(** [mask_le μ ν]: whatever [μ] allows, [ν] allows. *)
Definition mask_le (μ ν : mask) : bool :=
  implb (m_key μ) (m_key ν) && implb (m_data μ) (m_data ν)
  && (Z.lor (m_flags μ) (m_flags ν) =? m_flags ν)
  && implb (m_hash μ) (m_hash ν) && implb (m_free μ) (m_free ν)
  && implb (m_dirty μ) (m_dirty ν) && implb (m_head μ) (m_head ν)
  && implb (m_dhead μ) (m_dhead ν) && implb (m_buckets μ) (m_buckets ν)
  && implb (m_kstat μ) (m_kstat ν) && implb (m_io μ) (m_io ν)
  && implb (m_frames μ) (m_frames ν) && implb (m_pages μ) (m_pages ν).

(** Nothing may change. *)
Definition m0 : mask :=
  mk_mask false false 0 false false false false false false false false
          false false.
(** The free list: its links and [buffer_head]. *)
Definition m_freelist : mask :=
  mk_mask false false 0 false true false true false false false false
          false false.
(** The dirty list: its links, [buffer_dirty_head], the [dirty] counter
    and the [DIRTY] bit. *)
Definition m_dirtylist : mask :=
  mk_mask false false BUFFER_DIRTY false false true false true false true
          false false false.
(** What [insert_on_dirty_list] writes: the same without the bit. *)
Definition m_dirtyins : mask :=
  mk_mask false false 0 false false true false true false true
          false false false.
(** The hash index: its links and the buckets. *)
Definition m_hashidx : mask :=
  mk_mask false false 0 true false false false false true false false
          false false.
(** The page cache and the allocator. *)
Definition m_alloc : mask :=
  mk_mask false false 0 false false false false false false true true
          false true.
(** The same without the log of driver calls. *)
Definition m_palloc : mask :=
  mk_mask false false 0 false false false false false false true false
          false true.
(** The bits [m] of [flags]. *)
Definition m_bits (m : Z) : mask :=
  mk_mask false false m false false false false false false false false
          false false.

(** The union of two masks. *)
Definition mask_or (μ ν : mask) : mask :=
  mk_mask (m_key μ || m_key ν) (m_data μ || m_data ν)
          (Z.lor (m_flags μ) (m_flags ν))
          (m_hash μ || m_hash ν) (m_free μ || m_free ν)
          (m_dirty μ || m_dirty ν) (m_head μ || m_head ν)
          (m_dhead μ || m_dhead ν) (m_buckets μ || m_buckets ν)
          (m_kstat μ || m_kstat ν) (m_io μ || m_io ν)
          (m_frames μ || m_frames ν) (m_pages μ || m_pages ν).

(** Masks of the compound operations. *)
Definition m_lock : mask := m_bits BUFFER_LOCKED.

Definition m_take : mask := mask_or m_freelist m_lock.

Definition m_writeback : mask :=
  mask_or m_dirtylist (mk_mask false false 0 false false false false false
                               false false true false false).

Definition m_release : mask := mask_or m_take m_dirtyins.

(** The state carried by the result of a function. *)
Class HasState (A : Type) : Type := st : A -> kernel.
#[global] Instance kernel_state : HasState kernel := fun k => k.
#[global] Instance pair_state (B : Type) : HasState (B * kernel) := snd.

(** The frame condition of a function that may not return. *)
Definition osame {A : Type} `{HasState A} (μ : mask) (k : kernel)
    (o : option A) : Prop :=
  forall a, o = Some a -> same μ k (st a).

(** ** Membership in the lists, by walking the links *)

(** [reach fuel next p n]: the walk from [p] along [next] meets [n] within
    [fuel] entries. *)
Fixpoint reach (fuel : nat) (next : nat -> ptr) (p : ptr) (n : nat) : bool :=
  match fuel with
  | O => false
  | S fuel =>
      match p with
      | None => false
      | Some m => Nat.eqb m n || reach fuel next (next m) n
      end
  end.

(** One turn of the circular free list visits at most [NR_BUFFERS]
    entries; the other lists end with [NULL]. *)
Definition on_free_list (k : kernel) (n : nat) : bool :=
  reach (Buffer.NR_BUFFERS k) (fun m => Buf.next_free (Buffer.buf k m))
        (buffer_head k) n.

Definition on_dirty_list (k : kernel) (n : nat) : bool :=
  reach (Buffer.NR_BUFFERS k) (fun m => Buf.next_dirty (Buffer.buf k m))
        (buffer_dirty_head k) n.

Definition in_bucket (k : kernel) (i n : nat) : bool :=
  reach (Buffer.NR_BUFFERS k) (fun m => Buf.next_hash (Buffer.buf k m))
        (Buffer.bucket k i) n.

(** The entry is the tail of the free list: [buffer_head->prev_free]. *)
Definition is_free_tail (k : kernel) (n : nat) : bool :=
  ptr_eqb (Buf.prev_free (Buffer.rd k (buffer_head k))) (Some n).

(** ** Runs of the buffer cache

    The calls a client of [fs/buffer.c] can make.  [brelse] and [bwrite]
    are only made on a buffer the caller holds, that is, one handed out
    locked by [bread]. *)
Inductive op : Type :=
| Bread (dev block size : Z)
| Brelse (n : nat)
| Bwrite (n : nat)
| Sync (fuel : nat) (dev : Z)
| Invalidate (dev : Z)
| Reclaim (fuel : nat).

Definition held (k : kernel) (n : nat) : bool :=
  (n <? Buffer.NR_BUFFERS k)%nat && Buffer.flag k n BUFFER_LOCKED.

Definition run (o : op) (k : kernel) : option kernel :=
  match o with
  | Bread dev block size => snd <$> Buffer.bread dev block size k
  | Brelse n => if held k n then Some (Buffer.brelse n k) else None
  | Bwrite n => if held k n then Some (Buffer.bwrite n k) else None
  | Sync fuel dev => Buffer.sync_buffers fuel dev k
  | Invalidate dev => Buffer.invalidate_buffers dev k
  | Reclaim fuel => snd <$> Buffer.reclaim_buffers fuel k
  end.

Fixpoint runs (os : list op) (k : kernel) : option kernel :=
  match os with
  | [] => Some k
  | o :: os => k ← run o k; runs os k
  end.

Definition is_reclaim (o : op) : bool :=
  match o with Reclaim _ => true | _ => false end.

(** A state before [buffer_init]: the list heads are still [NULL]. *)
Definition unset (k : kernel) : Prop :=
  buffer_head k = None /\ buffer_dirty_head k = None.

(** The states the buffer cache can be in between two calls. *)
Definition reachable (k : kernel) : Prop :=
  exists k0 os, unset k0 /\ runs os (Buffer.buffer_init k0) = Some k.

(** The same, when [reclaim_buffers] is never called. *)
Definition reachable_without_reclaim (k : kernel) : Prop :=
  exists k0 os, unset k0 /\ existsb is_reclaim os = false
                /\ runs os (Buffer.buffer_init k0) = Some k.

(** ** Small machines used to exercise the code *)

(** Three buffers, four hash buckets, four page frames, one good disk as
    device 1. *)
Definition demo : kernel := fresh 3 4 4 4 (one_disk good_disk) 2.

(** The same with a write-protected disk. *)
Definition demo_ro : kernel := fresh 3 4 4 4 (one_disk readonly_disk) 2.

(** Two buffers only. *)
Definition demo2 : kernel := fresh 2 4 4 4 (one_disk good_disk) 2.

(** [bread] followed by [bwrite] or [brelse] of what it returned. *)
Definition read_write (dev block size : Z) (k : kernel) : option kernel :=
  '(b, k) ← Buffer.bread dev block size k;
  n ← b; Some (Buffer.bwrite n k).

Definition read_release (dev block size : Z) (k : kernel) : option kernel :=
  '(b, k) ← Buffer.bread dev block size k;
  n ← b; Some (Buffer.brelse n k).

(** ** The invariants of the spec, as tests on a state *)

Definition all_buffers (k : kernel) (P : nat -> bool) : bool :=
  forallb P (seq 0 (Buffer.NR_BUFFERS k)).

(** [LOCKED] if and only if off the free list. *)
Definition locked_iff_off_free_list (k : kernel) : bool :=
  all_buffers k (fun n =>
    Bool.eqb (Buffer.flag k n BUFFER_LOCKED) (negb (on_free_list k n))).

(** [DIRTY] if and only if on the dirty list. *)
Definition dirty_iff_on_dirty_list (k : kernel) : bool :=
  all_buffers k (fun n =>
    Bool.eqb (Buffer.flag k n BUFFER_DIRTY) (on_dirty_list k n)).

(** [VALID] implies a data frame. *)
Definition valid_has_data (k : kernel) : bool :=
  all_buffers k (fun n =>
    implb (Buffer.flag k n BUFFER_VALID)
          (negb (is_null (Buf.data (Buffer.buf k n))))).

(** The driver calls in a history. *)
Definition is_write (e : event) : bool :=
  match e with write_block_call _ _ _ _ _ => true | _ => false end.
Definition is_read (e : event) : bool :=
  match e with read_block_call _ _ _ _ => true | _ => false end.
Definition is_kfree (e : event) : bool :=
  match e with kfree_call _ => true | _ => false end.
Definition writes (l : list event) : list event := filter is_write l.
Definition reads (l : list event) : list event := filter is_read l.
Definition frees (l : list event) : list event := filter is_kfree l.

(** What [sync_buffers] may write, and what [invalidate_buffers] may. *)
Definition m_sync : mask := mask_or m_writeback m_lock.
Definition m_invalidate : mask :=
  mask_or m_hashidx (m_bits (Z.lor BUFFER_VALID BUFFER_LOCKED)).

(** [k'] is the state in which a call of [sync_buffers] or of
    [invalidate_buffers] made in [k] returns. *)
Definition locking_pass (k k' : kernel) : Prop :=
  (exists fuel dev, Buffer.sync_buffers fuel dev k = Some k')
  \/ (exists dev, Buffer.invalidate_buffers dev k = Some k').

(** ** The invariant behind "VALID implies a data frame" *)

Definition has_data (k : kernel) (n : nat) : Prop :=
  Buf.data (Buffer.buf k n) <> None.

(** [n] is pointed at by the hash index: by a bucket or by the [next_hash]
    field of an entry. *)
Definition pointed (k : kernel) (n : nat) : Prop :=
  (exists i, Buffer.bucket k i = Some n)
  \/ (exists m, Buf.next_hash (Buffer.buf k m) = Some n).

(** Every entry that is valid, dirty or pointed at by the hash index has a
    data frame. *)
Definition core (k : kernel) : Prop :=
  (forall n, Buffer.flag k n BUFFER_VALID = true
             \/ Buffer.flag k n BUFFER_DIRTY = true -> has_data k n)
  /\ (forall n, pointed k n -> has_data k n).

(** The pointers of the free list stay inside the table. *)
Definition free_ok (k : kernel) : Prop :=
  (forall n, buffer_head k = Some n -> (n < Buffer.NR_BUFFERS k)%nat)
  /\ (forall m n, Buf.next_free (Buffer.buf k m) = Some n ->
                  (n < Buffer.NR_BUFFERS k)%nat).

(** The same with two entries of the table. *)
Definition free_ok_at (a b : nat) (k : kernel) : Prop :=
  free_ok k /\ (a < Buffer.NR_BUFFERS k)%nat
  /\ (b < Buffer.NR_BUFFERS k)%nat.

(** What holds between calls: [core], every locked entry has a data frame,
    and the free list stays inside the table. *)
Definition framed (k : kernel) : Prop :=
  core k
  /\ (forall n, Buffer.flag k n BUFFER_LOCKED = true -> has_data k n)
  /\ free_ok k.

(** [core], and the entry [v], if one is named, has a data frame. *)
Definition core_with (v : option nat) (k : kernel) : Prop :=
  core k /\ forall n, v = Some n -> has_data k n.

(** Everything but the data pointers, the hash index and the bits [VALID]
    and [DIRTY]. *)
Definition m_core : mask :=
  mk_mask true false BUFFER_LOCKED false true true true true false true
          true true true.

(** The state [x] of [getblk] while it holds the victim [v] taken in
    state [k]. *)
Definition taken (k : kernel) (v : nat) (x : kernel) : Prop :=
  core_with (Some v) x
  /\ (forall m, has_data k m -> has_data x m)
  /\ (forall m, m <> v ->
        Buffer.flag x m BUFFER_LOCKED = Buffer.flag k m BUFFER_LOCKED)
  /\ free_ok x.

(** The key of an entry. *)
Definition m_rekey : mask :=
  mk_mask true false 0 false false false false false false false false
          false false.

(** What neither [framed] nor the lists read. *)
Definition m_quiet : mask :=
  mk_mask true false 0 false false true false true false true true true
          true.

(** The state an operation returns in, for the machines above (the empty
    machine if it does not return). *)
Definition after (o : option kernel) : kernel :=
  default (boot 0 0 0 0 (fun _ => None) 0) o.

(** [demo] with block 7 of device 1 read and written. *)
Definition demo_dirty : kernel := after (read_write 1 7 1024 demo).

(** [demo] with block 7 of device 1 read and released. *)
Definition demo_clean : kernel := after (read_release 1 7 1024 demo).

(** A file of 3000 bytes on device 1, in blocks of 1 KiB that start at
    block 100. *)
Definition demo_file : inode_t :=
  mk_inode 5 1 3000 1024 (fun off _ => off / 1024 + 100) 0.

(** ** Doubly linked chains

    The dirty list and the chains of the two hash tables are doubly linked
    lists that end with [NULL].  [seg nx pv prev p l q] reads: following
    [nx] from [p] one meets the entries [l] and then [q]; the [pv] link of
    every entry leads back to the one before it, [prev] for the first. *)
Fixpoint seg (nx pv : nat -> ptr) (prev p : ptr) (l : list nat) (q : ptr)
  : Prop :=
  match l with
  | [] => p = q
  | n :: l => p = Some n /\ pv n = prev /\ seg nx pv (Some n) (nx n) l q
  end.

(** The pointer to the entry before what follows [l]. *)
Fixpoint last_of (prev : ptr) (l : list nat) : ptr :=
  match l with
  | [] => prev
  | n :: l => last_of (Some n) l
  end.

(** The first entry of a list, as a pointer. *)
Definition first_of (l : list nat) : ptr := head l.

(** The dirty list of [k] holds exactly the entries [l], in this order. *)
Definition dirty_wf (k : kernel) (l : list nat) : Prop :=
  seg (fun n => Buf.next_dirty (Buffer.buf k n))
      (fun n => Buf.prev_dirty (Buffer.buf k n))
      None (buffer_dirty_head k) l None
  /\ NoDup l
  /\ forall n, In n l -> (n < Buffer.NR_BUFFERS k)%nat.

(** [sync_buffers(dev)] looks at the entry. *)
Definition concerns (dev : Z) (k : kernel) (n : nat) : bool :=
  (dev =? 0) || (Buf.dev (Buffer.buf k n) =? dev).

(** The [write_block] method [sync_one_buffer] would call for the entry. *)
Definition writer (k : kernel) (n : nat)
  : option (list event -> Z -> Z -> option frame -> Z -> Z) :=
  d ← blk_devices k (Buf.dev (Buffer.buf k n)); fsop d ≫= write_block.

(** The return value recorded with a driver call. *)
Definition call_ret (e : event) : Z :=
  match e with
  | read_block_call _ _ _ r => r
  | write_block_call _ _ _ _ r => r
  | kfree_call _ => 0
  end.

(** Nothing for [sync_buffers(dev)] to write for the entry, and nothing to
    wait for: the entry is unlocked and its device has no [write_block]. *)
Definition quiet (dev : Z) (k : kernel) (n : nat) : Prop :=
  concerns dev k n = true ->
  writer k n = None /\ Buffer.flag k n BUFFER_LOCKED = false.

(** The driver calls made between [k] and [k']. *)
Definition calls_since (k k' : kernel) : list event :=
  drop (length (io k)) (io k').

(** The driver call [sync_one_buffer] makes for the entry through [w]. *)
Definition write_back_call
    (w : list event -> Z -> Z -> option frame -> Z -> Z) (k : kernel)
    (n : nat) : event :=
  let b := Buffer.buf k n in
  let bytes := Buffer.contents k (Buf.data b) (Buf.size b) in
  write_block_call (Buf.dev b) (Buf.block b) bytes (Buf.size b)
    (w (io k) (Buf.dev b) (Buf.block b) bytes (Buf.size b)).

(** The chains of the buffer hash table: bucket [i] holds exactly the
    entries [c i], in this order, and every entry is in the bucket of its
    key. *)
Definition hash_wf (k : kernel) (c : nat -> list nat) : Prop :=
  (forall i,
     seg (fun n => Buf.next_hash (Buffer.buf k n))
         (fun n => Buf.prev_hash (Buffer.buf k n))
         None (Buffer.bucket k i) (c i) None
     /\ NoDup (c i))
  /\ forall i n, In n (c i) ->
       (n < Buffer.NR_BUFFERS k)%nat
       /\ (i < length (buffer_hash_table k))%nat
       /\ Buffer.BUFFER_HASH k (Buf.dev (Buffer.buf k n))
                             (Buf.block (Buffer.buf k n)) = i.

(** Where [h] of [remove_from_hash] points after the walk has passed the
    entries [l]. *)
Definition walked (h : Buffer.hloc) (l : list nat) : Buffer.hloc :=
  fold_left (fun _ m => Buffer.at_next m) l h.

(** The entry holds block [block] of [dev] in [size] bytes: the test of
    [search_buffer_hash]. *)
Definition keyed (k : kernel) (dev block size : Z) (n : nat) : bool :=
  (Buf.dev (Buffer.buf k n) =? dev) && (Buf.block (Buffer.buf k n) =? block)
  && (Buf.size (Buffer.buf k n) =? size).

(** What the end of [getblk] writes: the key of the victim, the hash
    index and [VALID]. *)
Definition m_rebind : mask :=
  mk_mask true false BUFFER_VALID true false false false false true false
          false false false.

(** The end of [getblk]: the victim, out of the hash index in [k3], gets
    its new key. *)
Definition rebind (v : nat) (dev block size : Z) (k3 : kernel) : kernel :=
  Buffer.clear_flag v BUFFER_VALID
    (Buffer.insert_to_hash v (Buffer.upd v (Buf.set_key dev block size) k3)).

(** The chains of [demo_clean]: entry 2 alone, in bucket 2. *)
Definition demo_chains (i : nat) : list nat :=
  if Nat.eqb i 2 then [2%nat] else [].

(** The log of driver calls. *)
Definition m_log : mask :=
  mk_mask false false 0 false false false false false false false true
          false false.

(** What [getblk] may write when it takes a dirty victim whose write-back
    fails: the free list and [LOCKED] (the victim is taken), the log (the
    failed call), and what [rebind] writes. *)
Definition m_steal : mask := mask_or (mask_or m_take m_log) m_rebind.

(** [demo_ro] with block 7 read and written, then blocks 8 and 9 read and
    released: the dirty entry of block 7 is the head of the free list. *)
Definition demo_steal : kernel :=
  after (k ← read_write 1 7 1024 demo_ro;
         k ← read_release 1 8 1024 k;
         read_release 1 9 1024 k).

(** The chains of [demo_steal]: entry [i] alone in bucket [i]. *)
Definition demo_steal_chains (i : nat) : list nat :=
  if Nat.ltb i 3 then [i] else [].

(** What a round of [reclaim_buffers] writes before it looks at the data
    of the entry it took: the free list and [LOCKED], a write-back, and
    [VALID]. *)
Definition m_prep : mask :=
  mask_or (mask_or m_take m_writeback) (m_bits BUFFER_VALID).

(** What it writes when it frees the data: the allocator, the data
    pointer and the hash index. *)
Definition m_setdata : mask :=
  mk_mask false true 0 false false false false false false false false
          false false.
Definition m_drop : mask := mask_or (mask_or m_alloc m_setdata) m_hashidx.

(** What rounds of [reclaim_buffers] have done between [k], with chains
    [c], and [k'], with chains [c']: [count] frames were freed with
    [kfree], each the data of an entry that was unlocked; the [LOCKED]
    bits are as they were; the chains have only lost
    entries; and an entry whose data pointer changed was unlocked, has no
    data any more and is in no chain. *)
Definition reclaimed_from (k : kernel) (c : nat -> list nat) (k' : kernel)
    (c' : nat -> list nat) (count : Z) : Prop :=
  (exists evs,
     io k' = io k ++ evs /\ Z.of_nat (length (frees evs)) = count
     /\ forall a, In (kfree_call a) evs ->
          exists m, Buffer.flag k m BUFFER_LOCKED = false
                    /\ Buf.data (Buffer.buf k m) = Some a)
  /\ (forall m, Buffer.flag k' m BUFFER_LOCKED
               = Buffer.flag k m BUFFER_LOCKED)
  /\ NR_BUF_RECLAIM k' = NR_BUF_RECLAIM k
  /\ hash_wf k' c'
  /\ (forall i m, In m (c' i) -> In m (c i))
  /\ forall m,
       Buf.data (Buffer.buf k' m) = Buf.data (Buffer.buf k m)
       \/ (Buffer.flag k m BUFFER_LOCKED = false
           /\ Buf.data (Buffer.buf k' m) = None
           /\ forall i, ~ In m (c' i)).

(** What [reclaim_buffers] answers in [demo_clean], and the state it
    leaves. *)
Definition demo_reclaimed : Z * kernel :=
  default (0, demo_clean) (Buffer.reclaim_buffers 10 demo_clean).

(** The counter [kstat.buffers]. *)
Definition buffers_kib (k : kernel) : Z := buffers (kstat k).

(** ** The page cache, as the searches see it *)

(** A page entry without its reference count and its free-list links:
    what [search_page_hash], [page_lock], [release_page] and the free list
    of pages leave alone. *)
Definition perase (x : Pg.t) : Pg.t :=
  Pg.set_count 0 (Pg.set_prev_free None (Pg.set_next_free None x)).

(** [k'] has the page entries and the page hash table of [k], up to
    reference counts and free-list links. *)
Definition pindex (k k' : kernel) : Prop :=
  length (page_table k') = length (page_table k)
  /\ page_hash_table k' = page_hash_table k
  /\ forall m, perase (Page.pg k' m) = perase (Page.pg k m).

(** What [search_page_hash] does to the page it finds. *)
Definition hit (n : nat) (k : kernel) : kernel :=
  let k := if Pg.count (Page.pg k n) =? 0
           then Page.remove_from_free_list n k else k in
  Page.upd n (fun x => Pg.set_count (Pg.count x + 1) x) k.

(** The frames. *)
Definition m_store : mask :=
  mk_mask false false 0 false false false false false false false false
          true false.

(** What an overlay of a cached page writes: the allocator side and the
    frames. *)
Definition m_overlay : mask := mask_or m_palloc m_store.

(** A machine with eight buffers and eight pages, and the state in which
    the first bytes of [demo_file] have been read: its first page and its
    first four blocks are cached. *)
Definition demo_big : kernel := fresh 8 4 8 4 (one_disk good_disk) 2.
Definition demo_cached : kernel :=
  after (option_map (fun r => o_state (fst r))
           (file_read demo_file (mk_fd 0 0) 8 demo_big)).

(** ** A region of a file held by both caches *)

(** The bytes [o .. o + count) of the file of [i] are in the page cache:
    the page of the offset [x] is the entry [pgof x], unlocked, with its
    own frame, which has the length of a page. *)
Definition pages_cached (i : inode_t) (o count : Z) (pgof : Z -> nat)
    (k : kernel) : Prop :=
  forall x, o <= x < o + count ->
    (exists ks, Page.search_page_hash i (Z.land x PAGE_MASK) k
                = Some (Some (pgof x), ks))
    /\ tst (Pg.flags (Page.pg k (pgof x))) PAGE_LOCKED = false
    /\ Pg.data (Page.pg k (pgof x)) = Some (pgof x)
    /\ Pg.page (Page.pg k (pgof x)) = Z.of_nat (pgof x)
    /\ (pgof x < length (page_table k))%nat
    /\ exists f, frames k !! pgof x = Some f
                 /\ length f = Z.to_nat PAGE_SIZE.

(** The blocks of the same bytes are in the buffer cache: the block of the
    offset [x] is the entry [bufof x], valid and unlocked, and its frame is
    none of the frames of the cached pages. *)
Definition blocks_cached (i : inode_t) (o count : Z) (pgof bufof : Z -> nat)
    (k : kernel) : Prop :=
  (exists dv, blk_devices k (dev i) = Some dv)
  /\ forall x, o <= x < o + count ->
       0 <= bmap i x true
       /\ Buffer.search_buffer_hash (dev i) (bmap i x true) (s_blocksize i) k
          = Some (Some (bufof x))
       /\ Buffer.flag k (bufof x) BUFFER_LOCKED = false
       /\ Buffer.flag k (bufof x) BUFFER_VALID = true
       /\ forall y, o <= y < o + count ->
            Buf.data (Buffer.buf k (bufof x)) <> Some (pgof y).

(** The first [t] bytes of [buffer] are in the frames of the cached pages,
    at the offsets [o .. o + t). *)
Definition written (o t : Z) (buffer : list Byte.byte) (pgof : Z -> nat)
    (k : kernel) : Prop :=
  forall x, o <= x < o + t ->
    exists f, frames k !! pgof x = Some f
              /\ f !! Z.to_nat (x mod PAGE_SIZE) = buffer !! Z.to_nat (x - o).

(** The offset at which [minix_file_write] starts to write. *)
Definition write_offset (i : inode_t) (fd : fd_t) : Z :=
  if tst (fd_flags fd) O_APPEND then i_size i else fd_offset fd.

(** What a round of [minix_file_write] may change when its block and its
    page are cached: the lists and the bits of the buffer, the frames, and
    the allocator side of the page cache. *)
Definition m_round : mask :=
  mask_or (mask_or m_take m_store)
          (mask_or m_overlay
                   (mask_or (m_bits (Z.lor BUFFER_DIRTY BUFFER_VALID))
                            m_release)).

(** ** The victim that [getblk] takes on a miss *)

(** [v] is the head of the free list, unlocked, and [getblk] can hand it
    out: it is dirty, or it owns a frame, or the allocator has a free page
    that is not in the page cache to give it one. *)
Definition usable_victim (k : kernel) (v : nat) : Prop :=
  buffer_head k = Some v /\ Buffer.flag k v BUFFER_LOCKED = false
  /\ (Buffer.flag k v BUFFER_DIRTY = true
      \/ Buf.data (Buffer.buf k v) <> None
      \/ (free_pages (kstat k) <> 0
          /\ exists p, page_head k = Some p
                       /\ Pg.inode (Page.pg k p) = 0)).

(** * More of the three files *)

(** ** [write_page] of [mm/page.c] *)

(** Modelled from the spec: [EINVAL] comes from [errno.h], which is not
    among the sources. *)
Definition EINVAL : Z := 22.

(** The [write] method of the file system of an inode, [i->fsop->write];
    for a Minix file it is [minix_file_write]. *)
Definition write_method : Type :=
  inode_t -> fd_t -> list Byte.byte -> Z -> kernel -> option outcome.

(** [write_page]: the page is written through a descriptor of its own,
    which has no flag set and starts at [offset].  [write] is [None] when
    the inode has no such method. *)
Definition write_page (write : option write_method) (n : nat) (i : inode_t)
    (offset length : Z) (k : kernel) : option outcome :=
  let size := MIN (i_size i) length in
  let fd_table := mk_fd 0 offset in
  match write with
  | Some w =>
      w i fd_table (default [] (a ← Pg.data (Page.pg k n); frames k !! a))
        size k
  | None => Some (mk_outcome (- EINVAL) i fd_table k)
  end.

(** The offset at which [file_read] starts: the offset of the descriptor,
    or the end of the file if the descriptor is beyond it. *)
Definition read_offset (i : inode_t) (fd : fd_t) : Z :=
  if i_size i <? fd_offset fd then i_size i else fd_offset fd.

(** ** More small machines *)

(** A file of 10000 bytes on device 1, in blocks of 4 KiB that start at
    block 100. *)
Definition demo_file4k : inode_t :=
  mk_inode 6 1 10000 4096 (fun off _ => off / 4096 + 100) 0.

(** Three buffers and two page frames only. *)
Definition demo_small : kernel := fresh 3 4 2 4 (one_disk good_disk) 2.

(** A file whose blocks cannot be mapped from offset 2048 on: [bmap]
    answers [-ENOSPC] (-28) there. *)
Definition demo_full : inode_t :=
  mk_inode 7 1 0 1024
    (fun off _ => if off <? 2048 then off / 1024 + 200 else -28) 0.

(** What a call answered, for the machines above. *)
Definition read_result (r : option (outcome * list Byte.byte))
  : outcome * list Byte.byte :=
  default (mk_outcome 0 demo_file (mk_fd 0 0) demo, []) r.
Definition write_result (r : option outcome) : outcome :=
  default (mk_outcome 0 demo_file (mk_fd 0 0) demo) r.

(** ** Frame conditions of whole calls *)

(** Anything but the sizes of the tables, the device table and the
    constant [NR_BUF_RECLAIM]. *)
Definition m_any : mask :=
  mk_mask true true 7 true true true true true true true true true true.

(** A machine without page frames: [get_free_page] has nothing to hand
    out. *)
Definition demo_nomem : kernel := fresh 3 4 0 4 (one_disk good_disk) 2.

(** What [bread] returns, for the machines above (no buffer and the machine
    [demo] if it does not return). *)
Definition bread_result (r : option (ptr * kernel)) : ptr * kernel :=
  default (None, demo) r.

(** [demo_dirty] with block 8 of device 1 read and written as well. *)
Definition demo_two_dirty : kernel := after (read_write 1 8 1024 demo_dirty).

(** Everything of the buffer cache, and nothing of the page tables. *)
Definition m_buffers : mask :=
  mk_mask true true 7 true true true true true true true true true false.

(** [k'] has page tables of the sizes of those of [k]. *)
Definition psize (k k' : kernel) : Prop :=
  length (page_table k') = length (page_table k)
  /\ length (page_hash_table k') = length (page_hash_table k).

(** The same for a function that may not return. *)
Definition opsize {A : Type} `{HasState A} (k : kernel) (o : option A)
  : Prop :=
  forall a, o = Some a -> psize k (st a).

(** [demo_big] after [kmalloc] has handed out a page: the page and the
    state. *)
Definition demo_page : ptr * kernel :=
  default (None, demo_big) (kmalloc demo_big).

(** What [bread_page] returns, for the machines above. *)
Definition bread_page_result (r : option (Z * kernel)) : Z * kernel :=
  default (1, demo) r.

(** A file of 8 KiB on device 1 without a single block: one hole. *)
Definition demo_sparse : inode_t := mk_inode 8 1 8192 1024 (fun _ _ => 0) 0.

(** The entry [m] is one that [invalidate_buffers(dev)] deals with when it
    scans the entries [n0 .. n0 + todo) of the table in state [k]: it is
    unlocked and belongs to [dev]. *)
Definition doomed (dev : Z) (k : kernel) (n0 todo m : nat) : Prop :=
  (n0 <= m < n0 + todo)%nat
  /\ Buffer.flag k m BUFFER_LOCKED = false
  /\ Buf.dev (Buffer.buf k m) = dev.

#[global] Instance doomed_dec (dev : Z) (k : kernel) (n0 todo m : nat) :
  Decision (doomed dev k n0 todo m).
Proof. unfold doomed. apply _. Defined.

(** A disk whose reads fail with [-EIO], and a small machine with it. *)
Definition failing_disk : device :=
  mk_device (Some (mk_fsop
    (Some (fun _ _ _ _ => (-5, [])))
    (Some (fun _ _ _ _ size => size)))).

Definition demo_fail : kernel := fresh 3 4 4 4 (one_disk failing_disk) 2.

(** What a call that brings the block [(d, b, s)] into the buffer cache
    leaves of the hash index of [k]: the chains of [k'] are well formed, a
    block that was found is still found in its entry, unless that entry now
    holds [(d, b, s)], which was not cached before, and no other block has
    appeared. *)
Definition kept_but_one (d b s : Z) (k k' : kernel) : Prop :=
  (exists c', hash_wf k' c')
  /\ (forall d0 b0 s0 m,
        Buffer.search_buffer_hash d0 b0 s0 k = Some (Some m) ->
        Buffer.search_buffer_hash d0 b0 s0 k' = Some (Some m)
        \/ (Buffer.search_buffer_hash d b s k = Some None
            /\ Buf.dev (Buffer.buf k' m) = d
            /\ Buf.block (Buffer.buf k' m) = b
            /\ Buf.size (Buffer.buf k' m) = s))
  /\ (forall d0 b0 s0,
        Buffer.search_buffer_hash d0 b0 s0 k = Some None ->
        (d0, b0, s0) <> (d, b, s) ->
        Buffer.search_buffer_hash d0 b0 s0 k' = Some None).

(** [demo] with block 7 read and written, then blocks 8 and 9 read and
    released: the dirty entry of block 7 is the head of the free list, and
    its disk accepts writes. *)
Definition demo_writeback : kernel :=
  after (k ← read_write 1 7 1024 demo;
         k ← read_release 1 8 1024 k;
         read_release 1 9 1024 k).

(** * Proofs *)

(** ** Flag bits *)

Lemma tst_pow2 (f j : Z) : 0 <= j -> tst f (2 ^ j) = Z.testbit f j.
Proof.
  intros Hj. unfold tst.
  destruct (Z.testbit f j) eqn:E.
  - apply negb_true_iff, Z.eqb_neq. intros H.
    assert (Z.testbit (Z.land f (2 ^ j)) j = false) as H0
      by (rewrite H; apply Z.bits_0).
    rewrite Z.land_spec, E, Z.pow2_bits_true in H0 by lia. discriminate.
  - apply negb_false_iff, Z.eqb_eq. apply Z.bits_inj'. intros i Hi.
    rewrite Z.land_spec, Z.bits_0.
    destruct (Z.eq_dec i j) as [->|Hne].
    + rewrite E. reflexivity.
    + rewrite Z.pow2_bits_false by lia. apply andb_false_r.
Qed.

Lemma tst_bis_pow2 (f m j : Z) :
  0 <= j -> tst (bis f m) (2 ^ j) = Z.testbit f j || Z.testbit m j.
Proof. intros. unfold bis. rewrite tst_pow2, Z.lor_spec; auto. Qed.

Lemma tst_bic_pow2 (f m j : Z) :
  0 <= j -> tst (bic f m) (2 ^ j) = Z.testbit f j && negb (Z.testbit m j).
Proof.
  intros. unfold bic. rewrite tst_pow2, Z.land_spec, Z.lnot_spec; auto.
Qed.

(** The three buffer flags as powers of two, for the lemmas above. *)
Lemma VALID_pow : BUFFER_VALID = 2 ^ 0. Proof. reflexivity. Qed.
Lemma LOCKED_pow : BUFFER_LOCKED = 2 ^ 1. Proof. reflexivity. Qed.
Lemma DIRTY_pow : BUFFER_DIRTY = 2 ^ 2. Proof. reflexivity. Qed.

Lemma tst_lor_eq (f g M b : Z) :
  Z.lor f M = Z.lor g M -> Z.land b M = 0 -> tst f b = tst g b.
Proof.
  intros H Hb. unfold tst. f_equal. f_equal.
  apply Z.bits_inj'. intros i Hi. rewrite !Z.land_spec.
  assert (Z.testbit (Z.land b M) i = false) as Hz
    by (rewrite Hb; apply Z.bits_0).
  rewrite Z.land_spec in Hz.
  assert (Z.testbit (Z.lor f M) i = Z.testbit (Z.lor g M) i) as Hl
    by (rewrite H; reflexivity).
  rewrite !Z.lor_spec in Hl.
  destruct (Z.testbit b i), (Z.testbit M i), (Z.testbit f i),
    (Z.testbit g i); simpl in *; congruence.
Qed.

Lemma lor_bis (f m M : Z) : Z.lor m M = M -> Z.lor (bis f m) M = Z.lor f M.
Proof. intros H. unfold bis. rewrite <- Z.lor_assoc, H. reflexivity. Qed.

Lemma lor_bic (f m M : Z) : Z.lor m M = M -> Z.lor (bic f m) M = Z.lor f M.
Proof.
  intros H. unfold bic. apply Z.bits_inj'. intros i Hi.
  assert (Z.testbit (Z.lor m M) i = Z.testbit M i) as Hm
    by (rewrite H; reflexivity).
  rewrite !Z.lor_spec in *. rewrite Z.land_spec, Z.lnot_spec by lia.
  destruct (Z.testbit m i), (Z.testbit M i), (Z.testbit f i);
    simpl in *; congruence.
Qed.

(** ** The frame relation *)

Lemma hide_mono {A : Type} (b c : bool) (d x y : A) :
  implb b c = true -> hide b d x = hide b d y -> hide c d x = hide c d y.
Proof. destruct b, c; simpl; intros; congruence. Qed.

Lemma erase_eq (μ : mask) (a b : Buf.t) :
  erase μ a = erase μ b <->
  hide (m_key μ) 0 (Buf.dev a) = hide (m_key μ) 0 (Buf.dev b)
  /\ hide (m_key μ) 0 (Buf.block a) = hide (m_key μ) 0 (Buf.block b)
  /\ hide (m_key μ) 0 (Buf.size a) = hide (m_key μ) 0 (Buf.size b)
  /\ hide (m_data μ) None (Buf.data a) = hide (m_data μ) None (Buf.data b)
  /\ Z.lor (Buf.flags a) (m_flags μ) = Z.lor (Buf.flags b) (m_flags μ)
  /\ hide (m_hash μ) None (Buf.prev_hash a)
     = hide (m_hash μ) None (Buf.prev_hash b)
  /\ hide (m_hash μ) None (Buf.next_hash a)
     = hide (m_hash μ) None (Buf.next_hash b)
  /\ hide (m_free μ) None (Buf.prev_free a)
     = hide (m_free μ) None (Buf.prev_free b)
  /\ hide (m_free μ) None (Buf.next_free a)
     = hide (m_free μ) None (Buf.next_free b)
  /\ hide (m_dirty μ) None (Buf.prev_dirty a)
     = hide (m_dirty μ) None (Buf.prev_dirty b)
  /\ hide (m_dirty μ) None (Buf.next_dirty a)
     = hide (m_dirty μ) None (Buf.next_dirty b).
Proof.
  unfold erase. split.
  - intros H. injection H. intros. repeat split; assumption.
  - intros (?&?&?&?&?&?&?&?&?&?&?). f_equal; assumption.
Qed.

Lemma erase_mono (μ ν : mask) (a b : Buf.t) :
  mask_le μ ν = true -> erase μ a = erase μ b -> erase ν a = erase ν b.
Proof.
  unfold mask_le. rewrite !andb_true_iff. rewrite !erase_eq.
  intros ((((((((((((K&D)&F)&H)&Fr)&Di)&?)&?)&?)&?)&?)&?)&?).
  intros (?&?&?&?&Hf&?&?&?&?&?&?).
  repeat split; eauto using hide_mono.
  apply Z.eqb_eq in F. rewrite <- F.
  rewrite !Z.lor_assoc. rewrite Hf. reflexivity.
Qed.

Lemma same_refl (μ : mask) (k : kernel) : same μ k k.
Proof. unfold same. repeat split; reflexivity. Qed.

Lemma same_trans (μ : mask) (k1 k2 k3 : kernel) :
  same μ k1 k2 -> same μ k2 k3 -> same μ k1 k3.
Proof.
  unfold same.
  intros (?&?&He&?&?&?&?&?&?&?&?&?) (?&?&He'&?&?&?&?&?&?&?&?&?).
  repeat split; try congruence; intros m; rewrite He'; apply He.
Qed.

Lemma same_mono (μ ν : mask) (k k' : kernel) :
  mask_le μ ν = true -> same μ k k' -> same ν k k'.
Proof.
  intros Hle. pose proof Hle as Hle'.
  unfold mask_le in Hle. rewrite !andb_true_iff in Hle.
  destruct Hle as ((((((((((((K&D)&F)&H)&Fr)&Di)&?)&?)&?)&?)&?)&?)&?).
  unfold same. intros (?&?&He&?&?&?&?&?&?&?&?&?).
  repeat split; eauto using hide_mono.
  intros m. eapply erase_mono; eauto.
Qed.

(** Reading a field outside the mask. *)
Lemma same_key (μ : mask) (k k' : kernel) (m : nat) :
  same μ k k' -> m_key μ = false ->
  Buf.dev (Buffer.buf k' m) = Buf.dev (Buffer.buf k m)
  /\ Buf.block (Buffer.buf k' m) = Buf.block (Buffer.buf k m)
  /\ Buf.size (Buffer.buf k' m) = Buf.size (Buffer.buf k m).
Proof.
  intros (_&_&He&_) Hm. specialize (He m). apply erase_eq in He.
  rewrite Hm in He. simpl in He. tauto.
Qed.

Lemma same_data (μ : mask) (k k' : kernel) (m : nat) :
  same μ k k' -> m_data μ = false ->
  Buf.data (Buffer.buf k' m) = Buf.data (Buffer.buf k m).
Proof.
  intros (_&_&He&_) Hm. specialize (He m). apply erase_eq in He.
  rewrite Hm in He. simpl in He. tauto.
Qed.

Lemma same_flag (μ : mask) (k k' : kernel) (m : nat) (b : Z) :
  same μ k k' -> Z.land b (m_flags μ) = 0 ->
  Buffer.flag k' m b = Buffer.flag k m b.
Proof.
  intros (_&_&He&_) Hm. specialize (He m). apply erase_eq in He.
  unfold Buffer.flag. eapply tst_lor_eq; [|exact Hm]. tauto.
Qed.

Lemma same_hash (μ : mask) (k k' : kernel) (m : nat) :
  same μ k k' -> m_hash μ = false ->
  Buf.prev_hash (Buffer.buf k' m) = Buf.prev_hash (Buffer.buf k m)
  /\ Buf.next_hash (Buffer.buf k' m) = Buf.next_hash (Buffer.buf k m).
Proof.
  intros (_&_&He&_) Hm. specialize (He m). apply erase_eq in He.
  rewrite Hm in He. simpl in He. tauto.
Qed.

Lemma same_free (μ : mask) (k k' : kernel) (m : nat) :
  same μ k k' -> m_free μ = false ->
  Buf.prev_free (Buffer.buf k' m) = Buf.prev_free (Buffer.buf k m)
  /\ Buf.next_free (Buffer.buf k' m) = Buf.next_free (Buffer.buf k m).
Proof.
  intros (_&_&He&_) Hm. specialize (He m). apply erase_eq in He.
  rewrite Hm in He. simpl in He. tauto.
Qed.

Lemma same_dirty (μ : mask) (k k' : kernel) (m : nat) :
  same μ k k' -> m_dirty μ = false ->
  Buf.prev_dirty (Buffer.buf k' m) = Buf.prev_dirty (Buffer.buf k m)
  /\ Buf.next_dirty (Buffer.buf k' m) = Buf.next_dirty (Buffer.buf k m).
Proof.
  intros (_&_&He&_) Hm. specialize (He m). apply erase_eq in He.
  rewrite Hm in He. simpl in He. tauto.
Qed.

Lemma same_head (μ : mask) (k k' : kernel) :
  same μ k k' -> m_head μ = false -> buffer_head k' = buffer_head k.
Proof. intros (_&_&_&H&_) Hm. rewrite Hm in H. exact H. Qed.

Lemma same_dhead (μ : mask) (k k' : kernel) :
  same μ k k' -> m_dhead μ = false ->
  buffer_dirty_head k' = buffer_dirty_head k.
Proof. intros (_&_&_&_&H&_) Hm. rewrite Hm in H. exact H. Qed.

Lemma same_buckets (μ : mask) (k k' : kernel) :
  same μ k k' -> m_buckets μ = false ->
  buffer_hash_table k' = buffer_hash_table k.
Proof. intros (_&_&_&_&_&H&_) Hm. rewrite Hm in H. exact H. Qed.

Lemma same_kstat (μ : mask) (k k' : kernel) :
  same μ k k' -> m_kstat μ = false -> kstat k' = kstat k.
Proof. intros (_&_&_&_&_&_&H&_) Hm. rewrite Hm in H. exact H. Qed.

Lemma same_io (μ : mask) (k k' : kernel) :
  same μ k k' -> m_io μ = false -> io k' = io k.
Proof. intros (_&_&_&_&_&_&_&H&_) Hm. rewrite Hm in H. exact H. Qed.

Lemma same_frames (μ : mask) (k k' : kernel) :
  same μ k k' -> m_frames μ = false -> frames k' = frames k.
Proof. intros (_&_&_&_&_&_&_&_&H&_) Hm. rewrite Hm in H. exact H. Qed.

Lemma same_devices (μ : mask) (k k' : kernel) :
  same μ k k' -> blk_devices k' = blk_devices k.
Proof. intros H. apply H. Qed.

Lemma same_reclaim (μ : mask) (k k' : kernel) :
  same μ k k' -> NR_BUF_RECLAIM k' = NR_BUF_RECLAIM k.
Proof. intros H. apply H. Qed.

Lemma same_NR_BUFFERS (μ : mask) (k k' : kernel) :
  same μ k k' -> Buffer.NR_BUFFERS k' = Buffer.NR_BUFFERS k.
Proof. intros H. apply H. Qed.

Lemma same_NR_BUF_HASH (μ : mask) (k k' : kernel) :
  same μ k k' -> Buffer.NR_BUF_HASH k' = Buffer.NR_BUF_HASH k.
Proof.
  intros (_&H&_). unfold Buffer.NR_BUF_HASH. rewrite H. reflexivity.
Qed.

(** ** Frame conditions of the primitive updates *)

Lemma buf_upd (n : nat) (f : Buf.t -> Buf.t) (k : kernel) (m : nat) :
  Buffer.buf (Buffer.upd n f k) m
  = if decide (n = m /\ (n < Buffer.NR_BUFFERS k)%nat)
    then f (Buffer.buf k n) else Buffer.buf k m.
Proof. apply list_lookup_total_alter. Qed.

Lemma buf_upd_eq (n : nat) (f : Buf.t -> Buf.t) (k : kernel) :
  (n < Buffer.NR_BUFFERS k)%nat ->
  Buffer.buf (Buffer.upd n f k) n = f (Buffer.buf k n).
Proof. intros. rewrite buf_upd. rewrite decide_True; auto. Qed.

Lemma buf_upd_ne (n : nat) (f : Buf.t -> Buf.t) (k : kernel) (m : nat) :
  n <> m -> Buffer.buf (Buffer.upd n f k) m = Buffer.buf k m.
Proof. intros. rewrite buf_upd. rewrite decide_False; tauto. Qed.

Lemma same_upd (μ : mask) (n : nat) (f : Buf.t -> Buf.t) (k : kernel) :
  (forall x, erase μ (f x) = erase μ x) -> same μ k (Buffer.upd n f k).
Proof.
  intros Hf. unfold same. repeat split; try reflexivity.
  - simpl. apply length_alter.
  - intros m. rewrite buf_upd. case_decide as Hd; [|reflexivity].
    destruct Hd as [-> _]. apply Hf.
Qed.

Lemma same_wr (μ : mask) (p : ptr) (f : Buf.t -> Buf.t) (k : kernel) :
  (forall x, erase μ (f x) = erase μ x) -> same μ k (Buffer.wr p f k).
Proof.
  intros. destruct p; simpl; [apply same_upd; assumption|apply same_refl].
Qed.

Lemma same_set_flag (μ : mask) (n : nat) (b : Z) (k : kernel) :
  Z.lor b (m_flags μ) = m_flags μ -> same μ k (Buffer.set_flag n b k).
Proof.
  intros Hb. apply same_upd. intros x. apply erase_eq. simpl.
  repeat split; try reflexivity. apply lor_bis, Hb.
Qed.

Lemma same_clear_flag (μ : mask) (n : nat) (b : Z) (k : kernel) :
  Z.lor b (m_flags μ) = m_flags μ -> same μ k (Buffer.clear_flag n b k).
Proof.
  intros Hb. apply same_upd. intros x. apply erase_eq. simpl.
  repeat split; try reflexivity. apply lor_bic, Hb.
Qed.

Lemma same_set_buffer_head (μ : mask) (v : ptr) (k : kernel) :
  m_head μ = true -> same μ k (set_buffer_head v k).
Proof.
  intros H. unfold same. rewrite H. repeat split; reflexivity.
Qed.

Lemma same_set_buffer_dirty_head (μ : mask) (v : ptr) (k : kernel) :
  m_dhead μ = true -> same μ k (set_buffer_dirty_head v k).
Proof.
  intros H. unfold same. rewrite H. repeat split; reflexivity.
Qed.

Lemma same_set_bucket (μ : mask) (i : nat) (v : ptr) (k : kernel) :
  m_buckets μ = true -> same μ k (Buffer.set_bucket i v k).
Proof.
  intros H. unfold same. rewrite H. repeat split; try reflexivity.
  simpl. apply length_insert.
Qed.

Lemma same_add_dirty (μ : mask) (d : Z) (k : kernel) :
  m_kstat μ = true -> same μ k (Buffer.add_dirty d k).
Proof.
  intros H. unfold same. rewrite H. repeat split; reflexivity.
Qed.

Lemma same_add_buffers (μ : mask) (d : Z) (k : kernel) :
  m_kstat μ = true -> same μ k (Buffer.add_buffers d k).
Proof.
  intros H. unfold same. rewrite H. repeat split; reflexivity.
Qed.

Lemma same_log (μ : mask) (e : event) (k : kernel) :
  m_io μ = true -> same μ k (Buffer.log e k).
Proof.
  intros H. unfold same. rewrite H. repeat split; reflexivity.
Qed.

Lemma same_store (μ : mask) (p : ptr) (off : nat) (src : list Byte.byte)
    (n : nat) (k : kernel) :
  m_frames μ = true -> same μ k (Buffer.store p off src n k).
Proof.
  intros H. destruct p; simpl; [|apply same_refl].
  unfold same. rewrite H. repeat split; reflexivity.
Qed.

(** Any change confined to the page cache, the counters and the log. *)
Lemma same_alloc_intro (k k' : kernel) :
  buffer_table k' = buffer_table k -> buffer_head k' = buffer_head k ->
  buffer_dirty_head k' = buffer_dirty_head k ->
  buffer_hash_table k' = buffer_hash_table k -> frames k' = frames k ->
  blk_devices k' = blk_devices k -> NR_BUF_RECLAIM k' = NR_BUF_RECLAIM k ->
  same m_alloc k k'.
Proof.
  intros Ht Hh Hd Hb Hf Hv Hr. unfold same, Buffer.buf.
  rewrite Ht, Hh, Hd, Hb, Hf, Hv, Hr. repeat split; reflexivity.
Qed.

Lemma same_palloc_intro (k k' : kernel) :
  buffer_table k' = buffer_table k -> buffer_head k' = buffer_head k ->
  buffer_dirty_head k' = buffer_dirty_head k ->
  buffer_hash_table k' = buffer_hash_table k -> frames k' = frames k ->
  blk_devices k' = blk_devices k -> NR_BUF_RECLAIM k' = NR_BUF_RECLAIM k ->
  io k' = io k ->
  same m_palloc k k'.
Proof.
  intros Ht Hh Hd Hb Hf Hv Hr Hi. unfold same, Buffer.buf.
  rewrite Ht, Hh, Hd, Hb, Hf, Hv, Hr, Hi. repeat split; reflexivity.
Qed.

(** Peeling the statements of a function one at a time: the state after a
    statement is abstracted before the next one is looked at, so the goal
    stays small. *)
Lemma same_let (μ : mask) (k e : kernel) (b : kernel -> kernel) :
  same μ k e -> (forall x, same μ x (b x)) -> same μ k (let x := e in b x).
Proof. intros H1 H2. eapply same_trans; [exact H1|apply H2]. Qed.

Create HintDb frames discriminated.

Ltac frame_prim :=
  first
    [ apply same_refl
    | apply same_upd; intros []; reflexivity
    | apply same_wr; intros []; reflexivity
    | apply same_set_flag; reflexivity
    | apply same_clear_flag; reflexivity
    | apply same_set_buffer_head; reflexivity
    | apply same_set_buffer_dirty_head; reflexivity
    | apply same_set_bucket; reflexivity
    | apply same_add_dirty; reflexivity
    | apply same_add_buffers; reflexivity
    | apply same_log; reflexivity
    | apply same_store; reflexivity
    | eapply same_mono; cycle 1; [ solve [eauto with frames] | reflexivity ] ].

Ltac frame_steps :=
  lazymatch goal with
  | |- same ?μ ?k (let x := ?e in @?b x) =>
      lazymatch type of e with
      | kernel =>
          apply (same_let μ k e b);
          [ frame_steps | intros ?; cbv beta; frame_steps ]
      | _ => change (same μ k (b e)); cbv beta; frame_steps
      end
  | |- same _ _ (if ?c then _ else _) => destruct c; frame_steps
  | |- same _ _ (match ?c with _ => _ end) => destruct c; frame_steps
  | |- _ => frame_prim
  end.

Lemma insert_on_free_list_same (n : nat) (k : kernel) :
  same m_freelist k (Buffer.insert_on_free_list n k).
Proof. cbv beta delta [Buffer.insert_on_free_list]. frame_steps. Qed.

Lemma remove_from_free_list_same (n : nat) (k : kernel) :
  same m_freelist k (Buffer.remove_from_free_list n k).
Proof. cbv beta delta [Buffer.remove_from_free_list]. frame_steps. Qed.

Lemma insert_on_dirty_list_same (n : nat) (k : kernel) :
  same m_dirtyins k (Buffer.insert_on_dirty_list n k).
Proof. cbv beta delta [Buffer.insert_on_dirty_list]. frame_steps. Qed.

Lemma remove_from_dirty_list_same (n : nat) (k : kernel) :
  same m_dirtylist k (Buffer.remove_from_dirty_list n k).
Proof. cbv beta delta [Buffer.remove_from_dirty_list]. frame_steps. Qed.

Lemma insert_to_hash_same (n : nat) (k : kernel) :
  same m_hashidx k (Buffer.insert_to_hash n k).
Proof. cbv beta delta [Buffer.insert_to_hash]. frame_steps. Qed.

Lemma unlink_same (h : Buffer.hloc) (k : kernel) :
  same m_hashidx k (Buffer.unlink h k).
Proof.
  cbv beta delta [Buffer.unlink Buffer.assign Buffer.is_bucket].
  destruct h; cbv iota; frame_steps.
Qed.

#[export] Hint Resolve insert_on_free_list_same remove_from_free_list_same
  insert_on_dirty_list_same remove_from_dirty_list_same insert_to_hash_same
  unlink_same : frames.

(** ** Frame conditions of the functions that may not return *)

Lemma osame_ret {A : Type} `{HasState A} (μ : mask) (k : kernel) (a : A) :
  same μ k (st a) -> osame μ k (Some a).
Proof. intros Hs a' [= <-]. exact Hs. Qed.

Lemma osame_none {A : Type} `{HasState A} (μ : mask) (k : kernel) :
  osame μ k (@None A).
Proof. intros a [=]. Qed.

Lemma osame_bind {A B : Type} `{HasState A} `{HasState B} (μ : mask)
    (k : kernel) (e : option A) (b : A -> option B) :
  osame μ k e -> (forall a, osame μ (st a) (b a)) -> osame μ k (e ≫= b).
Proof.
  intros He Hb r Hr. destruct e as [a|]; simpl in Hr; [|discriminate].
  eapply same_trans; [apply He; reflexivity|]. eapply Hb, Hr.
Qed.

Lemma osame_let {B : Type} `{HasState B} (μ : mask) (k e : kernel)
    (b : kernel -> option B) :
  same μ k e -> (forall x, osame μ x (b x)) ->
  osame μ k (let x := e in b x).
Proof.
  intros He Hb r Hr. eapply same_trans; [exact He|]. eapply Hb, Hr.
Qed.

Lemma osame_mono {A : Type} `{HasState A} (μ ν : mask) (k : kernel)
    (o : option A) :
  mask_le μ ν = true -> osame μ k o -> osame ν k o.
Proof. intros Hle Ho a Ha. eapply same_mono; eauto. Qed.

Ltac oframe_steps :=
  lazymatch goal with
  | |- osame ?μ ?k (mbind ?b ?e) =>
      apply (osame_bind μ k e b);
      [ oframe_steps
      | let a := fresh "a" in
        intros a; try destruct a as [? ?];
        cbv beta iota delta [st kernel_state pair_state snd]; oframe_steps ]
  | |- osame ?μ ?k (let x := ?e in @?b x) =>
      lazymatch type of e with
      | kernel =>
          apply (osame_let μ k e b);
          [ frame_steps | intros ?; cbv beta; oframe_steps ]
      | _ => change (osame μ k (b e)); cbv beta; oframe_steps
      end
  | |- osame _ _ (if ?c then _ else _) => destruct c; oframe_steps
  | |- osame _ _ (match ?c with _ => _ end) => destruct c; oframe_steps
  | |- osame _ _ (Some _) =>
      apply osame_ret; cbv beta iota delta [st kernel_state pair_state snd];
      frame_steps
  | |- osame _ _ None => apply osame_none
  | |- _ =>
      first [ solve [eauto with frames]
            | eapply osame_mono; cycle 1;
              [ solve [eauto with frames] | reflexivity ] ]
  end.

Lemma remove_loop_same (fuel n : nat) (h : Buffer.hloc) (k : kernel) :
  osame m_hashidx k (Buffer.remove_loop fuel n h k).
Proof.
  revert h. induction fuel as [|fuel IH]; intros h; simpl.
  - apply osame_none.
  - destruct (Buffer.deref k h) as [m|]; [|apply osame_ret, same_refl].
    destruct (Nat.eqb m n); [apply osame_ret, unlink_same|apply IH].
Qed.

Lemma remove_from_hash_same (n : nat) (k : kernel) :
  osame m_hashidx k (Buffer.remove_from_hash n k).
Proof. apply remove_loop_same. Qed.

Lemma buffer_wait_same (n : nat) (k : kernel) :
  osame m_lock k (Buffer.buffer_wait n k).
Proof. cbv beta delta [Buffer.buffer_wait]. oframe_steps. Qed.

Lemma get_free_buffer_same (k : kernel) :
  osame m_take k (Buffer.get_free_buffer k).
Proof. cbv beta delta [Buffer.get_free_buffer]. oframe_steps. Qed.

Lemma sync_one_buffer_same (n : nat) (k : kernel) :
  same m_writeback k (Buffer.sync_one_buffer n k).
Proof. cbv beta delta [Buffer.sync_one_buffer]. frame_steps. Qed.

Lemma brelse_same (n : nat) (k : kernel) :
  same m_release k (Buffer.brelse n k).
Proof. cbv beta delta [Buffer.brelse]. frame_steps. Qed.

#[export] Hint Resolve remove_from_hash_same buffer_wait_same
  get_free_buffer_same sync_one_buffer_same brelse_same : frames.

(** ** The page cache and the allocator leave the buffer cache alone *)

Lemma Page_upd_same (n : nat) (f : Pg.t -> Pg.t) (k : kernel) :
  same m_palloc k (Page.upd n f k).
Proof. apply same_palloc_intro; reflexivity. Qed.

Lemma Page_wr_same (p : ptr) (f : Pg.t -> Pg.t) (k : kernel) :
  same m_palloc k (Page.wr p f k).
Proof. destruct p; apply same_palloc_intro; reflexivity. Qed.

Lemma Page_set_bucket_same (i : nat) (v : ptr) (k : kernel) :
  same m_palloc k (Page.set_bucket i v k).
Proof. apply same_palloc_intro; reflexivity. Qed.

Lemma Page_add_cached_same (d : Z) (k : kernel) :
  same m_palloc k (Page.add_cached d k).
Proof. apply same_palloc_intro; reflexivity. Qed.

Lemma Page_add_free_pages_same (d : Z) (k : kernel) :
  same m_palloc k (Page.add_free_pages d k).
Proof. apply same_palloc_intro; reflexivity. Qed.

Lemma set_page_head_same (v : ptr) (k : kernel) :
  same m_palloc k (set_page_head v k).
Proof. apply same_palloc_intro; reflexivity. Qed.

Lemma set_io_same (v : list event) (k : kernel) :
  same m_alloc k (set_io v k).
Proof. apply same_alloc_intro; reflexivity. Qed.

#[export] Hint Resolve Page_upd_same Page_wr_same Page_set_bucket_same
  Page_add_cached_same Page_add_free_pages_same set_page_head_same
  set_io_same : frames.

Lemma Page_insert_on_free_list_same (n : nat) (k : kernel) :
  same m_palloc k (Page.insert_on_free_list n k).
Proof. cbv beta delta [Page.insert_on_free_list]. frame_steps. Qed.

Lemma Page_remove_from_free_list_same (n : nat) (k : kernel) :
  same m_palloc k (Page.remove_from_free_list n k).
Proof. cbv beta delta [Page.remove_from_free_list]. frame_steps. Qed.

Lemma Page_unlink_same (h : Page.hloc) (k : kernel) :
  same m_palloc k (Page.unlink h k).
Proof.
  cbv beta delta [Page.unlink Page.assign Page.is_bucket].
  destruct h; cbv iota; frame_steps.
Qed.

#[export] Hint Resolve Page_insert_on_free_list_same
  Page_remove_from_free_list_same Page_unlink_same : frames.

Lemma Page_remove_loop_same (fuel n : nat) (h : Page.hloc) (k : kernel) :
  osame m_palloc k (Page.remove_loop fuel n h k).
Proof.
  revert h. induction fuel as [|fuel IH]; intros h; simpl.
  - apply osame_none.
  - destruct (Page.deref k h) as [m|]; [|apply osame_ret, same_refl].
    destruct (Nat.eqb m n); [apply osame_ret, Page_unlink_same|apply IH].
Qed.

Lemma Page_remove_from_hash_same (n : nat) (k : kernel) :
  osame m_palloc k (Page.remove_from_hash n k).
Proof.
  unfold Page.remove_from_hash.
  destruct (_ =? 0); [apply osame_ret, same_refl|].
  apply Page_remove_loop_same.
Qed.

#[export] Hint Resolve Page_remove_from_hash_same : frames.

Lemma get_free_page_same (k : kernel) :
  osame m_palloc k (Page.get_free_page k).
Proof. cbv beta delta [Page.get_free_page]. oframe_steps. Qed.

Lemma release_page_same (page : Z) (k : kernel) :
  osame m_palloc k (Page.release_page page k).
Proof. cbv beta delta [Page.release_page]. oframe_steps. Qed.

#[export] Hint Resolve get_free_page_same release_page_same : frames.

Lemma kmalloc_same (k : kernel) : osame m_palloc k (kmalloc k).
Proof. cbv beta delta [kmalloc]. oframe_steps. Qed.

Lemma kfree_same (addr : nat) (k : kernel) : osame m_alloc k (kfree addr k).
Proof.
  unfold kfree. intros a Ha.
  eapply same_trans; [apply set_io_same|].
  apply (same_mono m_palloc); [reflexivity|].
  eapply release_page_same, Ha.
Qed.

#[export] Hint Resolve kmalloc_same kfree_same : frames.

(** * The claims on small machines *)

(** ** C3: the dirty list and the [DIRTY] bit *)

(** A buffer is read, written, read again from the cache and written
    again while it is the only entry of the dirty list.  The second
    [insert_on_dirty_list] does not see that the entry is on the list (its
    two links are [NULL]) and links it to itself; [kstat.dirty] counts it
    twice. *)
Lemma dirty_list_self_loop :
  (k ← read_write 1 7 1024 demo; k ← read_write 1 7 1024 k;
   Some (buffer_dirty_head k, Buf.next_dirty (Buffer.buf k 2),
         Buf.prev_dirty (Buffer.buf k 2), dirty (kstat k)))
  = Some (Some 2%nat, Some 2%nat, Some 2%nat, 8).
Proof. vm_compute. reflexivity. Qed.

(** C3 (code defect).  After the sequence above, [reclaim_buffers] writes
    the entry back and clears its [DIRTY] bit, but [buffer_dirty_head]
    still points at it: the entry is on the dirty list without being
    dirty, against the invariant "DIRTY iff on the dirty list". *)
Theorem C3_dirty_bit_and_dirty_list_diverge :
  (k ← read_write 1 7 1024 demo; k ← read_write 1 7 1024 k;
   '(_, k) ← Buffer.reclaim_buffers 10 k;
   Some (Buffer.flag k 2 BUFFER_DIRTY, on_dirty_list k 2,
         dirty_iff_on_dirty_list k))
  = Some (false, true, false).
Proof. vm_compute. reflexivity. Qed.

(** On the same state a single [sync_buffers] calls [write_block] twice for
    the one dirty buffer. *)
Lemma dirty_list_self_loop_written_twice :
  (k ← read_write 1 7 1024 demo; k ← read_write 1 7 1024 k;
   k ← Buffer.sync_buffers 10 1 k;
   Some (length (writes (io k))))
  = Some 2%nat.
Proof. vm_compute. reflexivity. Qed.

(** ** C2: [LOCKED] and the free list *)

(** C2 (counterexample).  A buffer is read and written; it is now unlocked,
    on the free list and at the head of the dirty list of device 1.
    [sync_buffers(1)] starts with this entry and calls [buffer_wait] on it:
    in the state in which [sync_one_buffer] then runs the driver, the entry
    is [LOCKED] and still on the free list. *)
Lemma C2_counterexample :
  (k0 ← read_write 1 7 1024 demo;
   k ← Buffer.buffer_wait 2 k0;
   Some (buffer_dirty_head k0, Buf.dev (Buffer.buf k0 2),
         Buffer.flag k 2 BUFFER_LOCKED, on_free_list k 2,
         locked_iff_off_free_list k))
  = Some (Some 2%nat, 1, true, true, false).
Proof. vm_compute. reflexivity. Qed.

(** With two buffers, taking one off the free list empties the list:
    [remove_from_free_list] resets [buffer_head] when the head is its own
    successor, which is already the case when one entry is left.  The other
    buffer is then unlocked and on no list. *)
Lemma free_list_orphan :
  ('(b, k) ← Buffer.bread 1 7 1024 demo2;
   Some (b, buffer_head k, Buffer.flag k 0 BUFFER_LOCKED, on_free_list k 0))
  = Some (Some 1%nat, None, false, false).
Proof. vm_compute. reflexivity. Qed.

(** ** C4: [VALID] and the data frame *)

(** C4 (counterexample).  A buffer is read and released; [reclaim_buffers]
    then frees its frame and leaves it [VALID] with no data. *)
Lemma C4_counterexample :
  (k ← read_release 1 7 1024 demo;
   '(_, k) ← Buffer.reclaim_buffers 10 k;
   Some (Buffer.flag k 2 BUFFER_VALID, Buf.data (Buffer.buf k 2),
         valid_has_data k))
  = Some (true, None, false).
Proof. vm_compute. reflexivity. Qed.

(** ** C6: two calls of [sync_buffers] in a row *)

(** C6 (counterexample).  On a write-protected disk the first
    [sync_buffers(1)] calls [write_block], which fails; the entry stays
    dirty and the second [sync_buffers(1)] calls [write_block] again. *)
Lemma C6_counterexample :
  (k ← read_write 1 7 1024 demo_ro;
   k1 ← Buffer.sync_buffers 10 1 k;
   k2 ← Buffer.sync_buffers 10 1 k1;
   Some (length (writes (io k1)), length (writes (io k2))))
  = Some (1%nat, 2%nat).
Proof. vm_compute. reflexivity. Qed.

(** ** C8: the cold read *)


(** * C2: what locking does to the free list *)

Lemma NR_BUFFERS_upd (n : nat) (f : Buf.t -> Buf.t) (k : kernel) :
  Buffer.NR_BUFFERS (Buffer.upd n f k) = Buffer.NR_BUFFERS k.
Proof. apply length_alter. Qed.

Lemma NR_BUFFERS_set_flag (n : nat) (b : Z) (k : kernel) :
  Buffer.NR_BUFFERS (Buffer.set_flag n b k) = Buffer.NR_BUFFERS k.
Proof. apply length_alter. Qed.

Lemma NR_BUFFERS_clear_flag (n : nat) (b : Z) (k : kernel) :
  Buffer.NR_BUFFERS (Buffer.clear_flag n b k) = Buffer.NR_BUFFERS k.
Proof. apply length_alter. Qed.

Lemma flag_set_flag_eq (n : nat) (b j : Z) (k : kernel) :
  b = 2 ^ j -> 0 <= j -> (n < Buffer.NR_BUFFERS k)%nat ->
  Buffer.flag (Buffer.set_flag n b k) n b = true.
Proof.
  intros -> Hj Hn. unfold Buffer.flag, Buffer.set_flag.
  rewrite buf_upd_eq by assumption. simpl.
  rewrite tst_bis_pow2, Z.pow2_bits_true by lia. apply orb_true_r.
Qed.

Lemma flag_clear_flag_eq (n : nat) (b j : Z) (k : kernel) :
  b = 2 ^ j -> 0 <= j -> (n < Buffer.NR_BUFFERS k)%nat ->
  Buffer.flag (Buffer.clear_flag n b k) n b = false.
Proof.
  intros -> Hj Hn. unfold Buffer.flag, Buffer.clear_flag.
  rewrite buf_upd_eq by assumption. simpl.
  rewrite tst_bic_pow2, Z.pow2_bits_true by lia. apply andb_false_r.
Qed.

Lemma flag_set_flag_ne (n m : nat) (b c : Z) (k : kernel) :
  n <> m -> Buffer.flag (Buffer.set_flag n b k) m c = Buffer.flag k m c.
Proof.
  intros. unfold Buffer.flag, Buffer.set_flag. rewrite buf_upd_ne; auto.
Qed.

Lemma flag_clear_flag_ne (n m : nat) (b c : Z) (k : kernel) :
  n <> m -> Buffer.flag (Buffer.clear_flag n b k) m c = Buffer.flag k m c.
Proof.
  intros. unfold Buffer.flag, Buffer.clear_flag. rewrite buf_upd_ne; auto.
Qed.

(** An index outside the table reads the zero entry. *)
Lemma buf_outside (k : kernel) (n : nat) :
  (Buffer.NR_BUFFERS k <= n)%nat -> Buffer.buf k n = Buf.zero.
Proof.
  intros H. unfold Buffer.buf. rewrite list_lookup_total_alt.
  rewrite lookup_ge_None_2 by exact H. reflexivity.
Qed.

Lemma flag_outside (k : kernel) (n : nat) (b : Z) :
  (Buffer.NR_BUFFERS k <= n)%nat -> Buffer.flag k n b = false.
Proof.
  intros H. unfold Buffer.flag. rewrite buf_outside by exact H. reflexivity.
Qed.

Lemma buffer_wait_inv (n : nat) (k k' : kernel) :
  Buffer.buffer_wait n k = Some k' ->
  Buffer.flag k n BUFFER_LOCKED = false
  /\ k' = Buffer.set_flag n BUFFER_LOCKED k.
Proof.
  unfold Buffer.buffer_wait.
  destruct (Buffer.flag k n BUFFER_LOCKED); [discriminate|].
  intros [= <-]. auto.
Qed.

Lemma reach_ext (fuel : nat) (f g : nat -> ptr) (p : ptr) (n : nat) :
  (forall m, f m = g m) -> reach fuel f p n = reach fuel g p n.
Proof.
  intros Hfg. revert p. induction fuel as [|fuel IH]; intros p; simpl.
  - reflexivity.
  - destruct p as [m|]; [|reflexivity]. rewrite Hfg, IH. reflexivity.
Qed.

Lemma same_on_free_list (μ : mask) (k k' : kernel) (n : nat) :
  same μ k k' -> m_free μ = false -> m_head μ = false ->
  on_free_list k' n = on_free_list k n.
Proof.
  intros Hs Hf Hh. unfold on_free_list.
  rewrite (same_NR_BUFFERS _ _ _ Hs), (same_head _ _ _ Hs Hh).
  apply reach_ext. intros m. apply (same_free _ _ _ m Hs Hf).
Qed.

Lemma same_is_free_tail (μ : mask) (k k' : kernel) (n : nat) :
  same μ k k' -> m_free μ = false -> m_head μ = false ->
  is_free_tail k' n = is_free_tail k n.
Proof.
  intros Hs Hf Hh. unfold is_free_tail.
  rewrite (same_head _ _ _ Hs Hh).
  destruct (buffer_head k) as [h|]; simpl; [|reflexivity].
  rewrite (proj1 (same_free _ _ _ h Hs Hf)). reflexivity.
Qed.

(** One round of [sync_buffers] on an entry: lock, write back, unlock. *)
Lemma sync_round_locked (n : nat) (k k1 : kernel) (m : nat) :
  Buffer.buffer_wait n k = Some k1 ->
  Buffer.flag (Buffer.clear_flag n BUFFER_LOCKED
                 (Buffer.sync_one_buffer n k1)) m BUFFER_LOCKED
  = Buffer.flag k m BUFFER_LOCKED.
Proof.
  intros Hw. apply buffer_wait_inv in Hw as [Hu ->].
  destruct (decide (n = m)) as [<-|Hne].
  - rewrite Hu.
    destruct (decide (n < Buffer.NR_BUFFERS k)%nat) as [Hn|Hn].
    + apply (flag_clear_flag_eq n BUFFER_LOCKED 1); [reflexivity|lia|].
      rewrite (same_NR_BUFFERS _ _ _ (sync_one_buffer_same n _)).
      rewrite NR_BUFFERS_set_flag. exact Hn.
    + apply flag_outside.
      rewrite NR_BUFFERS_clear_flag.
      rewrite (same_NR_BUFFERS _ _ _ (sync_one_buffer_same n _)).
      rewrite NR_BUFFERS_set_flag. lia.
  - rewrite flag_clear_flag_ne by assumption.
    rewrite (same_flag _ _ _ m BUFFER_LOCKED
               (sync_one_buffer_same n _) eq_refl).
    apply flag_set_flag_ne. assumption.
Qed.

Lemma sync_loop_same (fuel : nat) (dev : Z) (b : ptr) (k : kernel) :
  osame m_sync k (Buffer.sync_loop fuel dev b k).
Proof.
  revert b k. induction fuel as [|fuel IH]; intros b k.
  - apply osame_none.
  - cbv beta iota delta [Buffer.sync_loop]. fold Buffer.sync_loop.
    destruct b as [n|]; [|apply osame_ret, same_refl].
    oframe_steps.
Qed.

Lemma sync_buffers_same (fuel : nat) (dev : Z) (k : kernel) :
  osame m_sync k (Buffer.sync_buffers fuel dev k).
Proof. apply sync_loop_same. Qed.

Lemma sync_loop_locked (fuel : nat) (dev : Z) (b : ptr) (k k' : kernel)
    (m : nat) :
  Buffer.sync_loop fuel dev b k = Some k' ->
  Buffer.flag k' m BUFFER_LOCKED = Buffer.flag k m BUFFER_LOCKED.
Proof.
  revert b k. induction fuel as [|fuel IH]; intros b k; simpl.
  - discriminate.
  - destruct b as [n|]; [|intros [= <-]; reflexivity].
    destruct ((dev =? 0) || (Buf.dev (Buffer.buf k n) =? dev)).
    + destruct (Buffer.buffer_wait n k) as [k1|] eqn:Hw; [|discriminate].
      simpl. intros H. rewrite (IH _ _ H). apply sync_round_locked, Hw.
    + simpl. apply IH.
Qed.

Lemma invalidate_loop_same (todo n : nat) (dev : Z) (k : kernel) :
  osame m_invalidate k (Buffer.invalidate_loop todo n dev k).
Proof.
  revert n k. induction todo as [|todo IH]; intros n k.
  - apply osame_ret, same_refl.
  - cbv beta iota delta [Buffer.invalidate_loop]. fold Buffer.invalidate_loop.
    oframe_steps.
Qed.

Lemma invalidate_buffers_same (dev : Z) (k : kernel) :
  osame m_invalidate k (Buffer.invalidate_buffers dev k).
Proof. apply invalidate_loop_same. Qed.

#[export] Hint Resolve sync_buffers_same invalidate_buffers_same : frames.

Lemma flag_clear_flag_bit (n : nat) (b c j : Z) (k : kernel) :
  c = 2 ^ j -> 0 <= j -> Z.testbit b j = true ->
  (n < Buffer.NR_BUFFERS k)%nat ->
  Buffer.flag (Buffer.clear_flag n b k) n c = false.
Proof.
  intros -> Hj Hb Hn. unfold Buffer.flag, Buffer.clear_flag.
  rewrite buf_upd_eq by assumption. simpl.
  rewrite tst_bic_pow2, Hb by lia. apply andb_false_r.
Qed.

Lemma invalidate_round_locked (n : nat) (k k1 k2 : kernel) (m : nat) :
  Buffer.buffer_wait n k = Some k1 ->
  Buffer.remove_from_hash n k1 = Some k2 ->
  Buffer.flag (Buffer.clear_flag n (Z.lor BUFFER_VALID BUFFER_LOCKED) k2)
              m BUFFER_LOCKED
  = Buffer.flag k m BUFFER_LOCKED.
Proof.
  intros Hw Hr. apply buffer_wait_inv in Hw as [Hu ->].
  pose proof (remove_from_hash_same _ _ _ Hr) as Hs. cbv [st kernel_state] in Hs.
  destruct (decide (n = m)) as [<-|Hne].
  - rewrite Hu.
    destruct (decide (n < Buffer.NR_BUFFERS k)%nat) as [Hn|Hn].
    + apply (flag_clear_flag_bit n _ BUFFER_LOCKED 1);
        [reflexivity|lia|reflexivity|].
      rewrite (same_NR_BUFFERS _ _ _ Hs), NR_BUFFERS_set_flag. exact Hn.
    + apply flag_outside.
      rewrite NR_BUFFERS_clear_flag, (same_NR_BUFFERS _ _ _ Hs),
        NR_BUFFERS_set_flag. lia.
  - rewrite flag_clear_flag_ne by assumption.
    rewrite (same_flag _ _ _ m BUFFER_LOCKED Hs eq_refl).
    apply flag_set_flag_ne. assumption.
Qed.

Lemma invalidate_loop_locked (todo n : nat) (dev : Z) (k k' : kernel)
    (m : nat) :
  Buffer.invalidate_loop todo n dev k = Some k' ->
  Buffer.flag k' m BUFFER_LOCKED = Buffer.flag k m BUFFER_LOCKED.
Proof.
  revert n k. induction todo as [|todo IH]; intros n k; simpl.
  - intros [= <-]. reflexivity.
  - destruct (negb (Buffer.flag k n BUFFER_LOCKED)
              && (Buf.dev (Buffer.buf k n) =? dev)).
    + destruct (Buffer.buffer_wait n k) as [k1|] eqn:Hw; [|discriminate].
      simpl.
      destruct (Buffer.remove_from_hash n k1) as [k2|] eqn:Hr;
        [|discriminate].
      simpl. intros H. rewrite (IH _ _ H).
      eapply invalidate_round_locked; eassumption.
    + simpl. apply IH.
Qed.

(** [buffer_wait] locks the entry where it is: the free list is not
    touched. *)
Lemma buffer_wait_keeps_free_list (n : nat) (k k' : kernel) :
  Buffer.buffer_wait n k = Some k' -> (n < Buffer.NR_BUFFERS k)%nat ->
  Buffer.flag k' n BUFFER_LOCKED = true
  /\ forall m, on_free_list k' m = on_free_list k m.
Proof.
  intros Hw Hn. pose proof (buffer_wait_same _ _ _ Hw) as Hs.
  apply buffer_wait_inv in Hw as [_ ->]. split.
  - apply (flag_set_flag_eq n BUFFER_LOCKED 1); [reflexivity|lia|exact Hn].
  - intros m. eapply same_on_free_list; [exact Hs| |]; reflexivity.
Qed.

Lemma all_buffers_ext (k k' : kernel) (P Q : nat -> bool) :
  Buffer.NR_BUFFERS k' = Buffer.NR_BUFFERS k -> (forall n, P n = Q n) ->
  all_buffers k' P = all_buffers k Q.
Proof.
  intros HN HPQ. unfold all_buffers. rewrite HN.
  induction (seq 0 (Buffer.NR_BUFFERS k)) as [|x l IH]; simpl;
    [reflexivity|]. rewrite HPQ, IH. reflexivity.
Qed.

(** C2 (amended).  [sync_buffers] and [invalidate_buffers] lock the entries
    they work on in place.  When either of them returns, every entry has
    the [LOCKED] bit and the free-list membership it had when the call was
    made, so "LOCKED iff off the free list" holds after the call exactly
    when it held before. *)
Theorem C2_locking_pass_restores (k k' : kernel) :
  locking_pass k k' ->
  (forall m, Buffer.flag k' m BUFFER_LOCKED = Buffer.flag k m BUFFER_LOCKED
             /\ on_free_list k' m = on_free_list k m)
  /\ locked_iff_off_free_list k' = locked_iff_off_free_list k.
Proof.
  intros Hp.
  assert (forall m,
    Buffer.flag k' m BUFFER_LOCKED = Buffer.flag k m BUFFER_LOCKED
    /\ on_free_list k' m = on_free_list k m) as Hall.
  { intros m. destruct Hp as [(fuel & dev & H)|(dev & H)].
    - split; [eapply sync_loop_locked, H|].
      eapply same_on_free_list;
        [exact (sync_buffers_same _ _ _ _ H)| |]; reflexivity.
    - split; [eapply invalidate_loop_locked, H|].
      eapply same_on_free_list;
        [exact (invalidate_buffers_same _ _ _ H)| |]; reflexivity. }
  split; [exact Hall|].
  unfold locked_iff_off_free_list. apply all_buffers_ext.
  - destruct Hp as [(fuel & dev & H)|(dev & H)].
    + exact (same_NR_BUFFERS _ _ _ (sync_buffers_same _ _ _ _ H)).
    + exact (same_NR_BUFFERS _ _ _ (invalidate_buffers_same _ _ _ H)).
  - intros n. destruct (Hall n) as [-> ->]. reflexivity.
Qed.

(** * C4: which entries have a data frame *)

Lemma proj_upd {A : Type} (proj : Buf.t -> A) (n : nat)
    (f : Buf.t -> Buf.t) (k : kernel) (m : nat) :
  (forall x, proj (f x) = proj x) ->
  proj (Buffer.buf (Buffer.upd n f k) m) = proj (Buffer.buf k m).
Proof.
  intros H. rewrite buf_upd. case_decide as Hd; [|reflexivity].
  destruct Hd as [-> _]. apply H.
Qed.

Lemma proj_wr {A : Type} (proj : Buf.t -> A) (p : ptr)
    (f : Buf.t -> Buf.t) (k : kernel) (m : nat) :
  (forall x, proj (f x) = proj x) ->
  proj (Buffer.buf (Buffer.wr p f k) m) = proj (Buffer.buf k m).
Proof. intros. destruct p; simpl; [apply proj_upd; assumption|reflexivity]. Qed.

Lemma bucket_wr (p : ptr) (f : Buf.t -> Buf.t) (k : kernel) (i : nat) :
  Buffer.bucket (Buffer.wr p f k) i = Buffer.bucket k i.
Proof. destruct p; reflexivity. Qed.

Lemma same_has_data (μ : mask) (k k' : kernel) (n : nat) :
  same μ k k' -> m_data μ = false -> has_data k n -> has_data k' n.
Proof. intros Hs Hm. unfold has_data. rewrite (same_data _ _ _ n Hs Hm). auto. Qed.

Lemma same_pointed (μ : mask) (k k' : kernel) (n : nat) :
  same μ k k' -> m_hash μ = false -> m_buckets μ = false ->
  pointed k' n -> pointed k n.
Proof.
  intros Hs Hh Hb [[i Hi]|[m Hm]].
  - left. exists i. unfold Buffer.bucket in *.
    rewrite <- (same_buckets _ _ _ Hs Hb). exact Hi.
  - right. exists m. rewrite <- (proj2 (same_hash _ _ _ m Hs Hh)). exact Hm.
Qed.

Lemma core_same (μ : mask) (k k' : kernel) :
  core k -> same μ k k' -> mask_le μ m_core = true -> core k'.
Proof.
  intros [Hf Hp] Hs Hle. apply (same_mono _ _ _ _ Hle) in Hs. split.
  - intros n Hn. eapply same_has_data; [exact Hs|reflexivity|].
    apply Hf.
    rewrite <- (same_flag _ _ _ n BUFFER_VALID Hs eq_refl).
    rewrite <- (same_flag _ _ _ n BUFFER_DIRTY Hs eq_refl). exact Hn.
  - intros n Hn. eapply same_has_data; [exact Hs|reflexivity|].
    apply Hp. eapply same_pointed; [exact Hs| | |exact Hn]; reflexivity.
Qed.

Lemma core_with_same (μ : mask) (v : option nat) (k k' : kernel) :
  core_with v k -> same μ k k' -> mask_le μ m_core = true -> core_with v k'.
Proof.
  intros [Hc Hv] Hs Hle. split; [eapply core_same; eassumption|].
  apply (same_mono _ _ _ _ Hle) in Hs. intros n Hn.
  eapply same_has_data; [exact Hs|reflexivity|exact (Hv n Hn)].
Qed.

(** Clearing bits of [flags] keeps [core]. *)
Lemma tst_bic_le (f m b : Z) : tst (bic f m) b = true -> tst f b = true.
Proof.
  unfold tst, bic. rewrite !negb_true_iff, !Z.eqb_neq. intros H E. apply H.
  rewrite <- Z.land_assoc, (Z.land_comm (Z.lnot m)), Z.land_assoc, E.
  apply Z.land_0_l.
Qed.

Lemma flag_clear_flag_le (n m : nat) (b c : Z) (k : kernel) :
  Buffer.flag (Buffer.clear_flag n b k) m c = true ->
  Buffer.flag k m c = true.
Proof.
  unfold Buffer.flag, Buffer.clear_flag. rewrite buf_upd.
  case_decide as Hd; [|auto]. destruct Hd as [-> _]. simpl.
  apply tst_bic_le.
Qed.

Lemma has_data_upd (n : nat) (f : Buf.t -> Buf.t) (k : kernel) (m : nat) :
  (forall x, Buf.data (f x) = Buf.data x) ->
  has_data (Buffer.upd n f k) m <-> has_data k m.
Proof. intros H. unfold has_data. rewrite (proj_upd Buf.data) by exact H. tauto. Qed.

Lemma pointed_upd (n : nat) (f : Buf.t -> Buf.t) (k : kernel) (m : nat) :
  (forall x, Buf.next_hash (f x) = Buf.next_hash x) ->
  pointed (Buffer.upd n f k) m <-> pointed k m.
Proof.
  intros H. unfold pointed.
  split; (intros [[i Hi]|[j Hj]]; [left; exists i; exact Hi|right; exists j]).
  - rewrite (proj_upd Buf.next_hash) in Hj by exact H. exact Hj.
  - rewrite (proj_upd Buf.next_hash) by exact H. exact Hj.
Qed.

Lemma core_clear_flag (n : nat) (b : Z) (k : kernel) :
  core k -> core (Buffer.clear_flag n b k).
Proof.
  intros [Hf Hp]. unfold Buffer.clear_flag. split.
  - intros m Hm. apply has_data_upd; [reflexivity|]. apply Hf.
    destruct Hm as [Hm|Hm]; [left|right];
      eapply flag_clear_flag_le; exact Hm.
  - intros m Hm. apply has_data_upd; [reflexivity|]. apply Hp.
    apply pointed_upd in Hm; [exact Hm|reflexivity].
Qed.

Lemma core_with_clear_flag (v : option nat) (n : nat) (b : Z)
    (k : kernel) :
  core_with v k -> core_with v (Buffer.clear_flag n b k).
Proof.
  intros [Hc Hv]. split; [apply core_clear_flag, Hc|]. intros m Hm.
  apply has_data_upd; [reflexivity|exact (Hv m Hm)].
Qed.

(** Setting bits on an entry that has a frame keeps [core]. *)
Lemma core_set_flag (n : nat) (b : Z) (k : kernel) :
  core k -> has_data k n -> core (Buffer.set_flag n b k).
Proof.
  intros [Hf Hp] Hn. unfold Buffer.set_flag. split.
  - intros m Hm. apply has_data_upd; [reflexivity|].
    destruct (decide (n = m)) as [<-|Hne]; [exact Hn|]. apply Hf.
    unfold Buffer.flag in Hm. rewrite !buf_upd_ne in Hm by exact Hne.
    exact Hm.
  - intros m Hm. apply has_data_upd; [reflexivity|]. apply Hp.
    apply pointed_upd in Hm; [exact Hm|reflexivity].
Qed.

(** Giving an entry a frame keeps [core]. *)
Lemma core_set_data (n a : nat) (k : kernel) :
  core k -> core (Buffer.upd n (Buf.set_data (Some a)) k).
Proof.
  intros [Hf Hp].
  assert (forall m, has_data k m ->
            has_data (Buffer.upd n (Buf.set_data (Some a)) k) m) as Hd.
  { intros m Hm. unfold has_data. rewrite buf_upd.
    case_decide; [discriminate|exact Hm]. }
  split.
  - intros m Hm. apply Hd, Hf. unfold Buffer.flag in *.
    rewrite !(proj_upd Buf.flags) in Hm by reflexivity. exact Hm.
  - intros m Hm. apply Hd, Hp. apply pointed_upd in Hm; [exact Hm|reflexivity].
Qed.


(** Writes into the hash index. *)
Lemma core_wr_keep (p : ptr) (f : Buf.t -> Buf.t) (k : kernel) :
  (forall x, Buf.flags (f x) = Buf.flags x) ->
  (forall x, Buf.data (f x) = Buf.data x) ->
  (forall x, Buf.next_hash (f x) = Buf.next_hash x) ->
  core k -> core (Buffer.wr p f k).
Proof.
  intros Hfl Hda Hnx [Hf Hp]. split.
  - intros m Hm. unfold has_data. rewrite (proj_wr Buf.data) by exact Hda.
    apply Hf. unfold Buffer.flag in *.
    rewrite !(proj_wr Buf.flags) in Hm by exact Hfl. exact Hm.
  - intros m Hm. unfold has_data. rewrite (proj_wr Buf.data) by exact Hda.
    apply Hp. destruct Hm as [[i Hi]|[j Hj]].
    + left. exists i. rewrite bucket_wr in Hi. exact Hi.
    + right. exists j. rewrite (proj_wr Buf.next_hash) in Hj by exact Hnx.
      exact Hj.
Qed.

Lemma has_data_wr (p : ptr) (f : Buf.t -> Buf.t) (k : kernel) (m : nat) :
  (forall x, Buf.data (f x) = Buf.data x) ->
  has_data (Buffer.wr p f k) m <-> has_data k m.
Proof. intros H. unfold has_data. rewrite (proj_wr Buf.data) by exact H. tauto. Qed.

Lemma core_wr_next_hash (p v : ptr) (k : kernel) :
  (forall n, v = Some n -> has_data k n) ->
  core k -> core (Buffer.wr p (Buf.set_next_hash v) k).
Proof.
  intros Hv [Hf Hp]. split.
  - intros m Hm. apply has_data_wr; [reflexivity|].
    apply Hf. unfold Buffer.flag in *.
    rewrite !(proj_wr Buf.flags) in Hm by reflexivity. exact Hm.
  - intros m Hm. apply has_data_wr; [reflexivity|].
    destruct Hm as [[i Hi]|[j Hj]].
    + apply Hp. left. exists i. rewrite bucket_wr in Hi. exact Hi.
    + destruct p as [q|]; simpl in Hj; [|apply Hp; right; exists j; exact Hj].
      rewrite buf_upd in Hj. case_decide.
      * simpl in Hj. apply Hv, Hj.
      * apply Hp. right. exists j. exact Hj.
Qed.

Lemma bucket_set_bucket (i j : nat) (v : ptr) (k : kernel) :
  Buffer.bucket (Buffer.set_bucket i v k) j = v
  \/ Buffer.bucket (Buffer.set_bucket i v k) j = Buffer.bucket k j.
Proof.
  unfold Buffer.bucket, Buffer.set_bucket. simpl.
  rewrite list_lookup_total_insert. case_decide; auto.
Qed.

Lemma core_set_bucket (i : nat) (v : ptr) (k : kernel) :
  (forall n, v = Some n -> has_data k n) ->
  core k -> core (Buffer.set_bucket i v k).
Proof.
  intros Hv [Hf Hp]. split.
  - exact Hf.
  - intros m [[j Hj]|[j Hj]].
    + destruct (bucket_set_bucket i j v k) as [E|E]; rewrite E in Hj.
      * apply Hv, Hj.
      * apply Hp. left. exists j. exact Hj.
    + apply Hp. right. exists j. exact Hj.
Qed.

(** A pointer read from the hash index leads to an entry with a frame. *)
Lemma core_next_hash (k : kernel) (q : ptr) (n : nat) :
  core k -> Buf.next_hash (Buffer.rd k q) = Some n -> has_data k n.
Proof.
  intros [_ Hp] H. destruct q as [m|]; simpl in H; [|discriminate].
  apply Hp. right. exists m. exact H.
Qed.

Lemma core_bucket (k : kernel) (i n : nat) :
  core k -> Buffer.bucket k i = Some n -> has_data k n.
Proof. intros [_ Hp] H. apply Hp. left. exists i. exact H. Qed.

Lemma core_deref (k : kernel) (h : Buffer.hloc) (n : nat) :
  core k -> Buffer.deref k h = Some n -> has_data k n.
Proof.
  intros Hc H. destruct h as [i|m]; simpl in H.
  - eapply core_bucket; eassumption.
  - apply (core_next_hash k (Some m) n Hc H).
Qed.

(** Running a function one statement at a time under an invariant: the
    state after the statement is abstracted and only the invariant is
    kept. *)
Ltac hstep tac :=
  lazymatch goal with
  | |- ?I (let x := ?e in @?b x) =>
      lazymatch type of e with
      | kernel =>
          let H := fresh "HI" in
          assert (H : I e) by tac;
          change (I (b e)); cbv beta;
          revert H; generalize e;
          let x := fresh "k" in intros x H
      | _ => change (I (b e)); cbv beta
      end
  | |- _ (if ?c then _ else _) => destruct c eqn:?
  | |- _ (match ?c with _ => _ end) => destruct c eqn:?
  end.

Ltac core_prim :=
  first
    [ assumption
    | apply core_wr_keep; [reflexivity|reflexivity|reflexivity|assumption]
    | apply core_wr_next_hash;
      [ intros; eapply core_next_hash; eassumption | assumption ]
    | apply core_set_bucket;
      [ intros; eapply core_next_hash; eassumption | assumption ] ].

Lemma core_unlink (h : Buffer.hloc) (k : kernel) :
  core k -> core (Buffer.unlink h k).
Proof.
  intros HI. cbv beta delta [Buffer.unlink].
  hstep ltac:(destruct (is_null _); core_prim).
  hstep ltac:(destruct (is_null _); core_prim).
  destruct h as [i|m]; cbv beta iota delta [Buffer.is_bucket Buffer.assign];
    core_prim.
Qed.

Lemma core_remove_loop (fuel n : nat) (h : Buffer.hloc) (k k' : kernel) :
  core k -> Buffer.remove_loop fuel n h k = Some k' -> core k'.
Proof.
  intros Hc. revert h. induction fuel as [|fuel IH]; intros h; simpl.
  - discriminate.
  - destruct (Buffer.deref k h) as [m|]; [|intros [= <-]; exact Hc].
    destruct (Nat.eqb m n); [intros [= <-]; apply core_unlink, Hc|apply IH].
Qed.

Lemma core_remove_from_hash (n : nat) (k k' : kernel) :
  core k -> Buffer.remove_from_hash n k = Some k' -> core k'.
Proof. apply core_remove_loop. Qed.

(** The same lemmas with an entry known to have a frame. *)
Lemma core_with_wr_keep (v : option nat) (p : ptr) (f : Buf.t -> Buf.t)
    (k : kernel) :
  (forall x, Buf.flags (f x) = Buf.flags x) ->
  (forall x, Buf.data (f x) = Buf.data x) ->
  (forall x, Buf.next_hash (f x) = Buf.next_hash x) ->
  core_with v k -> core_with v (Buffer.wr p f k).
Proof.
  intros ? Hd ? [Hc Hv]. split; [apply core_wr_keep; assumption|].
  intros m Hm. apply has_data_wr; [assumption|exact (Hv m Hm)].
Qed.

Lemma core_with_wr_next_hash (v : option nat) (p q : ptr) (k : kernel) :
  (forall n, q = Some n -> has_data k n) ->
  core_with v k -> core_with v (Buffer.wr p (Buf.set_next_hash q) k).
Proof.
  intros Hq [Hc Hv]. split; [apply core_wr_next_hash; assumption|].
  intros m Hm. apply has_data_wr; [reflexivity|exact (Hv m Hm)].
Qed.

Lemma core_with_set_bucket (v : option nat) (i : nat) (q : ptr)
    (k : kernel) :
  (forall n, q = Some n -> has_data k n) ->
  core_with v k -> core_with v (Buffer.set_bucket i q k).
Proof.
  intros Hq [Hc Hv]. split; [apply core_set_bucket; assumption|exact Hv].
Qed.

Ltac core_with_prim :=
  first
    [ assumption
    | match goal with
      | H : core_with _ ?k |- _ =>
          apply (core_with_same m_core _ k);
          [ exact H | frame_steps | reflexivity ]
      end
    | apply core_with_clear_flag; assumption
    | apply core_with_wr_keep;
      [reflexivity|reflexivity|reflexivity|assumption]
    | apply (core_with_wr_keep _ (Some _));
      [reflexivity|reflexivity|reflexivity|assumption]
    | apply core_with_wr_next_hash; [ | assumption ]
    | apply (core_with_wr_next_hash _ (Some _)); [ | assumption ]
    | apply core_with_set_bucket; [ | assumption ] ].

Ltac good_ptr :=
  let n := fresh "n" in let E := fresh "E" in
  intros n E;
  first
    [ discriminate E
    | match goal with
      | H : core_with _ _ |- _ => exact (proj2 H _ E)
      end
    | match goal with
      | H : core_with _ _ |- _ =>
          first [ eapply core_bucket; [exact (proj1 H)|exact E]
                | eapply core_next_hash; [exact (proj1 H)|exact E] ]
      end ].

Lemma core_with_insert_to_hash (v : nat) (k : kernel) :
  core_with (Some v) k -> core_with (Some v) (Buffer.insert_to_hash v k).
Proof.
  intros HI. cbv beta delta [Buffer.insert_to_hash]. hstep idtac.
  hstep idtac.
  - hstep ltac:(core_with_prim; good_ptr).
    hstep ltac:(core_with_prim; good_ptr).
    hstep ltac:(core_with_prim; good_ptr).
    core_with_prim; good_ptr.
  - hstep ltac:(core_with_prim; good_ptr).
    hstep ltac:(core_with_prim; good_ptr).
    core_with_prim; good_ptr.
Qed.

Lemma core_with_remove_from_dirty_list (v : option nat) (n : nat)
    (k : kernel) :
  core_with v k -> core_with v (Buffer.remove_from_dirty_list n k).
Proof.
  intros HI. cbv beta delta [Buffer.remove_from_dirty_list].
  do 6 hstep ltac:(core_with_prim).
  core_with_prim.
Qed.

Lemma core_with_sync_one_buffer (v : option nat) (n : nat) (k : kernel) :
  core_with v k -> core_with v (Buffer.sync_one_buffer n k).
Proof.
  intros HI. cbv beta delta [Buffer.sync_one_buffer].
  hstep idtac; [|exact HI]. hstep idtac; [|exact HI].
  do 3 hstep idtac. hstep ltac:(core_with_prim).
  hstep idtac; [exact HI0|].
  apply core_with_remove_from_dirty_list, HI0.
Qed.

Lemma core_with_None (k : kernel) : core k <-> core_with None k.
Proof. unfold core_with. split; [intros H; split; [exact H|discriminate]|tauto]. Qed.

Lemma core_sync_one_buffer (n : nat) (k : kernel) :
  core k -> core (Buffer.sync_one_buffer n k).
Proof.
  intros H. apply core_with_None, core_with_sync_one_buffer, core_with_None, H.
Qed.

Lemma search_loop_has_data (fuel : nat) (d b s : Z) (p : ptr) (k : kernel)
    (n : nat) :
  core k -> (forall m, p = Some m -> has_data k m) ->
  Buffer.search_loop fuel d b s p k = Some (Some n) -> has_data k n.
Proof.
  intros Hc. revert p. induction fuel as [|fuel IH]; intros p Hp; simpl.
  - discriminate.
  - destruct p as [m|]; [|discriminate].
    destruct (_ && _).
    + intros [= <-]. apply Hp. reflexivity.
    + apply IH. intros m' Hm'. apply (core_next_hash k (Some m) m' Hc Hm').
Qed.

Lemma search_buffer_hash_has_data (d b s : Z) (k : kernel) (n : nat) :
  core k -> Buffer.search_buffer_hash d b s k = Some (Some n) ->
  has_data k n.
Proof.
  intros Hc. apply search_loop_has_data; [exact Hc|].
  intros m Hm. eapply core_bucket; eassumption.
Qed.

Lemma brelse_locked_ne (v m : nat) (k : kernel) :
  v <> m ->
  Buffer.flag (Buffer.brelse v k) m BUFFER_LOCKED
  = Buffer.flag k m BUFFER_LOCKED.
Proof.
  intros Hne. unfold Buffer.brelse. rewrite flag_clear_flag_ne by exact Hne.
  rewrite (same_flag _ _ _ m BUFFER_LOCKED
             (insert_on_free_list_same v _) eq_refl).
  destruct (Buffer.flag k v BUFFER_DIRTY); [|reflexivity].
  apply (same_flag _ _ _ m BUFFER_LOCKED
           (insert_on_dirty_list_same v _) eq_refl).
Qed.

Lemma brelse_locked_eq (v : nat) (k : kernel) :
  Buffer.flag (Buffer.brelse v k) v BUFFER_LOCKED = false.
Proof.
  destruct (decide (v < Buffer.NR_BUFFERS k)%nat) as [Hn|Hn].
  - unfold Buffer.brelse.
    apply (flag_clear_flag_eq v BUFFER_LOCKED 1); [reflexivity|lia|].
    rewrite (same_NR_BUFFERS _ _ _ (insert_on_free_list_same v _)).
    destruct (Buffer.flag k v BUFFER_DIRTY); [|exact Hn].
    rewrite (same_NR_BUFFERS _ _ _ (insert_on_dirty_list_same v _)).
    exact Hn.
  - apply flag_outside.
    rewrite (same_NR_BUFFERS _ _ _ (brelse_same v k)). lia.
Qed.

Lemma has_data_lt (k : kernel) (n : nat) :
  has_data k n -> (n < Buffer.NR_BUFFERS k)%nat.
Proof.
  intros H. destruct (decide (n < Buffer.NR_BUFFERS k)%nat) as [?|Hge];
    [assumption|].
  exfalso. apply H. rewrite buf_outside by lia. reflexivity.
Qed.

(** ** The free list stays inside the table *)

Lemma free_ok_same (μ : mask) (k k' : kernel) :
  free_ok k -> same μ k k' -> m_free μ = false -> m_head μ = false ->
  free_ok k'.
Proof.
  intros [Hh Hn] Hs Hf Hd. unfold free_ok.
  rewrite (same_NR_BUFFERS _ _ _ Hs), (same_head _ _ _ Hs Hd). split.
  - exact Hh.
  - intros m n. rewrite (proj2 (same_free _ _ _ m Hs Hf)). apply Hn.
Qed.

Lemma free_ok_wr_prev (p v : ptr) (k : kernel) :
  free_ok k -> free_ok (Buffer.wr p (Buf.set_prev_free v) k).
Proof.
  intros [Hh Hn]. unfold free_ok.
  assert (Buffer.NR_BUFFERS (Buffer.wr p (Buf.set_prev_free v) k)
          = Buffer.NR_BUFFERS k) as ->
    by (destruct p; [apply NR_BUFFERS_upd|reflexivity]).
  split.
  - destruct p; exact Hh.
  - intros m n. rewrite (proj_wr Buf.next_free) by reflexivity. apply Hn.
Qed.

Lemma free_ok_wr_next (p v : ptr) (k : kernel) :
  (forall n, v = Some n -> (n < Buffer.NR_BUFFERS k)%nat) ->
  free_ok k -> free_ok (Buffer.wr p (Buf.set_next_free v) k).
Proof.
  intros Hv [Hh Hn]. unfold free_ok.
  assert (Buffer.NR_BUFFERS (Buffer.wr p (Buf.set_next_free v) k)
          = Buffer.NR_BUFFERS k) as ->
    by (destruct p; [apply NR_BUFFERS_upd|reflexivity]).
  split.
  - destruct p; exact Hh.
  - intros m n. destruct p as [q|]; simpl; [|apply Hn].
    rewrite buf_upd. case_decide; [simpl; apply Hv|apply Hn].
Qed.

Lemma free_ok_set_head (v : ptr) (k : kernel) :
  (forall n, v = Some n -> (n < Buffer.NR_BUFFERS k)%nat) ->
  free_ok k -> free_ok (set_buffer_head v k).
Proof. intros Hv [Hh Hn]. split; [exact Hv|exact Hn]. Qed.

Lemma free_ok_next (k : kernel) (q : ptr) (n : nat) :
  free_ok k -> Buf.next_free (Buffer.rd k q) = Some n ->
  (n < Buffer.NR_BUFFERS k)%nat.
Proof.
  intros [_ Hn] H. destruct q as [m|]; simpl in H; [|discriminate].
  eapply Hn, H.
Qed.

Lemma NR_BUFFERS_wr (p : ptr) (f : Buf.t -> Buf.t) (k : kernel) :
  Buffer.NR_BUFFERS (Buffer.wr p f k) = Buffer.NR_BUFFERS k.
Proof. destruct p; [apply NR_BUFFERS_upd|reflexivity]. Qed.

Lemma free_ok_at_wr_prev (a b : nat) (p v : ptr) (k : kernel) :
  free_ok_at a b k -> free_ok_at a b (Buffer.wr p (Buf.set_prev_free v) k).
Proof.
  intros [H Hn]. split; [apply free_ok_wr_prev, H|].
  rewrite NR_BUFFERS_wr. exact Hn.
Qed.

Lemma free_ok_at_wr_next (a b : nat) (p v : ptr) (k : kernel) :
  (forall m, v = Some m -> (m < Buffer.NR_BUFFERS k)%nat) ->
  free_ok_at a b k -> free_ok_at a b (Buffer.wr p (Buf.set_next_free v) k).
Proof.
  intros Hv [H Hn]. split; [apply free_ok_wr_next; assumption|].
  rewrite NR_BUFFERS_wr. exact Hn.
Qed.

Lemma free_ok_at_upd_prev (a b n : nat) (v : ptr) (k : kernel) :
  free_ok_at a b k -> free_ok_at a b (Buffer.upd n (Buf.set_prev_free v) k).
Proof. apply (free_ok_at_wr_prev a b (Some n)). Qed.

Lemma free_ok_at_upd_next (a b n : nat) (v : ptr) (k : kernel) :
  (forall m, v = Some m -> (m < Buffer.NR_BUFFERS k)%nat) ->
  free_ok_at a b k -> free_ok_at a b (Buffer.upd n (Buf.set_next_free v) k).
Proof. apply (free_ok_at_wr_next a b (Some n)). Qed.

Lemma free_ok_at_set_head (a b : nat) (v : ptr) (k : kernel) :
  (forall m, v = Some m -> (m < Buffer.NR_BUFFERS k)%nat) ->
  free_ok_at a b k -> free_ok_at a b (set_buffer_head v k).
Proof.
  intros Hv [H Hn]. split; [apply free_ok_set_head; assumption|exact Hn].
Qed.

Ltac free_ok_ptr :=
  let m := fresh "m" in let E := fresh "E" in
  intros m E;
  first
    [ discriminate E
    | match goal with
      | H : free_ok_at _ _ _ |- _ =>
          first [ injection E as <-; exact (proj1 (proj2 H))
                | injection E as <-; exact (proj2 (proj2 H))
                | exact (proj1 (proj1 H) _ E)
                | eapply free_ok_next; [exact (proj1 H)|exact E]
                | eapply (free_ok_next _ (Some _)); [exact (proj1 H)|exact E] ]
      end ].

Ltac free_ok_prim :=
  first
    [ assumption
    | apply free_ok_at_wr_prev; assumption
    | apply free_ok_at_upd_prev; assumption
    | apply free_ok_at_wr_next; [free_ok_ptr|assumption]
    | apply free_ok_at_upd_next; [free_ok_ptr|assumption]
    | apply free_ok_at_set_head; [free_ok_ptr|assumption] ].

Lemma free_ok_insert_on_free_list (n : nat) (k : kernel) :
  (n < Buffer.NR_BUFFERS k)%nat -> free_ok k ->
  free_ok (Buffer.insert_on_free_list n k).
Proof.
  intros Hn Hf. cbv beta delta [Buffer.insert_on_free_list].
  destruct (buffer_head k) as [h|] eqn:Eh.
  - assert (free_ok_at n h k) as HI
      by (split; [exact Hf|split; [exact Hn|exact (proj1 Hf _ Eh)]]).
    cut (free_ok_at n h
           (let k0 := Buffer.upd n (Buf.set_next_free (Some h)) k in
            let k1 := Buffer.upd n
                        (Buf.set_prev_free
                           (Buf.prev_free (Buffer.rd k0 (buffer_head k0))))
                        k0 in
            let k2 := Buffer.wr
                        (Buf.prev_free (Buffer.rd k1 (buffer_head k1)))
                        (Buf.set_next_free (Some n)) k1 in
            let k3 := Buffer.wr (buffer_head k2)
                        (Buf.set_prev_free (Some n)) k2 in
            if negb (Buffer.flag k3 n BUFFER_VALID)
            then set_buffer_head (Some n) k3 else k3));
      [intros H; exact (proj1 H)|].
    do 4 hstep ltac:(free_ok_prim). hstep idtac; free_ok_prim.
  - assert (free_ok_at n n k) as HI by (split; [exact Hf|split; exact Hn]).
    cut (free_ok_at n n
           (let k0 := Buffer.upd n (Buf.set_next_free (Some n)) k in
            let k1 := Buffer.upd n (Buf.set_prev_free (Some n)) k0 in
            set_buffer_head (Some n) k1));
      [intros H; exact (proj1 H)|].
    do 2 hstep ltac:(free_ok_prim). free_ok_prim.
Qed.

Lemma free_ok_remove_from_free_list (n : nat) (k : kernel) :
  free_ok k -> free_ok (Buffer.remove_from_free_list n k).
Proof.
  intros Hf. cbv beta delta [Buffer.remove_from_free_list].
  destruct (buffer_head k) as [h|] eqn:Eh; [|exact Hf].
  assert (free_ok_at h h k) as HI
    by (split; [exact Hf|split; exact (proj1 Hf _ Eh)]).
  revert HI. generalize h. clear Eh h. intros h HI.
  match goal with |- free_ok ?e => cut (free_ok_at h h e) end;
    [intros H; exact (proj1 H)|].
  do 2 hstep ltac:(free_ok_prim).
  hstep ltac:(destruct (ptr_eqb _ _); free_ok_prim).
  hstep idtac; free_ok_prim.
Qed.

Lemma free_ok_brelse (v : nat) (k : kernel) :
  (v < Buffer.NR_BUFFERS k)%nat -> free_ok k -> free_ok (Buffer.brelse v k).
Proof.
  intros Hv Hf. unfold Buffer.brelse.
  eapply free_ok_same;
    [|apply (same_clear_flag m_lock); reflexivity|reflexivity|reflexivity].
  destruct (Buffer.flag k v BUFFER_DIRTY).
  - apply free_ok_insert_on_free_list.
    + rewrite (same_NR_BUFFERS _ _ _ (insert_on_dirty_list_same v k)).
      exact Hv.
    + eapply free_ok_same;
        [exact Hf|apply insert_on_dirty_list_same|reflexivity|reflexivity].
  - apply free_ok_insert_on_free_list; assumption.
Qed.

Lemma framed_brelse (v : nat) (k : kernel) :
  (v < Buffer.NR_BUFFERS k)%nat -> framed k -> framed (Buffer.brelse v k).
Proof.
  intros Hv (Hc & Hl & Hf). split; [|split].
  - eapply core_same; [exact Hc|apply brelse_same|reflexivity].
  - intros m Hm. destruct (decide (v = m)) as [<-|Hne].
    + rewrite brelse_locked_eq in Hm. discriminate.
    + rewrite brelse_locked_ne in Hm by exact Hne.
      eapply same_has_data; [apply brelse_same|reflexivity|apply Hl, Hm].
  - apply free_ok_brelse; assumption.
Qed.

Lemma get_free_buffer_inv (k : kernel) (v : nat) (k1 : kernel) :
  Buffer.get_free_buffer k = Some (Some v, k1) ->
  buffer_head k = Some v /\ Buffer.flag k v BUFFER_LOCKED = false
  /\ k1 = Buffer.set_flag v BUFFER_LOCKED (Buffer.remove_from_free_list v k).
Proof.
  unfold Buffer.get_free_buffer. destruct (buffer_head k) as [n|];
    [|discriminate].
  destruct (Buffer.flag k n BUFFER_LOCKED) eqn:E; [discriminate|].
  intros [= <- <-]. auto.
Qed.

Lemma get_free_buffer_locked (k : kernel) (v : nat) (k1 : kernel) (m : nat) :
  Buffer.get_free_buffer k = Some (Some v, k1) -> m <> v ->
  Buffer.flag k1 m BUFFER_LOCKED = Buffer.flag k m BUFFER_LOCKED.
Proof.
  intros H Hne. apply get_free_buffer_inv in H as (_ & _ & ->).
  rewrite flag_set_flag_ne by auto.
  apply (same_flag _ _ _ m BUFFER_LOCKED
           (remove_from_free_list_same v _) eq_refl).
Qed.

Lemma get_free_buffer_free_ok (k : kernel) (v : nat) (k1 : kernel) :
  free_ok k -> Buffer.get_free_buffer k = Some (Some v, k1) ->
  free_ok k1 /\ (v < Buffer.NR_BUFFERS k)%nat.
Proof.
  intros Hf H. apply get_free_buffer_inv in H as (Hh & _ & ->). split.
  - eapply free_ok_same;
      [|apply (same_set_flag m_lock); reflexivity|reflexivity|reflexivity].
    apply free_ok_remove_from_free_list, Hf.
  - exact (proj1 Hf _ Hh).
Qed.

Lemma taken_step (μ : mask) (k : kernel) (v : nat) (x x' : kernel) :
  taken k v x -> core_with (Some v) x' -> same μ x x' ->
  m_data μ = false -> Z.land BUFFER_LOCKED (m_flags μ) = 0 ->
  m_free μ = false -> m_head μ = false ->
  taken k v x'.
Proof.
  intros (_ & Hd & Hl & Hf) Hc Hs Hmd Hmf Hmr Hmh.
  split; [exact Hc|]. split; [|split].
  - intros m Hm. eapply same_has_data; [exact Hs|exact Hmd|apply Hd, Hm].
  - intros m Hm. rewrite (same_flag _ _ _ m BUFFER_LOCKED Hs Hmf).
    apply Hl, Hm.
  - eapply free_ok_same; eassumption.
Qed.

Lemma taken_intro (k : kernel) (v : nat) (x : kernel) :
  core x -> has_data x v -> (forall m, has_data k m -> has_data x m) ->
  (forall m, m <> v ->
     Buffer.flag x m BUFFER_LOCKED = Buffer.flag k m BUFFER_LOCKED) ->
  free_ok x -> taken k v x.
Proof.
  intros Hc Hv Hd Hl Hf. split; [|split; [|split]; assumption].
  split; [exact Hc|]. intros n [= <-]. exact Hv.
Qed.

Lemma taken_framed (k : kernel) (v : nat) (x : kernel) :
  framed k -> taken k v x -> framed x /\ has_data x v.
Proof.
  intros (_ & Hl & _) ([Hc Hv] & Hd & Hf & Hfo).
  split; [|apply Hv; reflexivity].
  split; [exact Hc|]. split; [|exact Hfo]. intros m Hm.
  destruct (decide (m = v)) as [->|Hne]; [apply Hv; reflexivity|].
  apply Hd, Hl. rewrite <- Hf by exact Hne. exact Hm.
Qed.

(** The end of [getblk]: the victim is moved to its new place in the hash
    index. *)
Lemma getblk_rebind (k : kernel) (v : nat) (d b s : Z) (k2 k3 : kernel) :
  taken k v k2 -> Buffer.remove_from_hash v k2 = Some k3 ->
  taken k v
    (Buffer.clear_flag v BUFFER_VALID
       (Buffer.insert_to_hash v (Buffer.upd v (Buf.set_key d b s) k3))).
Proof.
  intros Ht Hr.
  pose proof (remove_from_hash_same _ _ _ Hr) as Hs.
  cbv [st kernel_state] in Hs.
  assert (taken k v k3) as Ht3.
  { eapply taken_step; [exact Ht| |exact Hs|reflexivity..].
    destruct Ht as [[Hc Hv] _]. split.
    - eapply core_remove_from_hash; eassumption.
    - intros n Hn. eapply same_has_data; [exact Hs|reflexivity|].
      apply Hv, Hn. }
  assert (taken k v (Buffer.upd v (Buf.set_key d b s) k3)) as Ht4.
  { assert (same m_rekey k3 (Buffer.upd v (Buf.set_key d b s) k3)) as Hs4
      by (apply same_upd; intros []; reflexivity).
    eapply taken_step; [exact Ht3| |exact Hs4|reflexivity..].
    eapply core_with_same; [apply Ht3|exact Hs4|reflexivity]. }
  assert (taken k v (Buffer.insert_to_hash v
                       (Buffer.upd v (Buf.set_key d b s) k3))) as Ht5.
  { eapply taken_step;
      [exact Ht4| |apply insert_to_hash_same|reflexivity..].
    apply core_with_insert_to_hash, Ht4. }
  eapply (taken_step (m_bits BUFFER_VALID)); [exact Ht5| | |reflexivity..].
  - apply core_with_clear_flag, Ht5.
  - apply same_clear_flag. reflexivity.
Qed.

Lemma getblk_framed (d b s : Z) (k : kernel) (r : ptr) (k' : kernel) :
  framed k -> Buffer.getblk d b s k = Some (r, k') ->
  framed k' /\ forall n, r = Some n -> has_data k' n.
Proof.
  intros Hfr H. pose proof Hfr as (Hc & Hl & Hfo). unfold Buffer.getblk in H.
  destruct (Buffer.search_buffer_hash d b s k) as [[n|]|] eqn:Hs;
    simpl in H; [| |discriminate].
  - (* found in the hash index *)
    destruct (Buffer.flag k n BUFFER_LOCKED) eqn:El; [discriminate|].
    injection H as <- <-.
    pose proof (search_buffer_hash_has_data _ _ _ _ _ Hc Hs) as Hn.
    assert (same m_take k (Buffer.remove_from_free_list n
                             (Buffer.set_flag n BUFFER_LOCKED k))) as Hsm.
    { apply (same_trans _ _ (Buffer.set_flag n BUFFER_LOCKED k)).
      - apply same_set_flag. reflexivity.
      - eapply same_mono; [|apply remove_from_free_list_same]. reflexivity. }
    assert (has_data (Buffer.remove_from_free_list n
                        (Buffer.set_flag n BUFFER_LOCKED k)) n) as Hn'
      by (eapply same_has_data; [exact Hsm|reflexivity|exact Hn]).
    split; [|intros ? [= <-]; exact Hn'].
    split; [eapply core_same; [exact Hc|exact Hsm|reflexivity]|].
    split.
    + intros m Hm. destruct (decide (n = m)) as [<-|Hne]; [exact Hn'|].
      eapply same_has_data; [exact Hsm|reflexivity|]. apply Hl.
      rewrite (same_flag _ _ _ m BUFFER_LOCKED
                 (remove_from_free_list_same n _) eq_refl) in Hm.
      rewrite flag_set_flag_ne in Hm by exact Hne. exact Hm.
    + apply free_ok_remove_from_free_list.
      eapply free_ok_same;
        [exact Hfo|apply (same_set_flag m_lock); reflexivity
        |reflexivity|reflexivity].
  - (* a victim from the free list *)
    destruct (Buffer.get_free_buffer k) as [[[v|] k1]|] eqn:Hg;
      simpl in H; try discriminate.
    pose proof (get_free_buffer_same _ _ Hg) as Hs1.
    cbv [st pair_state snd] in Hs1.
    destruct (get_free_buffer_free_ok _ _ _ Hfo Hg) as [Hfo1 Hv].
    assert (core k1) as Hc1
      by (eapply core_same; [exact Hc|exact Hs1|reflexivity]).
    assert (forall m, has_data k m -> has_data k1 m) as Hd1
      by (intros m; eapply same_has_data; [exact Hs1|reflexivity]).
    assert (forall m, m <> v -> Buffer.flag k1 m BUFFER_LOCKED
                                = Buffer.flag k m BUFFER_LOCKED) as Hl1
      by (intros m; eapply get_free_buffer_locked; exact Hg).
    assert (forall k2 k3, taken k v k2 ->
              Buffer.remove_from_hash v k2 = Some k3 ->
              Some (Some v, Buffer.clear_flag v BUFFER_VALID
                      (Buffer.insert_to_hash v
                         (Buffer.upd v (Buf.set_key d b s) k3)))
              = Some (r, k') ->
              framed k' /\ forall n, r = Some n -> has_data k' n) as Hend.
    { intros k2 k3 Ht Hr [= <- <-].
      destruct (taken_framed _ _ _ Hfr (getblk_rebind _ _ d b s _ _ Ht Hr))
        as [Hf Hv'].
      split; [exact Hf|]. intros n [= <-]. exact Hv'. }
    destruct (Buffer.flag k1 v BUFFER_DIRTY) eqn:Ed; simpl in H.
    + (* dirty: written back first *)
      destruct (Buffer.remove_from_hash v (Buffer.sync_one_buffer v k1))
        as [k3|] eqn:Hr; simpl in H; [|discriminate].
      refine (Hend _ _ _ Hr H).
      pose proof (sync_one_buffer_same v k1) as Hs2.
      apply taken_intro.
      * apply core_sync_one_buffer, Hc1.
      * eapply same_has_data; [exact Hs2|reflexivity|].
        apply (proj1 Hc1). right. exact Ed.
      * intros m Hm. eapply same_has_data; [exact Hs2|reflexivity|].
        apply Hd1, Hm.
      * intros m Hm. rewrite (same_flag _ _ _ m BUFFER_LOCKED Hs2 eq_refl).
        apply Hl1, Hm.
      * eapply free_ok_same; [exact Hfo1|exact Hs2|reflexivity|reflexivity].
    + destruct (is_null (Buf.data (Buffer.buf k1 v))) eqn:En.
      * (* no frame yet *)
        destruct (kmalloc k1) as [[a k1']|] eqn:Hk; simpl in H;
          [|discriminate].
        pose proof (kmalloc_same _ _ Hk) as Hs2.
        cbv [st pair_state snd] in Hs2.
        assert (Buffer.NR_BUFFERS k1' = Buffer.NR_BUFFERS k) as HN
          by (rewrite (same_NR_BUFFERS _ _ _ Hs2);
              apply (same_NR_BUFFERS _ _ _ Hs1)).
        destruct a as [a|]; simpl in H.
        -- destruct (Buffer.remove_from_hash v _) as [k3|] eqn:Hr;
             simpl in H; [|discriminate].
           refine (Hend _ _ _ Hr H).
           assert (same (mask_or m_alloc (mk_mask false true 0 false false
                           false false false false false false false false))
                     k1' (Buffer.add_buffers (PAGE_SIZE / 1024)
                        (Buffer.upd v (Buf.set_data (Some a)) k1'))) as Hs3.
           { apply (same_trans _ _
                      (Buffer.upd v (Buf.set_data (Some a)) k1')).
             - apply same_upd. intros []; reflexivity.
             - apply same_add_buffers. reflexivity. }
           assert (forall m, has_data k1' m ->
                     has_data (Buffer.add_buffers (PAGE_SIZE / 1024)
                        (Buffer.upd v (Buf.set_data (Some a)) k1')) m)
             as Hd2.
           { intros m Hm. unfold has_data.
             change (Buffer.buf (Buffer.add_buffers ?z ?x) m)
               with (Buffer.buf x m).
             rewrite buf_upd. case_decide; [discriminate|exact Hm]. }
           apply taken_intro.
           ++ eapply (core_same m_alloc);
                [|apply same_add_buffers; reflexivity|reflexivity].
              apply core_set_data.
              eapply core_same; [exact Hc1|exact Hs2|reflexivity].
           ++ unfold has_data.
              change (Buffer.buf (Buffer.add_buffers ?z ?x) v)
                with (Buffer.buf x v).
              rewrite buf_upd_eq; [discriminate|]. rewrite HN. exact Hv.
           ++ intros m Hm. apply Hd2.
              eapply same_has_data; [exact Hs2|reflexivity|]. apply Hd1, Hm.
           ++ intros m Hm.
              rewrite (same_flag _ _ _ m BUFFER_LOCKED Hs3 eq_refl).
              rewrite (same_flag _ _ _ m BUFFER_LOCKED Hs2 eq_refl).
              apply Hl1, Hm.
           ++ eapply free_ok_same; [|exact Hs3|reflexivity|reflexivity].
              eapply free_ok_same; [exact Hfo1|exact Hs2|reflexivity..].
        -- (* no frame to be had: the victim is released *)
           injection H as <- <-.
           split; [|discriminate].
           split; [|split].
           ++ eapply core_same; [|apply brelse_same|reflexivity].
              eapply core_same; [exact Hc1|exact Hs2|reflexivity].
           ++ intros m Hm. destruct (decide (v = m)) as [<-|Hne].
              ** rewrite brelse_locked_eq in Hm. discriminate.
              ** rewrite brelse_locked_ne in Hm by exact Hne.
                 rewrite (same_flag _ _ _ m BUFFER_LOCKED Hs2 eq_refl) in Hm.
                 rewrite Hl1 in Hm by auto.
                 eapply same_has_data; [apply brelse_same|reflexivity|].
                 eapply same_has_data; [exact Hs2|reflexivity|].
                 apply Hd1, Hl, Hm.
           ++ apply free_ok_brelse; [rewrite HN; exact Hv|].
              eapply free_ok_same; [exact Hfo1|exact Hs2|reflexivity..].
      * (* the victim has a frame *)
        simpl in H.
        destruct (Buffer.remove_from_hash v k1) as [k3|] eqn:Hr;
          simpl in H; [|discriminate].
        refine (Hend _ _ _ Hr H).
        apply taken_intro; try assumption.
        unfold has_data. destruct (Buf.data (Buffer.buf k1 v));
          [discriminate|discriminate En].
Qed.

Lemma framed_same (μ : mask) (k k' : kernel) :
  framed k -> same μ k k' -> mask_le μ m_quiet = true -> framed k'.
Proof.
  intros (Hc & Hl & Hf) Hs Hle. apply (same_mono _ _ _ _ Hle) in Hs.
  split; [|split].
  - eapply core_same; [exact Hc|exact Hs|reflexivity].
  - intros m Hm. eapply same_has_data; [exact Hs|reflexivity|]. apply Hl.
    rewrite <- (same_flag _ _ _ m BUFFER_LOCKED Hs eq_refl). exact Hm.
  - eapply free_ok_same; [exact Hf|exact Hs|reflexivity..].
Qed.

Lemma framed_set_flag (n : nat) (b : Z) (k : kernel) :
  framed k -> has_data k n -> framed (Buffer.set_flag n b k).
Proof.
  intros (Hc & Hl & Hf) Hn. split; [|split].
  - apply core_set_flag; assumption.
  - intros m Hm. apply has_data_upd; [reflexivity|].
    destruct (decide (n = m)) as [<-|Hne]; [exact Hn|].
    apply Hl. rewrite flag_set_flag_ne in Hm by exact Hne. exact Hm.
  - eapply free_ok_same;
      [exact Hf|apply (same_set_flag (m_bits b))|reflexivity..].
    apply Z.lor_diag.
Qed.

Lemma bread_framed (d b s : Z) (k : kernel) (r : ptr) (k' : kernel) :
  framed k -> Buffer.bread d b s k = Some (r, k') -> framed k'.
Proof.
  intros Hfr H. unfold Buffer.bread in H.
  destruct (blk_devices k d) as [dv|]; [|injection H as <- <-; exact Hfr].
  destruct (Buffer.getblk d b s k) as [[[n|] k1]|] eqn:Hg; simpl in H;
    [| |discriminate].
  2:{ injection H as <- <-. eapply getblk_framed; eassumption. }
  destruct (getblk_framed _ _ _ _ _ _ Hfr Hg) as [Hf1 Hn].
  specialize (Hn n eq_refl).
  match type of H with
  | (if Buffer.flag ?k2 n BUFFER_VALID then _ else _) = _ =>
      assert (framed k2 /\ has_data k2 n) as [Hf2 Hn2]
  end.
  { destruct (negb (Buffer.flag k1 n BUFFER_VALID)); [|auto].
    destruct (fsop dv ≫= read_block) as [read|]; [|auto].
    destruct (read (io k1) d b s) as [ret bytes].
    match goal with
    | |- framed (if _ then Buffer.set_flag _ _ ?x else ?x) /\ _ =>
        assert (same m_quiet k1 x) as Hsx
    end.
    { apply (same_trans _ _
               (Buffer.log (read_block_call d b s ret) k1)).
      - apply same_log. reflexivity.
      - apply same_store. reflexivity. }
    assert (has_data (Buffer.store (Buf.data (Buffer.buf
               (Buffer.log (read_block_call d b s ret) k1) n)) 0 bytes
               (Z.to_nat s) (Buffer.log (read_block_call d b s ret) k1)) n)
      as Hnx by (eapply same_has_data; [exact Hsx|reflexivity|exact Hn]).
    pose proof (framed_same _ _ _ Hf1 Hsx eq_refl) as Hfx.
    destruct (0 <=? ret); [|auto]. split.
    - apply framed_set_flag; assumption.
    - apply has_data_upd; [reflexivity|exact Hnx]. }
  destruct (Buffer.flag _ n BUFFER_VALID); injection H as <- <-;
    [exact Hf2|].
  apply framed_brelse; [apply has_data_lt, Hn2|exact Hf2].
Qed.

Lemma core_sync_loop (fuel : nat) (dev : Z) (b : ptr) (k k' : kernel) :
  core k -> Buffer.sync_loop fuel dev b k = Some k' -> core k'.
Proof.
  revert b k. induction fuel as [|fuel IH]; intros b k Hc; simpl.
  - discriminate.
  - destruct b as [n|]; [|intros [= <-]; exact Hc].
    destruct ((dev =? 0) || (Buf.dev (Buffer.buf k n) =? dev)).
    + destruct (Buffer.buffer_wait n k) as [k1|] eqn:Hw; [|discriminate].
      simpl. apply IH. apply core_clear_flag, core_sync_one_buffer.
      eapply core_same; [exact Hc|exact (buffer_wait_same _ _ _ Hw)|].
      reflexivity.
    + simpl. apply IH, Hc.
Qed.

Lemma core_invalidate_loop (todo n : nat) (dev : Z) (k k' : kernel) :
  core k -> Buffer.invalidate_loop todo n dev k = Some k' -> core k'.
Proof.
  revert n k. induction todo as [|todo IH]; intros n k Hc; simpl.
  - intros [= <-]. exact Hc.
  - destruct (negb (Buffer.flag k n BUFFER_LOCKED)
              && (Buf.dev (Buffer.buf k n) =? dev)).
    + destruct (Buffer.buffer_wait n k) as [k1|] eqn:Hw; [|discriminate].
      simpl.
      destruct (Buffer.remove_from_hash n k1) as [k2|] eqn:Hr;
        [|discriminate].
      simpl. apply IH. apply core_clear_flag.
      eapply core_remove_from_hash; [|exact Hr].
      eapply core_same; [exact Hc|exact (buffer_wait_same _ _ _ Hw)|].
      reflexivity.
    + simpl. apply IH, Hc.
Qed.

Lemma framed_locking_pass (μ : mask) (k k' : kernel) :
  framed k -> core k' -> same μ k k' ->
  m_data μ = false -> m_free μ = false -> m_head μ = false ->
  (forall m, Buffer.flag k' m BUFFER_LOCKED = Buffer.flag k m BUFFER_LOCKED) ->
  framed k'.
Proof.
  intros (_ & Hl & Hf) Hc Hs Hd Hfr Hh Hlk. split; [exact Hc|]. split.
  - intros m Hm. eapply same_has_data; [exact Hs|exact Hd|].
    apply Hl. rewrite <- Hlk. exact Hm.
  - eapply free_ok_same; eassumption.
Qed.

Lemma held_inv (k : kernel) (n : nat) :
  held k n = true ->
  (n < Buffer.NR_BUFFERS k)%nat /\ Buffer.flag k n BUFFER_LOCKED = true.
Proof.
  unfold held. rewrite andb_true_iff, Nat.ltb_lt. tauto.
Qed.

Lemma run_framed (o : op) (k k' : kernel) :
  is_reclaim o = false -> framed k -> run o k = Some k' -> framed k'.
Proof.
  intros Ho Hfr H. destruct o as [d b s|n|n|fuel d|d|fuel]; simpl in H;
    [ | | | | |discriminate Ho].
  - destruct (Buffer.bread d b s k) as [[r k1]|] eqn:Hb; [|discriminate].
    injection H as <-. eapply bread_framed; eassumption.
  - destruct (held k n) eqn:Hh; [|discriminate]. injection H as <-.
    apply framed_brelse; [apply (held_inv _ _ Hh)|exact Hfr].
  - destruct (held k n) eqn:Hh; [|discriminate]. injection H as <-.
    destruct (held_inv _ _ Hh) as [Hn Hl].
    assert (has_data k n) as Hd by (apply Hfr, Hl).
    unfold Buffer.bwrite. apply framed_brelse.
    + rewrite NR_BUFFERS_set_flag. exact Hn.
    + apply framed_set_flag; assumption.
  - eapply framed_locking_pass;
      [exact Hfr| |exact (sync_buffers_same _ _ _ _ H)|reflexivity..|].
    + eapply core_sync_loop; [apply Hfr|exact H].
    + intros m. eapply sync_loop_locked, H.
  - eapply framed_locking_pass;
      [exact Hfr| |exact (invalidate_buffers_same _ _ _ H)|reflexivity..|].
    + eapply core_invalidate_loop; [apply Hfr|exact H].
    + intros m. eapply invalidate_loop_locked, H.
Qed.

Lemma runs_framed (os : list op) (k k' : kernel) :
  existsb is_reclaim os = false -> framed k -> runs os k = Some k' ->
  framed k'.
Proof.
  revert k. induction os as [|o os IH]; intros k Ho Hfr; simpl.
  - intros [= <-]. exact Hfr.
  - simpl in Ho. apply orb_false_iff in Ho as [Ho Hos].
    destruct (run o k) as [k1|] eqn:Hr; [|discriminate]. simpl.
    apply IH; [exact Hos|]. eapply run_framed; eassumption.
Qed.

(** [buffer_init] establishes the invariant. *)
Lemma buf_zeroed (k : kernel) (n m : nat) :
  Buffer.buf (set_buffer_table (replicate n Buf.zero) k) m = Buf.zero.
Proof.
  unfold Buffer.buf. simpl. rewrite list_lookup_total_alt.
  destruct (replicate n Buf.zero !! m) as [x|] eqn:E; [|reflexivity].
  apply lookup_replicate in E as [-> _]. reflexivity.
Qed.

Lemma bucket_zeroed (h i : nat) (k : kernel) :
  Buffer.bucket (set_buffer_hash_table (replicate h (None : ptr)) k) i
  = None.
Proof.
  unfold Buffer.bucket. simpl. rewrite list_lookup_total_alt.
  destruct (replicate h (None : ptr) !! i) as [x|] eqn:E; [|reflexivity].
  apply lookup_replicate in E as [-> _]. reflexivity.
Qed.

Lemma framed_zeroed (k0 : kernel) :
  unset k0 ->
  framed (set_buffer_hash_table
            (replicate (length (buffer_hash_table
               (set_buffer_table
                  (replicate (Buffer.NR_BUFFERS k0) Buf.zero) k0))) None)
            (set_buffer_table
               (replicate (Buffer.NR_BUFFERS k0) Buf.zero) k0)).
Proof.
  intros [Hh Hd].
  set (kz := set_buffer_hash_table _ _).
  assert (forall m, Buffer.buf kz m = Buf.zero) as Hz
    by (intros m; apply buf_zeroed).
  assert (forall m b, Buffer.flag kz m b = false) as Hfl
    by (intros m b; unfold Buffer.flag; rewrite Hz; reflexivity).
  split; [split|split].
  - intros n [H|H]; rewrite Hfl in H; discriminate.
  - intros n [[i Hi]|[m Hm]].
    + unfold kz in Hi. rewrite bucket_zeroed in Hi. discriminate.
    + rewrite Hz in Hm. discriminate.
  - intros n H. rewrite Hfl in H. discriminate.
  - split.
    + intros n H. change (buffer_head kz) with (buffer_head k0) in H.
      congruence.
    + intros m n H. rewrite Hz in H. discriminate.
Qed.

Lemma framed_buffer_init_loop (todo n : nat) (k : kernel) :
  (n + todo <= Buffer.NR_BUFFERS k)%nat -> framed k ->
  framed (Buffer.buffer_init_loop todo n k).
Proof.
  revert n k. induction todo as [|todo IH]; intros n k Hn Hfr; simpl.
  - exact Hfr.
  - pose proof (insert_on_free_list_same n k) as Hs.
    apply IH.
    + rewrite (same_NR_BUFFERS _ _ _ Hs). lia.
    + destruct Hfr as (Hc & Hl & Hf). split; [|split].
      * eapply core_same; [exact Hc|exact Hs|reflexivity].
      * intros m Hm. eapply same_has_data; [exact Hs|reflexivity|].
        apply Hl. rewrite <- (same_flag _ _ _ m BUFFER_LOCKED Hs eq_refl).
        exact Hm.
      * apply free_ok_insert_on_free_list; [lia|exact Hf].
Qed.

Lemma framed_buffer_init (k0 : kernel) :
  unset k0 -> framed (Buffer.buffer_init k0).
Proof.
  intros Hu. unfold Buffer.buffer_init.
  apply framed_buffer_init_loop; [|apply framed_zeroed, Hu].
  unfold Buffer.NR_BUFFERS. simpl. rewrite length_replicate. lia.
Qed.

Lemma framed_valid_has_data (k : kernel) :
  framed k -> valid_has_data k = true.
Proof.
  intros ((Hv & _) & _). unfold valid_has_data, all_buffers.
  apply forallb_forall. intros n _.
  destruct (Buffer.flag k n BUFFER_VALID) eqn:E; [|reflexivity]. simpl.
  specialize (Hv n (or_introl E)). unfold has_data in Hv.
  destruct (Buf.data (Buffer.buf k n)); [reflexivity|contradiction].
Qed.

(** C4 (amended).  As long as [reclaim_buffers] is not called, every entry
    whose [VALID] bit is set has a data frame: this holds in every state
    reached from [buffer_init] by [bread], [brelse], [bwrite],
    [sync_buffers] and [invalidate_buffers]. *)
Theorem C4_valid_has_data_without_reclaim (k : kernel) :
  reachable_without_reclaim k ->
  valid_has_data k = true
  /\ forall n, Buffer.flag k n BUFFER_VALID = true ->
               Buf.data (Buffer.buf k n) <> None.
Proof.
  intros (k0 & os & Hu & Ho & Hr).
  assert (framed k) as Hfr
    by (eapply runs_framed; [exact Ho|apply framed_buffer_init, Hu|exact Hr]).
  split; [apply framed_valid_has_data, Hfr|].
  intros n Hn. apply (proj1 (proj1 Hfr)). left. exact Hn.
Qed.

(** * C10: [file_read] at or past the end of the file *)


(** * Doubly linked chains *)

Lemma last_of_cases (prev : ptr) (l : list nat) :
  (l = [] /\ last_of prev l = prev)
  \/ (exists y, last_of prev l = Some y /\ In y l).
Proof.
  revert prev. induction l as [|n l IH]; intros prev; simpl; [auto|].
  right. destruct (IH (Some n)) as [[-> E]|(y & E & Hy)].
  - exists n. simpl. auto.
  - exists y. auto.
Qed.

Lemma seg_app (nx pv : nat -> ptr) (prev p : ptr) (l1 l2 : list nat)
    (q : ptr) :
  seg nx pv prev p (l1 ++ l2) q <->
  exists mid, seg nx pv prev p l1 mid
              /\ seg nx pv (last_of prev l1) mid l2 q.
Proof.
  revert prev p. induction l1 as [|n l1 IH]; intros prev p; simpl.
  - split; [intros H; exists p; auto|intros (mid & -> & H); exact H].
  - split.
    + intros (-> & Hpv & H). apply IH in H as (mid & H1 & H2).
      exists mid. auto.
    + intros (mid & (-> & Hpv & H1) & H2). split; [auto|]. split; [auto|].
      apply IH. exists mid. auto.
Qed.

Lemma seg_det (nx pv : nat -> ptr) (prev p : ptr) (l1 l2 : list nat) :
  seg nx pv prev p l1 None -> seg nx pv prev p l2 None -> l1 = l2.
Proof.
  revert prev p l2. induction l1 as [|n l1 IH]; intros prev p l2; simpl.
  - intros ->. destruct l2; simpl; [reflexivity|]. intros [? _]. discriminate.
  - intros (-> & _ & H1). destruct l2 as [|m l2]; simpl; [discriminate|].
    intros ([= <-] & _ & H2). f_equal. eapply IH; eassumption.
Qed.

Lemma seg_ext (nx pv nx' pv' : nat -> ptr) (prev p : ptr) (l : list nat)
    (q : ptr) :
  (forall n, In n l -> nx' n = nx n /\ pv' n = pv n) ->
  seg nx pv prev p l q -> seg nx' pv' prev p l q.
Proof.
  revert prev p. induction l as [|n l IH]; intros prev p He; simpl; [auto|].
  intros (-> & Hpv & H). destruct (He n (or_introl eq_refl)) as [En Ep].
  split; [reflexivity|]. split; [congruence|]. rewrite En.
  apply IH; [|exact H]. intros m Hm. apply He. right. exact Hm.
Qed.

(** The first entry of a segment. *)
Lemma seg_first (nx pv : nat -> ptr) (prev p : ptr) (l : list nat)
    (q : ptr) :
  seg nx pv prev p l q -> p = match l with [] => q | n :: _ => Some n end.
Proof. destruct l; simpl; tauto. Qed.

(** The entries before [n], once [n] is unlinked. *)
Lemma seg_remove_before (nx pv nx' pv' : nat -> ptr) (l1 l2 : list nat)
    (n : nat) (prev p : ptr) :
  NoDup l1 -> ~ In n l1 ->
  (forall m, In m l1 -> nx n <> Some m) ->
  (forall m, In m l1 ->
     nx' m = (if decide (Some m = pv n) then nx n else nx m)
     /\ pv' m = (if decide (Some m = nx n) then pv n else pv m)) ->
  seg nx pv prev p l1 (Some n) -> last_of prev l1 = pv n ->
  seg nx' pv' prev (if decide (p = Some n) then nx n else p) l1 (nx n).
Proof.
  intros Hnd Hn Hb Hl. revert prev p.
  induction l1 as [|x l1 IH]; intros prev p Hseg Hlast; simpl in *.
  - subst p. rewrite decide_True by reflexivity. reflexivity.
  - destruct Hseg as (-> & Hpx & Hseg).
    assert (x <> n) as Hxn by (intros ->; apply Hn; left; reflexivity).
    rewrite decide_False by congruence.
    apply NoDup_cons in Hnd as [Hx1 Hnd]. rewrite list_elem_of_In in Hx1.
    destruct (Hl x (or_introl eq_refl)) as [Hnx Hpv].
    split; [reflexivity|]. split.
    + rewrite Hpv, decide_False; [exact Hpx|].
      intros E. apply (Hb x); [left; reflexivity|]. symmetry. exact E.
    + assert (nx' x = if decide (nx x = Some n) then nx n else nx x) as ->.
      { rewrite Hnx. pose proof (seg_first _ _ _ _ _ _ Hseg) as Ef.
        destruct (decide (Some x = pv n)) as [Ea|Ea];
          destruct (decide (nx x = Some n)) as [Eb|Eb]; try reflexivity.
        - (* [x] is before [n], so nothing lies between them *)
          exfalso. destruct l1 as [|c l1]; [exact (Eb Ef)|].
          destruct (last_of_cases (Some x) (c :: l1))
            as [[? _]|(y & Ey & Hy)]; [discriminate|].
          rewrite Hlast, <- Ea in Ey. injection Ey as <-. exact (Hx1 Hy).
        - exfalso. destruct l1 as [|c l1]; [exact (Ea Hlast)|].
          rewrite Ef in Eb. injection Eb as ->.
          apply Hn. right. left. reflexivity. }
      apply IH; auto.
Qed.

(** The entries after [n], once [n] is unlinked. *)
Lemma seg_remove_after (nx pv nx' pv' : nat -> ptr) (l2 : list nat)
    (n : nat) :
  NoDup l2 ->
  (forall m, In m l2 -> pv n <> Some m) ->
  (forall m, In m l2 ->
     nx' m = (if decide (Some m = pv n) then nx n else nx m)
     /\ pv' m = (if decide (Some m = nx n) then pv n else pv m)) ->
  seg nx pv (Some n) (nx n) l2 None ->
  seg nx' pv' (pv n) (nx n) l2 None.
Proof.
  intros Hnd Ha Hl Hseg. destruct l2 as [|s l2]; simpl in *; [exact Hseg|].
  destruct Hseg as (Es & Hps & Hseg).
  apply NoDup_cons in Hnd as [Hs2 Hnd]. rewrite list_elem_of_In in Hs2.
  destruct (Hl s (or_introl eq_refl)) as [Hnx Hpv].
  split; [exact Es|]. split.
  - rewrite Hpv, decide_True by (symmetry; exact Es). reflexivity.
  - rewrite Hnx, decide_False
      by (intros E; apply (Ha s); [left; reflexivity|symmetry; exact E]).
    eapply seg_ext; [|exact Hseg]. intros m Hm.
    destruct (Hl m (or_intror Hm)) as [Hnx' Hpv']. rewrite Hnx', Hpv'.
    split; apply decide_False.
    + intros E. apply (Ha m); [right; exact Hm|symmetry; exact E].
    + rewrite Es. intros [= ->]. exact (Hs2 Hm).
Qed.

(** Unlinking the entry [n]: its neighbours are joined, the other links
    are as they were. *)
Lemma seg_remove (nx pv nx' pv' : nat -> ptr) (hd hd' : ptr)
    (l1 l2 : list nat) (n : nat) :
  seg nx pv None hd (l1 ++ n :: l2) None -> NoDup (l1 ++ n :: l2) ->
  (forall m, In m (l1 ++ l2) ->
     nx' m = (if decide (Some m = pv n) then nx n else nx m)
     /\ pv' m = (if decide (Some m = nx n) then pv n else pv m)) ->
  hd' = (if decide (hd = Some n) then nx n else hd) ->
  seg nx' pv' None hd' (l1 ++ l2) None.
Proof.
  intros Hs Hnd Hl ->.
  apply seg_app in Hs as (mid & H1 & H2). simpl in H2.
  destruct H2 as (-> & Hpvn & H2).
  apply NoDup_app in Hnd as (Hnd1 & Hdis & Hnd2).
  apply NoDup_cons in Hnd2 as [Hn2 Hnd2]. rewrite list_elem_of_In in Hn2.
  assert (~ In n l1) as Hn1.
  { intros Hin. apply list_elem_of_In in Hin.
    apply (Hdis n Hin). left. }
  assert (forall m, In m l1 -> ~ In m l2) as Hd12.
  { intros m Hm1 Hm2. apply list_elem_of_In in Hm1.
    apply (Hdis m Hm1). right. apply list_elem_of_In. exact Hm2. }
  pose proof (seg_first _ _ _ _ _ _ H2) as Eb.
  apply seg_app. exists (nx n). split.
  - eapply seg_remove_before; eauto.
    + intros m Hm E. rewrite Eb in E. destruct l2 as [|s l2];
        [discriminate|]. injection E as ->.
      apply (Hd12 m Hm). left. reflexivity.
    + intros m Hm. apply Hl, in_or_app. left. exact Hm.
  - rewrite <- Hpvn. eapply seg_remove_after; eauto.
    + intros m Hm E. rewrite Hpvn in E.
      destruct (last_of_cases None l1) as [[_ E']|(y & Ey & Hy)].
      * rewrite E' in E. discriminate.
      * rewrite Ey in E. injection E as ->. exact (Hd12 m Hy Hm).
    + intros m Hm. apply Hl, in_or_app. right. exact Hm.
Qed.

(** What the links of an entry in the middle of a chain are. *)
Lemma seg_middle (nx pv : nat -> ptr) (hd : ptr) (l1 l2 : list nat)
    (n : nat) :
  seg nx pv None hd (l1 ++ n :: l2) None ->
  pv n = last_of None l1 /\ nx n = first_of l2
  /\ hd = first_of (l1 ++ [n]).
Proof.
  intros Hs. pose proof (seg_first _ _ _ _ _ _ Hs) as Eh.
  apply seg_app in Hs as (mid & H1 & H2). simpl in H2.
  destruct H2 as (-> & Hp & H2). split; [exact Hp|]. split.
  - rewrite (seg_first _ _ _ _ _ _ H2). destruct l2; reflexivity.
  - rewrite Eh. destruct l1; reflexivity.
Qed.

Lemma last_of_in (l : list nat) (y : nat) :
  last_of None l = Some y -> In y l.
Proof.
  intros E. destruct (last_of_cases None l) as [[_ E']|(z & Ez & Hz)];
    congruence.
Qed.

Lemma first_of_in (l : list nat) (y : nat) : first_of l = Some y -> In y l.
Proof. destruct l; simpl; [discriminate|]. intros [= ->]. auto. Qed.

Lemma NoDup_middle (l1 l2 : list nat) (n : nat) :
  NoDup (l1 ++ n :: l2) -> ~ In n l1 /\ ~ In n l2 /\ NoDup (l1 ++ l2).
Proof.
  intros H. apply NoDup_app in H as (H1 & Hd & H2).
  apply NoDup_cons in H2 as [Hn2 H2]. rewrite list_elem_of_In in Hn2.
  split; [|split; [exact Hn2|]].
  - intros Hin. apply list_elem_of_In in Hin. apply (Hd n Hin). left.
  - apply NoDup_app. split; [exact H1|]. split; [|exact H2].
    intros x Hx Hx2. apply (Hd x Hx). right. exact Hx2.
Qed.

(** * The dirty list *)

Lemma buf_add_dirty (d : Z) (k : kernel) (m : nat) :
  Buffer.buf (Buffer.add_dirty d k) m = Buffer.buf k m.
Proof. reflexivity. Qed.

Lemma buf_set_dhead (v : ptr) (k : kernel) (m : nat) :
  Buffer.buf (set_buffer_dirty_head v k) m = Buffer.buf k m.
Proof. reflexivity. Qed.

Lemma buf_if_dhead (c : bool) (v : ptr) (k : kernel) (m : nat) :
  Buffer.buf (if c then set_buffer_dirty_head v k else k) m
  = Buffer.buf k m.
Proof. destruct c; reflexivity. Qed.

Ltac read_dirty :=
  repeat first
    [ rewrite buf_add_dirty | rewrite buf_set_dhead | rewrite buf_if_dhead
    | rewrite (proj_upd Buf.next_dirty) by reflexivity
    | rewrite (proj_upd Buf.prev_dirty) by reflexivity
    | rewrite buf_upd | rewrite NR_BUFFERS_upd ].

(** The links after [remove_from_dirty_list], entry by entry. *)
Lemma remove_from_dirty_list_links (n : nat) (k : kernel) :
  let k' := Buffer.remove_from_dirty_list n k in
  let nxn := Buf.next_dirty (Buffer.buf k n) in
  let pvn := Buf.prev_dirty (Buffer.buf k n) in
  nxn <> Some n -> pvn <> Some n ->
  (forall s, nxn = Some s -> (s < Buffer.NR_BUFFERS k)%nat) ->
  (forall p, pvn = Some p -> (p < Buffer.NR_BUFFERS k)%nat) ->
  (forall m, m <> n ->
     Buf.next_dirty (Buffer.buf k' m)
     = (if decide (Some m = pvn) then nxn
        else Buf.next_dirty (Buffer.buf k m))
     /\ Buf.prev_dirty (Buffer.buf k' m)
        = (if decide (Some m = nxn) then pvn
           else Buf.prev_dirty (Buffer.buf k m)))
  /\ buffer_dirty_head k'
     = (if decide (buffer_dirty_head k = Some n) then nxn
        else buffer_dirty_head k).
Proof.
  intros k' nxn pvn Hs Hp Hsr Hpr. subst k'.
  unfold Buffer.remove_from_dirty_list, Buffer.clear_flag.
  fold nxn. fold pvn.
  destruct nxn as [s|] eqn:En; destruct pvn as [p|] eqn:Ep;
    cbn [is_null Buffer.wr];
    try (assert (s <> n) by congruence; specialize (Hsr s eq_refl));
    try (assert (p <> n) by congruence; specialize (Hpr p eq_refl));
    rewrite ?(buf_upd_ne s _ _ n) by assumption; fold pvn nxn;
    rewrite ?En, ?Ep; cbn [is_null Buffer.wr];
    rewrite ?(buf_upd_ne p _ _ n) by assumption;
    rewrite ?(buf_upd_ne s _ _ n) by assumption; fold pvn nxn;
    rewrite ?En, ?Ep; cbn [is_null Buffer.wr].
  all: split; [intros m Hm; split|].
  all: read_dirty.
  all: try solve [simpl; destruct (buffer_dirty_head k) as [h|] eqn:Eh;
                  [destruct (Nat.eqb_spec n h)|]; simpl; rewrite ?Eh;
                  repeat case_decide; congruence].
  all: repeat case_decide; simpl; try reflexivity;
    repeat match goal with H : Some _ = Some _ |- _ => injection H as H end;
    try solve [intuition (subst; try congruence; try lia)].
Qed.

Lemma dirty_wf_remove (k : kernel) (l1 l2 : list nat) (n : nat) :
  dirty_wf k (l1 ++ n :: l2) ->
  dirty_wf (Buffer.remove_from_dirty_list n k) (l1 ++ l2).
Proof.
  intros (Hs & Hnd & Hr).
  destruct (seg_middle _ _ _ _ _ _ Hs) as (Ep & En & Eh).
  destruct (NoDup_middle _ _ _ Hnd) as (Hn1 & Hn2 & Hnd').
  destruct (remove_from_dirty_list_links n k) as [Hl Hh].
  - rewrite En. intros E. apply first_of_in in E. exact (Hn2 E).
  - rewrite Ep. intros E. apply last_of_in in E. exact (Hn1 E).
  - intros s E. rewrite En in E. apply first_of_in in E.
    apply Hr, in_or_app. right. right. exact E.
  - intros p E. rewrite Ep in E. apply last_of_in in E.
    apply Hr, in_or_app. left. exact E.
  - split; [|split; [exact Hnd'|]].
    + eapply seg_remove; [exact Hs|exact Hnd| |exact Hh].
      intros m Hm. apply Hl. intros ->.
      apply in_app_or in Hm as [Hm|Hm]; [exact (Hn1 Hm)|exact (Hn2 Hm)].
    + intros m Hm.
      rewrite (same_NR_BUFFERS _ _ _ (remove_from_dirty_list_same n k)).
      apply Hr. apply in_app_or in Hm as [Hm|Hm]; apply in_or_app;
        [left|right; right]; exact Hm.
Qed.

(** A change that leaves the dirty list alone. *)
Lemma dirty_wf_same (μ : mask) (k k' : kernel) (l : list nat) :
  same μ k k' -> m_dirty μ = false -> m_dhead μ = false ->
  dirty_wf k l -> dirty_wf k' l.
Proof.
  intros Hs Hd Hh (Hseg & Hnd & Hr). split; [|split; [exact Hnd|]].
  - rewrite (same_dhead _ _ _ Hs Hh).
    eapply seg_ext; [|exact Hseg]. intros n _.
    destruct (same_dirty _ _ _ n Hs Hd) as [E1 E2]. auto.
  - intros n Hn. rewrite (same_NR_BUFFERS _ _ _ Hs). apply Hr, Hn.
Qed.
Lemma sync_one_buffer_cases (n : nat) (k : kernel) :
  (writer k n = None /\ Buffer.sync_one_buffer n k = k)
  \/ (exists w, writer k n = Some w
        /\ call_ret (write_back_call w k n) < 0
        /\ Buffer.sync_one_buffer n k = Buffer.log (write_back_call w k n) k)
  \/ (exists w, writer k n = Some w
        /\ 0 <= call_ret (write_back_call w k n)
        /\ Buffer.sync_one_buffer n k
           = Buffer.remove_from_dirty_list n
               (Buffer.log (write_back_call w k n) k)).
Proof.
  unfold writer, Buffer.sync_one_buffer, write_back_call.
  destruct (blk_devices k (Buf.dev (Buffer.buf k n))) as [d|]; simpl;
    [|left; auto].
  destruct (fsop d ≫= write_block) as [w|]; [|left; auto].
  right. simpl.
  match goal with |- context [?x <? 0] => destruct (Z.ltb_spec x 0) end.
  - left. exists w. auto.
  - right. exists w. auto.
Qed.

Lemma dirty_wf_log (e : event) (k : kernel) (l : list nat) :
  dirty_wf (Buffer.log e k) l <-> dirty_wf k l.
Proof. reflexivity. Qed.

Lemma dirty_wf_set_flag (n : nat) (b : Z) (k : kernel) (l : list nat) :
  dirty_wf k l -> dirty_wf (Buffer.set_flag n b k) l.
Proof.
  apply (dirty_wf_same (m_bits b)); [|reflexivity..].
  apply same_set_flag. simpl. apply Z.lor_diag.
Qed.

Lemma dirty_wf_clear_flag (n : nat) (b : Z) (k : kernel) (l : list nat) :
  dirty_wf k l -> dirty_wf (Buffer.clear_flag n b k) l.
Proof.
  apply (dirty_wf_same (m_bits b)); [|reflexivity..].
  apply same_clear_flag. simpl. apply Z.lor_diag.
Qed.
Lemma writer_same (μ : mask) (k k' : kernel) (n : nat) :
  same μ k k' -> m_key μ = false -> writer k' n = writer k n.
Proof.
  intros Hs Hk. unfold writer.
  destruct (same_key _ _ _ n Hs Hk) as (-> & _).
  rewrite (same_devices _ _ _ Hs). reflexivity.
Qed.

Lemma concerns_same (μ : mask) (k k' : kernel) (dev : Z) (n : nat) :
  same μ k k' -> m_key μ = false -> concerns dev k' n = concerns dev k n.
Proof.
  intros Hs Hk. unfold concerns.
  destruct (same_key _ _ _ n Hs Hk) as (-> & _). reflexivity.
Qed.

Lemma quiet_same (μ : mask) (k k' : kernel) (dev : Z) (n : nat) :
  same μ k k' -> m_key μ = false ->
  Buffer.flag k' n BUFFER_LOCKED = Buffer.flag k n BUFFER_LOCKED ->
  quiet dev k n -> quiet dev k' n.
Proof.
  intros Hs Hk Hf Hq. unfold quiet.
  rewrite (writer_same _ _ _ n Hs Hk), (concerns_same _ _ _ dev n Hs Hk), Hf.
  exact Hq.
Qed.

Lemma write_back_call_same (μ : mask) (k k' : kernel) w (n : nat) :
  same μ k k' -> m_key μ = false -> m_data μ = false -> m_io μ = false ->
  m_frames μ = false ->
  write_back_call w k' n = write_back_call w k n.
Proof.
  intros Hs Hk Hd Hi Hf. unfold write_back_call, Buffer.contents.
  destruct (same_key _ _ _ n Hs Hk) as (-> & -> & ->).
  rewrite (same_data _ _ _ n Hs Hd), (same_io _ _ _ Hs Hi),
    (same_frames _ _ _ Hs Hf). reflexivity.
Qed.
Lemma sync_round_same (n : nat) (k k1 : kernel) :
  Buffer.buffer_wait n k = Some k1 ->
  same m_sync k (Buffer.clear_flag n BUFFER_LOCKED
                   (Buffer.sync_one_buffer n k1)).
Proof.
  intros Hw. apply buffer_wait_inv in Hw as [Hu ->].
  apply (same_trans _ _ (Buffer.set_flag n BUFFER_LOCKED k)).
  - apply same_set_flag. reflexivity.
  - apply (same_trans _ _ (Buffer.sync_one_buffer n
                             (Buffer.set_flag n BUFFER_LOCKED k))).
    + apply (same_mono m_writeback); [reflexivity|].
      apply sync_one_buffer_same.
    + apply same_clear_flag. reflexivity.
Qed.

(** One round of [sync_buffers] on an entry it looks at. *)
Lemma sync_round (n : nat) (k k1 : kernel) :
  Buffer.buffer_wait n k = Some k1 ->
  let k3 := Buffer.clear_flag n BUFFER_LOCKED (Buffer.sync_one_buffer n k1) in
  (writer k n = None /\ io k3 = io k
   /\ forall l, dirty_wf k l -> dirty_wf k3 l)
  \/ (exists w, writer k n = Some w
        /\ io k3 = io k ++ [write_back_call w k n]
        /\ (call_ret (write_back_call w k n) < 0
            /\ (forall l, dirty_wf k l -> dirty_wf k3 l)
            \/ 0 <= call_ret (write_back_call w k n)
               /\ forall l1 l2, dirty_wf k (l1 ++ n :: l2) ->
                                dirty_wf k3 (l1 ++ l2))).
Proof.
  intros Hw k3. subst k3. apply buffer_wait_inv in Hw as [Hu ->].
  set (k1 := Buffer.set_flag n BUFFER_LOCKED k).
  assert (Hs : same m_lock k k1) by (apply same_set_flag; reflexivity).
  assert (Ew : writer k1 n = writer k n)
    by (apply (writer_same _ _ _ n Hs); reflexivity).
  assert (Ec : forall w, write_back_call w k1 n = write_back_call w k n)
    by (intros w; apply (write_back_call_same _ _ _ w n Hs); reflexivity).
  assert (Ei : io k1 = io k) by (apply (same_io _ _ _ Hs); reflexivity).
  assert (Hd : forall l, dirty_wf k l -> dirty_wf k1 l)
    by (intros l; apply dirty_wf_set_flag).
  destruct (sync_one_buffer_cases n k1)
    as [[Hn ->]|[(w & Hn & Hr & ->)|(w & Hn & Hr & ->)]];
    rewrite Ew in Hn; try rewrite Ec in Hr; try rewrite Ec.
  - left. split; [exact Hn|]. split; [exact Ei|].
    intros l Hl. apply dirty_wf_clear_flag, Hd, Hl.
  - right. exists w. split; [exact Hn|]. split.
    + rewrite <- Ei. reflexivity.
    + left. split; [exact Hr|]. intros l Hl.
      apply dirty_wf_clear_flag. apply dirty_wf_log, Hd, Hl.
  - right. exists w. split; [exact Hn|]. split.
    + rewrite <- Ei.
      change (io (Buffer.remove_from_dirty_list n
                    (Buffer.log (write_back_call w k n) k1))
              = io (Buffer.log (write_back_call w k n) k1)).
      apply (same_io _ _ _ (remove_from_dirty_list_same n _)). reflexivity.
    + right. split; [exact Hr|]. intros l1 l2 Hl.
      apply dirty_wf_clear_flag, dirty_wf_remove. apply dirty_wf_log, Hd, Hl.
Qed.
Lemma sync_round_quiet (dev : Z) (n m : nat) (k k1 : kernel) :
  Buffer.buffer_wait n k = Some k1 ->
  quiet dev k m ->
  quiet dev (Buffer.clear_flag n BUFFER_LOCKED
               (Buffer.sync_one_buffer n k1)) m.
Proof.
  intros Hw. apply (quiet_same m_sync).
  - apply sync_round_same, Hw.
  - reflexivity.
  - apply sync_round_locked, Hw.
Qed.

Lemma first_of_cons (rest : list nat) (n : nat) :
  first_of rest = Some n -> exists rest', rest = n :: rest'.
Proof. destruct rest; simpl; [discriminate|]. intros [= ->]. eauto. Qed.

Lemma dirty_wf_next (k : kernel) (kept rest : list nat) (n : nat) :
  dirty_wf k (kept ++ n :: rest) ->
  Buf.next_dirty (Buffer.buf k n) = first_of rest.
Proof. intros (Hs & _). apply (seg_middle _ _ _ _ _ _ Hs). Qed.

Lemma calls_since_app (k k' : kernel) (evs : list event) :
  io k' = io k ++ evs -> calls_since k k' = evs.
Proof. unfold calls_since. intros ->. apply drop_app_length. Qed.

(** The log only grows during [sync_buffers]. *)
Lemma sync_loop_grows (fuel : nat) (dev : Z) (b : ptr) (k k' : kernel) :
  Buffer.sync_loop fuel dev b k = Some k' ->
  exists evs, io k' = io k ++ evs.
Proof.
  revert b k. induction fuel as [|fuel IH]; intros b k; simpl.
  - discriminate.
  - destruct b as [n|];
      [|intros [= <-]; exists []; symmetry; apply app_nil_r].
    destruct ((dev =? 0) || (Buf.dev (Buffer.buf k n) =? dev)).
    + destruct (Buffer.buffer_wait n k) as [k1|] eqn:Hw; [|discriminate].
      simpl. intros H. destruct (IH _ _ H) as [evs E].
      destruct (sync_round n k k1 Hw) as [(_ & Ei & _)|(w & _ & Ei & _)];
        rewrite Ei in E.
      * eauto.
      * rewrite <- app_assoc in E. eauto.
    + simpl. apply IH.
Qed.

Lemma sync_loop_io (fuel : nat) (dev : Z) (b : ptr) (k k' : kernel) :
  Buffer.sync_loop fuel dev b k = Some k' ->
  io k' = io k ++ calls_since k k'.
Proof.
  intros H. destruct (sync_loop_grows _ _ _ _ _ H) as [evs E].
  rewrite (calls_since_app _ _ _ E). exact E.
Qed.
Lemma calls_since_trans (k k3 k' : kernel) (e1 : list event) :
  io k3 = io k ++ e1 -> (exists evs, io k' = io k3 ++ evs) ->
  calls_since k k' = e1 ++ calls_since k3 k'.
Proof.
  intros E1 [evs E]. rewrite (calls_since_app _ _ _ E).
  apply calls_since_app. rewrite E, E1. symmetry. apply app_assoc.
Qed.

(** A pass of [sync_buffers] whose writes all succeed leaves on the dirty
    list only entries it has nothing to do for. *)
Lemma sync_loop_first (fuel : nat) (dev : Z) :
  forall (kept rest : list nat) (k k' : kernel),
    dirty_wf k (kept ++ rest) ->
    Buffer.sync_loop fuel dev (first_of rest) k = Some k' ->
    Forall (fun e => 0 <= call_ret e) (calls_since k k') ->
    (forall n, In n kept -> quiet dev k n) ->
    exists l', dirty_wf k' l' /\ (forall n, In n l' -> quiet dev k' n)
               /\ (length l' <= length (kept ++ rest))%nat.
Proof.
  induction fuel as [|fuel IH]; intros kept rest k k' Hwf Hrun Hok Hq;
    simpl in Hrun; [discriminate|].
  destruct (first_of rest) as [n|] eqn:Ef.
  2:{ injection Hrun as <-. destruct rest; [|discriminate].
      rewrite app_nil_r in *. exists kept. auto. }
  apply first_of_cons in Ef as [rest' ->].
  rewrite (dirty_wf_next _ _ _ _ Hwf) in Hrun.
  assert (Hlen : (length ((kept ++ [n]) ++ rest')
                  = length (kept ++ n :: rest'))%nat)
    by (rewrite <- app_assoc; reflexivity).
  fold (concerns dev k n) in Hrun.
  destruct (concerns dev k n) eqn:Ec.
  - destruct (Buffer.buffer_wait n k) as [k1|] eqn:Hw; [|discriminate].
    simpl in Hrun.
    pose proof (sync_loop_grows _ _ _ _ _ Hrun) as Hg.
    pose proof (fun m => sync_round_quiet dev n m k k1 Hw) as Hq3.
    destruct (buffer_wait_inv _ _ _ Hw) as [Hu _].
    destruct (sync_round n k k1 Hw)
      as [(Hn & Ei & Hd)|(w & Hn & Ei & [[Hr Hd]|[Hr Hd]])].
    + rewrite <- (app_nil_r (io k)) in Ei.
      rewrite (calls_since_trans _ _ _ _ Ei Hg) in Hok.
      destruct (fun a c d => IH (kept ++ [n]) rest' _ _ a Hrun c d)
        as (l' & H1 & H2 & H3).
      * rewrite <- app_assoc. apply Hd, Hwf.
      * exact Hok.
      * intros m Hm. apply Hq3. apply in_app_or in Hm as [Hm|[<-|[]]];
          [apply Hq, Hm|]. intros _. auto.
      * exists l'. rewrite <- Hlen. auto.
    + rewrite (calls_since_trans _ _ _ _ Ei Hg) in Hok.
      apply Forall_app in Hok as [Hok _]. apply Forall_inv in Hok. lia.
    + rewrite (calls_since_trans _ _ _ _ Ei Hg) in Hok.
      apply Forall_app in Hok as [_ Hok].
      destruct (fun a c d => IH kept rest' _ _ a Hrun c d)
        as (l' & H1 & H2 & H3).
      * apply Hd, Hwf.
      * exact Hok.
      * intros m Hm. apply Hq3, Hq, Hm.
      * exists l'. split; [exact H1|]. split; [exact H2|].
        rewrite length_app in *. simpl. lia.
  - simpl in Hrun.
    destruct (fun a c d => IH (kept ++ [n]) rest' _ _ a Hrun c d)
      as (l' & H1 & H2 & H3).
    + rewrite <- app_assoc. exact Hwf.
    + exact Hok.
    + intros m Hm. apply in_app_or in Hm as [Hm|[<-|[]]]; [apply Hq, Hm|].
      intros E. congruence.
    + exists l'. rewrite <- Hlen. auto.
Qed.
(** A pass of [sync_buffers] over entries it has nothing to do for calls
    no driver, and it returns. *)
Lemma sync_loop_quiet (fuel : nat) (dev : Z) :
  forall (kept rest : list nat) (k : kernel),
    dirty_wf k (kept ++ rest) ->
    (forall n, In n rest -> quiet dev k n) ->
    (forall k', Buffer.sync_loop fuel dev (first_of rest) k = Some k' ->
                io k' = io k)
    /\ ((length rest < fuel)%nat ->
        exists k', Buffer.sync_loop fuel dev (first_of rest) k = Some k').
Proof.
  induction fuel as [|fuel IH]; intros kept rest k Hwf Hq.
  { split; [discriminate|]. lia. }
  destruct rest as [|n rest'].
  { simpl. split; [intros k' [= <-]; reflexivity|eauto]. }
  cbn [first_of head Buffer.sync_loop].
  rewrite (dirty_wf_next _ _ _ _ Hwf).
  fold (concerns dev k n).
  assert (Hwf' : dirty_wf k ((kept ++ [n]) ++ rest'))
    by (rewrite <- app_assoc; exact Hwf).
  destruct (concerns dev k n) eqn:Ec.
  - destruct (Hq n (or_introl eq_refl) Ec) as [Hn Hu].
    unfold Buffer.buffer_wait at 1 2. rewrite Hu.
    assert (Hw : Buffer.buffer_wait n k
                 = Some (Buffer.set_flag n BUFFER_LOCKED k))
      by (unfold Buffer.buffer_wait; rewrite Hu; reflexivity).
    cbn [mbind option_bind].
    destruct (sync_round n k _ Hw) as [(_ & Ei & Hd)|(w & Hn' & _)];
      [|congruence].
    destruct (IH (kept ++ [n]) rest'
                (Buffer.clear_flag n BUFFER_LOCKED
                   (Buffer.sync_one_buffer n
                      (Buffer.set_flag n BUFFER_LOCKED k))))
      as [H1 H2].
    + apply Hd, Hwf'.
    + intros m Hm. apply (sync_round_quiet dev n m k _ Hw), Hq. right.
      exact Hm.
    + split.
      * intros k' Hrun. rewrite (H1 _ Hrun). exact Ei.
      * intros Hlen. apply H2. simpl in Hlen. lia.
  - cbn [mbind option_bind].
    destruct (IH (kept ++ [n]) rest' k Hwf') as [H1 H2].
    + intros m Hm. apply Hq. right. exact Hm.
    + split; [exact H1|]. intros Hlen. apply H2. simpl in Hlen. lia.
Qed.
(** A pass of [sync_buffers] that starts at an entry with a driver to
    write to begins with the write-back of that entry. *)
Lemma sync_loop_at (fuel : nat) (dev : Z) (v : nat) (k k3 : kernel)
    (w : list event -> Z -> Z -> option frame -> Z -> Z) :
  Buffer.sync_loop fuel dev (Some v) k = Some k3 ->
  concerns dev k v = true -> writer k v = Some w ->
  exists evs, calls_since k k3 = write_back_call w k v :: evs.
Proof.
  intros Hrun Hc Hw. destruct fuel as [|fuel]; [discriminate|].
  simpl in Hrun. fold (concerns dev k v) in Hrun. rewrite Hc in Hrun.
  destruct (Buffer.buffer_wait v k) as [k1|] eqn:Hwait; [|discriminate].
  simpl in Hrun.
  pose proof (sync_loop_grows _ _ _ _ _ Hrun) as Hg.
  destruct (sync_round v k k1 Hwait) as [(Hn & _)|(w0 & Hn & Ei & _)];
    [congruence|].
  assert (w0 = w) by congruence. subst w0.
  rewrite (calls_since_trans _ _ _ _ Ei Hg). simpl. eauto.
Qed.

(** The walk of [sync_buffers] along a well-formed dirty list comes to
    every entry of the list. *)
Lemma sync_loop_reach (dev : Z) (v : nat) (l2 : list nat) (k3 : kernel)
    (l1 : list nat) :
  forall (fuel : nat) (kept : list nat) (k : kernel),
    dirty_wf k (kept ++ l1 ++ v :: l2) ->
    Buffer.sync_loop fuel dev (first_of (l1 ++ v :: l2)) k = Some k3 ->
    exists fuel' km,
      Buffer.sync_loop fuel' dev (Some v) km = Some k3
      /\ same m_sync k km /\ exists evs, io km = io k ++ evs.
Proof.
  induction l1 as [|x l1 IH]; intros fuel kept k Hwf Hrun.
  - exists fuel, k. split; [exact Hrun|]. split; [apply same_refl|].
    exists []. symmetry. apply app_nil_r.
  - destruct fuel as [|fuel]; [discriminate|].
    cbn [app first_of head Buffer.sync_loop] in Hrun.
    rewrite (dirty_wf_next _ _ _ _ Hwf) in Hrun.
    destruct ((dev =? 0) || (Buf.dev (Buffer.buf k x) =? dev)).
    + destruct (Buffer.buffer_wait x k) as [k1|] eqn:Hwait; [|discriminate].
      simpl in Hrun.
      pose proof (sync_round_same x k k1 Hwait) as Hs.
      set (ka := Buffer.clear_flag x BUFFER_LOCKED
                   (Buffer.sync_one_buffer x k1)) in *.
      assert (Hio : exists e1, io ka = io k ++ e1).
      { destruct (sync_round x k k1 Hwait)
          as [(_ & Ei & _)|(w0 & _ & Ei & _)]; fold ka in Ei.
        - exists []. rewrite Ei. symmetry. apply app_nil_r.
        - eauto. }
      assert (Hwf' : exists kept', dirty_wf ka (kept' ++ l1 ++ v :: l2)).
      { destruct (sync_round x k k1 Hwait)
          as [(_ & _ & Hd)|(w0 & _ & _ & [[_ Hd]|[_ Hd]])]; fold ka in Hd.
        - exists (kept ++ [x]). rewrite <- app_assoc. apply Hd, Hwf.
        - exists (kept ++ [x]). rewrite <- app_assoc. apply Hd, Hwf.
        - exists kept. apply Hd, Hwf. }
      destruct Hwf' as [kept' Hwf'].
      destruct (IH fuel kept' ka Hwf' Hrun)
        as (fuel' & km & Hrun' & Hs' & evs & Eio).
      exists fuel', km. split; [exact Hrun'|].
      split; [exact (same_trans _ _ _ _ Hs Hs')|].
      destruct Hio as [e1 Ee]. exists (e1 ++ evs).
      rewrite Eio, Ee. symmetry. apply app_assoc.
    + simpl in Hrun.
      apply (IH fuel (kept ++ [x]) k); [|exact Hrun].
      rewrite <- app_assoc. exact Hwf.
Qed.
(** A pass of [sync_buffers] over a dirty list that is well formed, or
    that starts with the entry, writes the entry back where its key says,
    if the pass looks at it and its device can write. *)
Lemma sync_buffers_writes (fuel : nat) (dev : Z) (k k3 : kernel) (v : nat)
    (w : list event -> Z -> Z -> option frame -> Z -> Z) (l : list nat) :
  (dirty_wf k l /\ In v l) \/ buffer_dirty_head k = Some v ->
  Buffer.sync_buffers fuel dev k = Some k3 ->
  concerns dev k v = true -> writer k v = Some w ->
  exists ret,
    In (write_block_call (Buf.dev (Buffer.buf k v))
          (Buf.block (Buffer.buf k v))
          (Buffer.contents k (Buf.data (Buffer.buf k v))
             (Buf.size (Buffer.buf k v)))
          (Buf.size (Buffer.buf k v)) ret)
       (calls_since k k3).
Proof.
  intros Hl Hrun Hc Hw. unfold Buffer.sync_buffers in Hrun.
  assert (Hreach : exists fuel' km,
             Buffer.sync_loop fuel' dev (Some v) km = Some k3
             /\ same m_sync k km /\ exists evs, io km = io k ++ evs).
  { destruct Hl as [[Hwf Hin]|Hh].
    - apply in_split in Hin as (l1 & l2 & ->).
      apply (sync_loop_reach dev v l2 k3 l1 fuel [] k Hwf).
      destruct Hwf as [Hs _]. rewrite (seg_first _ _ _ _ _ _ Hs) in Hrun.
      destruct l1; exact Hrun.
    - exists fuel, k. rewrite Hh in Hrun. split; [exact Hrun|].
      split; [apply same_refl|]. exists []. symmetry. apply app_nil_r. }
  destruct Hreach as (fuel' & km & Hrun' & Hs & evs & Eio).
  destruct (sync_loop_at fuel' dev v km k3 w Hrun') as [evs' Ec].
  - rewrite (concerns_same _ _ _ dev v Hs eq_refl). exact Hc.
  - rewrite (writer_same _ _ _ v Hs eq_refl). exact Hw.
  - rewrite (calls_since_trans _ _ _ _ Eio (sync_loop_grows _ _ _ _ _ Hrun')).
    rewrite Ec. unfold write_back_call, Buffer.contents.
    destruct (same_key _ _ _ v Hs eq_refl) as (-> & -> & ->).
    rewrite (same_data _ _ _ v Hs eq_refl), (same_frames _ _ _ Hs eq_refl).
    eexists. apply in_or_app. right. left. reflexivity.
Qed.

Lemma brelse_dirty (v : nat) (k : kernel) (l : list nat) :
  dirty_wf k l ->
  dirty_wf (Buffer.brelse v k) l
  \/ buffer_dirty_head (Buffer.brelse v k) = Some v.
Proof.
  intros Hwf. unfold Buffer.brelse.
  set (km := if Buffer.flag k v BUFFER_DIRTY
             then Buffer.insert_on_dirty_list v k else k).
  assert (Hs : same m_take km
                 (Buffer.clear_flag v BUFFER_LOCKED
                    (Buffer.insert_on_free_list v km))).
  { apply (same_trans _ _ (Buffer.insert_on_free_list v km)).
    - apply (same_mono m_freelist); [reflexivity|].
      apply insert_on_free_list_same.
    - apply same_clear_flag. reflexivity. }
  assert (Hm : dirty_wf km l \/ buffer_dirty_head km = Some v).
  { unfold km. destruct (Buffer.flag k v BUFFER_DIRTY); [|auto].
    unfold Buffer.insert_on_dirty_list.
    destruct (negb _ || negb _); [auto|]. right.
    destruct (buffer_dirty_head k); reflexivity. }
  destruct Hm as [Hm|Hm].
  - left. exact (dirty_wf_same _ _ _ l Hs eq_refl eq_refl Hm).
  - right. rewrite (same_dhead _ _ _ Hs eq_refl). exact Hm.
Qed.

(** * The chains of the buffer hash table *)

Lemma buf_set_bucket (i : nat) (v : ptr) (k : kernel) (m : nat) :
  Buffer.buf (Buffer.set_bucket i v k) m = Buffer.buf k m.
Proof. reflexivity. Qed.

Lemma bucket_upd (n : nat) (f : Buf.t -> Buf.t) (k : kernel) (i : nat) :
  Buffer.bucket (Buffer.upd n f k) i = Buffer.bucket k i.
Proof. reflexivity. Qed.

Lemma bucket_set_bucket_at (i j : nat) (v : ptr) (k : kernel) :
  (i < length (buffer_hash_table k))%nat ->
  Buffer.bucket (Buffer.set_bucket i v k) j
  = if decide (j = i) then v else Buffer.bucket k j.
Proof.
  intros Hi. unfold Buffer.bucket, Buffer.set_bucket. simpl.
  rewrite list_lookup_total_insert.
  repeat case_decide; try reflexivity; exfalso; intuition (try congruence; try lia).
Qed.

Ltac read_hash :=
  repeat first
    [ rewrite buf_set_bucket | rewrite bucket_upd
    | rewrite (proj_upd Buf.next_hash) by reflexivity
    | rewrite (proj_upd Buf.prev_hash) by reflexivity
    | rewrite buf_upd | rewrite NR_BUFFERS_upd ].

Ltac link_done :=
  repeat case_decide; simpl; try reflexivity;
  repeat match goal with H : Some _ = Some _ |- _ => injection H as H end;
  try solve [intuition (subst; try congruence; try lia)].

(** The links after the body of [remove_from_hash] has run for the entry
    [*h] points to. *)
Lemma unlink_links (h : Buffer.hloc) (n : nat) (k : kernel) :
  let k' := Buffer.unlink h k in
  let nxn := Buf.next_hash (Buffer.buf k n) in
  let pvn := Buf.prev_hash (Buffer.buf k n) in
  Buffer.deref k h = Some n ->
  nxn <> Some n -> pvn <> Some n ->
  (forall s, nxn = Some s -> (s < Buffer.NR_BUFFERS k)%nat) ->
  (forall p, pvn = Some p -> (p < Buffer.NR_BUFFERS k)%nat) ->
  match h with
  | Buffer.at_bucket i =>
      pvn = None /\ (i < length (buffer_hash_table k))%nat
  | Buffer.at_next p => pvn = Some p
  end ->
  (forall m, m <> n ->
     Buf.next_hash (Buffer.buf k' m)
     = (if decide (Some m = pvn) then nxn
        else Buf.next_hash (Buffer.buf k m))
     /\ Buf.prev_hash (Buffer.buf k' m)
        = (if decide (Some m = nxn) then pvn
           else Buf.prev_hash (Buffer.buf k m)))
  /\ (forall j, Buffer.bucket k' j
                = match h with
                  | Buffer.at_bucket i =>
                      if decide (j = i) then nxn else Buffer.bucket k j
                  | Buffer.at_next _ => Buffer.bucket k j
                  end).
Proof.
  intros k' nxn pvn Hh Hs Hp Hsr Hpr Hloc. subst k'.
  unfold Buffer.unlink. rewrite Hh. cbn [Buffer.rd]. fold nxn.
  destruct h as [i|p]; cbn [Buffer.is_bucket Buffer.deref] in *.
  - destruct Hloc as [Ep Hi].
    destruct nxn as [s|] eqn:En; cbn [is_null Buffer.wr].
    + assert (s <> n) by congruence.
      rewrite bucket_upd, Hh. cbn [Buffer.rd].
      rewrite (buf_upd_ne s _ _ n) by assumption. fold pvn nxn.
      rewrite Ep, En. cbn [is_null Buffer.assign].
      split; [intros m Hm; split|intros j].
      * read_hash. rewrite decide_False by congruence.
        repeat case_decide; reflexivity.
      * read_hash. specialize (Hsr s eq_refl).
        link_done.
      * rewrite bucket_set_bucket_at by exact Hi.
        rewrite ?bucket_upd, ?Hh. cbn [Buffer.rd].
        rewrite (proj_upd Buf.next_hash) by reflexivity. fold nxn.
        rewrite En. reflexivity.
    + rewrite Hh. cbn [Buffer.rd]. fold pvn nxn. rewrite Ep, En.
      cbn [is_null Buffer.assign].
      split; [intros m Hm; split|intros j].
      * read_hash. rewrite decide_False by congruence. reflexivity.
      * read_hash. rewrite decide_False by congruence. reflexivity.
      * rewrite bucket_set_bucket_at by exact Hi. rewrite Hh.
        cbn [Buffer.rd]. fold nxn. rewrite En. reflexivity.
  - assert (Hpn : p <> n) by congruence. specialize (Hpr p Hloc).
    destruct nxn as [s|] eqn:En; cbn [is_null Buffer.wr].
    + assert (s <> n) by congruence. specialize (Hsr s eq_refl).
      rewrite (proj_upd Buf.next_hash) by reflexivity. rewrite Hh.
      cbn [Buffer.rd]. rewrite (buf_upd_ne s _ _ n) by assumption.
      fold pvn nxn. rewrite Hloc, En. cbn [is_null Buffer.wr].
      split; [intros m Hm; split|intros j; reflexivity].
      * read_hash.
        link_done.
      * read_hash.
        link_done.
    + rewrite Hh. cbn [Buffer.rd]. fold pvn nxn. rewrite Hloc, En.
      cbn [is_null Buffer.wr].
      split; [intros m Hm; split|intros j; reflexivity].
      * read_hash.
        link_done.
      * read_hash. rewrite decide_False by congruence. reflexivity.
Qed.
Lemma walked_deref (k : kernel) (l : list nat) :
  forall (h : Buffer.hloc) (prev q : ptr),
    seg (fun n => Buf.next_hash (Buffer.buf k n))
        (fun n => Buf.prev_hash (Buffer.buf k n))
        prev (Buffer.deref k h) l q ->
    Buffer.deref k (walked h l) = q.
Proof.
  induction l as [|x l IH]; intros h prev q; simpl.
  - auto.
  - intros (Eh & _ & Hs). apply (IH (Buffer.at_next x) (Some x) q). exact Hs.
Qed.

Lemma walked_last (l : list nat) :
  forall (h : Buffer.hloc) (prev : ptr),
    walked (match prev with Some p => Buffer.at_next p | None => h end) l
    = match last_of prev l with Some p => Buffer.at_next p | None => h end.
Proof.
  induction l as [|x l IH]; intros h prev; simpl.
  - reflexivity.
  - apply (IH h (Some x)).
Qed.

Lemma remove_loop_walk (n : nat) (k : kernel) (l : list nat) :
  forall (fuel : nat) (h : Buffer.hloc) (prev q : ptr),
    ~ In n l ->
    seg (fun n => Buf.next_hash (Buffer.buf k n))
        (fun n => Buf.prev_hash (Buffer.buf k n))
        prev (Buffer.deref k h) l q ->
    Buffer.remove_loop (length l + fuel) n h k
    = Buffer.remove_loop fuel n (walked h l) k.
Proof.
  induction l as [|x l IH]; intros fuel h prev q Hn; simpl.
  - reflexivity.
  - intros (Eh & _ & Hs). rewrite Eh.
    destruct (Nat.eqb_spec x n) as [->|_]; [exfalso; apply Hn; left; auto|].
    apply (IH fuel (Buffer.at_next x) (Some x) q); [|exact Hs].
    intros Hin. apply Hn. right. exact Hin.
Qed.

Lemma NoDup_bounded (l : list nat) (N : nat) :
  NoDup l -> (forall n, In n l -> (n < N)%nat) -> (length l <= N)%nat.
Proof.
  intros Hnd Hb.
  replace N with (length (List.seq 0 N)) by apply List.length_seq.
  apply List.NoDup_incl_length.
  - apply NoDup_ListNoDup, Hnd.
  - intros x Hx. apply in_seq. specialize (Hb x Hx). lia.
Qed.
Lemma last_of_some (l : list nat) (x : nat) :
  exists p, last_of (Some x) l = Some p.
Proof. revert x. induction l as [|y l IH]; intros x; simpl; eauto. Qed.

Lemma hash_wf_same (μ : mask) (k k' : kernel) (c : nat -> list nat) :
  same μ k k' -> m_key μ = false -> m_hash μ = false ->
  m_buckets μ = false -> hash_wf k c -> hash_wf k' c.
Proof.
  intros Hs Hk Hh Hb [H1 H2]. split.
  - intros i. destruct (H1 i) as [Hseg Hnd]. split; [|exact Hnd].
    unfold Buffer.bucket. rewrite (same_buckets _ _ _ Hs Hb).
    eapply seg_ext; [|exact Hseg]. intros n _.
    destruct (same_hash _ _ _ n Hs Hh) as [E1 E2]. auto.
  - intros i n Hin. destruct (H2 i n Hin) as (Hn & Hi & Hkey).
    rewrite (same_NR_BUFFERS _ _ _ Hs).
    destruct (same_key _ _ _ n Hs Hk) as (-> & -> & _).
    unfold Buffer.BUFFER_HASH. rewrite (same_NR_BUF_HASH _ _ _ Hs).
    split; [exact Hn|]. split; [|exact Hkey].
    pose proof (same_NR_BUF_HASH _ _ _ Hs) as E.
    unfold Buffer.NR_BUF_HASH in E. lia.
Qed.
Lemma filter_ne_notin (n : nat) (l : list nat) :
  ~ In n l -> filter (fun m => m <> n) l = l.
Proof.
  induction l as [|x l IH]; intros Hn; [reflexivity|].
  rewrite filter_cons_True by (intros ->; apply Hn; left; reflexivity).
  rewrite IH; [reflexivity|]. intros H. apply Hn. right. exact H.
Qed.

(** [remove_from_hash] on well-formed chains returns, and takes the entry
    out of its chain. *)
Lemma remove_from_hash_chains (n : nat) (k : kernel) (c : nat -> list nat) :
  hash_wf k c ->
  exists k' c',
    Buffer.remove_from_hash n k = Some k' /\ hash_wf k' c'
    /\ (forall j m, In m (c' j) <-> In m (c j) /\ m <> n)
    /\ (forall j, c' j = filter (fun m => m <> n) (c j)).
Proof.
  intros [H1 H2]. unfold Buffer.remove_from_hash.
  set (i := Buffer.BUFFER_HASH k _ _).
  destruct (H1 i) as [Hseg Hnd].
  assert (Hlen : (length (c i) <= Buffer.NR_BUFFERS k)%nat)
    by (apply NoDup_bounded; [exact Hnd|]; intros m Hm; apply (H2 i m Hm)).
  assert (Hother : forall j, In n (c j) -> j = i)
    by (intros j Hj; symmetry; apply (H2 j n Hj)).
  clearbody i.
  destruct (in_dec Nat.eq_dec n (c i)) as [Hin|Hout].
  - apply in_split in Hin as (l1 & l2 & Ec). rewrite Ec in *.
    destruct (NoDup_middle _ _ _ Hnd) as (Hn1 & Hn2 & Hnd').
    destruct (seg_middle _ _ _ _ _ _ Hseg) as (Ep & En & Eh).
    pose proof Hseg as Hseg0.
    apply seg_app in Hseg as (mid & Hs1 & Hs2).
    pose proof (seg_first _ _ _ _ _ _ Hs2) as Emid. simpl in Emid.
    subst mid.
    assert (Hi : (i < length (buffer_hash_table k))%nat).
    { apply (H2 i n). rewrite Ec. apply in_or_app. right. left. auto. }
    set (h := walked (Buffer.at_bucket i) l1).
    assert (Hd : Buffer.deref k h = Some n)
      by (apply (walked_deref k l1 (Buffer.at_bucket i) None), Hs1).
    assert (Hrun : Buffer.remove_loop (Buffer.chain_fuel k) n
                     (Buffer.at_bucket i) k = Some (Buffer.unlink h k)).
    { unfold Buffer.chain_fuel. fold (Buffer.NR_BUFFERS k).
      rewrite length_app in Hlen. simpl in Hlen.
      replace (Buffer.NR_BUFFERS k + 2)%nat
        with (length l1 + S (Buffer.NR_BUFFERS k + 1 - length l1))%nat
        by lia.
      rewrite (remove_loop_walk n k l1 _ (Buffer.at_bucket i) None (Some n)
                 Hn1 Hs1).
      fold h. simpl. rewrite Hd, Nat.eqb_refl. reflexivity. }
    assert (Hin1 : forall m, In m l1 -> In m (c i))
      by (intros m Hm; rewrite Ec; apply in_or_app; auto).
    assert (Hin2 : forall m, In m l2 -> In m (c i))
      by (intros m Hm; rewrite Ec; apply in_or_app; right; right; auto).
    destruct (unlink_links h n k) as [Hl Hb].
    + exact Hd.
    + rewrite En. intros E. apply first_of_in in E. exact (Hn2 E).
    + rewrite Ep. intros E. apply last_of_in in E. exact (Hn1 E).
    + intros s E. rewrite En in E. apply first_of_in in E.
      apply (H2 i s). apply Hin2, E.
    + intros p E. rewrite Ep in E. apply last_of_in in E.
      apply (H2 i p). apply Hin1, E.
    + unfold h. rewrite (walked_last l1 (Buffer.at_bucket i) None).
      rewrite Ep. destruct (last_of None l1); auto.
    + assert (Hbk : forall j,
                 Buffer.bucket (Buffer.unlink h k) j
                 = if decide (j = i)
                   then (if decide (Buffer.bucket k i = Some n)
                         then Buf.next_hash (Buffer.buf k n)
                         else Buffer.bucket k i)
                   else Buffer.bucket k j).
      { intros j. rewrite Hb. unfold h.
        rewrite (walked_last l1 (Buffer.at_bucket i) None).
        destruct l1 as [|x l1]; simpl in *.
        - rewrite (decide_True (P := Buffer.bucket k i = Some n)) by exact Eh.
          reflexivity.
        - destruct (last_of_some l1 x) as [p ->].
          rewrite (decide_False (P := Buffer.bucket k i = Some n)).
          + case_decide; congruence.
          + rewrite Eh. intros [= ->]. apply Hn1. left. reflexivity. }
      assert (Hsame : same m_hashidx k (Buffer.unlink h k))
        by apply unlink_same.
      exists (Buffer.unlink h k),
        (fun j => if decide (j = i) then l1 ++ l2 else c j).
      split; [exact Hrun|]. split; [split|split].
      * intros j. rewrite Hbk. cbv beta.
        destruct (decide (j = i)) as [->|Hj].
        -- split; [|exact Hnd'].
           eapply seg_remove; [exact Hseg0|exact Hnd| |reflexivity].
           intros m Hm. apply Hl. intros ->.
           apply in_app_or in Hm as [Hm|Hm]; auto.
        -- destruct (H1 j) as [Hsj Hndj]. split; [|exact Hndj].
           eapply seg_ext; [|exact Hsj]. intros m Hm.
           assert (Hmi : ~ In m (c i)).
           { intros Hmi. apply Hj.
             rewrite <- (proj2 (proj2 (H2 j m Hm))).
             apply (H2 i m Hmi). }
           destruct (Hl m) as [E1 E2].
           { intros ->. apply Hj. apply Hother, Hm. }
           rewrite E1, E2. rewrite Ep, En.
           rewrite decide_False, decide_False; [auto| |].
           ++ intros E. symmetry in E. apply first_of_in in E.
              apply Hmi, Hin2, E.
           ++ intros E. symmetry in E. apply last_of_in in E.
              apply Hmi, Hin1, E.
      * intros j m Hm.
        assert (Hm' : In m (c j)).
        { cbv beta in Hm. destruct (decide (j = i)) as [->|Hj]; [|exact Hm].
          apply in_app_or in Hm as [Hm|Hm]; auto. }
        destruct (H2 j m Hm') as (Hb1 & Hb2 & Hb3).
        rewrite (same_NR_BUFFERS _ _ _ Hsame).
        destruct (same_key _ _ _ m Hsame eq_refl) as (-> & -> & _).
        unfold Buffer.BUFFER_HASH.
        rewrite (same_NR_BUF_HASH _ _ _ Hsame).
        split; [exact Hb1|]. split; [|exact Hb3].
        pose proof (same_NR_BUF_HASH _ _ _ Hsame) as E.
        unfold Buffer.NR_BUF_HASH in E. lia.
      * intros j m. cbv beta. destruct (decide (j = i)) as [->|Hj].
        -- rewrite Ec. rewrite !in_app_iff. simpl. split.
           ++ intros [Hm|Hm]; (split; [tauto|intros ->; tauto]).
           ++ intros [[Hm|[Hm|Hm]] Hne]; [tauto|congruence|tauto].
        -- split; [|tauto]. intros Hm. split; [exact Hm|].
           intros ->. apply Hj, Hother, Hm.
      * intros j. cbv beta. destruct (decide (j = i)) as [->|Hj].
        -- rewrite Ec, filter_app, filter_cons_False by auto.
           rewrite !filter_ne_notin by assumption. reflexivity.
        -- symmetry. apply filter_ne_notin. intros Hm. apply Hj, Hother, Hm.
  - exists k, c. split; [|split; [split; assumption|split]].
    + unfold Buffer.chain_fuel. fold (Buffer.NR_BUFFERS k).
      replace (Buffer.NR_BUFFERS k + 2)%nat
        with (length (c i) + S (Buffer.NR_BUFFERS k + 1 - length (c i)))%nat
        by lia.
      rewrite (remove_loop_walk n k (c i) _ (Buffer.at_bucket i) None None
                 Hout Hseg).
      simpl.
      rewrite (walked_deref k (c i) (Buffer.at_bucket i) None None Hseg).
      reflexivity.
    + intros j m. split; [|tauto]. intros Hm. split; [exact Hm|].
      intros ->. apply Hout. rewrite <- (Hother j Hm). exact Hm.
    + intros j. symmetry. apply filter_ne_notin. intros Hm. apply Hout.
      rewrite <- (Hother j Hm). exact Hm.
Qed.

Lemma remove_from_hash_wf (n : nat) (k : kernel) (c : nat -> list nat) :
  hash_wf k c ->
  exists k' c',
    Buffer.remove_from_hash n k = Some k' /\ hash_wf k' c'
    /\ (forall j m, In m (c' j) <-> In m (c j) /\ m <> n).
Proof.
  intros Hwf.
  destruct (remove_from_hash_chains n k c Hwf) as (k' & c' & H1 & H2 & H3 & _).
  eauto.
Qed.
Lemma hash_wf_set_flag (n : nat) (b : Z) (k : kernel) (c : nat -> list nat) :
  hash_wf k c -> hash_wf (Buffer.set_flag n b k) c.
Proof.
  apply (hash_wf_same (m_bits b)); [|reflexivity..].
  apply same_set_flag. simpl. apply Z.lor_diag.
Qed.

Lemma hash_wf_clear_flag (n : nat) (b : Z) (k : kernel)
    (c : nat -> list nat) :
  hash_wf k c -> hash_wf (Buffer.clear_flag n b k) c.
Proof.
  apply (hash_wf_same (m_bits b)); [|reflexivity..].
  apply same_clear_flag. simpl. apply Z.lor_diag.
Qed.

(** On well-formed chains [invalidate_buffers] returns; what it leaves in
    the chains was locked or belongs to another device. *)
Lemma invalidate_loop_wf (dev : Z) (todo : nat) :
  forall (n0 : nat) (k : kernel) (c : nat -> list nat),
    hash_wf k c ->
    exists k' c',
      Buffer.invalidate_loop todo n0 dev k = Some k' /\ hash_wf k' c'
      /\ forall j m, In m (c' j) ->
           In m (c j)
           /\ ((n0 <= m < n0 + todo)%nat ->
               Buffer.flag k m BUFFER_LOCKED = true
               \/ Buf.dev (Buffer.buf k m) <> dev).
Proof.
  induction todo as [|todo IH]; intros n0 k c Hwf; simpl.
  - exists k, c. split; [reflexivity|]. split; [exact Hwf|].
    intros j m Hm. split; [exact Hm|lia].
  - destruct (negb (Buffer.flag k n0 BUFFER_LOCKED)
              && (Buf.dev (Buffer.buf k n0) =? dev)) eqn:Ec.
    + apply andb_true_iff in Ec as [Eu Ed]. apply negb_true_iff in Eu.
      assert (Hw : Buffer.buffer_wait n0 k
                   = Some (Buffer.set_flag n0 BUFFER_LOCKED k))
        by (unfold Buffer.buffer_wait; rewrite Eu; reflexivity).
      rewrite Hw. simpl.
      destruct (remove_from_hash_wf n0 _ c
                  (hash_wf_set_flag n0 BUFFER_LOCKED k c Hwf))
        as (k2 & c2 & Hr & Hwf2 & Hc2).
      rewrite Hr. simpl.
      destruct (IH (S n0) _ c2
                  (hash_wf_clear_flag n0 (Z.lor BUFFER_VALID BUFFER_LOCKED)
                     k2 c2 Hwf2))
        as (k' & c' & Hrun & Hwf' & Hc').
      exists k', c'. split; [exact Hrun|]. split; [exact Hwf'|].
      intros j m Hm. destruct (Hc' j m Hm) as [Hm2 Hrest].
      apply Hc2 in Hm2 as [Hm0 Hne]. split; [exact Hm0|]. intros Hrange.
      rewrite (invalidate_round_locked n0 k _ k2 m Hw Hr) in Hrest.
      pose proof (remove_from_hash_same _ _ _ Hr) as Hs.
      cbv [st kernel_state] in Hs.
      unfold Buffer.clear_flag in Hrest.
      rewrite (proj_upd Buf.dev) in Hrest by reflexivity.
      destruct (same_key _ _ _ m Hs eq_refl) as (Ek & _).
      rewrite Ek in Hrest. unfold Buffer.set_flag in Hrest.
      rewrite (proj_upd Buf.dev) in Hrest by reflexivity.
      apply Hrest. lia.
    + simpl. destruct (IH (S n0) k c Hwf) as (k' & c' & Hrun & Hwf' & Hc').
      exists k', c'. split; [exact Hrun|]. split; [exact Hwf'|].
      intros j m Hm. destruct (Hc' j m Hm) as [Hm0 Hrest].
      split; [exact Hm0|]. intros Hrange.
      destruct (decide (m = n0)) as [->|Hne]; [|apply Hrest; lia].
      apply andb_false_iff in Ec as [Ec|Ec].
      * left. apply negb_false_iff, Ec.
      * right. apply Z.eqb_neq, Ec.
Qed.
Lemma search_loop_miss (dev block size : Z) (k : kernel) (l : list nat) :
  forall (fuel : nat) (prev p : ptr),
    seg (fun n => Buf.next_hash (Buffer.buf k n))
        (fun n => Buf.prev_hash (Buffer.buf k n)) prev p l None ->
    (forall m, In m l -> keyed k dev block size m = false) ->
    (length l < fuel)%nat ->
    Buffer.search_loop fuel dev block size p k = Some None.
Proof.
  induction l as [|x l IH]; intros fuel prev p Hs Hk Hf;
    (destruct fuel as [|fuel]; [simpl in Hf; lia|]); simpl in *.
  - subst p. reflexivity.
  - destruct Hs as (-> & _ & Hs).
    pose proof (Hk x (or_introl eq_refl)) as Hx. unfold keyed in Hx.
    rewrite Hx. apply (IH fuel (Some x)); [exact Hs| |lia].
    intros m Hm. apply Hk. right. exact Hm.
Qed.

Lemma search_buffer_hash_miss (dev block size : Z) (k : kernel)
    (c : nat -> list nat) :
  hash_wf k c ->
  (forall m, In m (c (Buffer.BUFFER_HASH k dev block)) ->
             keyed k dev block size m = false) ->
  Buffer.search_buffer_hash dev block size k = Some None.
Proof.
  intros [H1 H2] Hk. unfold Buffer.search_buffer_hash.
  set (i := Buffer.BUFFER_HASH k dev block) in *.
  destruct (H1 i) as [Hs Hnd].
  apply (search_loop_miss dev block size k (c i) _ None); [exact Hs|exact Hk|].
  assert ((length (c i) <= Buffer.NR_BUFFERS k)%nat)
    by (apply NoDup_bounded; [exact Hnd|]; intros m Hm; apply (H2 i m Hm)).
  unfold Buffer.chain_fuel. fold (Buffer.NR_BUFFERS k). lia.
Qed.

Lemma getblk_tail_same (v : nat) (d b s : Z) (k2 k3 : kernel) :
  Buffer.remove_from_hash v k2 = Some k3 ->
  same m_rebind k2
    (Buffer.clear_flag v BUFFER_VALID
       (Buffer.insert_to_hash v (Buffer.upd v (Buf.set_key d b s) k3))).
Proof.
  intros Hr. pose proof (remove_from_hash_same _ _ _ Hr) as Hs.
  cbv [st kernel_state] in Hs.
  apply (same_trans _ _ k3);
    [apply (same_mono m_hashidx); [reflexivity|exact Hs]|].
  apply (same_trans _ _ (Buffer.upd v (Buf.set_key d b s) k3));
    [apply same_upd; intros []; reflexivity|].
  apply (same_trans _ _ (Buffer.insert_to_hash v
                           (Buffer.upd v (Buf.set_key d b s) k3))).
  - apply (same_mono m_hashidx); [reflexivity|apply insert_to_hash_same].
  - apply same_clear_flag. reflexivity.
Qed.
(** The ways [getblk] returns when the block is not in the hash index. *)
Lemma getblk_miss (d b s : Z) (k : kernel) (r : ptr) (k' : kernel) :
  Buffer.search_buffer_hash d b s k = Some None ->
  Buffer.getblk d b s k = Some (r, k') ->
  exists v kv,
    Buffer.get_free_buffer k = Some (Some v, kv)
    /\ ((Buffer.flag kv v BUFFER_DIRTY = true
         /\ exists k3,
              Buffer.remove_from_hash v (Buffer.sync_one_buffer v kv)
              = Some k3
              /\ r = Some v /\ k' = rebind v d b s k3)
        \/ (Buffer.flag kv v BUFFER_DIRTY = false
            /\ Buf.data (Buffer.buf kv v) = None
            /\ exists km, kmalloc kv = Some (None, km)
                          /\ r = None /\ k' = Buffer.brelse v km)
        \/ (Buffer.flag kv v BUFFER_DIRTY = false
            /\ Buf.data (Buffer.buf kv v) = None
            /\ exists a km k3,
                 kmalloc kv = Some (Some a, km)
                 /\ Buffer.remove_from_hash v
                      (Buffer.add_buffers (PAGE_SIZE / 1024)
                         (Buffer.upd v (Buf.set_data (Some a)) km))
                    = Some k3
                 /\ r = Some v /\ k' = rebind v d b s k3)
        \/ (Buffer.flag kv v BUFFER_DIRTY = false
            /\ Buf.data (Buffer.buf kv v) <> None
            /\ exists k3,
                 Buffer.remove_from_hash v kv = Some k3
                 /\ r = Some v /\ k' = rebind v d b s k3)).
Proof.
  intros Hs H. unfold Buffer.getblk in H. rewrite Hs in H. simpl in H.
  destruct (Buffer.get_free_buffer k) as [[[v|] kv]|]; simpl in H;
    try discriminate.
  exists v, kv. split; [reflexivity|].
  destruct (Buffer.flag kv v BUFFER_DIRTY) eqn:Ed; simpl in H.
  - left. split; [reflexivity|].
    destruct (Buffer.remove_from_hash v _) as [k3|] eqn:Hr; simpl in H;
      [|discriminate].
    injection H as <- <-. exists k3. auto.
  - right. destruct (Buf.data (Buffer.buf kv v)) as [a0|] eqn:Edata;
      simpl in H.
    + right. right. split; [reflexivity|]. split; [discriminate|].
      destruct (Buffer.remove_from_hash v kv) as [k3|] eqn:Hr; simpl in H;
        [|discriminate].
      injection H as <- <-. exists k3. auto.
    + destruct (kmalloc kv) as [[[a|] km]|]; simpl in H; try discriminate.
      * right. left. split; [reflexivity|]. split; [reflexivity|].
        destruct (Buffer.remove_from_hash v _) as [k3|] eqn:Hr; simpl in H;
          [|discriminate].
        injection H as <- <-. exists a, km, k3. auto.
      * left. split; [reflexivity|]. split; [reflexivity|].
        injection H as <- <-. exists km. auto.
Qed.
Lemma sync_one_buffer_io (n : nat) (k : kernel) :
  (writer k n = None /\ io (Buffer.sync_one_buffer n k) = io k)
  \/ exists w, writer k n = Some w
               /\ io (Buffer.sync_one_buffer n k)
                  = io k ++ [write_back_call w k n].
Proof.
  destruct (sync_one_buffer_cases n k)
    as [[Hn ->]|[(w & Hn & Hr & ->)|(w & Hn & Hr & ->)]].
  - left. auto.
  - right. exists w. auto.
  - right. exists w. split; [exact Hn|].
    rewrite (same_io _ _ _ (remove_from_dirty_list_same n _) eq_refl).
    reflexivity.
Qed.

Lemma rebind_same (v : nat) (d b s : Z) (k2 k3 : kernel) :
  Buffer.remove_from_hash v k2 = Some k3 ->
  same m_rebind k2 (rebind v d b s k3).
Proof. apply getblk_tail_same. Qed.

Lemma get_free_buffer_io (k : kernel) (r : ptr) (kv : kernel) :
  Buffer.get_free_buffer k = Some (r, kv) -> io kv = io k.
Proof.
  intros H. apply (same_io _ _ _ (get_free_buffer_same k _ H)). reflexivity.
Qed.

Lemma kmalloc_io (k : kernel) (r : ptr) (km : kernel) :
  kmalloc k = Some (r, km) -> io km = io k.
Proof.
  intros H. apply (same_io _ _ _ (kmalloc_same k _ H)). reflexivity.
Qed.

(** The log only grows during [getblk]. *)
Lemma getblk_grows (d b s : Z) (k : kernel) (r : ptr) (k' : kernel) :
  Buffer.getblk d b s k = Some (r, k') -> exists evs, io k' = io k ++ evs.
Proof.
  intros H.
  destruct (Buffer.search_buffer_hash d b s k) as [[n|]|] eqn:Hs.
  - unfold Buffer.getblk in H. rewrite Hs in H. simpl in H.
    destruct (Buffer.flag k n BUFFER_LOCKED); [discriminate|].
    injection H as <- <-. exists []. rewrite app_nil_r.
    rewrite (same_io _ _ _ (remove_from_free_list_same n _) eq_refl).
    reflexivity.
  - destruct (getblk_miss d b s k r k' Hs H) as (v & kv & Hg & Hcase).
    pose proof (get_free_buffer_io _ _ _ Hg) as Ev.
    destruct Hcase
      as [(_ & k3 & Hr & _ & ->)
         |[(_ & _ & km & Hm & _ & ->)
          |[(_ & _ & a & km & k3 & Hm & Hr & _ & ->)
           |(_ & _ & k3 & Hr & _ & ->)]]].
    + rewrite (same_io _ _ _ (rebind_same v d b s _ _ Hr) eq_refl).
      destruct (sync_one_buffer_io v kv) as [[_ E]|(w & _ & E)];
        rewrite E, Ev; [exists []; symmetry; apply app_nil_r|eauto].
    + exists []. rewrite app_nil_r.
      rewrite (same_io _ _ _ (brelse_same v km) eq_refl).
      rewrite (kmalloc_io _ _ _ Hm). exact Ev.
    + exists []. rewrite app_nil_r.
      rewrite (same_io _ _ _ (rebind_same v d b s _ _ Hr) eq_refl).
      change (io km = io k). rewrite (kmalloc_io _ _ _ Hm). exact Ev.
    + exists []. rewrite app_nil_r.
      rewrite (same_io _ _ _ (rebind_same v d b s _ _ Hr) eq_refl).
      exact Ev.
  - unfold Buffer.getblk in H. rewrite Hs in H. discriminate.
Qed.

Lemma flag_rebind_valid (v : nat) (d b s : Z) (k3 : kernel) :
  Buffer.flag (rebind v d b s k3) v BUFFER_VALID = false.
Proof.
  unfold rebind.
  destruct (decide (v < Buffer.NR_BUFFERS
                          (Buffer.insert_to_hash v
                             (Buffer.upd v (Buf.set_key d b s) k3)))%nat)
    as [Hv|Hv].
  - apply (flag_clear_flag_bit v _ BUFFER_VALID 0);
      [reflexivity|lia|reflexivity|exact Hv].
  - apply flag_outside. rewrite NR_BUFFERS_clear_flag. lia.
Qed.

Lemma getblk_miss_invalid (d b s : Z) (k : kernel) (v : nat) (k' : kernel) :
  Buffer.search_buffer_hash d b s k = Some None ->
  Buffer.getblk d b s k = Some (Some v, k') ->
  Buffer.flag k' v BUFFER_VALID = false.
Proof.
  intros Hs H.
  destruct (getblk_miss d b s k _ k' Hs H) as (v' & kv & Hg & Hcase).
  destruct Hcase
    as [(_ & k3 & Hr & E & ->)
       |[(_ & _ & km & Hm & E & ->)
        |[(_ & _ & a & km & k3 & Hm & Hr & E & ->)
         |(_ & _ & k3 & Hr & E & ->)]]];
    try discriminate; injection E as ->; apply flag_rebind_valid.
Qed.
Lemma keyed_same (μ : mask) (k k' : kernel) (d b s : Z) (n : nat) :
  same μ k k' -> m_key μ = false -> keyed k' d b s n = keyed k d b s n.
Proof.
  intros Hs Hk. unfold keyed.
  destruct (same_key _ _ _ n Hs Hk) as (-> & -> & ->). reflexivity.
Qed.

Lemma BUFFER_HASH_same (μ : mask) (k k' : kernel) (d b : Z) :
  same μ k k' -> Buffer.BUFFER_HASH k' d b = Buffer.BUFFER_HASH k d b.
Proof.
  intros Hs. unfold Buffer.BUFFER_HASH.
  rewrite (same_NR_BUF_HASH _ _ _ Hs). reflexivity.
Qed.

(** After [invalidate_buffers(dev)] a block of [dev] that no locked entry
    held is no longer found in the hash index. *)
Lemma invalidate_buffers_miss (dev block size : Z) (k : kernel)
    (c : nat -> list nat) :
  hash_wf k c ->
  (forall m, In m (c (Buffer.BUFFER_HASH k dev block)) ->
             keyed k dev block size m = true ->
             Buffer.flag k m BUFFER_LOCKED = false) ->
  exists k1 c1,
    Buffer.invalidate_buffers dev k = Some k1 /\ hash_wf k1 c1
    /\ Buffer.search_buffer_hash dev block size k1 = Some None.
Proof.
  intros Hwf Hu. unfold Buffer.invalidate_buffers.
  destruct (invalidate_loop_wf dev (Buffer.NR_BUFFERS k) 0 k c Hwf)
    as (k1 & c1 & Hrun & Hwf1 & Hc1).
  exists k1, c1. split; [exact Hrun|]. split; [exact Hwf1|].
  pose proof (invalidate_loop_same _ _ _ _ _ Hrun) as Hs.
  cbv [st kernel_state] in Hs.
  apply (search_buffer_hash_miss dev block size k1 c1 Hwf1).
  rewrite (BUFFER_HASH_same _ _ _ dev block Hs).
  intros m Hm. rewrite (keyed_same _ _ _ dev block size m Hs eq_refl).
  destruct (Hc1 _ m Hm) as [Hm0 Hrest].
  destruct (keyed k dev block size m) eqn:Ek; [exfalso|reflexivity].
  pose proof (Hu m Hm0 Ek) as Hul.
  destruct Hwf as [_ H2]. destruct (H2 _ m Hm0) as (Hb & _).
  destruct Hrest as [Hl|Hd]; [lia|congruence|].
  unfold keyed in Ek. apply andb_true_iff in Ek as [Ek _].
  apply andb_true_iff in Ek as [Ek _]. apply Z.eqb_eq in Ek. auto.
Qed.
(** [bread] with an entry from [getblk] that is not [VALID]: the driver is
    asked for the block. *)
Lemma bread_reads (dev block size : Z) (k : kernel) (dv : device)
    (read : list event -> Z -> Z -> Z -> Z * frame) (v : nat) (kg : kernel) :
  blk_devices k dev = Some dv -> fsop dv ≫= read_block = Some read ->
  Buffer.getblk dev block size k = Some (Some v, kg) ->
  Buffer.flag kg v BUFFER_VALID = false ->
  exists r k2,
    Buffer.bread dev block size k = Some (r, k2)
    /\ io k2 = io kg ++ [read_block_call dev block size
                           (fst (read (io kg) dev block size))]
    /\ (r <> None ->
        r = Some v /\ 0 <= fst (read (io kg) dev block size)).
Proof.
  intros Hd Hr Hg Hv. unfold Buffer.bread. rewrite Hd, Hg. simpl.
  rewrite Hv, Hr. simpl.
  destruct (read (io kg) dev block size) as [ret bytes] eqn:Er. simpl.
  set (ks := Buffer.store _ _ _ _ _).
  assert (Eio : io ks = io kg ++ [read_block_call dev block size ret]).
  { unfold ks. destruct (Buf.data _); reflexivity. }
  destruct (Z.leb_spec 0 ret) as [Hret|Hret].
  - destruct (Buffer.flag (Buffer.set_flag v BUFFER_VALID ks) v BUFFER_VALID).
    + eexists _, _. split; [reflexivity|]. split; [exact Eio|]. auto.
    + eexists _, _. split; [reflexivity|]. split; [|intros []; reflexivity].
      rewrite (same_io _ _ _ (brelse_same v _) eq_refl). exact Eio.
  - assert (Evs : Buffer.flag ks v BUFFER_VALID = false).
    { rewrite <- Hv. unfold ks, Buffer.flag.
      destruct (Buf.data _); reflexivity. }
    rewrite Evs. eexists _, _. split; [reflexivity|].
    split; [|intros []; reflexivity].
    rewrite (same_io _ _ _ (brelse_same v _) eq_refl). exact Eio.
Qed.

Lemma demo_clean_hash_wf : hash_wf demo_clean demo_chains.
Proof.
  split.
  - intros i. do 5 (try destruct i as [|i]); vm_compute;
      (split; [auto|]); try apply NoDup_nil_2. apply NoDup_singleton.
  - intros i n Hin. unfold demo_chains in Hin.
    destruct (Nat.eqb_spec i 2) as [->|_]; [|destruct Hin].
    destruct Hin as [<-|[]]. vm_compute. repeat split; lia.
Qed.

Lemma key_rebind (v : nat) (d b s : Z) (k3 : kernel) :
  (v < Buffer.NR_BUFFERS k3)%nat ->
  Buf.dev (Buffer.buf (rebind v d b s k3) v) = d
  /\ Buf.block (Buffer.buf (rebind v d b s k3) v) = b
  /\ Buf.size (Buffer.buf (rebind v d b s k3) v) = s.
Proof.
  intros Hv. unfold rebind.
  set (ku := Buffer.upd v (Buf.set_key d b s) k3).
  assert (Hs : same (mask_or m_hashidx (m_bits BUFFER_VALID)) ku
                 (Buffer.clear_flag v BUFFER_VALID
                    (Buffer.insert_to_hash v ku))).
  { apply (same_trans _ _ (Buffer.insert_to_hash v ku)).
    - apply (same_mono m_hashidx); [reflexivity|apply insert_to_hash_same].
    - apply same_clear_flag. reflexivity. }
  destruct (same_key _ _ _ v Hs eq_refl) as (-> & -> & ->).
  unfold ku. rewrite buf_upd_eq by exact Hv. auto.
Qed.

(** [getblk] with a dirty victim whose write-back fails. *)
Lemma getblk_steals (dev block size : Z) (k kv : kernel)
    (c : nat -> list nat) (v : nat) :
  hash_wf k c -> (v < Buffer.NR_BUFFERS k)%nat ->
  Buffer.search_buffer_hash dev block size k = Some None ->
  Buffer.get_free_buffer k = Some (Some v, kv) ->
  Buffer.flag k v BUFFER_DIRTY = true ->
  (writer k v = None
   \/ exists w, writer k v = Some w
                /\ call_ret (write_back_call w k v) < 0) ->
  exists k',
    Buffer.getblk dev block size k = Some (Some v, k')
    /\ same m_steal k k'
    /\ Buf.dev (Buffer.buf k' v) = dev
    /\ Buf.block (Buffer.buf k' v) = block
    /\ Buf.size (Buffer.buf k' v) = size.
Proof.
  intros Hwf Hv Hmiss Hg Hd Hfail.
  pose proof (get_free_buffer_same k _ Hg) as Hsv.
  cbv [st pair_state kernel_state snd] in Hsv.
  assert (Hdv : Buffer.flag kv v BUFFER_DIRTY = true)
    by (rewrite (same_flag _ _ _ v BUFFER_DIRTY Hsv eq_refl); exact Hd).
  assert (Hwv : writer kv v = writer k v)
    by (apply (writer_same _ _ _ v Hsv eq_refl)).
  assert (Hcv : forall w, write_back_call w kv v = write_back_call w k v).
  { intros w. apply (write_back_call_same _ _ _ w v Hsv); reflexivity. }
  set (ks := Buffer.sync_one_buffer v kv).
  assert (Hss : same (mask_or m_take m_log) k ks).
  { apply (same_trans _ _ kv); [apply (same_mono m_take);
                                 [reflexivity|exact Hsv]|].
    unfold ks.
    destruct (sync_one_buffer_cases v kv)
      as [[_ ->]|[(w & _ & _ & ->)|(w & Hn & Hr & _)]].
    - apply same_refl.
    - apply same_log. reflexivity.
    - exfalso. rewrite Hwv in Hn. rewrite Hcv in Hr.
      destruct Hfail as [Hf|(w' & Hf & Hr')]; [congruence|].
      assert (w' = w) by congruence. subst w'. lia. }
  destruct (remove_from_hash_wf v ks c) as (k3 & c3 & Hr & _).
  { apply (hash_wf_same _ _ _ c Hss); [reflexivity..|exact Hwf]. }
  pose proof (rebind_same v dev block size _ _ Hr) as Hs3.
  exists (rebind v dev block size k3). split.
  - unfold Buffer.getblk. rewrite Hmiss. simpl. rewrite Hg. simpl.
    rewrite Hdv. simpl. fold ks. rewrite Hr. reflexivity.
  - split.
    + apply (same_trans _ _ ks).
      * apply (same_mono (mask_or m_take m_log)); [reflexivity|exact Hss].
      * apply (same_mono m_rebind); [reflexivity|exact Hs3].
    + apply key_rebind.
      pose proof (remove_from_hash_same _ _ _ Hr) as H3.
      cbv [st kernel_state] in H3.
      rewrite (same_NR_BUFFERS _ _ _ H3), (same_NR_BUFFERS _ _ _ Hss).
      exact Hv.
Qed.

Lemma demo_steal_hash_wf : hash_wf demo_steal demo_steal_chains.
Proof.
  split.
  - intros i. do 4 (try destruct i as [|i]); vm_compute;
      (split; [auto|]); try apply NoDup_nil_2; apply NoDup_singleton.
  - intros i n Hin. unfold demo_steal_chains in Hin.
    destruct (Nat.ltb_spec i 3) as [Hi|_]; [|destruct Hin].
    destruct Hin as [<-|[]].
    do 3 (try destruct i as [|i]); try lia; vm_compute; repeat split; lia.
Qed.

(** * [reclaim_buffers] *)

Lemma frees_app (a b : list event) : frees (a ++ b) = frees a ++ frees b.
Proof. apply filter_app. Qed.

Lemma no_kfree (evs : list event) (a : nat) :
  frees evs = [] -> ~ In (kfree_call a) evs.
Proof.
  intros Hf Ha. assert (H : In (kfree_call a) (frees evs)).
  { unfold frees. apply list_elem_of_In, list_elem_of_filter.
    split; [reflexivity|apply list_elem_of_In, Ha]. }
  rewrite Hf in H. destruct H.
Qed.

(** The first half of a round of [reclaim_buffers]. *)
Lemma reclaim_prepare (k : kernel) (n : nat) (kv : kernel) :
  Buffer.get_free_buffer k = Some (Some n, kv) ->
  let k2 := Buffer.set_flag n BUFFER_VALID
              (if Buffer.flag kv n BUFFER_DIRTY
               then Buffer.sync_one_buffer n kv else kv) in
  same m_prep k k2
  /\ Buffer.flag k n BUFFER_LOCKED = false
  /\ (forall m, m <> n ->
        Buffer.flag k2 m BUFFER_LOCKED = Buffer.flag k m BUFFER_LOCKED)
  /\ exists e1, io k2 = io k ++ e1 /\ frees e1 = [].
Proof.
  intros Hg k2.
  pose proof (get_free_buffer_same k _ Hg) as Hsv.
  cbv [st pair_state kernel_state snd] in Hsv.
  destruct (get_free_buffer_inv _ _ _ Hg) as (_ & Hu & _).
  set (k1 := if Buffer.flag kv n BUFFER_DIRTY
             then Buffer.sync_one_buffer n kv else kv) in *.
  assert (Hs1 : same m_writeback kv k1).
  { unfold k1. destruct (Buffer.flag kv n BUFFER_DIRTY);
      [apply sync_one_buffer_same|apply same_refl]. }
  assert (Hs2 : same (m_bits BUFFER_VALID) k1 k2)
    by (apply same_set_flag; reflexivity).
  split; [|split; [exact Hu|split]].
  - apply (same_trans _ _ kv);
      [apply (same_mono m_take); [reflexivity|exact Hsv]|].
    apply (same_trans _ _ k1);
      [apply (same_mono m_writeback); [reflexivity|exact Hs1]|].
    apply (same_mono (m_bits BUFFER_VALID)); [reflexivity|exact Hs2].
  - intros m Hm.
    rewrite (same_flag _ _ _ m BUFFER_LOCKED Hs2 eq_refl).
    rewrite (same_flag _ _ _ m BUFFER_LOCKED Hs1 eq_refl).
    apply (get_free_buffer_locked _ _ _ m Hg Hm).
  - rewrite (same_io _ _ _ Hs2 eq_refl).
    rewrite <- (get_free_buffer_io _ _ _ Hg).
    unfold k1. destruct (Buffer.flag kv n BUFFER_DIRTY).
    + destruct (sync_one_buffer_io n kv) as [[_ E]|(w & _ & E)]; rewrite E.
      * exists []. split; [symmetry; apply app_nil_r|reflexivity].
      * eexists. split; reflexivity.
    + exists []. split; [symmetry; apply app_nil_r|reflexivity].
Qed.
Lemma kfree_io (a : nat) (k k3 : kernel) :
  kfree a k = Some k3 -> io k3 = io k ++ [kfree_call a].
Proof.
  unfold kfree. intros H.
  apply (same_io _ _ _ (release_page_same _ _ _ H) eq_refl).
Qed.

Lemma has_data_in_range (k : kernel) (n a : nat) :
  Buf.data (Buffer.buf k n) = Some a -> (n < Buffer.NR_BUFFERS k)%nat.
Proof.
  intros H. destruct (decide (n < Buffer.NR_BUFFERS k)%nat) as [|Hn];
    [assumption|].
  rewrite buf_outside in H by lia. discriminate.
Qed.

(** The second half, when the entry has data: the frame is freed and the
    entry leaves the hash index. *)
Lemma reclaim_drop (n a : nat) (k2 k3 k5 : kernel) (c : nat -> list nat) :
  hash_wf k2 c -> Buf.data (Buffer.buf k2 n) = Some a ->
  kfree a k2 = Some k3 ->
  Buffer.remove_from_hash n (Buffer.upd n (Buf.set_data None) k3)
  = Some k5 ->
  let k6 := Buffer.add_buffers (- (PAGE_SIZE / 1024)) k5 in
  same m_drop k2 k6
  /\ io k6 = io k2 ++ [kfree_call a]
  /\ (forall m, m <> n ->
        Buf.data (Buffer.buf k6 m) = Buf.data (Buffer.buf k2 m))
  /\ Buf.data (Buffer.buf k6 n) = None
  /\ exists c6, hash_wf k6 c6
                /\ forall j m, In m (c6 j) <-> In m (c j) /\ m <> n.
Proof.
  intros Hwf Hdata Hf Hr k6.
  pose proof (has_data_in_range _ _ _ Hdata) as Hn.
  pose proof (kfree_same _ _ _ Hf) as Hs3. cbv [st kernel_state] in Hs3.
  set (k4 := Buffer.upd n (Buf.set_data None) k3) in *.
  assert (Hs4 : same m_setdata k3 k4)
    by (apply same_upd; intros []; reflexivity).
  pose proof (remove_from_hash_same _ _ _ Hr) as Hs5.
  cbv [st kernel_state] in Hs5.
  assert (Hs6 : same m_alloc k5 k6) by (apply same_add_buffers; reflexivity).
  assert (Hwf4 : hash_wf k4 c).
  { apply (hash_wf_same m_setdata k3); [exact Hs4|reflexivity..|].
    apply (hash_wf_same m_alloc k2); [exact Hs3|reflexivity..|exact Hwf]. }
  destruct (remove_from_hash_wf n k4 c Hwf4) as (k5' & c5 & Hr' & Hwf5 & Hc5).
  assert (k5' = k5) by congruence. subst k5'.
  split; [|split; [|split; [|split]]].
  - apply (same_trans _ _ k3);
      [apply (same_mono m_alloc); [reflexivity|exact Hs3]|].
    apply (same_trans _ _ k4);
      [apply (same_mono m_setdata); [reflexivity|exact Hs4]|].
    apply (same_trans _ _ k5);
      [|apply (same_mono m_alloc); [reflexivity|exact Hs6]].
    apply (same_mono m_hashidx); [reflexivity|exact Hs5].
  - change (io k5 = io k2 ++ [kfree_call a]).
    rewrite (same_io _ _ _ Hs5 eq_refl).
    change (io k3 = io k2 ++ [kfree_call a]).
    apply kfree_io, Hf.
  - intros m Hm.
    change (Buf.data (Buffer.buf k5 m) = Buf.data (Buffer.buf k2 m)).
    rewrite (same_data _ _ _ m Hs5 eq_refl). unfold k4.
    rewrite buf_upd_ne by auto. apply (same_data _ _ _ m Hs3 eq_refl).
  - change (Buf.data (Buffer.buf k5 n) = None).
    rewrite (same_data _ _ _ n Hs5 eq_refl). unfold k4.
    rewrite buf_upd_eq; [reflexivity|].
    rewrite (same_NR_BUFFERS _ _ _ Hs3). exact Hn.
  - exists c5. split; [|exact Hc5].
    apply (hash_wf_same m_alloc k5); [exact Hs6|reflexivity..|exact Hwf5].
Qed.
Lemma reclaimed_from_trans (k ka k' : kernel) (c ca c' : nat -> list nat)
    (n1 n2 : Z) :
  reclaimed_from k c ka ca n1 -> reclaimed_from ka ca k' c' n2 ->
  reclaimed_from k c k' c' (n1 + n2).
Proof.
  intros ((e1 & E1 & L1 & A1) & F1 & R1 & W1 & S1 & D1)
         ((e2 & E2 & L2 & A2) & F2 & R2 & W2 & S2 & D2).
  split; [|split; [|split; [|split; [|split]]]].
  - exists (e1 ++ e2). rewrite E2, E1, <- app_assoc. split; [reflexivity|].
    split; [rewrite frees_app, length_app; lia|].
    intros a Ha. apply in_app_or in Ha as [Ha|Ha]; [apply A1, Ha|].
    destruct (A2 a Ha) as (m & Hu & Hd). exists m.
    split; [rewrite <- F1; exact Hu|].
    destruct (D1 m) as [E|(_ & N & _)]; congruence.
  - intros m. rewrite F2. apply F1.
  - congruence.
  - exact W2.
  - intros i m Hm. apply S1, S2, Hm.
  - intros m. destruct (D2 m) as [E|(U & N & O)].
    + destruct (D1 m) as [E'|(U' & N' & O')].
      * left. congruence.
      * right. split; [exact U'|]. split; [congruence|].
        intros i Hi. apply (O' i), S2, Hi.
    + right. split; [rewrite <- F1; exact U|]. auto.
Qed.

(** The end of a round: [brelse]. *)
Lemma reclaimed_from_round (k : kernel) (c : nat -> list nat) (n : nat)
    (kv kx : kernel) (cx : nat -> list nat) (μ : mask) (evs : list event) :
  Buffer.get_free_buffer k = Some (Some n, kv) ->
  same μ k kx -> Z.land BUFFER_LOCKED (m_flags μ) = 0 \/
                 (forall m, m <> n -> Buffer.flag kx m BUFFER_LOCKED
                                      = Buffer.flag k m BUFFER_LOCKED) ->
  io kx = io k ++ evs ->
  hash_wf kx cx -> (forall i m, In m (cx i) -> In m (c i)) ->
  (forall m, m <> n ->
     Buf.data (Buffer.buf kx m) = Buf.data (Buffer.buf k m)) ->
  (Buf.data (Buffer.buf kx n) = Buf.data (Buffer.buf k n)
   \/ (Buf.data (Buffer.buf kx n) = None /\ forall i, ~ In n (cx i))) ->
  (forall a, In (kfree_call a) evs -> Buf.data (Buffer.buf k n) = Some a) ->
  reclaimed_from k c (Buffer.brelse n kx) cx
    (Z.of_nat (length (frees evs))).
Proof.
  intros Hg Hs Hl Hio Hwf Hsub Hd Hn Hfreed.
  destruct (get_free_buffer_inv _ _ _ Hg) as (_ & Hu & _).
  pose proof (brelse_same n kx) as Hb.
  split; [|split; [|split; [|split; [|split]]]].
  - exists evs. split; [|split; [reflexivity|]].
    + rewrite (same_io _ _ _ Hb eq_refl). exact Hio.
    + intros a Ha. exists n. split; [exact Hu|apply Hfreed, Ha].
  - intros m. destruct (decide (n = m)) as [<-|Hne].
    + rewrite brelse_locked_eq. symmetry. exact Hu.
    + rewrite brelse_locked_ne by exact Hne.
      destruct Hl as [Hl|Hl]; [|apply Hl; auto].
      apply (same_flag _ _ _ m BUFFER_LOCKED Hs Hl).
  - rewrite (same_reclaim _ _ _ Hb). apply (same_reclaim _ _ _ Hs).
  - apply (hash_wf_same m_release kx); [exact Hb|reflexivity..|exact Hwf].
  - exact Hsub.
  - intros m. rewrite (same_data _ _ _ m Hb eq_refl).
    destruct (decide (m = n)) as [->|Hne]; [|left; apply Hd, Hne].
    destruct Hn as [E|[E O]]; [left; exact E|right; auto].
Qed.
(** A round that frees nothing. *)
Lemma reclaim_round_keep (k : kernel) (c : nat -> list nat) (n : nat)
    (kv : kernel) :
  hash_wf k c -> Buffer.get_free_buffer k = Some (Some n, kv) ->
  reclaimed_from k c
    (Buffer.brelse n
       (Buffer.set_flag n BUFFER_VALID
          (if Buffer.flag kv n BUFFER_DIRTY
           then Buffer.sync_one_buffer n kv else kv))) c 0.
Proof.
  intros Hwf Hg.
  destruct (reclaim_prepare k n kv Hg) as (Hs & _ & Hl & e1 & Hio & Hfr).
  change 0 with (Z.of_nat (length (@nil event))). rewrite <- Hfr.
  apply (reclaimed_from_round k c n kv _ c m_prep e1 Hg Hs).
  - right. exact Hl.
  - exact Hio.
  - apply (hash_wf_same m_prep k); [exact Hs|reflexivity..|exact Hwf].
  - auto.
  - intros m _. apply (same_data _ _ _ m Hs eq_refl).
  - left. apply (same_data _ _ _ n Hs eq_refl).
  - intros a Ha. exfalso. apply (no_kfree e1 a Hfr Ha).
Qed.

(** A round that frees the data of the entry. *)
Lemma reclaim_round_drop (k : kernel) (c : nat -> list nat) (n a : nat)
    (kv k3 k5 : kernel) :
  hash_wf k c -> Buffer.get_free_buffer k = Some (Some n, kv) ->
  let k2 := Buffer.set_flag n BUFFER_VALID
              (if Buffer.flag kv n BUFFER_DIRTY
               then Buffer.sync_one_buffer n kv else kv) in
  Buf.data (Buffer.buf k2 n) = Some a ->
  kfree a k2 = Some k3 ->
  Buffer.remove_from_hash n (Buffer.upd n (Buf.set_data None) k3)
  = Some k5 ->
  exists c6,
    reclaimed_from k c
      (Buffer.brelse n (Buffer.add_buffers (- (PAGE_SIZE / 1024)) k5)) c6 1.
Proof.
  intros Hwf Hg k2 Hdata Hf Hr.
  destruct (reclaim_prepare k n kv Hg) as (Hs & _ & Hl & e1 & Hio & Hfr).
  fold k2 in Hs, Hl, Hio.
  assert (Hwf2 : hash_wf k2 c)
    by (apply (hash_wf_same m_prep k); [exact Hs|reflexivity..|exact Hwf]).
  destruct (reclaim_drop n a k2 k3 k5 c Hwf2 Hdata Hf Hr)
    as (Hs6 & Hio6 & Hd6 & Hn6 & c6 & Hwf6 & Hc6).
  exists c6.
  replace 1 with (Z.of_nat (length (frees (e1 ++ [kfree_call a]))))
    by (rewrite frees_app, Hfr; reflexivity).
  apply (reclaimed_from_round k c n kv _ c6 (mask_or m_prep m_drop)
           (e1 ++ [kfree_call a]) Hg).
  - apply (same_trans _ _ k2);
      [apply (same_mono m_prep); [reflexivity|exact Hs]|].
    apply (same_mono m_drop); [reflexivity|exact Hs6].
  - right. intros m Hm.
    rewrite (same_flag _ _ _ m BUFFER_LOCKED Hs6 eq_refl). apply Hl, Hm.
  - rewrite Hio6, Hio. symmetry. apply app_assoc.
  - exact Hwf6.
  - intros i m Hm. apply Hc6 in Hm. tauto.
  - intros m Hm. rewrite (Hd6 m Hm). apply (same_data _ _ _ m Hs eq_refl).
  - right. split; [exact Hn6|]. intros i Hi. apply Hc6 in Hi. tauto.
  - intros a' Ha. apply in_app_or in Ha as [Ha|[Ha|[]]].
    + exfalso. apply (no_kfree e1 a' Hfr Ha).
    + injection Ha as <-. rewrite <- (same_data _ _ _ n Hs eq_refl).
      exact Hdata.
Qed.
Lemma reclaimed_from_refl_count (k : kernel) (c : nat -> list nat)
    (k' : kernel) (c' : nat -> list nat) (n1 n2 : Z) :
  n1 = n2 -> reclaimed_from k c k' c' n1 -> reclaimed_from k c k' c' n2.
Proof. intros ->. auto. Qed.

(** The loop of [reclaim_buffers]. *)
Lemma reclaim_loop_spec (fuel : nat) :
  forall (reclaimed : Z) (first : ptr) (k : kernel) (c : nat -> list nat)
         (r : Z) (k' : kernel),
    hash_wf k c -> 0 <= reclaimed < NR_BUF_RECLAIM k ->
    Buffer.reclaim_loop fuel reclaimed first k = Some (r, k') ->
    exists c', reclaimed_from k c k' c' (r - reclaimed)
               /\ reclaimed <= r <= NR_BUF_RECLAIM k.
Proof.
  induction fuel as [|fuel IH]; intros reclaimed first k c r k' Hwf Hrec H;
    [discriminate|].
  cbn [Buffer.reclaim_loop] in H.
  destruct (Buffer.get_free_buffer k) as [[[n|] kv]|] eqn:Hg;
    cbn [mbind option_bind] in H; try discriminate.
  cbv zeta in H.
  set (k2 := Buffer.set_flag n BUFFER_VALID
               (if Buffer.flag kv n BUFFER_DIRTY
                then Buffer.sync_one_buffer n kv else kv)) in *.
  pose proof (reclaim_round_keep k c n kv Hwf Hg) as Hkeep. fold k2 in Hkeep.
  destruct (negb (is_null first) && ptr_eqb first (Some n)).
  { injection H as <- <-. exists c. split; [|lia].
    apply (reclaimed_from_refl_count _ _ _ _ 0); [lia|exact Hkeep]. }
  destruct (Buf.data (Buffer.buf k2 n)) as [a|] eqn:Hdata.
  - destruct (kfree a k2) as [k3|] eqn:Hf; cbn [mbind option_bind] in H;
      [|discriminate].
    destruct (Buffer.remove_from_hash n _) as [k5|] eqn:Hr;
      cbn [mbind option_bind] in H; [|discriminate].
    destruct (reclaim_round_drop k c n a kv k3 k5 Hwf Hg Hdata Hf Hr)
      as [c6 Hdrop].
    set (k7 := Buffer.brelse n _) in *.
    assert (Enr : NR_BUF_RECLAIM k7 = NR_BUF_RECLAIM k) by apply Hdrop.
    replace (NR_BUF_RECLAIM (Buffer.add_buffers (- (PAGE_SIZE / 1024)) k5))
      with (NR_BUF_RECLAIM k) in H
      by (rewrite <- Enr; apply (same_reclaim _ _ _ (brelse_same n _))).
    destruct (Z.eqb_spec (reclaimed + 1) (NR_BUF_RECLAIM k)) as [Heq|Hne].
    + injection H as <- <-. exists c6. split; [|lia].
      apply (reclaimed_from_refl_count _ _ _ _ 1); [lia|exact Hdrop].
    + destruct (fun a b => IH (reclaimed + 1) _ k7 c6 r k' a b H)
        as (c' & Hrest & Hb).
      * apply Hdrop.
      * rewrite Enr. lia.
      * exists c'. rewrite Enr in Hb. split; [|lia].
        apply (reclaimed_from_refl_count _ _ _ _ (1 + (r - (reclaimed + 1))));
          [lia|].
        exact (reclaimed_from_trans _ _ _ _ _ _ _ _ Hdrop Hrest).
  - destruct (fun a b => IH reclaimed _ _ c r k' a b H)
      as (c' & Hrest & Hb).
    + apply Hkeep.
    + replace (NR_BUF_RECLAIM (Buffer.brelse n k2)) with (NR_BUF_RECLAIM k)
        by (symmetry; apply Hkeep). exact Hrec.
    + replace (NR_BUF_RECLAIM (Buffer.brelse n k2)) with (NR_BUF_RECLAIM k)
        in Hb by (symmetry; apply Hkeep).
      exists c'. split; [|lia].
      apply (reclaimed_from_refl_count _ _ _ _ (0 + (r - reclaimed)));
        [lia|].
      exact (reclaimed_from_trans _ _ _ _ _ _ _ _ Hkeep Hrest).
Qed.

(** * The cold read *)

Lemma kib_upd (n : nat) (f : Pg.t -> Pg.t) (k : kernel) :
  buffers_kib (Page.upd n f k) = buffers_kib k.
Proof. reflexivity. Qed.

Lemma kib_wr (p : ptr) (f : Pg.t -> Pg.t) (k : kernel) :
  buffers_kib (Page.wr p f k) = buffers_kib k.
Proof. destruct p; reflexivity. Qed.

Lemma kib_add_free_pages (d : Z) (k : kernel) :
  buffers_kib (Page.add_free_pages d k) = buffers_kib k.
Proof. reflexivity. Qed.

Lemma kib_add_cached (d : Z) (k : kernel) :
  buffers_kib (Page.add_cached d k) = buffers_kib k.
Proof. reflexivity. Qed.

Lemma kib_set_page_head (v : ptr) (k : kernel) :
  buffers_kib (set_page_head v k) = buffers_kib k.
Proof. reflexivity. Qed.

Lemma kib_set_bucket (i : nat) (v : ptr) (k : kernel) :
  buffers_kib (Page.set_bucket i v k) = buffers_kib k.
Proof. reflexivity. Qed.

Lemma kib_if (c : bool) (a b : kernel) :
  buffers_kib (if c then a else b)
  = if c then buffers_kib a else buffers_kib b.
Proof. destruct c; reflexivity. Qed.

Ltac kib :=
  repeat first
    [ rewrite kib_upd | rewrite kib_wr | rewrite kib_add_free_pages
    | rewrite kib_add_cached | rewrite kib_set_page_head
    | rewrite kib_set_bucket | rewrite kib_if
    | match goal with |- context [if ?c then _ else _] => destruct c end ];
  try reflexivity.

Lemma kib_remove_from_free_list (n : nat) (k : kernel) :
  buffers_kib (Page.remove_from_free_list n k) = buffers_kib k.
Proof. unfold Page.remove_from_free_list. cbv zeta. kib. Qed.

Lemma kib_unlink (h : Page.hloc) (k : kernel) :
  buffers_kib (Page.unlink h k) = buffers_kib k.
Proof.
  unfold Page.unlink, Page.assign. cbv zeta. destruct h; simpl Page.is_bucket;
    cbv iota; kib.
Qed.

Lemma kib_remove_loop (fuel n : nat) (h : Page.hloc) (k k' : kernel) :
  Page.remove_loop fuel n h k = Some k' -> buffers_kib k' = buffers_kib k.
Proof.
  revert h. induction fuel as [|fuel IH]; intros h; simpl; [discriminate|].
  destruct (Page.deref k h) as [m|]; [|intros [= <-]; reflexivity].
  destruct (Nat.eqb m n); [intros [= <-]; apply kib_unlink|apply IH].
Qed.

Lemma kib_get_free_page (k : kernel) (r : ptr) (k' : kernel) :
  Page.get_free_page k = Some (r, k') -> buffers_kib k' = buffers_kib k.
Proof.
  unfold Page.get_free_page.
  destruct (free_pages (kstat k) =? 0); [intros [= <- <-]; reflexivity|].
  destruct (page_head k) as [n|]; [|discriminate]. cbv zeta.
  destruct (Page.remove_from_hash n _) as [k1|] eqn:Hr; [|discriminate].
  simpl. intros [= <- <-]. rewrite !kib_upd.
  unfold Page.remove_from_hash in Hr.
  destruct (_ =? 0) in Hr.
  - injection Hr as <-. apply kib_remove_from_free_list.
  - apply kib_remove_loop in Hr. rewrite Hr.
    apply kib_remove_from_free_list.
Qed.

Lemma kib_kmalloc (k : kernel) (r : ptr) (k' : kernel) :
  kmalloc k = Some (r, k') -> buffers_kib k' = buffers_kib k.
Proof.
  unfold kmalloc.
  destruct (Page.get_free_page k) as [[[n|] k1]|] eqn:Hg; simpl;
    try discriminate; intros [= <- <-]; apply (kib_get_free_page _ _ _ Hg).
Qed.
Lemma head_wr (p : ptr) (f : Buf.t -> Buf.t) (k : kernel) :
  buffer_head (Buffer.wr p f k) = buffer_head k.
Proof. destruct p; reflexivity. Qed.

(** An entry released with [VALID] set becomes the tail of the free
    list. *)
Lemma is_free_tail_brelse (v : nat) (k : kernel) :
  free_ok k -> (v < Buffer.NR_BUFFERS k)%nat ->
  Buffer.flag k v BUFFER_VALID = true ->
  is_free_tail (Buffer.brelse v k) v = true.
Proof.
  intros Hfo Hv Hvalid. unfold is_free_tail, Buffer.brelse.
  set (kd := if Buffer.flag k v BUFFER_DIRTY
             then Buffer.insert_on_dirty_list v k else k).
  assert (Hsd : same m_dirtyins k kd).
  { unfold kd. destruct (Buffer.flag k v BUFFER_DIRTY);
      [apply insert_on_dirty_list_same|apply same_refl]. }
  assert (Hvd : (v < Buffer.NR_BUFFERS kd)%nat)
    by (rewrite (same_NR_BUFFERS _ _ _ Hsd); exact Hv).
  assert (Hvalid' : Buffer.flag kd v BUFFER_VALID = true)
    by (rewrite (same_flag _ _ _ v BUFFER_VALID Hsd eq_refl); exact Hvalid).
  assert (Hh : forall h, buffer_head kd = Some h ->
                         (h < Buffer.NR_BUFFERS kd)%nat).
  { intros h Eh. rewrite (same_NR_BUFFERS _ _ _ Hsd).
    apply (proj1 Hfo). rewrite <- (same_head _ _ _ Hsd eq_refl). exact Eh. }
  clearbody kd. clear Hsd.
  set (ki := Buffer.insert_on_free_list v kd).
  assert (E : Buf.prev_free (Buffer.rd ki (buffer_head ki)) = Some v).
  { pose proof (same_flag _ _ _ v BUFFER_VALID
                  (insert_on_free_list_same v kd) eq_refl) as Hfl.
    fold ki in Hfl. unfold ki, Buffer.insert_on_free_list in *.
    destruct (buffer_head kd) as [h|] eqn:Eh.
    - specialize (Hh h eq_refl). cbv zeta in *.
      set (k1 := Buffer.upd v (Buf.set_next_free (Some h)) kd) in *.
      set (k2 := Buffer.upd v _ k1) in *.
      set (k3 := Buffer.wr _ _ k2) in *.
      set (k4 := Buffer.wr (buffer_head k3) _ k3) in *.
      assert (Eh3 : buffer_head k3 = Some h)
        by (unfold k3; rewrite head_wr; exact Eh).
      assert (Eh4 : buffer_head k4 = Some h)
        by (unfold k4; rewrite head_wr; exact Eh3).
      assert (Hf4 : Buffer.flag k4 v BUFFER_VALID = true).
      { destruct (Buffer.flag k4 v BUFFER_VALID) eqn:E4; [reflexivity|].
        simpl in Hfl. unfold set_buffer_head, Buffer.flag, Buffer.buf in *.
        simpl in Hfl. congruence. }
      rewrite Hf4. simpl. rewrite Eh4. simpl. unfold k4. rewrite Eh3. simpl.
      rewrite buf_upd_eq; [reflexivity|].
      unfold k3. rewrite NR_BUFFERS_wr. unfold k2, k1.
      rewrite !NR_BUFFERS_upd. exact Hh.
    - change (Buf.prev_free
                (Buffer.buf
                   (Buffer.upd v (Buf.set_prev_free (Some v))
                      (Buffer.upd v (Buf.set_next_free (Some v)) kd)) v)
              = Some v).
      rewrite buf_upd_eq by (rewrite NR_BUFFERS_upd; exact Hvd).
      reflexivity. }
  replace (buffer_head (Buffer.clear_flag v BUFFER_LOCKED ki))
    with (buffer_head ki) by reflexivity.
  destruct (buffer_head ki) as [h|]; simpl in *.
  - unfold Buffer.clear_flag.
    rewrite (proj_upd Buf.prev_free) by reflexivity. rewrite E.
    simpl. apply Nat.eqb_refl.
  - discriminate.
Qed.
Lemma kib_same (μ : mask) (k k' : kernel) :
  same μ k k' -> m_kstat μ = false -> buffers_kib k' = buffers_kib k.
Proof.
  intros Hs Hm. unfold buffers_kib. rewrite (same_kstat _ _ _ Hs Hm).
  reflexivity.
Qed.

(** [getblk] with a victim that has no data yet. *)
Lemma getblk_new_frame (dev block size : Z) (k kv km : kernel)
    (c : nat -> list nat) (v a : nat) :
  hash_wf k c -> (v < Buffer.NR_BUFFERS k)%nat ->
  Buffer.search_buffer_hash dev block size k = Some None ->
  Buffer.get_free_buffer k = Some (Some v, kv) ->
  Buffer.flag k v BUFFER_DIRTY = false ->
  Buf.data (Buffer.buf k v) = None ->
  kmalloc kv = Some (Some a, km) ->
  exists kg,
    Buffer.getblk dev block size k = Some (Some v, kg)
    /\ io kg = io k
    /\ Buffer.flag kg v BUFFER_LOCKED = true
    /\ Buffer.flag kg v BUFFER_DIRTY = false
    /\ buffers_kib kg = buffers_kib k + PAGE_SIZE / 1024
    /\ blk_devices kg = blk_devices k
    /\ Buffer.NR_BUFFERS kg = Buffer.NR_BUFFERS k.
Proof.
  intros Hwf Hv Hmiss Hg Hd Hdata Hm.
  pose proof (get_free_buffer_same k _ Hg) as Hsv.
  cbv [st pair_state kernel_state snd] in Hsv.
  pose proof (kmalloc_same kv _ Hm) as Hsm.
  cbv [st pair_state kernel_state snd] in Hsm.
  destruct (get_free_buffer_inv _ _ _ Hg) as (_ & _ & Ekv).
  set (k1 := Buffer.add_buffers (PAGE_SIZE / 1024)
               (Buffer.upd v (Buf.set_data (Some a)) km)).
  assert (Hs1 : same (mask_or m_setdata m_palloc) km k1).
  { apply (same_trans _ _ (Buffer.upd v (Buf.set_data (Some a)) km)).
    - apply same_upd. intros []. reflexivity.
    - apply same_add_buffers. reflexivity. }
  assert (Hsk1 : same (mask_or m_take (mask_or m_setdata m_palloc)) k k1).
  { apply (same_trans _ _ kv);
      [apply (same_mono m_take); [reflexivity|exact Hsv]|].
    apply (same_trans _ _ km);
      [apply (same_mono m_palloc); [reflexivity|exact Hsm]|].
    apply (same_mono (mask_or m_setdata m_palloc)); [reflexivity|exact Hs1]. }
  destruct (remove_from_hash_wf v k1 c) as (k3 & c3 & Hr & _).
  { apply (hash_wf_same _ _ _ c Hsk1); [reflexivity..|exact Hwf]. }
  pose proof (remove_from_hash_same _ _ _ Hr) as Hs3.
  cbv [st kernel_state] in Hs3.
  pose proof (rebind_same v dev block size _ _ Hr) as Hsg.
  exists (rebind v dev block size k3).
  assert (Hdv : Buffer.flag kv v BUFFER_DIRTY = false)
    by (rewrite (same_flag _ _ _ v BUFFER_DIRTY Hsv eq_refl); exact Hd).
  assert (Hdatav : Buf.data (Buffer.buf kv v) = None)
    by (rewrite (same_data _ _ _ v Hsv eq_refl); exact Hdata).
  split; [|split; [|split; [|split; [|split; [|split]]]]].
  - unfold Buffer.getblk. rewrite Hmiss. simpl. rewrite Hg. simpl.
    rewrite Hdv, Hdatav. simpl. rewrite Hm. simpl. fold k1. rewrite Hr.
    reflexivity.
  - rewrite (same_io _ _ _ Hsg eq_refl). apply (same_io _ _ _ Hsk1 eq_refl).
  - rewrite (same_flag _ _ _ v BUFFER_LOCKED Hsg eq_refl).
    rewrite (same_flag _ _ _ v BUFFER_LOCKED Hs1 eq_refl).
    rewrite (same_flag _ _ _ v BUFFER_LOCKED Hsm eq_refl).
    rewrite Ekv. apply (flag_set_flag_eq v BUFFER_LOCKED 1);
      [reflexivity|lia|].
    rewrite (same_NR_BUFFERS _ _ _ (remove_from_free_list_same v k)).
    exact Hv.
  - rewrite (same_flag _ _ _ v BUFFER_DIRTY Hsg eq_refl).
    rewrite (same_flag _ _ _ v BUFFER_DIRTY Hsk1 eq_refl). exact Hd.
  - rewrite (kib_same _ _ _ Hsg eq_refl).
    unfold k1. change (buffers_kib km + PAGE_SIZE / 1024
                       = buffers_kib k + PAGE_SIZE / 1024).
    rewrite (kib_kmalloc _ _ _ Hm), (kib_same _ _ _ Hsv eq_refl).
    reflexivity.
  - rewrite (same_devices _ _ _ Hsg). apply (same_devices _ _ _ Hsk1).
  - rewrite (same_NR_BUFFERS _ _ _ Hsg).
    apply (same_NR_BUFFERS _ _ _ Hsk1).
Qed.
Lemma same_store_log (p : ptr) (off : nat) (src : list Byte.byte) (n : nat)
    (e : event) (k : kernel) :
  same (mk_mask false false 0 false false false false false false false
                true true false) k
       (Buffer.store p off src n (Buffer.log e k)).
Proof.
  apply (same_trans _ _ (Buffer.log e k));
    [apply same_log|apply same_store]; reflexivity.
Qed.

(** [bread] of a block that is not cached, when the head of the free list
    is a clean entry without data and the allocator has a frame. *)
Lemma cold_read (dev block size : Z) (k kv km : kernel)
    (c : nat -> list nat) (v a : nat) (dv : device)
    (read : list event -> Z -> Z -> Z -> Z * frame) :
  framed k -> hash_wf k c ->
  blk_devices k dev = Some dv -> fsop dv ≫= read_block = Some read ->
  Buffer.search_buffer_hash dev block size k = Some None ->
  Buffer.get_free_buffer k = Some (Some v, kv) ->
  Buffer.flag k v BUFFER_DIRTY = false ->
  Buf.data (Buffer.buf k v) = None ->
  kmalloc kv = Some (Some a, km) ->
  0 <= fst (read (io k) dev block size) ->
  exists k',
    Buffer.bread dev block size k = Some (Some v, k')
    /\ io k' = io k ++ [read_block_call dev block size
                          (fst (read (io k) dev block size))]
    /\ Buffer.flag k' v BUFFER_VALID = true
    /\ Buffer.flag k' v BUFFER_LOCKED = true
    /\ buffers_kib k' = buffers_kib k + PAGE_SIZE / 1024
    /\ is_free_tail (Buffer.brelse v k') v = true.
Proof.
  intros Hfr Hwf Hdev Hread Hmiss Hg Hd Hdata Hm Hret.
  assert (Hv : (v < Buffer.NR_BUFFERS k)%nat)
    by (apply (get_free_buffer_free_ok k v kv (proj2 (proj2 Hfr)) Hg)).
  destruct (getblk_new_frame dev block size k kv km c v a Hwf Hv Hmiss Hg Hd
              Hdata Hm)
    as (kg & Hrun & Eio & Hl & Hdg & Ekib & Edev & Enr).
  pose proof (getblk_miss_invalid dev block size k v kg Hmiss Hrun) as Hinv.
  assert (Hb : exists k', Buffer.bread dev block size k = Some (Some v, k')
             /\ same (mask_or (m_bits BUFFER_VALID)
                        (mk_mask false false 0 false false false false false
                                 false false true true false)) kg k'
             /\ io k' = io kg ++ [read_block_call dev block size
                                    (fst (read (io kg) dev block size))]
             /\ Buffer.flag k' v BUFFER_VALID = true).
  { unfold Buffer.bread. rewrite Hdev, Hrun. simpl. rewrite Hinv, Hread.
    simpl. rewrite Eio.
    destruct (read (io k) dev block size) as [ret bytes] eqn:Er.
    simpl in Hret |- *.
    destruct (Z.leb_spec 0 ret) as [_|]; [|lia].
    set (ks := Buffer.store _ _ _ _ _).
    assert (Hss : same (mk_mask false false 0 false false false false false
                                false false true true false) kg ks)
      by apply same_store_log.
    assert (Hvs : Buffer.flag (Buffer.set_flag v BUFFER_VALID ks) v
                              BUFFER_VALID = true).
    { apply (flag_set_flag_eq v BUFFER_VALID 0); [reflexivity|lia|].
      rewrite (same_NR_BUFFERS _ _ _ Hss), Enr. exact Hv. }
    rewrite Hvs. eexists. split; [reflexivity|]. split; [|split].
    - apply (same_trans _ _ ks).
      + eapply same_mono; [|exact Hss]. reflexivity.
      + apply same_set_flag. reflexivity.
    - unfold ks.
      generalize (Buf.data
                    (Buffer.buf
                       (Buffer.log (read_block_call dev block size ret) kg)
                       v)).
      intros []; (transitivity
                    (io kg ++ [read_block_call dev block size ret]);
                  [reflexivity|rewrite Eio; reflexivity]).
    - exact Hvs. }
  destruct Hb as (k' & Hbread & Hs & Eio' & Hvalid).
  exists k'. split; [exact Hbread|]. split; [rewrite Eio', Eio; reflexivity|].
  split; [exact Hvalid|]. split; [|split].
  - rewrite (same_flag _ _ _ v BUFFER_LOCKED Hs eq_refl). exact Hl.
  - rewrite (kib_same _ _ _ Hs eq_refl). exact Ekib.
  - apply is_free_tail_brelse.
    + apply (bread_framed dev block size k _ k' Hfr Hbread).
    + rewrite (same_NR_BUFFERS _ _ _ Hs), Enr. exact Hv.
    + exact Hvalid.
Qed.
(** ** Fresh caches *)

Lemma pg_proj_upd {A : Type} (proj : Pg.t -> A) (n : nat)
    (f : Pg.t -> Pg.t) (k : kernel) (m : nat) :
  (forall x, proj (f x) = proj x) ->
  proj (Page.pg (Page.upd n f k) m) = proj (Page.pg k m).
Proof.
  intros H. unfold Page.pg, Page.upd. simpl.
  rewrite list_lookup_total_alter. case_decide as Hd; [|reflexivity].
  destruct Hd as [-> _]. apply H.
Qed.

Lemma pg_proj_wr {A : Type} (proj : Pg.t -> A) (p : ptr)
    (f : Pg.t -> Pg.t) (k : kernel) (m : nat) :
  (forall x, proj (f x) = proj x) ->
  proj (Page.pg (Page.wr p f k) m) = proj (Page.pg k m).
Proof.
  intros. destruct p; simpl; [apply pg_proj_upd; assumption|reflexivity].
Qed.

Lemma pg_add_free_pages (d : Z) (k : kernel) (m : nat) :
  Page.pg (Page.add_free_pages d k) m = Page.pg k m.
Proof. reflexivity. Qed.

Lemma pg_set_page_head (v : ptr) (k : kernel) (m : nat) :
  Page.pg (set_page_head v k) m = Page.pg k m.
Proof. reflexivity. Qed.

Ltac read_inode :=
  repeat first
    [ rewrite pg_add_free_pages | rewrite pg_set_page_head
    | rewrite (pg_proj_wr Pg.inode) by reflexivity
    | rewrite (pg_proj_upd Pg.inode) by reflexivity ].

Lemma inode_insert_on_free_list (n : nat) (k : kernel) (m : nat) :
  Pg.inode (Page.pg (Page.insert_on_free_list n k) m)
  = Pg.inode (Page.pg k m).
Proof.
  unfold Page.insert_on_free_list. cbv zeta. rewrite pg_add_free_pages.
  destruct (page_head k); read_inode; reflexivity.
Qed.

Lemma inode_page_init_loop (reserved : nat -> bool) (todo : nat) :
  forall (n : nat) (k : kernel) (m : nat),
    Pg.inode (Page.pg (Page.page_init_loop reserved todo n k) m)
    = Pg.inode (Page.pg k m).
Proof.
  induction todo as [|todo IH]; intros n k m; simpl; [reflexivity|].
  rewrite IH. destruct (reserved n); read_inode;
    rewrite ?inode_insert_on_free_list; read_inode; reflexivity.
Qed.

Lemma page_head_wr (p : ptr) (f : Pg.t -> Pg.t) (k : kernel) :
  page_head (Page.wr p f k) = page_head k.
Proof. destruct p; reflexivity. Qed.

Lemma page_head_insert_on_free_list (n : nat) (k : kernel) :
  page_head (Page.insert_on_free_list n k)
  = match page_head k with Some h => Some h | None => Some n end.
Proof.
  unfold Page.insert_on_free_list. cbv zeta.
  change (page_head (Page.add_free_pages 1 ?x)) with (page_head x).
  destruct (page_head k) as [h|] eqn:Eh; [|reflexivity].
  rewrite !page_head_wr. exact Eh.
Qed.

Lemma free_pages_wr (p : ptr) (f : Pg.t -> Pg.t) (k : kernel) :
  free_pages (kstat (Page.wr p f k)) = free_pages (kstat k).
Proof. destruct p; reflexivity. Qed.

Lemma free_pages_insert_on_free_list (n : nat) (k : kernel) :
  free_pages (kstat (Page.insert_on_free_list n k))
  = free_pages (kstat k) + 1.
Proof.
  unfold Page.insert_on_free_list. cbv zeta.
  change (free_pages (kstat (Page.add_free_pages 1 ?x)))
    with (free_pages (kstat x) + 1).
  destruct (page_head k) as [h|]; [|reflexivity].
  rewrite !free_pages_wr. reflexivity.
Qed.
Lemma page_init_loop_free_pages (todo : nat) :
  forall (n : nat) (k : kernel),
    free_pages (kstat (Page.page_init_loop (fun _ => false) todo n k))
    = free_pages (kstat k) + Z.of_nat todo.
Proof.
  induction todo as [|todo IH]; intros n k; simpl Page.page_init_loop;
    [lia|].
  rewrite IH, free_pages_insert_on_free_list.
  change (free_pages (kstat (Page.upd ?a ?f ?x)))
    with (free_pages (kstat x)).
  change (free_pages (kstat (Page.upd ?a ?f ?x)))
    with (free_pages (kstat x)). lia.
Qed.

Lemma page_init_loop_head (todo : nat) :
  forall (n : nat) (k : kernel),
    (page_head k <> None \/ (0 < todo)%nat) ->
    page_head (Page.page_init_loop (fun _ => false) todo n k) <> None.
Proof.
  induction todo as [|todo IH]; intros n k Hk; simpl Page.page_init_loop.
  - destruct Hk as [Hk|Hk]; [exact Hk|lia].
  - apply IH. left. rewrite page_head_insert_on_free_list.
    destruct (page_head _); discriminate.
Qed.

Lemma page_init_loop_same (reserved : nat -> bool) (todo : nat) :
  forall (n : nat) (k : kernel),
    same m_palloc k (Page.page_init_loop reserved todo n k).
Proof.
  induction todo as [|todo IH]; intros n k; simpl Page.page_init_loop.
  - apply same_refl.
  - eapply same_trans; [|apply IH].
    destruct (reserved n).
    + eapply same_trans; apply Page_upd_same.
    + eapply same_trans; [apply Page_upd_same|].
      eapply same_trans; [apply Page_upd_same|].
      apply Page_insert_on_free_list_same.
Qed.

Lemma page_init_same (reserved : nat -> bool) (pages : nat) (k : kernel) :
  same m_palloc k (Page.page_init reserved pages k).
Proof.
  unfold Page.page_init. cbv zeta.
  eapply same_trans; [|apply page_init_loop_same].
  apply same_palloc_intro; reflexivity.
Qed.

Lemma kib_insert_on_free_list (n : nat) (k : kernel) :
  buffers_kib (Page.insert_on_free_list n k) = buffers_kib k.
Proof.
  unfold Page.insert_on_free_list. cbv zeta. rewrite kib_add_free_pages.
  destruct (page_head k); kib.
Qed.

Lemma kib_page_init (reserved : nat -> bool) (pages : nat) (k : kernel) :
  buffers_kib (Page.page_init reserved pages k) = buffers_kib k.
Proof.
  unfold Page.page_init. cbv zeta.
  set (k0 := set_page_hash_table _ _).
  change (buffers_kib k) with (buffers_kib k0). generalize 0%nat.
  generalize k0. clear k0.
  induction pages as [|pages IH]; intros k0 n; simpl Page.page_init_loop;
    [reflexivity|].
  rewrite IH. destruct (reserved n); rewrite ?kib_insert_on_free_list; kib.
Qed.

(** The allocator has a frame when the free list of pages starts with a
    page that is in no hash chain. *)
Lemma kmalloc_ok (k : kernel) (p : nat) :
  free_pages (kstat k) <> 0 -> page_head k = Some p ->
  Pg.inode (Page.pg k p) = 0 ->
  exists a km, kmalloc k = Some (Some a, km).
Proof.
  intros Hf Hh Hi. unfold kmalloc, Page.get_free_page.
  destruct (Z.eqb_spec (free_pages (kstat k)) 0) as [|_]; [contradiction|].
  rewrite Hh. cbv zeta. unfold Page.remove_from_hash at 1.
  assert (E : Pg.inode (Page.pg (Page.remove_from_free_list p k) p) = 0).
  { rewrite <- Hi. unfold Page.remove_from_free_list.
    destruct (free_pages (kstat k) =? 0); [reflexivity|]. cbv zeta.
    repeat match goal with
           | |- context [if ?c then _ else _] => destruct c
           end;
      read_inode; reflexivity. }
  rewrite E. simpl. eauto.
Qed.
Lemma same_pages (μ : mask) (k k' : kernel) :
  same μ k k' -> m_pages μ = false ->
  page_table k' = page_table k /\ page_head k' = page_head k
  /\ page_hash_table k' = page_hash_table k.
Proof.
  intros (_&_&_&_&_&_&_&_&_&H&_) Hm. rewrite Hm in H. simpl in H.
  injection H as -> -> ->. auto.
Qed.

Lemma buffer_init_loop_same (todo : nat) :
  forall (n : nat) (k : kernel),
    same m_freelist k (Buffer.buffer_init_loop todo n k).
Proof.
  induction todo as [|todo IH]; intros n k; simpl.
  - apply same_refl.
  - eapply same_trans; [apply insert_on_free_list_same|apply IH].
Qed.

Lemma head_insert_on_free_list (n : nat) (k : kernel) :
  buffer_head (Buffer.insert_on_free_list n k) <> None.
Proof.
  unfold Buffer.insert_on_free_list.
  destruct (buffer_head k) as [h|] eqn:Eh; [|discriminate]. cbv zeta.
  match goal with |- context [if ?c then _ else _] => destruct c end.
  - discriminate.
  - rewrite !head_wr. change (buffer_head k <> None). congruence.
Qed.

Lemma buffer_init_loop_head (todo : nat) :
  forall (n : nat) (k : kernel),
    (buffer_head k <> None \/ (0 < todo)%nat) ->
    buffer_head (Buffer.buffer_init_loop todo n k) <> None.
Proof.
  induction todo as [|todo IH]; intros n k Hk; simpl.
  - destruct Hk as [Hk|Hk]; [exact Hk|lia].
  - apply IH. left. apply head_insert_on_free_list.
Qed.
(** What caches are like right after [page_init] and [buffer_init]. *)
Lemma fresh_facts (nbuf nhash npages nphash : nat)
    (devs : Z -> option device) (reclaim : Z) :
  (1 <= nbuf)%nat -> (1 <= npages)%nat ->
  let k := fresh nbuf nhash npages nphash devs reclaim in
  framed k /\ hash_wf k (fun _ => [])
  /\ io k = [] /\ buffers_kib k = 0 /\ blk_devices k = devs
  /\ (forall m b, Buffer.flag k m b = false)
  /\ (forall m, Buf.data (Buffer.buf k m) = None)
  /\ buffer_head k <> None
  /\ free_pages (kstat k) <> 0
  /\ exists p, page_head k = Some p /\ Pg.inode (Page.pg k p) = 0.
Proof.
  intros Hb Hp k. unfold fresh in k.
  set (kb := boot nbuf nhash npages nphash devs reclaim) in *.
  set (kp := Page.page_init (fun _ => false) npages kb) in *.
  pose proof (page_init_same (fun _ => false) npages kb) as Hsp. fold kp in Hsp.
  assert (Hun : unset kp).
  { split; [rewrite (same_head _ _ _ Hsp eq_refl)
           |rewrite (same_dhead _ _ _ Hsp eq_refl)]; reflexivity. }
  assert (Enr : Buffer.NR_BUFFERS kp = nbuf).
  { rewrite (same_NR_BUFFERS _ _ _ Hsp). apply length_replicate. }
  set (kz := set_buffer_hash_table
               (replicate (length (buffer_hash_table kp)) None)
               (set_buffer_table (replicate (Buffer.NR_BUFFERS kp) Buf.zero)
                  kp)).
  assert (Ek : k = Buffer.buffer_init_loop (Buffer.NR_BUFFERS kz) 0 kz)
    by reflexivity.
  assert (Enz : Buffer.NR_BUFFERS kz = nbuf).
  { unfold kz, Buffer.NR_BUFFERS. simpl. rewrite length_replicate.
    exact Enr. }
  pose proof (buffer_init_loop_same (Buffer.NR_BUFFERS kz) 0 kz) as Hsf.
  rewrite <- Ek in Hsf.
  assert (Hz : forall m, Buffer.buf kz m = Buf.zero)
    by (intros m; apply buf_zeroed).
  destruct (same_pages _ _ _ Hsf eq_refl) as (Ept & Eph & _).
  change (page_table kz) with (page_table kp) in Ept.
  change (page_head kz) with (page_head kp) in Eph.
  pose proof (same_kstat _ _ _ Hsf eq_refl) as Eks.
  change (kstat kz) with (kstat kp) in Eks.
  split; [apply framed_buffer_init, Hun|].
  split; [|split; [|split; [|split; [|split; [|split; [|split; [|split]]]]]]].
  - split; [|intros i n []]. intros i. split; [|apply NoDup_nil_2].
    simpl. unfold Buffer.bucket.
    rewrite (same_buckets _ _ _ Hsf eq_refl). apply bucket_zeroed.
  - rewrite (same_io _ _ _ Hsf eq_refl). change (io kp = []).
    rewrite (same_io _ _ _ Hsp eq_refl). reflexivity.
  - rewrite (kib_same _ _ _ Hsf eq_refl). change (buffers_kib kp = 0).
    unfold kp. rewrite kib_page_init. reflexivity.
  - rewrite (same_devices _ _ _ Hsf). change (blk_devices kp = devs).
    rewrite (same_devices _ _ _ Hsp). reflexivity.
  - intros m b. unfold Buffer.flag.
    destruct Hsf as (_ & _ & He & _). specialize (He m).
    apply erase_eq in He. rewrite Hz in He.
    destruct He as (_ & _ & _ & _ & Hfl & _). simpl in Hfl.
    rewrite Z.lor_0_r in Hfl. rewrite Hfl. reflexivity.
  - intros m. rewrite (same_data _ _ _ m Hsf eq_refl), Hz. reflexivity.
  - rewrite Ek. apply buffer_init_loop_head. right. lia.
  - rewrite Eks. unfold kp, Page.page_init. cbv zeta.
    rewrite page_init_loop_free_pages. simpl. lia.
  - assert (Hh : page_head kp <> None).
    { unfold kp, Page.page_init. cbv zeta. apply page_init_loop_head.
      right. lia. }
    destruct (page_head kp) as [p|] eqn:Ehp; [|contradiction].
    exists p. split; [rewrite Eph; reflexivity|].
    unfold Page.pg. rewrite Ept. fold (Page.pg kp p).
    unfold kp, Page.page_init. cbv zeta. rewrite inode_page_init_loop.
    unfold Page.pg. simpl. rewrite list_lookup_total_alt.
    destruct (replicate _ Pg.zero !! p) as [x|] eqn:E; [|reflexivity].
    apply lookup_replicate in E as [-> _]. reflexivity.
Qed.

(** * The page cache *)

Lemma pindex_refl (k : kernel) : pindex k k.
Proof. repeat split. Qed.

Lemma pindex_trans (k1 k2 k3 : kernel) :
  pindex k1 k2 -> pindex k2 k3 -> pindex k1 k3.
Proof.
  intros (L1 & H1 & E1) (L2 & H2 & E2).
  split; [congruence|]. split; [congruence|].
  intros m. rewrite E2. apply E1.
Qed.

Lemma pindex_sym (k1 k2 : kernel) : pindex k1 k2 -> pindex k2 k1.
Proof. intros (L & H & E). repeat split; auto. Qed.

(** A change outside the page table and the page hash table. *)
Lemma pindex_intro (k k' : kernel) :
  page_table k' = page_table k -> page_hash_table k' = page_hash_table k ->
  pindex k k'.
Proof.
  intros Ht Hh. unfold pindex, Page.pg. rewrite Ht, Hh. auto.
Qed.

Lemma pg_upd (n : nat) (f : Pg.t -> Pg.t) (k : kernel) (m : nat) :
  Page.pg (Page.upd n f k) m
  = if decide (n = m /\ (n < length (page_table k))%nat)
    then f (Page.pg k n) else Page.pg k m.
Proof. apply list_lookup_total_alter. Qed.

Lemma pindex_upd (n : nat) (f : Pg.t -> Pg.t) (k : kernel) :
  (forall x, perase (f x) = perase x) -> pindex k (Page.upd n f k).
Proof.
  intros Hf. split; [apply length_alter|]. split; [reflexivity|].
  intros m. rewrite pg_upd. case_decide as Hd; [|reflexivity].
  destruct Hd as [-> _]. apply Hf.
Qed.

Lemma pindex_wr (p : ptr) (f : Pg.t -> Pg.t) (k : kernel) :
  (forall x, perase (f x) = perase x) -> pindex k (Page.wr p f k).
Proof. intros. destruct p; [apply pindex_upd; assumption|apply pindex_refl]. Qed.

Lemma pindex_let (k e : kernel) (b : kernel -> kernel) :
  pindex k e -> (forall x, pindex x (b x)) -> pindex k (let x := e in b x).
Proof. intros H1 H2. exact (pindex_trans _ _ _ H1 (H2 e)). Qed.

Ltac pindex_prim :=
  first
    [ apply pindex_refl
    | apply pindex_upd; intros []; reflexivity
    | apply pindex_wr; intros []; reflexivity
    | apply pindex_intro; reflexivity
    | solve [eauto with pindex] ].

Ltac pindex_steps :=
  lazymatch goal with
  | |- pindex ?k (let x := ?e in @?b x) =>
      lazymatch type of e with
      | kernel =>
          apply (pindex_let k e b);
          [ pindex_steps | intros ?; cbv beta; pindex_steps ]
      | _ => change (pindex k (b e)); cbv beta; pindex_steps
      end
  | |- pindex _ (if ?c then _ else _) => destruct c; pindex_steps
  | |- pindex _ (match ?c with _ => _ end) => destruct c; pindex_steps
  | |- _ => pindex_prim
  end.

Create HintDb pindex discriminated.

Lemma pindex_remove_from_free_list (n : nat) (k : kernel) :
  pindex k (Page.remove_from_free_list n k).
Proof. cbv beta delta [Page.remove_from_free_list]. pindex_steps. Qed.

Lemma pindex_insert_on_free_list (n : nat) (k : kernel) :
  pindex k (Page.insert_on_free_list n k).
Proof. cbv beta delta [Page.insert_on_free_list]. pindex_steps. Qed.

#[export] Hint Resolve pindex_remove_from_free_list
  pindex_insert_on_free_list : pindex.

Lemma pindex_hit (n : nat) (k : kernel) : pindex k (hit n k).
Proof. cbv beta delta [hit]. pindex_steps. Qed.

Lemma pindex_release_page (page : Z) (k k' : kernel) :
  Page.release_page page k = Some k' -> pindex k k'.
Proof.
  unfold Page.release_page. destruct (negb _); [discriminate|]. cbv zeta.
  destruct (_ =? 0); [intros [= <-]; apply pindex_refl|].
  set (k1 := Page.upd _ _ k).
  assert (H1 : pindex k k1) by (apply pindex_upd; intros []; reflexivity).
  destruct (0 <? _); intros [= <-]; [exact H1|].
  apply (pindex_trans _ _ _ H1).
  apply (pindex_trans _ (Page.insert_on_free_list (Z.to_nat page) k1));
    [apply pindex_insert_on_free_list|].
  destruct (_ =? 0); pindex_prim.
Qed.
Lemma perase_fields (a b : Pg.t) :
  perase a = perase b ->
  Pg.page a = Pg.page b /\ Pg.flags a = Pg.flags b
  /\ Pg.inode a = Pg.inode b /\ Pg.offset a = Pg.offset b
  /\ Pg.dev a = Pg.dev b /\ Pg.data a = Pg.data b
  /\ Pg.prev_hash a = Pg.prev_hash b /\ Pg.next_hash a = Pg.next_hash b.
Proof. destruct a, b. unfold perase. simpl. intros [=]. repeat split; auto. Qed.

(** What [search_page_hash] answers depends on the index only. *)
Lemma search_loop_pindex (i : inode_t) (offset : Z) (k k' : kernel)
    (fuel : nat) :
  pindex k k' ->
  forall (p r : ptr) (k1 : kernel),
    Page.search_loop fuel i offset p k = Some (r, k1) ->
    exists k1', Page.search_loop fuel i offset p k' = Some (r, k1').
Proof.
  intros (_ & _ & He). induction fuel as [|fuel IH]; intros p r k1; simpl;
    [discriminate|].
  destruct p as [n|]; [|intros [= <- <-]; eauto].
  destruct (perase_fields _ _ (He n)) as (_ & _ & -> & -> & -> & _ & _ & ->).
  destruct (_ && _); [intros [= <- <-]; eauto|apply IH].
Qed.

Lemma search_page_hash_pindex (i : inode_t) (offset : Z) (k k' : kernel)
    (r : ptr) (k1 : kernel) :
  pindex k k' ->
  Page.search_page_hash i offset k = Some (r, k1) ->
  exists k1', Page.search_page_hash i offset k' = Some (r, k1').
Proof.
  intros Hp. pose proof Hp as (Hl & Hh & _).
  unfold Page.search_page_hash, Page.chain_fuel, Page.bucket, Page.PAGE_HASH,
    Page.NR_PAGE_HASH.
  rewrite Hl, Hh. apply search_loop_pindex, Hp.
Qed.

(** The state after a search that finds a page. *)
Lemma search_loop_hit (i : inode_t) (offset : Z) (k : kernel) (fuel : nat) :
  forall (p : ptr) (n : nat) (k1 : kernel),
    Page.search_loop fuel i offset p k = Some (Some n, k1) -> k1 = hit n k.
Proof.
  induction fuel as [|fuel IH]; intros p n k1; simpl; [discriminate|].
  destruct p as [m|]; [|discriminate].
  destruct (_ && _); [intros [= <- <-]; reflexivity|apply IH].
Qed.

Lemma search_page_hash_hit (i : inode_t) (offset : Z) (k : kernel)
    (n : nat) (k1 : kernel) :
  Page.search_page_hash i offset k = Some (Some n, k1) -> k1 = hit n k.
Proof. apply search_loop_hit. Qed.
Lemma bic_bis_unset (f m : Z) : tst f m = false -> bic (bis f m) m = f.
Proof.
  unfold tst, bic, bis. intros H. apply negb_false_iff, Z.eqb_eq in H.
  apply Z.bits_inj'. intros j Hj.
  rewrite Z.land_spec, Z.lor_spec, Z.lnot_spec by exact Hj.
  assert (E : Z.testbit (Z.land f m) j = false) by (rewrite H; apply Z.bits_0).
  rewrite Z.land_spec in E.
  destruct (Z.testbit f j), (Z.testbit m j); simpl in *; congruence.
Qed.

Lemma hit_same (n : nat) (k : kernel) : same m_palloc k (hit n k).
Proof. cbv beta delta [hit]. frame_steps. Qed.

Lemma page_lock_inv (n : nat) (k k' : kernel) :
  Page.page_lock n k = Some k' ->
  tst (Pg.flags (Page.pg k n)) PAGE_LOCKED = false
  /\ k' = Page.upd n (fun x => Pg.set_flags (bis (Pg.flags x) PAGE_LOCKED) x)
            k.
Proof.
  unfold Page.page_lock. destruct (tst _ _); [discriminate|].
  intros [= <-]. auto.
Qed.

Lemma length_page_table_upd (n : nat) (f : Pg.t -> Pg.t) (k : kernel) :
  length (page_table (Page.upd n f k)) = length (page_table k).
Proof. apply length_alter. Qed.

(** Locking an unlocked page, writing into frames and unlocking it leaves
    the page table as it was. *)
Lemma lock_unlock_pg (n : nat) (k : kernel) (fr : list frame) (m : nat) :
  tst (Pg.flags (Page.pg k n)) PAGE_LOCKED = false ->
  Page.pg (Page.page_unlock n
             (set_frames fr
                (Page.upd n
                   (fun x => Pg.set_flags (bis (Pg.flags x) PAGE_LOCKED) x)
                   k))) m
  = Page.pg k m.
Proof.
  intros Hu. unfold Page.page_unlock. rewrite pg_upd.
  change (page_table (set_frames fr ?x)) with (page_table x).
  change (Page.pg (set_frames fr ?x) ?a) with (Page.pg x a).
  rewrite length_page_table_upd. rewrite !pg_upd.
  destruct (decide (n = m /\ (n < length (page_table k))%nat))
    as [[-> Hn]|Hd].
  - rewrite decide_True by auto. simpl.
    rewrite (bic_bis_unset _ _ Hu). destruct (Page.pg k m); reflexivity.
  - reflexivity.
Qed.
Lemma release_page_total (page : Z) (k : kernel) :
  Page.is_valid_page k page = true ->
  exists k', Page.release_page page k = Some k'.
Proof.
  intros Hv. unfold Page.release_page. rewrite Hv. simpl.
  destruct (_ =? 0); [eauto|]. destruct (0 <? _); eauto.
Qed.

Lemma same_set_frames (fr : list frame) (k : kernel) :
  same m_overlay k (set_frames fr k).
Proof. unfold same. simpl. repeat split; reflexivity. Qed.

Lemma MIN_r (a b : Z) : b <= a -> MIN a b = b.
Proof. unfold MIN. destruct (Z.ltb_spec a b); lia. Qed.

(** [update_page_cache] on a page that is cached and unlocked: the bytes
    go into its frame. *)
Lemma update_page_cache_overlay (i : inode_t) (offset : Z)
    (src : list Byte.byte) (count : Z) (k : kernel) (n : nat) (ks : kernel) :
  0 < count -> offset mod PAGE_SIZE + count <= PAGE_SIZE ->
  Page.search_page_hash i (Z.land offset PAGE_MASK) k = Some (Some n, ks) ->
  tst (Pg.flags (Page.pg k n)) PAGE_LOCKED = false ->
  Pg.data (Page.pg k n) = Some n -> Pg.page (Page.pg k n) = Z.of_nat n ->
  (n < length (page_table k))%nat ->
  exists k',
    update_page_cache i offset src count k = Some k'
    /\ pindex k k' /\ same m_overlay k k'
    /\ frames k'
       = alter (fun f => Buffer.memcpy_b f (Z.to_nat (offset mod PAGE_SIZE)) src
                           (Z.to_nat count)) n (frames k).
Proof.
  intros Hc Hfit Hs Hu Hdata Hpage Hn.
  pose proof (search_page_hash_hit _ _ _ _ _ Hs) as ->.
  pose proof (pindex_hit n k) as Hph.
  destruct (perase_fields _ _ (proj2 (proj2 Hph) n))
    as (Ep & Ef & _ & _ & _ & Ed & _).
  set (ks := hit n k) in *.
  set (kl := Page.upd n
               (fun x => Pg.set_flags (bis (Pg.flags x) PAGE_LOCKED) x) ks).
  assert (Hl : Page.page_lock n ks = Some kl).
  { unfold Page.page_lock. rewrite Ef, Hu. reflexivity. }
  set (g := fun f : frame => Buffer.memcpy_b f (Z.to_nat (offset mod PAGE_SIZE)) src
                               (Z.to_nat count)).
  set (ku := Page.page_unlock n (set_frames (alter g n (frames kl)) kl)).
  assert (Hpg : forall m, Page.pg ku m = Page.pg ks m).
  { intros m. apply lock_unlock_pg. rewrite Ef. exact Hu. }
  assert (Hlen : length (page_table ku) = length (page_table k)).
  { unfold ku, Page.page_unlock. rewrite length_page_table_upd.
    change (length (page_table kl) = length (page_table k)).
    unfold kl. rewrite length_page_table_upd. apply Hph. }
  destruct (release_page_total (Z.of_nat n) ku) as [k' Hr].
  { unfold Page.is_valid_page, Page.NR_PAGES. rewrite Hlen.
    apply andb_true_iff. split; [apply Z.leb_le|apply Z.ltb_lt]; lia. }
  assert (Hsu : same m_overlay k ku).
  { apply (same_trans _ _ ks);
      [apply (same_mono m_palloc); [reflexivity|apply hit_same]|].
    apply (same_trans _ _ kl);
      [apply (same_mono m_palloc); [reflexivity|apply Page_upd_same]|].
    apply (same_trans _ _ (set_frames (alter g n (frames kl)) kl));
      [apply same_set_frames|].
    apply (same_mono m_palloc); [reflexivity|apply Page_upd_same]. }
  exists k'. split; [|split; [|split]].
  - unfold update_page_cache. cbv zeta.
    destruct (Z.eqb_spec count 0) as [|_]; [lia|].
    rewrite Hs. cbn [mbind option_bind]. fold ks. rewrite Hl.
    cbn [mbind option_bind].
    assert (Ed' : Pg.data (Page.pg kl n) = Some n).
    { unfold kl. rewrite (pg_proj_upd Pg.data) by reflexivity.
      rewrite Ed. exact Hdata. }
    rewrite Ed'. cbn [Buffer.store].
    rewrite (MIN_r (PAGE_SIZE - offset mod PAGE_SIZE) count) by lia.
    fold g. fold ku. rewrite Hpg, Ep, Hpage. exact Hr.
  - apply (pindex_trans _ ku); [|apply (pindex_release_page _ _ _ Hr)].
    apply (pindex_trans _ ks); [exact Hph|].
    split; [rewrite Hlen; symmetry; apply Hph|]. split; [reflexivity|].
    intros m. rewrite Hpg. reflexivity.
  - apply (same_trans _ _ ku); [exact Hsu|].
    apply (same_mono m_palloc); [reflexivity|].
    apply (release_page_same _ _ _ Hr).
  - pose proof (release_page_same _ _ _ Hr) as Hsr.
    cbv [st kernel_state] in Hsr.
    rewrite (same_frames _ _ _ Hsr eq_refl).
    change (alter g n (frames kl) = alter g n (frames k)).
    f_equal. change (frames ks = frames k).
    apply (same_frames _ _ _ (hit_same n k) eq_refl).
Qed.
Lemma pindex_same (μ : mask) (k k' : kernel) :
  same μ k k' -> m_pages μ = false -> pindex k k'.
Proof.
  intros Hs Hm. destruct (same_pages _ _ _ Hs Hm) as (Et & _ & Eh).
  apply pindex_intro; assumption.
Qed.

Lemma pg_same (μ : mask) (k k' : kernel) (n : nat) :
  same μ k k' -> m_pages μ = false -> Page.pg k' n = Page.pg k n.
Proof.
  intros Hs Hm. destruct (same_pages _ _ _ Hs Hm) as (Et & _ & _).
  unfold Page.pg. rewrite Et. reflexivity.
Qed.
Lemma perase_set_flags (v : Z) (x : Pg.t) :
  perase (Pg.set_flags v x) = Pg.set_flags v (perase x).
Proof. destruct x. reflexivity. Qed.

Lemma set_flags_same (x : Pg.t) : Pg.set_flags (Pg.flags x) x = x.
Proof. destruct x. reflexivity. Qed.

(** A page that is locked, released by [kfree] and unlocked keeps its
    place in the index. *)
Lemma lock_release_unlock_pindex (n : nat) (k kl' kf : kernel) (page : Z) :
  tst (Pg.flags (Page.pg k n)) PAGE_LOCKED = false ->
  pindex (Page.upd n
            (fun x => Pg.set_flags (bis (Pg.flags x) PAGE_LOCKED) x) k) kl' ->
  Page.release_page page kl' = Some kf ->
  pindex k (Page.page_unlock n kf).
Proof.
  intros Hu Hl Hr.
  set (kl := Page.upd n _ k) in *.
  pose proof (pindex_trans _ _ _ Hl (pindex_release_page _ _ _ Hr))
    as (Hlen & Hh & He).
  assert (Hlenk : length (page_table kf) = length (page_table k))
    by (rewrite Hlen; apply length_page_table_upd).
  unfold Page.page_unlock. split; [|split].
  - rewrite length_page_table_upd. exact Hlenk.
  - exact Hh.
  - intros m. rewrite pg_upd.
    assert (Em : perase (Page.pg kf m) = perase (Page.pg kl m)) by apply He.
    unfold kl in Em. rewrite pg_upd in Em.
    destruct (decide (n = m /\ (n < length (page_table kf))%nat))
      as [[<- Hn]|Hd].
    + rewrite decide_True in Em
        by (split; [reflexivity|]; rewrite Hlenk in Hn; exact Hn).
      rewrite perase_set_flags, Em, perase_set_flags.
      destruct (perase_fields _ _ Em) as (_ & Ef & _). rewrite Ef.
      simpl. rewrite (bic_bis_unset _ _ Hu).
      destruct (Page.pg k n). reflexivity.
    + rewrite Em. case_decide as Hd'; [|reflexivity].
      destruct Hd' as [-> Hn]. exfalso. apply Hd. split; [reflexivity|].
      rewrite Hlenk. exact Hn.
Qed.
Lemma search_loop_inode (i i' : inode_t) (offset : Z) (k : kernel)
    (fuel : nat) (p : ptr) :
  inode i' = inode i -> dev i' = dev i ->
  Page.search_loop fuel i' offset p k = Page.search_loop fuel i offset p k.
Proof.
  intros Ei Ed. revert p. induction fuel as [|fuel IH]; intros p; simpl;
    [reflexivity|].
  destruct p as [n|]; [|reflexivity]. rewrite Ei, Ed.
  destruct (_ && _); [reflexivity|apply IH].
Qed.

Lemma search_page_hash_inode (i i' : inode_t) (offset : Z) (k : kernel) :
  inode i' = inode i -> dev i' = dev i ->
  Page.search_page_hash i' offset k = Page.search_page_hash i offset k.
Proof.
  intros Ei Ed. unfold Page.search_page_hash. rewrite Ei.
  apply search_loop_inode; assumption.
Qed.

Lemma bwrite_same (m : nat) (k : kernel) :
  same (mask_or (m_bits (Z.lor BUFFER_DIRTY BUFFER_VALID)) m_release) k
       (Buffer.bwrite m k).
Proof.
  unfold Buffer.bwrite. cbv zeta.
  apply (same_trans _ _ (Buffer.set_flag m (Z.lor BUFFER_DIRTY BUFFER_VALID)
                           k)).
  - apply same_set_flag. reflexivity.
  - apply (same_mono m_release); [reflexivity|apply brelse_same].
Qed.
(** * Regions that span several blocks and pages *)

Lemma PAGE_SIZE_pos : 0 < PAGE_SIZE.
Proof. reflexivity. Qed.

(** [offset & PAGE_MASK] is the start of the page of [offset]. *)
Lemma land_PAGE_MASK (x : Z) :
  Z.land x PAGE_MASK = PAGE_SIZE * (x / PAGE_SIZE).
Proof.
  unfold PAGE_MASK. change (PAGE_SIZE - 1) with (Z.ones 12).
  change (Z.land x (Z.lnot (Z.ones 12))) with (Z.ldiff x (Z.ones 12)).
  rewrite Z.ldiff_ones_r by lia.
  rewrite Z.shiftl_mul_pow2, Z.shiftr_div_pow2 by lia.
  change (2 ^ 12) with PAGE_SIZE. lia.
Qed.

Lemma page_decomp (x : Z) :
  x = Z.land x PAGE_MASK + x mod PAGE_SIZE.
Proof.
  rewrite land_PAGE_MASK. apply Z.div_mod. discriminate.
Qed.

(** Two offsets of one block, or an offset and the bytes up to the end of
    its block, lie in one page when the block size divides the page
    size. *)
Lemma block_in_page (x bs : Z) :
  0 < bs -> PAGE_SIZE mod bs = 0 ->
  x mod PAGE_SIZE + (bs - x mod bs) <= PAGE_SIZE.
Proof.
  intros Hbs Hdiv.
  apply Z.mod_divide in Hdiv; [|lia]. destruct Hdiv as [q Hq].
  pose proof PAGE_SIZE_pos as HP.
  assert (Hq0 : 0 < q) by nia.
  assert (Em : (x mod PAGE_SIZE) mod bs = x mod bs).
  { rewrite Hq. rewrite Z.mul_comm. rewrite Z.rem_mul_r by lia.
    rewrite Z.mul_comm, Z.mod_add by lia. apply Z.mod_mod. lia. }
  pose proof (Z.mod_pos_bound x PAGE_SIZE HP) as Hb.
  set (y := x mod PAGE_SIZE) in *.
  pose proof (Z.div_mod y bs ltac:(lia)) as Hy.
  pose proof (Z.mod_pos_bound y bs Hbs) as Hyb.
  rewrite <- Em.
  assert (y / bs < q).
  { apply Z.div_lt_upper_bound; [lia|]. nia. }
  nia.
Qed.

(** The offsets [x0 .. x0 + d] with [x0 mod PAGE_SIZE + d < PAGE_SIZE] are
    in the page of [x0]. *)
Lemma same_page (x0 d : Z) :
  0 <= d -> x0 mod PAGE_SIZE + d < PAGE_SIZE ->
  Z.land (x0 + d) PAGE_MASK = Z.land x0 PAGE_MASK
  /\ (x0 + d) mod PAGE_SIZE = x0 mod PAGE_SIZE + d.
Proof.
  intros Hd Hfit. pose proof PAGE_SIZE_pos as HP.
  pose proof (Z.mod_pos_bound x0 PAGE_SIZE HP) as Hb.
  pose proof (Z.div_mod x0 PAGE_SIZE ltac:(lia)) as Hx.
  assert (Ed : (x0 + d) / PAGE_SIZE = x0 / PAGE_SIZE).
  { symmetry. apply (Z.div_unique _ _ _ (x0 mod PAGE_SIZE + d)); lia. }
  rewrite !land_PAGE_MASK, Ed. split; [reflexivity|].
  pose proof (Z.div_mod (x0 + d) PAGE_SIZE ltac:(lia)) as Hxd.
  rewrite Ed in Hxd. lia.
Qed.

(** Two offsets of one page are ordered like their offsets in the page. *)
Lemma same_page_lt (x y : Z) :
  Z.land x PAGE_MASK = Z.land y PAGE_MASK -> x < y ->
  x mod PAGE_SIZE < y mod PAGE_SIZE.
Proof.
  intros E Hlt. pose proof (page_decomp x). pose proof (page_decomp y). lia.
Qed.

(** ** [memcpy_b], byte by byte *)

Lemma memcpy_b_length (dst : frame) (off : nat) (src : list Byte.byte)
    (n : nat) :
  (off + n <= length dst)%nat -> (n <= length src)%nat ->
  length (Buffer.memcpy_b dst off src n) = length dst.
Proof.
  intros Hd Hs. unfold Buffer.memcpy_b.
  rewrite !length_app, !length_take, length_drop. lia.
Qed.

Lemma memcpy_b_inside (dst : frame) (off : nat) (src : list Byte.byte)
    (n j : nat) :
  (off + n <= length dst)%nat -> (n <= length src)%nat ->
  (off <= j < off + n)%nat ->
  Buffer.memcpy_b dst off src n !! j = src !! (j - off)%nat.
Proof.
  intros Hd Hs Hj. unfold Buffer.memcpy_b, frame in *.
  rewrite lookup_app_r by (rewrite length_take; lia).
  rewrite length_take, Nat.min_l by lia.
  rewrite lookup_app_l by (rewrite length_take; lia).
  apply lookup_take_lt. lia.
Qed.

Lemma memcpy_b_outside (dst : frame) (off : nat) (src : list Byte.byte)
    (n j : nat) :
  (off + n <= length dst)%nat -> (n <= length src)%nat ->
  (j < off \/ off + n <= j)%nat ->
  Buffer.memcpy_b dst off src n !! j = dst !! j.
Proof.
  intros Hd Hs Hj. unfold Buffer.memcpy_b, frame in *. destruct Hj as [Hj|Hj].
  - rewrite lookup_app_l by (rewrite length_take; lia).
    apply lookup_take_lt. exact Hj.
  - rewrite lookup_app_r by (rewrite length_take; lia).
    rewrite length_take, Nat.min_l by lia.
    rewrite lookup_app_r by (rewrite length_take; lia).
    rewrite length_take, Nat.min_l by lia.
    rewrite lookup_drop. f_equal. lia.
Qed.

(** ** The buffer side of a round of [minix_file_write] *)

Lemma search_loop_same (μ : mask) (k k' : kernel) (d b s : Z) :
  same μ k k' -> m_key μ = false -> m_hash μ = false ->
  forall fuel p,
    Buffer.search_loop fuel d b s p k' = Buffer.search_loop fuel d b s p k.
Proof.
  intros Hs Hk Hh. induction fuel as [|fuel IH]; intros p; simpl;
    [reflexivity|].
  destruct p as [n|]; [|reflexivity].
  destruct (same_key _ _ _ n Hs Hk) as (-> & -> & ->).
  destruct (same_hash _ _ _ n Hs Hh) as (_ & ->).
  destruct (_ && _); [reflexivity|apply IH].
Qed.

Lemma search_buffer_hash_same (μ : mask) (k k' : kernel) (d b s : Z) :
  same μ k k' -> m_key μ = false -> m_hash μ = false ->
  m_buckets μ = false ->
  Buffer.search_buffer_hash d b s k' = Buffer.search_buffer_hash d b s k.
Proof.
  intros Hs Hk Hh Hb. unfold Buffer.search_buffer_hash, Buffer.bucket.
  rewrite (BUFFER_HASH_same _ _ _ d b Hs), (same_buckets _ _ _ Hs Hb).
  unfold Buffer.chain_fuel. rewrite (proj1 Hs).
  apply (search_loop_same _ _ _ d b s Hs Hk Hh).
Qed.

Lemma set_flag_mono (n m : nat) (b j : Z) (k : kernel) :
  0 <= j -> Buffer.flag k m (2 ^ j) = true ->
  Buffer.flag (Buffer.set_flag n b k) m (2 ^ j) = true.
Proof.
  intros Hj H. unfold Buffer.flag, Buffer.set_flag in *. rewrite buf_upd.
  case_decide as Hd; [destruct Hd as [-> _]|exact H]. simpl.
  rewrite tst_bis_pow2 by exact Hj.
  rewrite tst_pow2 in H by exact Hj. rewrite H. reflexivity.
Qed.

Lemma bwrite_valid (m m' : nat) (k : kernel) :
  Buffer.flag k m' BUFFER_VALID = true ->
  Buffer.flag (Buffer.bwrite m k) m' BUFFER_VALID = true.
Proof.
  intros H. unfold Buffer.bwrite. cbv zeta.
  rewrite (same_flag _ _ _ m' BUFFER_VALID (brelse_same m _) eq_refl).
  apply (set_flag_mono m m' _ 0); [lia|exact H].
Qed.

Lemma bwrite_locked_ne (m m' : nat) (k : kernel) :
  m <> m' ->
  Buffer.flag (Buffer.bwrite m k) m' BUFFER_LOCKED
  = Buffer.flag k m' BUFFER_LOCKED.
Proof.
  intros Hne. unfold Buffer.bwrite. cbv zeta.
  rewrite brelse_locked_ne by exact Hne. apply flag_set_flag_ne. exact Hne.
Qed.

(** What [getblk] does to the entry it finds. *)
Lemma taken_locked_ne (m m' : nat) (k : kernel) :
  m <> m' ->
  Buffer.flag (Buffer.remove_from_free_list m
                 (Buffer.set_flag m BUFFER_LOCKED k)) m' BUFFER_LOCKED
  = Buffer.flag k m' BUFFER_LOCKED.
Proof.
  intros Hne.
  rewrite (same_flag _ _ _ m' BUFFER_LOCKED
             (remove_from_free_list_same m _) eq_refl).
  apply flag_set_flag_ne. exact Hne.
Qed.

Lemma taken_same (m : nat) (k : kernel) :
  same m_take k (Buffer.remove_from_free_list m
                   (Buffer.set_flag m BUFFER_LOCKED k)).
Proof.
  apply (same_trans _ _ (Buffer.set_flag m BUFFER_LOCKED k)).
  - apply same_set_flag. reflexivity.
  - apply (same_mono m_freelist); [reflexivity|].
    apply remove_from_free_list_same.
Qed.

(** [bread] of a block that is cached, valid and unlocked. *)
Lemma bread_cached (d b s : Z) (k : kernel) (m : nat) (dv : device) :
  blk_devices k d = Some dv ->
  Buffer.search_buffer_hash d b s k = Some (Some m) ->
  Buffer.flag k m BUFFER_LOCKED = false ->
  Buffer.flag k m BUFFER_VALID = true ->
  Buffer.bread d b s k
  = Some (Some m, Buffer.remove_from_free_list m
                    (Buffer.set_flag m BUFFER_LOCKED k)).
Proof.
  intros Hd Hs Hu Hv.
  set (kb := Buffer.remove_from_free_list m
               (Buffer.set_flag m BUFFER_LOCKED k)).
  assert (Hvb : Buffer.flag kb m BUFFER_VALID = true)
    by (unfold kb;
        rewrite (same_flag _ _ _ m BUFFER_VALID (taken_same m k) eq_refl);
        exact Hv).
  unfold Buffer.bread, Buffer.getblk. rewrite Hd, Hs. simpl. rewrite Hu.
  simpl. fold kb. rewrite Hvb. simpl. rewrite Hvb. reflexivity.
Qed.

(** The key of the page that [search_page_hash] finds. *)
Lemma search_loop_key (i : inode_t) (offset : Z) (k ks : kernel) (n : nat) :
  forall fuel p,
    Page.search_loop fuel i offset p k = Some (Some n, ks) ->
    Pg.offset (Page.pg k n) = offset.
Proof.
  induction fuel as [|fuel IH]; intros p; simpl; [discriminate|].
  destruct p as [a|]; [|discriminate].
  destruct (_ && _) eqn:E; [|apply IH].
  intros [= <- _]. rewrite !andb_true_iff in E.
  destruct E as ((_ & E) & _). apply Z.eqb_eq. exact E.
Qed.

Lemma search_page_hash_key (i : inode_t) (offset : Z) (k ks : kernel)
    (n : nat) :
  Page.search_page_hash i offset k = Some (Some n, ks) ->
  Pg.offset (Page.pg k n) = offset.
Proof. apply search_loop_key. Qed.

(** ** A round of [minix_file_write] *)

(** The frames after the block frame [ab] took [gb] and the page frame [n]
    took [g]. *)
Lemma round_frames (fr : list frame) (ab : option nat) (gb g : frame -> frame)
    (n p : nat) :
  ab <> Some p ->
  alter g n (match ab with
             | Some a => alter gb a fr
             | None => fr
             end) !! p
  = if decide (n = p) then g <$> fr !! p else fr !! p.
Proof.
  intros Hne. unfold frame in *. destruct ab as [a|].
  - rewrite !list_lookup_alter.
    destruct (decide (n = p)) as [->|_];
      (destruct (decide (a = p)) as [->|_]; [congruence|reflexivity]).
  - rewrite list_lookup_alter.
    destruct (decide (n = p)) as [->|_]; reflexivity.
Qed.

Lemma pages_cached_step (i : inode_t) (o count : Z) (pgof : Z -> nat)
    (k k' : kernel) :
  pindex k k' ->
  (forall x f, o <= x < o + count -> frames k !! pgof x = Some f ->
     exists f', frames k' !! pgof x = Some f' /\ length f' = length f) ->
  pages_cached i o count pgof k -> pages_cached i o count pgof k'.
Proof.
  intros Hp Hfr Hpg x Hx.
  destruct (Hpg x Hx) as ([ks Hs] & Hu & Hdata & Hpage & Hn & f & Hf & Hlf).
  destruct (perase_fields _ _ (proj2 (proj2 Hp) (pgof x)))
    as (Ep & Ef & _ & _ & _ & Ed & _).
  split; [exact (search_page_hash_pindex _ _ _ _ _ _ Hp Hs)|].
  rewrite Ef, Ed, Ep, (proj1 Hp). repeat (split; [assumption|]).
  destruct (Hfr x f Hx Hf) as (f' & Hf' & Hl). exists f'.
  split; [exact Hf'|]. rewrite Hl. exact Hlf.
Qed.

(** A frame condition under a larger mask. *)
Ltac same_weaken H := eapply same_mono; [|exact H]; reflexivity.

Lemma write_round (i : inode_t) (fd : fd_t) (buffer : list Byte.byte)
    (count t o : Z) (pgof bufof : Z -> nat) (k : kernel) :
  0 <= t < count -> fd_offset fd = o + t ->
  0 < s_blocksize i -> PAGE_SIZE mod s_blocksize i = 0 ->
  (Z.to_nat count <= length buffer)%nat ->
  blocks_cached i o count pgof bufof k -> pages_cached i o count pgof k ->
  written o t buffer pgof k ->
  exists b k',
    0 < b <= count - t
    /\ (forall fuel,
          minix_file_write_loop (S fuel) i fd buffer count t k
          = minix_file_write_loop fuel i (set_fd_offset (o + (t + b)) fd)
              buffer count (t + b) k')
    /\ io k' = io k
    /\ blocks_cached i o count pgof bufof k'
    /\ pages_cached i o count pgof k'
    /\ written o (t + b) buffer pgof k'.
Proof.
  intros Ht Hfd Hbs Hdiv Hlen [[dv Hdev] Hblk] Hpg Hwr.
  set (x0 := o + t) in *.
  assert (Hx0 : o <= x0 < o + count) by lia.
  destruct (Hblk x0 Hx0) as (Hbm & Hsb & Hul & Hval & Halias).
  destruct (Hpg x0 Hx0)
    as ([ks Hs] & Hu & Hdata & Hpage & Hn & f0 & Hf0 & Hlf0).
  set (bs := s_blocksize i) in *. set (m := bufof x0) in *.
  set (n := pgof x0) in *.
  set (b := MIN (bs - x0 mod bs) (count - t)).
  pose proof (Z.mod_pos_bound x0 bs Hbs) as Hmb.
  pose proof (Z.mod_pos_bound x0 PAGE_SIZE PAGE_SIZE_pos) as Hmp.
  assert (Hb : 0 < b <= count - t /\ b <= bs - x0 mod bs).
  { unfold b, MIN. destruct (Z.ltb_spec (bs - x0 mod bs) (count - t)); lia. }
  pose proof (block_in_page x0 bs Hbs Hdiv) as Hfit0.
  assert (Hfit : x0 mod PAGE_SIZE + b <= PAGE_SIZE) by lia.
  set (kb := Buffer.remove_from_free_list m
               (Buffer.set_flag m BUFFER_LOCKED k)).
  pose proof (bread_cached _ _ _ _ _ _ Hdev Hsb Hul Hval) as Hbread.
  fold kb in Hbread.
  pose proof (taken_same m k) as Hskb. fold kb in Hskb.
  set (src := drop (Z.to_nat t) buffer).
  set (gb := fun f : frame =>
               Buffer.memcpy_b f (Z.to_nat (x0 mod bs)) src (Z.to_nat b)).
  set (g := fun f : frame =>
              Buffer.memcpy_b f (Z.to_nat (x0 mod PAGE_SIZE)) src
                (Z.to_nat b)).
  set (k1 := Buffer.store (Buf.data (Buffer.buf kb m))
               (Z.to_nat (x0 mod bs)) src (Z.to_nat b) kb).
  assert (Hs1 : same (mask_or m_take m_store) k k1).
  { apply (same_trans _ _ kb);
      [apply (same_mono m_take); [reflexivity|exact Hskb]|].
    apply same_store. reflexivity. }
  assert (Epg : forall a, Page.pg k1 a = Page.pg k a)
    by (intros a; apply (pg_same _ _ _ a Hs1 eq_refl)).
  assert (Hp1 : pindex k k1) by (apply (pindex_same _ _ _ Hs1 eq_refl)).
  destruct (search_page_hash_pindex _ _ _ _ _ _ Hp1 Hs) as [ks1 Hs1'].
  destruct (update_page_cache_overlay i x0 src b k1 n ks1
              (proj1 (proj1 Hb)) Hfit Hs1')
    as (k2 & Hupd & Hp2 & Hs2 & Efr2).
  { rewrite Epg. exact Hu. }
  { rewrite Epg. exact Hdata. }
  { rewrite Epg. exact Hpage. }
  { rewrite (proj1 Hp1). exact Hn. }
  fold g in Efr2.
  pose proof (bwrite_same m k2) as Hs3.
  set (k' := Buffer.bwrite m k2) in *.
  assert (Hs12 : same (mask_or (mask_or m_take m_store) m_overlay) k k2).
  { apply (same_trans _ _ k1); [same_weaken Hs1|same_weaken Hs2]. }
  assert (Hsame : same m_round k k').
  { apply (same_trans _ _ k2); [same_weaken Hs12|same_weaken Hs3]. }
  assert (Hpk : pindex k k').
  { apply (pindex_trans _ k2);
      [exact (pindex_trans _ _ _ Hp1 Hp2)
      |apply (pindex_same _ _ _ Hs3 eq_refl)]. }
  assert (Hfr : forall p, Buf.data (Buffer.buf k m) <> Some p ->
            frames k' !! p
            = if decide (n = p) then g <$> frames k !! p else frames k !! p).
  { intros p Hp. rewrite (same_frames _ _ _ Hs3 eq_refl), Efr2.
    unfold k1. rewrite (same_data _ _ _ m Hskb eq_refl).
    rewrite <- (round_frames (frames k) (Buf.data (Buffer.buf k m)) gb g n p
                  Hp).
    f_equal. f_equal.
    destruct (Buf.data (Buffer.buf k m));
      cbn [Buffer.store frames set_frames];
      rewrite ?(same_frames _ _ _ Hskb eq_refl); reflexivity. }
  exists b, k'. split; [exact (proj1 Hb)|].
  split; [|split; [|split; [|split]]].
  - intros fuel. cbn [minix_file_write_loop]. cbv zeta.
    destruct (Z.ltb_spec t count) as [_|]; [|lia]. cbn [negb].
    rewrite Hfd. fold x0 bs.
    destruct (Z.ltb_spec (bmap i x0 true) 0) as [|_]; [lia|].
    rewrite Hbread. cbn [mbind option_bind]. fold b src k1.
    rewrite Hupd. cbn [mbind option_bind]. fold k'.
    unfold x0. rewrite Z.add_assoc. reflexivity.
  - apply (same_io _ _ _ Hsame eq_refl).
  - split; [exists dv; rewrite (same_devices _ _ _ Hsame); exact Hdev|].
    intros x Hx. destruct (Hblk x Hx) as (Hbx & Hsx & Hlx & Hvx & Hax).
    split; [exact Hbx|].
    split; [rewrite (search_buffer_hash_same _ _ _ _ _ _ Hsame) by reflexivity;
            exact Hsx|].
    split; [|split].
    + destruct (decide (m = bufof x)) as [<-|Hne].
      * apply brelse_locked_eq.
      * unfold k'. rewrite bwrite_locked_ne by exact Hne.
        rewrite (same_flag _ _ _ _ BUFFER_LOCKED Hs2 eq_refl).
        unfold k1.
        rewrite (same_flag m_store _ _ _ BUFFER_LOCKED
                   (same_store m_store _ _ _ _ _ eq_refl) eq_refl).
        unfold kb. rewrite taken_locked_ne by exact Hne. exact Hlx.
    + apply bwrite_valid.
      rewrite (same_flag _ _ _ _ BUFFER_VALID Hs12 eq_refl). exact Hvx.
    + intros y Hy. rewrite (same_data _ _ _ _ Hsame eq_refl). exact (Hax y Hy).
  - apply (pages_cached_step i o count pgof k k' Hpk); [|exact Hpg].
    intros x f Hx Hf. pose proof (Hfr _ (Halias x Hx)) as E.
    unfold frame in *. rewrite E, Hf. clear E.
    destruct (decide (n = pgof x)) as [E|_]; [|eauto].
    exists (g f). split; [reflexivity|]. unfold g.
    destruct (Hpg x Hx) as (_ & _ & _ & _ & _ & f' & Hf' & Hlf').
    unfold frame in *. assert (f' = f) by congruence. subst f'.
    apply memcpy_b_length; [lia|]. unfold src. rewrite length_drop. lia.
  - intros x Hx.
    assert (Hsrc : (Z.to_nat b <= length src)%nat)
      by (unfold src; rewrite length_drop; lia).
    destruct (Z.lt_ge_cases x x0) as [Hlt|Hge].
    + assert (Hxr : o <= x < o + count) by lia.
      destruct (Hwr x ltac:(lia)) as (f & Hf & Hfx).
      destruct (Hpg x Hxr) as ([ksx Hsx] & _ & _ & _ & _ & f' & Hf' & Hlf').
      pose proof (Hfr _ (Halias x Hxr)) as E. unfold frame in *.
      assert (f' = f) by congruence. subst f'.
      rewrite E, Hf. destruct (decide (n = pgof x)) as [En|_]; [|eauto].
      exists (g f). split; [reflexivity|]. rewrite <- Hfx. unfold g.
      assert (Ea : Z.land x PAGE_MASK = Z.land x0 PAGE_MASK).
      { rewrite <- (search_page_hash_key _ _ _ _ _ Hsx),
          <- (search_page_hash_key _ _ _ _ _ Hs), En. reflexivity. }
      pose proof (same_page_lt x x0 Ea Hlt).
      pose proof (Z.mod_pos_bound x PAGE_SIZE PAGE_SIZE_pos).
      apply memcpy_b_outside; [lia|exact Hsrc|lia].
    + set (d := x - x0).
      destruct (same_page x0 d ltac:(lia) ltac:(lia)) as [Ea Em].
      replace (x0 + d) with x in * by lia.
      assert (Hxr : o <= x < o + count) by lia.
      destruct (Hpg x Hxr) as ([ksx Hsx] & _).
      assert (En : pgof x = n) by (rewrite Ea, Hs in Hsx; congruence).
      pose proof (Hfr _ (Halias x Hxr)) as E. rewrite En in E |- *.
      rewrite decide_True in E by reflexivity. unfold frame in *.
      rewrite Hf0 in E. exists (g f0). split; [exact E|]. unfold g.
      rewrite memcpy_b_inside; [|lia|exact Hsrc|lia].
      unfold src. rewrite lookup_drop. f_equal. lia.
Qed.

(** The loop of [minix_file_write] over a cached region. *)
Lemma write_rounds (i : inode_t) (buffer : list Byte.byte) (count o : Z)
    (pgof bufof : Z -> nat) :
  0 < s_blocksize i -> PAGE_SIZE mod s_blocksize i = 0 ->
  (Z.to_nat count <= length buffer)%nat ->
  forall (fuel : nat) (t : Z) (fd : fd_t) (k : kernel),
    0 <= t <= count -> (Z.to_nat (count - t) < fuel)%nat ->
    fd_offset fd = o + t ->
    blocks_cached i o count pgof bufof k -> pages_cached i o count pgof k ->
    written o t buffer pgof k ->
    exists k',
      minix_file_write_loop fuel i fd buffer count t k
      = Some (None, count, set_fd_offset (o + count) fd, k')
      /\ io k' = io k /\ pages_cached i o count pgof k'
      /\ written o count buffer pgof k'.
Proof.
  intros Hbs Hdiv Hlen.
  induction fuel as [|fuel IH]; intros t fd k Ht Hfuel Hfd Hb Hp Hw; [lia|].
  destruct (Z.eq_dec t count) as [->|Hne].
  - exists k. split; [|auto]. cbn [minix_file_write_loop].
    destruct (Z.ltb_spec count count) as [|_]; [lia|]. cbn [negb].
    rewrite <- Hfd. destruct fd. reflexivity.
  - destruct (write_round i fd buffer count t o pgof bufof k ltac:(lia)
                Hfd Hbs Hdiv Hlen Hb Hp Hw)
      as (b & k1 & Hbb & Hstep & Eio & Hb1 & Hp1 & Hw1).
    destruct (IH (t + b) (set_fd_offset (o + (t + b)) fd) k1)
      as (k' & Hl & Eio' & Hp' & Hw'); try assumption; try lia;
      [reflexivity|].
    exists k'. split; [rewrite Hstep; exact Hl|].
    split; [congruence|]. split; assumption.
Qed.

(** [minix_file_write] of a region that both caches hold. *)
Lemma minix_file_write_region (i : inode_t) (fd : fd_t)
    (buffer : list Byte.byte) (count : Z) (pgof bufof : Z -> nat)
    (k : kernel) :
  0 <= count -> (Z.to_nat count <= length buffer)%nat ->
  0 < s_blocksize i -> PAGE_SIZE mod s_blocksize i = 0 ->
  blocks_cached i (write_offset i fd) count pgof bufof k ->
  pages_cached i (write_offset i fd) count pgof k ->
  exists iw kw,
    minix_file_write i fd buffer count k
    = Some (mk_outcome count iw
              (set_fd_offset (write_offset i fd + count) fd) kw)
    /\ inode iw = inode i /\ dev iw = dev i
    /\ i_size iw = Z.max (i_size i) (write_offset i fd + count)
    /\ io kw = io k /\ pages_cached i (write_offset i fd) count pgof kw
    /\ written (write_offset i fd) count buffer pgof kw.
Proof.
  intros Hc Hlen Hbs Hdiv Hb Hp.
  set (o := write_offset i fd) in *.
  set (fd0 := if tst (fd_flags fd) O_APPEND then set_fd_offset (i_size i) fd
              else fd).
  assert (Hfd0 : fd_offset fd0 = o + 0).
  { unfold fd0, o, write_offset. rewrite Z.add_0_r.
    destruct (tst _ _); reflexivity. }
  assert (Efd : set_fd_offset (o + count) fd0 = set_fd_offset (o + count) fd)
    by (unfold fd0; destruct (tst _ _); reflexivity).
  destruct (write_rounds i buffer count o pgof bufof Hbs Hdiv Hlen
              (S (Z.to_nat count)) 0 fd0 k)
    as (kw & Hl & Eio & Hp' & Hw'); try assumption; try lia.
  { intros x Hx. lia. }
  exists (set_i_dirty 1 (if i_size i <? o + count
                         then set_i_size (o + count) i else i)), kw.
  split; [|split; [|split; [|split; [|auto]]]].
  - unfold minix_file_write. fold fd0. rewrite Hl, Efd.
    cbn [mbind option_bind fd_offset set_fd_offset]. reflexivity.
  - destruct (_ <? _); reflexivity.
  - destruct (_ <? _); reflexivity.
  - destruct (Z.ltb_spec (i_size i) (o + count)); simpl; lia.
Qed.

(** ** A round of [file_read] *)

(** The bytes that a round appends to the user buffer. *)
Lemma take_chunk (buffer f : list Byte.byte) (r p b : nat) :
  (r + b <= length buffer)%nat ->
  (forall j, (j < b)%nat -> f !! (p + j)%nat = buffer !! (r + j)%nat) ->
  take r buffer ++ take b (drop p f) = take (r + b) buffer.
Proof.
  intros Hlen Hf.
  assert (E : take b (drop p f) = take b (drop r buffer)).
  { apply list_eq. intros j. rewrite !lookup_take.
    case_decide; [|reflexivity]. rewrite !lookup_drop. auto. }
  rewrite E. rewrite <- (take_drop r buffer) at 3.
  rewrite take_app_add' by (rewrite length_take; lia). reflexivity.
Qed.

Lemma read_round (i : inode_t) (fd : fd_t) (buffer : list Byte.byte)
    (count r o : Z) (pgof : Z -> nat) (k : kernel) :
  0 <= r < count -> fd_offset fd = o + r ->
  o + count <= i_size i -> (Z.to_nat count <= length buffer)%nat ->
  pages_cached i o count pgof k -> written o count buffer pgof k ->
  exists b k',
    0 < b <= count - r
    /\ (forall fuel,
          file_read_loop (S fuel) i fd (take (Z.to_nat r) buffer)
            (count - r) r k
          = file_read_loop fuel i (set_fd_offset (o + (r + b)) fd)
              (take (Z.to_nat (r + b)) buffer) (count - (r + b)) (r + b) k')
    /\ pindex k k' /\ frames k' = frames k
    /\ io k' = io k ++ [kfree_call (pgof (o + r))].
Proof.
  intros Hr Hfd Hsz Hlen Hpg Hwr.
  set (x0 := o + r) in *.
  assert (Hx0 : o <= x0 < o + count) by lia.
  destruct (Hpg x0 Hx0)
    as ([ks Hs] & Hu & Hdata & Hpage & Hn & f0 & Hf0 & Hlf0).
  set (n := pgof x0) in *.
  pose proof (Z.mod_pos_bound x0 PAGE_SIZE PAGE_SIZE_pos) as Hmp.
  set (b := MIN (PAGE_SIZE - x0 mod PAGE_SIZE) (count - r)).
  assert (Hb : 0 < b <= count - r /\ b <= PAGE_SIZE - x0 mod PAGE_SIZE).
  { unfold b, MIN.
    destruct (Z.ltb_spec (PAGE_SIZE - x0 mod PAGE_SIZE) (count - r)); lia. }
  pose proof (search_page_hash_hit _ _ _ _ _ Hs) as ->.
  pose proof (pindex_hit n k) as Hph.
  destruct (perase_fields _ _ (proj2 (proj2 Hph) n))
    as (Ep & Ef & _ & _ & _ & Ed & _).
  set (ks := hit n k) in *.
  assert (Huk : tst (Pg.flags (Page.pg ks n)) PAGE_LOCKED = false)
    by (rewrite Ef; exact Hu).
  set (kl := Page.upd n
               (fun x => Pg.set_flags (bis (Pg.flags x) PAGE_LOCKED) x) ks).
  assert (Hl : Page.page_lock n ks = Some kl).
  { unfold Page.page_lock. rewrite Huk. reflexivity. }
  assert (Hlenl : length (page_table kl) = length (page_table k)).
  { unfold kl. rewrite length_page_table_upd. apply Hph. }
  destruct (release_page_total (Z.of_nat n)
              (set_io (io kl ++ [kfree_call n]) kl)) as [kf Hrel].
  { unfold Page.is_valid_page, Page.NR_PAGES.
    change (page_table (set_io _ kl)) with (page_table kl). rewrite Hlenl.
    apply andb_true_iff. split; [apply Z.leb_le|apply Z.ltb_lt]; lia. }
  assert (Hkf : kfree n kl = Some kf) by exact Hrel.
  pose proof (release_page_same _ _ _ Hrel) as Hsr.
  cbv [st kernel_state] in Hsr.
  assert (Hskl : same m_palloc k kl).
  { apply (same_trans _ _ ks); [apply hit_same|apply Page_upd_same]. }
  assert (Edl : Pg.data (Page.pg kl n) = Some n).
  { unfold kl. rewrite (pg_proj_upd Pg.data) by reflexivity.
    rewrite Ed. exact Hdata. }
  assert (Etk : take (Z.to_nat r) buffer
                ++ take (Z.to_nat b) (drop (Z.to_nat (x0 mod PAGE_SIZE)) f0)
                = take (Z.to_nat (r + b)) buffer).
  { rewrite Z2Nat.inj_add by lia. apply take_chunk; [lia|]. intros j Hj.
    destruct (same_page x0 (Z.of_nat j) ltac:(lia) ltac:(lia)) as [Ea Em].
    assert (Hxr : o <= x0 + Z.of_nat j < o + count) by lia.
    destruct (Hpg _ Hxr) as ([ksx Hsx] & _).
    assert (En : pgof (x0 + Z.of_nat j) = n)
      by (rewrite Ea, Hs in Hsx; congruence).
    destruct (Hwr _ Hxr) as (f & Hf & Hfx). rewrite En in Hf.
    unfold frame in *. assert (f = f0) by congruence. subst f.
    rewrite Em in Hfx.
    replace (Z.to_nat (x0 mod PAGE_SIZE) + j)%nat
      with (Z.to_nat (x0 mod PAGE_SIZE + Z.of_nat j)) by lia.
    rewrite Hfx. f_equal. lia. }
  exists b, (Page.page_unlock n kf). split; [exact (proj1 Hb)|].
  split; [|split; [|split]].
  - intros fuel. cbn [file_read_loop]. cbv zeta. rewrite Hfd. fold x0.
    destruct (Z.ltb_spec (i_size i) (x0 + (count - r))) as [|_]; [lia|].
    destruct (Z.eqb_spec (count - r) 0) as [|_]; [lia|].
    rewrite Hs. cbn [mbind option_bind]. rewrite Ed, Hdata.
    cbn [mbind option_bind]. rewrite Hl. cbn [mbind option_bind].
    fold b. rewrite Hkf. cbn [mbind option_bind]. rewrite Edl.
    cbn [mbind option_bind]. rewrite (same_frames _ _ _ Hskl eq_refl).
    unfold frame in *. rewrite Hf0. cbn [default from_option]. unfold id.
    rewrite Etk. replace (count - r - b) with (count - (r + b)) by lia.
    unfold x0. rewrite Z.add_assoc. reflexivity.
  - apply (lock_release_unlock_pindex n ks _ kf (Z.of_nat n)) in Hrel.
    + exact (pindex_trans _ _ _ Hph Hrel).
    + exact Huk.
    + apply pindex_intro; reflexivity.
  - change (frames kf = frames k).
    rewrite (same_frames _ _ _ Hsr eq_refl).
    change (frames kl = frames k). apply (same_frames _ _ _ Hskl eq_refl).
  - change (io kf = io k ++ [kfree_call n]).
    rewrite (same_io _ _ _ Hsr eq_refl).
    change (io kl ++ [kfree_call n] = io k ++ [kfree_call n]).
    rewrite (same_io _ _ _ Hskl eq_refl). reflexivity.
Qed.

(** The loop of [file_read] over a cached region. *)
Lemma read_rounds (i : inode_t) (buffer : list Byte.byte) (count o : Z)
    (pgof : Z -> nat) :
  o + count <= i_size i -> (Z.to_nat count <= length buffer)%nat ->
  forall (fuel : nat) (r : Z) (fd : fd_t) (k : kernel),
    0 <= r <= count -> (Z.to_nat (count - r) < fuel)%nat ->
    fd_offset fd = o + r ->
    pages_cached i o count pgof k -> written o count buffer pgof k ->
    exists k' evs,
      file_read_loop fuel i fd (take (Z.to_nat r) buffer) (count - r) r k
      = Some (mk_outcome count i (set_fd_offset (o + count) fd) k',
              take (Z.to_nat count) buffer)
      /\ io k' = io k ++ evs /\ Forall (fun e => is_kfree e = true) evs
      /\ frames k' = frames k /\ pages_cached i o count pgof k'.
Proof.
  intros Hsz Hlen.
  induction fuel as [|fuel IH]; intros r fd k Hr Hfuel Hfd Hp Hw; [lia|].
  destruct (Z.eq_dec r count) as [->|Hne].
  - exists k, [].
    split; [|split; [symmetry; apply app_nil_r|split; [constructor|auto]]].
    cbn [file_read_loop]. rewrite Z.sub_diag.
    destruct (Z.ltb_spec (i_size i) (fd_offset fd + 0)) as [|_]; [lia|].
    rewrite <- Hfd. destruct fd. reflexivity.
  - destruct (read_round i fd buffer count r o pgof k ltac:(lia) Hfd Hsz
                Hlen Hp Hw)
      as (b & k1 & Hbb & Hstep & Hp1 & Efr & Eio).
    destruct (IH (r + b) (set_fd_offset (o + (r + b)) fd) k1)
      as (k' & evs & Hl & Eio' & Hev & Efr' & Hp');
      try lia; [reflexivity| | |].
    + apply (pages_cached_step i o count pgof k k1 Hp1); [|exact Hp].
      intros x f _ Hf. exists f. rewrite Efr. auto.
    + intros x Hx. rewrite Efr. exact (Hw x Hx).
    + exists k', (kfree_call (pgof (o + r)) :: evs).
      split; [rewrite Hstep; exact Hl|].
      split; [rewrite Eio', Eio, <- app_assoc; reflexivity|].
      split; [constructor; [reflexivity|exact Hev]|].
      split; [congruence|exact Hp'].
Qed.

Lemma pages_cached_inode (i i' : inode_t) (o count : Z) (pgof : Z -> nat)
    (k : kernel) :
  inode i' = inode i -> dev i' = dev i ->
  pages_cached i o count pgof k -> pages_cached i' o count pgof k.
Proof.
  intros Ei Ed Hp x Hx. rewrite (search_page_hash_inode i i') by assumption.
  exact (Hp x Hx).
Qed.

(** [file_read] of a region inside the file whose pages are cached and
    hold the first bytes of [buffer]. *)
Lemma file_read_region (i : inode_t) (fd : fd_t) (buffer : list Byte.byte)
    (count : Z) (pgof : Z -> nat) (k : kernel) :
  0 <= count -> fd_offset fd + count <= i_size i ->
  (Z.to_nat count <= length buffer)%nat ->
  pages_cached i (fd_offset fd) count pgof k ->
  written (fd_offset fd) count buffer pgof k ->
  exists k',
    file_read i fd count k
    = Some (mk_outcome count i (set_fd_offset (fd_offset fd + count) fd) k',
            take (Z.to_nat count) buffer)
    /\ Forall (fun e => is_kfree e = true) (calls_since k k').
Proof.
  intros Hc Hsz Hlen Hp Hw.
  destruct (read_rounds i buffer count (fd_offset fd) pgof Hsz Hlen
              (S (Z.to_nat count)) 0 fd k)
    as (k' & evs & Hl & Eio & Hev & _); try assumption; try lia.
  exists k'. split; [|rewrite (calls_since_app _ _ _ Eio); exact Hev].
  unfold file_read.
  destruct (Z.ltb_spec (i_size i) (fd_offset fd)) as [|_]; [lia|].
  rewrite Z.sub_0_r in Hl. exact Hl.
Qed.

(** * C6: two calls of [sync_buffers] in a row *)

(** C6 (amended).  From a state whose dirty list is well formed, if every
    [write_block] call made by [sync_buffers(dev)] succeeded, then a second
    [sync_buffers(dev)] made right after it returns, and it calls no driver
    at all: the log of driver calls is the one the first call left. *)
Theorem C6_second_sync_after_success (fuel : nat) (dev : Z) (k k1 : kernel)
    (l : list nat) :
  dirty_wf k l ->
  Buffer.sync_buffers fuel dev k = Some k1 ->
  Forall (fun e => 0 <= call_ret e) (calls_since k k1) ->
  (exists k2, Buffer.sync_buffers (S (length l)) dev k1 = Some k2)
  /\ (forall fuel' k2,
        Buffer.sync_buffers fuel' dev k1 = Some k2 -> io k2 = io k1).
Proof.
  intros Hwf Hrun Hok. unfold Buffer.sync_buffers in *.
  assert (Eh : buffer_dirty_head k = first_of l)
    by (destruct Hwf as [Hs _]; apply (seg_first _ _ _ _ _ _ Hs)).
  rewrite Eh in Hrun.
  destruct (sync_loop_first fuel dev [] l k k1 Hwf Hrun Hok)
    as (l' & Hwf' & Hq & Hlen); [intros n []|].
  assert (Eh' : buffer_dirty_head k1 = first_of l')
    by (destruct Hwf' as [Hs _]; apply (seg_first _ _ _ _ _ _ Hs)).
  rewrite Eh'. simpl in Hlen. split.
  - apply (sync_loop_quiet (S (length l)) dev [] l' k1 Hwf' Hq). lia.
  - intros fuel' k2.
    apply (sync_loop_quiet fuel' dev [] l' k1 Hwf' Hq).
Qed.

(** * C7: invalidate, then read *)

(** [getblk] on a miss with a usable victim returns that entry. *)
Lemma getblk_victim (dev block size : Z) (k : kernel) (c : nat -> list nat)
    (v : nat) :
  hash_wf k c ->
  Buffer.search_buffer_hash dev block size k = Some None ->
  usable_victim k v ->
  exists kg, Buffer.getblk dev block size k = Some (Some v, kg).
Proof.
  intros Hwf Hmiss (Hh & Hu & Hv).
  set (kv := Buffer.set_flag v BUFFER_LOCKED
               (Buffer.remove_from_free_list v k)).
  assert (Hg : Buffer.get_free_buffer k = Some (Some v, kv)).
  { unfold Buffer.get_free_buffer. rewrite Hh, Hu. reflexivity. }
  pose proof (get_free_buffer_same k _ Hg) as Hsv.
  cbv [st pair_state kernel_state snd] in Hsv.
  unfold Buffer.getblk. rewrite Hmiss. simpl. rewrite Hg. simpl.
  destruct (Buffer.flag kv v BUFFER_DIRTY) eqn:Ed.
  { destruct (remove_from_hash_wf v (Buffer.sync_one_buffer v kv) c)
      as (k3 & c3 & Hr & _).
    { apply (hash_wf_same (mask_or m_take m_writeback) k);
        [|reflexivity..|exact Hwf].
      apply (same_trans _ _ kv); [same_weaken Hsv|].
      same_weaken (sync_one_buffer_same v kv). }
    simpl. rewrite Hr. simpl. eauto. }
  rewrite (same_flag _ _ _ v BUFFER_DIRTY Hsv eq_refl) in Ed.
  rewrite <- (same_data _ _ _ v Hsv eq_refl) in Hv.
  destruct (Buf.data (Buffer.buf kv v)) as [a|] eqn:Edata; simpl.
  { destruct (remove_from_hash_wf v kv c) as (k3 & c3 & Hr & _).
    { apply (hash_wf_same m_take k); [exact Hsv|reflexivity..|exact Hwf]. }
    rewrite Hr. simpl. eauto. }
  destruct Hv as [Hd|[Hd|(Hf & p & Hp & Hi)]]; [congruence..|].
  destruct (kmalloc_ok kv p) as (a & km & Hm).
  { rewrite (same_kstat _ _ _ Hsv eq_refl). exact Hf. }
  { destruct (same_pages _ _ _ Hsv eq_refl) as (_ & -> & _). exact Hp. }
  { rewrite (pg_same _ _ _ p Hsv eq_refl). exact Hi. }
  rewrite Hm. simpl.
  pose proof (kmalloc_same kv _ Hm) as Hsm.
  cbv [st pair_state kernel_state snd] in Hsm.
  set (k1 := Buffer.add_buffers (PAGE_SIZE / 1024)
               (Buffer.upd v (Buf.set_data (Some a)) km)).
  destruct (remove_from_hash_wf v k1 c) as (k3 & c3 & Hr & _).
  { apply (hash_wf_same (mask_or m_take (mask_or m_setdata m_palloc)) k);
      [|reflexivity..|exact Hwf].
    apply (same_trans _ _ kv); [same_weaken Hsv|].
    apply (same_trans _ _ km); [same_weaken Hsm|].
    apply (same_trans _ _ (Buffer.upd v (Buf.set_data (Some a)) km)).
    - apply same_upd. intros []. reflexivity.
    - apply same_add_buffers. reflexivity. }
  rewrite Hr. simpl. eauto.
Qed.

(** C7.  Let the chains of the hash index be well formed, let the device
    [dev] have a [read_block] method, and let no locked entry hold block
    [block] of [dev] in [size] bytes (the block is cached unlocked, or not
    at all).  Then [invalidate_buffers(dev)] returns, the block is no longer
    found in the hash index, and a [bread(dev, block, size)] made next, once
    [getblk] has found it an entry, returns after one more call of
    [read_block(dev, block, size)]; it hands out the entry only if that call
    succeeded.  [getblk] does find an entry whenever the free list offers
    a usable victim: it returns that entry. *)
Theorem C7_invalidate_then_read (dev block size : Z) (k : kernel)
    (c : nat -> list nat) (dv : device)
    (read : list event -> Z -> Z -> Z -> Z * frame) :
  hash_wf k c ->
  blk_devices k dev = Some dv -> fsop dv ≫= read_block = Some read ->
  (forall m, In m (c (Buffer.BUFFER_HASH k dev block)) ->
             keyed k dev block size m = true ->
             Buffer.flag k m BUFFER_LOCKED = false) ->
  exists k1,
    Buffer.invalidate_buffers dev k = Some k1
    /\ Buffer.search_buffer_hash dev block size k1 = Some None
    /\ (forall v kg,
          Buffer.getblk dev block size k1 = Some (Some v, kg) ->
          exists r k2,
            Buffer.bread dev block size k1 = Some (r, k2)
            /\ io k2 = io kg ++ [read_block_call dev block size
                                   (fst (read (io kg) dev block size))]
            /\ (r <> None ->
                r = Some v /\ 0 <= fst (read (io kg) dev block size)))
    /\ (forall v,
          usable_victim k v ->
          exists kg, Buffer.getblk dev block size k1 = Some (Some v, kg)).
Proof.
  intros Hwf Hd Hr Hu.
  destruct (invalidate_buffers_miss dev block size k c Hwf Hu)
    as (k1 & c1 & Hrun & Hwf1 & Hmiss).
  exists k1. split; [exact Hrun|]. split; [exact Hmiss|].
  pose proof (invalidate_buffers_same _ _ _ Hrun) as Hs.
  cbv [st kernel_state] in Hs.
  split.
  - intros v kg Hg.
    apply (bread_reads dev block size k1 dv read v kg).
    + rewrite (same_devices _ _ _ Hs). exact Hd.
    + exact Hr.
    + exact Hg.
    + apply (getblk_miss_invalid dev block size k1 v kg Hmiss Hg).
  - intros v (Hh & Hul & Hv).
    apply (getblk_victim dev block size k1 c1 v Hwf1 Hmiss).
    split; [rewrite (same_head _ _ _ Hs eq_refl); exact Hh|].
    split; [rewrite (invalidate_loop_locked _ _ _ _ _ v Hrun); exact Hul|].
    rewrite (same_flag _ _ _ v BUFFER_DIRTY Hs eq_refl),
      (same_data _ _ _ v Hs eq_refl), (same_kstat _ _ _ Hs eq_refl).
    destruct (same_pages _ _ _ Hs eq_refl) as (_ & -> & _).
    destruct Hv as [H|[H|(Hf & p & Hp & Hi)]]; auto.
    right. right. split; [exact Hf|]. exists p. split; [exact Hp|].
    rewrite (pg_same _ _ _ p Hs eq_refl). exact Hi.
Qed.

(** * C9: a dirty victim whose write-back fails *)


(** * C5: the bound of [reclaim_buffers] *)


(** * C8: the cold read *)

(** * C1: write-through coherency *)

(** * More about the buffer cache *)

(** ** What a call never changes *)

Lemma getblk_same (d b s : Z) (k : kernel) :
  osame m_any k (Buffer.getblk d b s k).
Proof.
  cbv beta delta [Buffer.getblk].
  destruct (Buffer.search_buffer_hash d b s k) as [[n|]|];
    [| |apply osame_none];
    lazymatch goal with
    | |- osame _ _ (mbind ?f (Some ?x)) =>
        change (osame m_any k (f x)); cbv beta iota
    end; oframe_steps.
Qed.

Lemma bread_same (d b s : Z) (k : kernel) :
  osame m_any k (Buffer.bread d b s k).
Proof.
  cbv beta delta [Buffer.bread].
  destruct (blk_devices k d) as [dv|]; [|apply osame_ret, same_refl].
  apply (osame_bind m_any k); [apply getblk_same|].
  intros [[n|] kg]; cbv beta iota delta [st pair_state snd];
    [|apply osame_ret, same_refl].
  oframe_steps.
Qed.

Lemma BUFFER_HASH_lt (k : kernel) (d b : Z) :
  (0 < length (buffer_hash_table k))%nat ->
  (Buffer.BUFFER_HASH k d b < length (buffer_hash_table k))%nat.
Proof.
  intros H. unfold Buffer.BUFFER_HASH, Buffer.NR_BUF_HASH.
  pose proof (Z.mod_pos_bound (Z.lxor d b)
                (Z.of_nat (length (buffer_hash_table k))) ltac:(lia)).
  lia.
Qed.

Lemma hash_table_wr (p : ptr) (f : Buf.t -> Buf.t) (k : kernel) :
  buffer_hash_table (Buffer.wr p f k) = buffer_hash_table k.
Proof. destruct p; reflexivity. Qed.

(** [insert_to_hash] puts the entry at the head of the chain of its
    key. *)
Lemma bucket_insert_to_hash (v : nat) (k : kernel) :
  (0 < length (buffer_hash_table k))%nat ->
  Buffer.bucket (Buffer.insert_to_hash v k)
    (Buffer.BUFFER_HASH k (Buf.dev (Buffer.buf k v))
       (Buf.block (Buffer.buf k v)))
  = Some v.
Proof.
  intros Hh. unfold Buffer.insert_to_hash.
  set (i := Buffer.BUFFER_HASH k _ _).
  assert (Hi : (i < length (buffer_hash_table k))%nat)
    by (apply BUFFER_HASH_lt, Hh).
  destruct (Buffer.bucket k i) as [h|]; cbv zeta.
  - rewrite bucket_set_bucket_at, decide_True; [reflexivity..|].
    rewrite hash_table_wr. exact Hi.
  - rewrite !bucket_wr, bucket_set_bucket_at, decide_True by auto.
    reflexivity.
Qed.

(** The entry that [getblk] has given a new key is the one a search for
    the key finds. *)
Lemma search_rebind (v : nat) (d b s : Z) (k3 : kernel) :
  (v < Buffer.NR_BUFFERS k3)%nat ->
  (0 < length (buffer_hash_table k3))%nat ->
  Buffer.search_buffer_hash d b s (rebind v d b s k3) = Some (Some v).
Proof.
  intros Hv Hh.
  destruct (key_rebind v d b s k3 Hv) as (Kd & Kb & Ks).
  set (ku := Buffer.upd v (Buf.set_key d b s) k3).
  assert (Hb : Buffer.bucket (rebind v d b s k3) (Buffer.BUFFER_HASH ku d b)
               = Some v).
  { unfold rebind. fold ku. unfold Buffer.clear_flag. rewrite bucket_upd.
    pose proof (bucket_insert_to_hash v ku Hh) as H.
    assert (E : Buffer.buf ku v = Buf.set_key d b s (Buffer.buf k3 v))
      by (apply buf_upd_eq, Hv).
    rewrite E in H. exact H. }
  unfold Buffer.search_buffer_hash.
  assert (Hs : same (mask_or m_hashidx (m_bits BUFFER_VALID)) ku
                 (rebind v d b s k3)).
  { apply (same_trans _ _ (Buffer.insert_to_hash v ku)).
    - apply (same_mono m_hashidx); [reflexivity|apply insert_to_hash_same].
    - apply same_clear_flag. reflexivity. }
  rewrite (BUFFER_HASH_same _ _ _ d b Hs), Hb. unfold Buffer.chain_fuel. rewrite Nat.add_comm.
  cbn [Nat.add Buffer.search_loop].
  rewrite Kd, Kb, Ks, !Z.eqb_refl. reflexivity.
Qed.

(** What [bread] does to the entry [getblk] gave it. *)
Lemma bread_tail_same (dv : device) (d b s : Z) (n : nat) (kg : kernel) :
  same (mask_or (mask_or m_log m_store) (m_bits BUFFER_VALID)) kg
    (if negb (Buffer.flag kg n BUFFER_VALID) then
       match fsop dv ≫= read_block with
       | Some read =>
           let '(ret, bytes) := read (io kg) d b s in
           let k := Buffer.log (read_block_call d b s ret) kg in
           let k := Buffer.store (Buf.data (Buffer.buf k n)) 0 bytes
                      (Z.to_nat s) k in
           if 0 <=? ret then Buffer.set_flag n BUFFER_VALID k else k
       | None => kg
       end
     else kg).
Proof.
  destruct (Buffer.flag kg n BUFFER_VALID); cbv beta iota delta [negb];
    [apply same_refl|].
  lazymatch goal with
  | |- same _ _ (match ?x with _ => _ end) => destruct x as [read|]
  end; [|apply same_refl].
  destruct (read (io kg) d b s) as [ret bytes]. frame_steps.
Qed.

(** X6.  A cache hit costs no device access.  When [search_buffer_hash]
    finds the block in an entry that is valid and unlocked, [bread] returns
    that entry, locked for the caller, and calls no driver; the contents of
    the frames, the data pointers and the hash index are untouched, and no
    other entry changes its lock. *)
Theorem X6_bread_hit (d b s : Z) (k : kernel) (m : nat) (dv : device) :
  blk_devices k d = Some dv ->
  Buffer.search_buffer_hash d b s k = Some (Some m) ->
  Buffer.flag k m BUFFER_LOCKED = false ->
  Buffer.flag k m BUFFER_VALID = true ->
  exists k',
    Buffer.bread d b s k = Some (Some m, k')
    /\ io k' = io k /\ frames k' = frames k
    /\ Buffer.flag k' m BUFFER_LOCKED = true
    /\ (forall n, n <> m ->
          Buffer.flag k' n BUFFER_LOCKED = Buffer.flag k n BUFFER_LOCKED)
    /\ (forall n, Buf.data (Buffer.buf k' n) = Buf.data (Buffer.buf k n))
    /\ (forall d' b' s',
          Buffer.search_buffer_hash d' b' s' k'
          = Buffer.search_buffer_hash d' b' s' k).
Proof.
  intros Hd Hs Hu Hv.
  pose proof (bread_cached d b s k m dv Hd Hs Hu Hv) as Hrun.
  pose proof (taken_same m k) as Hsk.
  assert (Hm : (m < Buffer.NR_BUFFERS k)%nat).
  { destruct (decide (m < Buffer.NR_BUFFERS k)%nat) as [H|H]; [exact H|].
    rewrite flag_outside in Hv by lia. discriminate. }
  eexists. split; [exact Hrun|].
  split; [apply (same_io _ _ _ Hsk eq_refl)|].
  split; [apply (same_frames _ _ _ Hsk eq_refl)|].
  split.
  { rewrite (same_flag _ _ _ m BUFFER_LOCKED
               (remove_from_free_list_same m _) eq_refl).
    apply (flag_set_flag_eq m BUFFER_LOCKED 1); [reflexivity|lia|exact Hm]. }
  split; [intros n Hn; apply taken_locked_ne; congruence|].
  split; [intros n; apply (same_data _ _ _ n Hsk eq_refl)|].
  intros d' b' s'. apply (search_buffer_hash_same _ _ _ _ _ _ Hsk); reflexivity.
Qed.

(** The entry [getblk] returns is the one a search for the key finds. *)
Lemma getblk_then_lookup (d b s : Z) (k : kernel) (n : nat) (kg : kernel) :
  (0 < length (buffer_hash_table k))%nat ->
  Buffer.getblk d b s k = Some (Some n, kg) ->
  (n < Buffer.NR_BUFFERS kg)%nat ->
  Buffer.search_buffer_hash d b s kg = Some (Some n).
Proof.
  intros Hh Hg Hn.
  pose proof (getblk_same d b s k _ Hg) as Hsg.
  cbv [st pair_state snd] in Hsg.
  destruct (Buffer.search_buffer_hash d b s k) as [[m|]|] eqn:Hs.
  - unfold Buffer.getblk in Hg. rewrite Hs in Hg.
    cbn [mbind option_bind] in Hg.
    destruct (Buffer.flag k m BUFFER_LOCKED); [discriminate|].
    injection Hg as <- <-.
    rewrite (search_buffer_hash_same _ _ _ d b s (taken_same m k))
      by reflexivity.
    exact Hs.
  - destruct (getblk_miss d b s k _ kg Hs Hg) as (v' & kv & _ & Hcase).
    assert (Hgo : forall k2 k3,
              Buffer.remove_from_hash v' k2 = Some k3 ->
              Some n = Some v' -> kg = rebind v' d b s k3 ->
              Buffer.search_buffer_hash d b s kg = Some (Some n)).
    { intros k2 k3 Hr [= ->] ->.
      pose proof (rebind_same v' d b s _ _ Hr) as H2.
      pose proof (remove_from_hash_same _ _ _ Hr) as H3.
      cbv [st kernel_state] in H3.
      apply search_rebind.
      - rewrite (same_NR_BUFFERS _ _ _ H3), <- (same_NR_BUFFERS _ _ _ H2).
        exact Hn.
      - destruct H3 as (_ & -> & _). destruct H2 as (_ & <- & _).
        destruct Hsg as (_ & -> & _). exact Hh. }
    destruct Hcase
      as [(_ & k3 & Hr & E & Ek)
         |[(_ & _ & km & _ & E & _)
          |[(_ & _ & a & km & k3 & _ & Hr & E & Ek)
           |(_ & _ & k3 & Hr & E & Ek)]]];
      try discriminate; eapply Hgo; eassumption.
  - unfold Buffer.getblk in Hg. rewrite Hs in Hg. discriminate.
Qed.

(** X7.  What [bread] hands out is what a lookup finds.  Whenever
    [bread(dev, block, size)] returns an entry, be it a cache hit, a
    recycled entry or an entry that was given a fresh frame,
    [search_buffer_hash(dev, block, size)] finds that very entry in the
    state [bread] returns in. *)
Theorem X7_bread_then_lookup (d b s : Z) (k : kernel) (v : nat)
    (k' : kernel) :
  (0 < length (buffer_hash_table k))%nat ->
  Buffer.bread d b s k = Some (Some v, k') ->
  Buffer.search_buffer_hash d b s k' = Some (Some v).
Proof.
  intros Hh Hrun. unfold Buffer.bread in Hrun.
  destruct (blk_devices k d) as [dv|]; [|discriminate].
  destruct (Buffer.getblk d b s k) as [[[n|] kg]|] eqn:Hg;
    cbn [mbind option_bind] in Hrun; [|discriminate..].
  pose proof (bread_tail_same dv d b s n kg) as Hst.
  cbv zeta in Hrun.
  set (kr := if negb (Buffer.flag kg n BUFFER_VALID) then _ else kg) in *.
  destruct (Buffer.flag kr n BUFFER_VALID) eqn:Hval; [|discriminate].
  injection Hrun as <- <-.
  rewrite (search_buffer_hash_same _ _ _ d b s Hst) by reflexivity.
  apply (getblk_then_lookup d b s k n kg Hh Hg).
  rewrite <- (same_NR_BUFFERS _ _ _ Hst).
  destruct (decide (n < Buffer.NR_BUFFERS kr)%nat) as [H|H]; [exact H|].
  rewrite flag_outside in Hval by lia. discriminate.
Qed.

(** X8.  Out of memory.  If the block is not cached, the free list offers a
    clean victim that owns no frame, and no page is free (nor is one freed
    while [get_free_page] sleeps), [bread] gives up: it returns [NULL]
    without calling the driver.  The victim is
    released again, and nothing of the cache contents is lost: the frames,
    the data pointers, the keys and the answers of every lookup are the
    ones before the call, and the page table is untouched. *)
Theorem X8_bread_out_of_memory (d b s : Z) (k : kernel) (v : nat)
    (dv : device) :
  blk_devices k d = Some dv ->
  Buffer.search_buffer_hash d b s k = Some None ->
  buffer_head k = Some v ->
  Buffer.flag k v BUFFER_LOCKED = false ->
  Buffer.flag k v BUFFER_DIRTY = false ->
  Buf.data (Buffer.buf k v) = None ->
  free_pages (kstat k) = 0 ->
  exists k',
    Buffer.bread d b s k = Some (None, k')
    /\ io k' = io k /\ frames k' = frames k
    /\ page_table k' = page_table k
    /\ Buffer.flag k' v BUFFER_LOCKED = false
    /\ (forall n, Buf.data (Buffer.buf k' n) = Buf.data (Buffer.buf k n))
    /\ (forall d' b' s',
          Buffer.search_buffer_hash d' b' s' k'
          = Buffer.search_buffer_hash d' b' s' k).
Proof.
  intros Hd Hmiss Hh Hu Hdirty Hdata Hfree.
  set (kv := Buffer.set_flag v BUFFER_LOCKED
               (Buffer.remove_from_free_list v k)).
  assert (Hg : Buffer.get_free_buffer k = Some (Some v, kv)).
  { unfold Buffer.get_free_buffer. rewrite Hh, Hu. reflexivity. }
  pose proof (get_free_buffer_same k _ Hg) as Hsv.
  cbv [st pair_state kernel_state snd] in Hsv.
  assert (Hm : kmalloc kv = Some (None, kv)).
  { unfold kmalloc, Page.get_free_page.
    rewrite (same_kstat _ _ _ Hsv eq_refl), Hfree. reflexivity. }
  assert (Hs : same m_release k (Buffer.brelse v kv)).
  { apply (same_trans _ _ kv); [same_weaken Hsv|apply brelse_same]. }
  exists (Buffer.brelse v kv). split.
  { unfold Buffer.bread, Buffer.getblk. rewrite Hd, Hmiss.
    cbn [mbind option_bind]. rewrite Hg. cbn [mbind option_bind].
    rewrite (same_flag _ _ _ v BUFFER_DIRTY Hsv eq_refl), Hdirty.
    rewrite (same_data _ _ _ v Hsv eq_refl), Hdata. cbn [is_null].
    rewrite Hm. reflexivity. }
  split; [apply (same_io _ _ _ Hs eq_refl)|].
  split; [apply (same_frames _ _ _ Hs eq_refl)|].
  split; [apply (same_pages _ _ _ Hs eq_refl)|].
  split; [apply brelse_locked_eq|].
  split; [intros n; apply (same_data _ _ _ n Hs eq_refl)|].
  intros d' b' s'. apply (search_buffer_hash_same _ _ _ _ _ _ Hs); reflexivity.
Qed.

(** The bit [VALID] of an entry after its links in the free list have been
    written. *)
Lemma head_after_insert (v : nat) (k : kernel) :
  Buffer.flag k v BUFFER_VALID = false ->
  buffer_head (Buffer.insert_on_free_list v k) = Some v.
Proof.
  intros Hv. unfold Buffer.insert_on_free_list.
  destruct (buffer_head k) as [h|]; [|reflexivity]. cbv zeta.
  match goal with |- context [Buffer.flag ?x v BUFFER_VALID] =>
    assert (E : Buffer.flag x v BUFFER_VALID = false)
  end.
  { rewrite <- Hv. unfold Buffer.flag.
    rewrite !(proj_wr Buf.flags), !(proj_upd Buf.flags);
      [reflexivity|intros []; reflexivity..]. }
  rewrite E. reflexivity.
Qed.

(** X9.  The replacement policy of [brelse].  An entry that is released
    without [VALID] (its read failed, or it was invalidated) becomes the
    head of the free list, so it is the very next entry that
    [get_free_buffer] hands out.  An entry released [VALID] onto a free
    list that is not empty leaves the head where it was and becomes the
    tail: it is the last to be recycled. *)
Theorem X9_brelse_replacement_order (v : nat) (k : kernel) :
  (Buffer.flag k v BUFFER_VALID = false ->
   buffer_head (Buffer.brelse v k) = Some v
   /\ exists k2, Buffer.get_free_buffer (Buffer.brelse v k)
                 = Some (Some v, k2))
  /\ (Buffer.flag k v BUFFER_VALID = true -> free_ok k ->
      is_free_tail (Buffer.brelse v k) v = true
      /\ forall h, buffer_head k = Some h ->
                   buffer_head (Buffer.brelse v k) = Some h).
Proof.
  set (kd := if Buffer.flag k v BUFFER_DIRTY
             then Buffer.insert_on_dirty_list v k else k).
  assert (Hsd : same m_dirtyins k kd).
  { unfold kd. destruct (Buffer.flag k v BUFFER_DIRTY);
      [apply insert_on_dirty_list_same|apply same_refl]. }
  assert (Eh : buffer_head (Buffer.brelse v k)
               = buffer_head (Buffer.insert_on_free_list v kd))
    by reflexivity.
  split.
  - intros Hval.
    assert (Hhead : buffer_head (Buffer.brelse v k) = Some v).
    { rewrite Eh. apply head_after_insert.
      rewrite (same_flag _ _ _ v BUFFER_VALID Hsd eq_refl). exact Hval. }
    split; [exact Hhead|]. unfold Buffer.get_free_buffer.
    rewrite Hhead, brelse_locked_eq. eauto.
  - intros Hval Hfo.
    assert (Hv : (v < Buffer.NR_BUFFERS k)%nat).
    { destruct (decide (v < Buffer.NR_BUFFERS k)%nat) as [H|H]; [exact H|].
      rewrite flag_outside in Hval by lia. discriminate. }
    split; [apply is_free_tail_brelse; assumption|].
    intros h Hh. rewrite Eh. unfold Buffer.insert_on_free_list.
    rewrite (same_head _ _ _ Hsd eq_refl), Hh. cbv zeta.
    match goal with |- context [Buffer.flag ?x v BUFFER_VALID] =>
      assert (E : Buffer.flag x v BUFFER_VALID = true)
    end.
    { rewrite <- Hval, <- (same_flag _ _ _ v BUFFER_VALID Hsd eq_refl).
      unfold Buffer.flag.
      rewrite !(proj_wr Buf.flags), !(proj_upd Buf.flags);
        [reflexivity|intros []; reflexivity..]. }
    rewrite E. cbn [negb]. rewrite !head_wr.
    change (buffer_head kd = Some h).
    rewrite (same_head _ _ _ Hsd eq_refl). exact Hh.
Qed.

(** X10.  The last two free buffers.  When the free list holds exactly two
    entries, [a] at its head and [b], taking [a] with [get_free_buffer]
    leaves [buffer_head] at [NULL]: once [a] is unlinked, [b] is its own
    successor, which is what [remove_from_free_list] takes for the sign
    that the list is empty.  [b] is then on no list although it is as free
    as before, the next [get_free_buffer] answers [NULL], and a [getblk]
    that misses goes to sleep for a buffer: left alone, it does not
    return. *)
Theorem X10_last_two_free_buffers (a b : nat) (k : kernel) :
  a <> b -> (a < Buffer.NR_BUFFERS k)%nat -> (b < Buffer.NR_BUFFERS k)%nat ->
  buffer_head k = Some a ->
  Buf.next_free (Buffer.buf k a) = Some b ->
  Buf.prev_free (Buffer.buf k a) = Some b ->
  Buf.next_free (Buffer.buf k b) = Some a ->
  Buf.prev_free (Buffer.buf k b) = Some a ->
  Buffer.flag k a BUFFER_LOCKED = false ->
  exists k1,
    Buffer.get_free_buffer k = Some (Some a, k1)
    /\ buffer_head k1 = None
    /\ Buffer.flag k1 b BUFFER_LOCKED = Buffer.flag k b BUFFER_LOCKED
    /\ Buffer.get_free_buffer k1 = Some (None, k1)
    /\ forall dev block size,
         Buffer.search_buffer_hash dev block size k1 = Some None ->
         Buffer.getblk dev block size k1 = None.
Proof.
  intros Hab Ha Hb Hh Hna Hpa Hnb Hpb Hu.
  assert (Hr : buffer_head (Buffer.remove_from_free_list a k) = None).
  { unfold Buffer.remove_from_free_list. rewrite Hh. cbv zeta.
    rewrite Hpa, Hna. cbn [Buffer.wr].
    set (k1 := Buffer.upd b (Buf.set_next_free (Some b)) k).
    assert (E1 : Buffer.buf k1 a = Buffer.buf k a)
      by (apply buf_upd_ne; congruence).
    rewrite E1, Hna, Hpa. cbn [Buffer.wr].
    set (k2 := Buffer.upd b (Buf.set_prev_free (Some b)) k1).
    assert (E2 : Buffer.buf k2 a = Buffer.buf k a)
      by (unfold k2; rewrite buf_upd_ne by congruence; exact E1).
    assert (Eh2 : buffer_head k2 = Some a) by exact Hh.
    rewrite Eh2. cbn [ptr_eqb]. rewrite Nat.eqb_refl, E2, Hna.
    set (k3 := set_buffer_head (Some b) k2).
    assert (Eh3 : buffer_head k3 = Some b) by reflexivity.
    rewrite Eh3. cbn [Buffer.rd].
    assert (E3 : Buf.next_free (Buffer.buf k3 b) = Some b).
    { change (Buffer.buf k3 b) with (Buffer.buf k2 b). unfold k2.
      rewrite (proj_upd Buf.next_free) by (intros []; reflexivity).
      unfold k1. rewrite buf_upd_eq by exact Hb. reflexivity. }
    rewrite E3. cbn [ptr_eqb]. rewrite Nat.eqb_refl. reflexivity. }
  set (k1 := Buffer.set_flag a BUFFER_LOCKED
               (Buffer.remove_from_free_list a k)).
  assert (Hg : Buffer.get_free_buffer k = Some (Some a, k1)).
  { unfold Buffer.get_free_buffer. rewrite Hh, Hu. reflexivity. }
  assert (Hh1 : buffer_head k1 = None) by exact Hr.
  assert (Hg1 : Buffer.get_free_buffer k1 = Some (None, k1)).
  { unfold Buffer.get_free_buffer. rewrite Hh1. reflexivity. }
  exists k1. split; [exact Hg|]. split; [exact Hh1|].
  split.
  { unfold k1. rewrite flag_set_flag_ne by exact Hab.
    apply (same_flag _ _ _ b BUFFER_LOCKED
             (remove_from_free_list_same a k) eq_refl). }
  split; [exact Hg1|].
  intros dev block size Hmiss. unfold Buffer.getblk.
  rewrite Hmiss. cbn [mbind option_bind]. rewrite Hg1. reflexivity.
Qed.

(** X20.  A failed read is not remembered.  When the driver answers a
    negative value for the block, [bread] returns [NULL]; the entry stays
    in the hash index under the key of the block, without [VALID],
    unlocked, and at the head of the free list.  A [bread] of the same
    block made next finds that entry and asks the driver again. *)
Theorem X20_failed_read_is_retried (d b s : Z) (k : kernel) (dv : device)
    (read : list event -> Z -> Z -> Z -> Z * frame) (v : nat)
    (kg : kernel) :
  blk_devices k d = Some dv -> fsop dv ≫= read_block = Some read ->
  (0 < length (buffer_hash_table k))%nat ->
  Buffer.getblk d b s k = Some (Some v, kg) ->
  (v < Buffer.NR_BUFFERS k)%nat ->
  Buffer.flag kg v BUFFER_VALID = false ->
  fst (read (io kg) d b s) < 0 ->
  exists k',
    Buffer.bread d b s k = Some (None, k')
    /\ io k' = io kg ++ [read_block_call d b s (fst (read (io kg) d b s))]
    /\ Buffer.search_buffer_hash d b s k' = Some (Some v)
    /\ Buffer.flag k' v BUFFER_VALID = false
    /\ Buffer.flag k' v BUFFER_LOCKED = false
    /\ buffer_head k' = Some v
    /\ exists r k'',
         Buffer.bread d b s k' = Some (r, k'')
         /\ io k'' = io k' ++ [read_block_call d b s
                                 (fst (read (io k') d b s))].
Proof.
  intros Hd Hr Hh Hg Hv Hval Hret.
  pose proof (getblk_same d b s k _ Hg) as Hsg.
  cbv [st pair_state snd] in Hsg.
  assert (Hvg : (v < Buffer.NR_BUFFERS kg)%nat)
    by (rewrite (same_NR_BUFFERS _ _ _ Hsg); exact Hv).
  pose proof (getblk_then_lookup d b s k v kg Hh Hg Hvg) as Hfound.
  unfold Buffer.bread. rewrite Hd, Hg. cbn [mbind option_bind]. cbv zeta.
  rewrite Hval, Hr in *. cbn [negb] in *.
  destruct (read (io kg) d b s) as [ret bytes] eqn:Er. cbn [fst] in *.
  cbv zeta.
  destruct (Z.leb_spec 0 ret) as [|_]; [lia|].
  set (ks := Buffer.store _ 0 bytes (Z.to_nat s) _) in *.
  assert (Hst : same (mask_or m_log m_store) kg ks).
  { unfold ks.
    apply (same_trans _ _ (Buffer.log (read_block_call d b s ret) kg));
      [apply same_log; reflexivity|apply same_store; reflexivity]. }
  assert (Evs : Buffer.flag ks v BUFFER_VALID = false)
    by (rewrite <- Hval; unfold ks, Buffer.flag;
        destruct (Buf.data _); reflexivity).
  rewrite Evs.
  pose proof (brelse_same v ks) as Hsb.
  set (k' := Buffer.brelse v ks) in *.
  assert (Eio : io k' = io kg ++ [read_block_call d b s ret]).
  { rewrite (same_io _ _ _ Hsb eq_refl). unfold ks.
    destruct (Buf.data _); reflexivity. }
  assert (Efound : Buffer.search_buffer_hash d b s k' = Some (Some v)).
  { rewrite (search_buffer_hash_same _ _ _ d b s Hsb) by reflexivity.
    rewrite (search_buffer_hash_same _ _ _ d b s Hst) by reflexivity.
    exact Hfound. }
  assert (Eval : Buffer.flag k' v BUFFER_VALID = false)
    by (rewrite (same_flag _ _ _ v BUFFER_VALID Hsb eq_refl); exact Evs).
  assert (Elock : Buffer.flag k' v BUFFER_LOCKED = false).
  { unfold k', Buffer.brelse. cbv zeta.
    apply (flag_clear_flag_eq v BUFFER_LOCKED 1); [reflexivity|lia|].
    rewrite (same_NR_BUFFERS _ _ _ (insert_on_free_list_same v _)).
    destruct (Buffer.flag ks v BUFFER_DIRTY);
      [rewrite (same_NR_BUFFERS _ _ _ (insert_on_dirty_list_same v ks))|];
      rewrite (same_NR_BUFFERS _ _ _ Hst); exact Hvg. }
  exists k'. split; [reflexivity|]. split; [exact Eio|].
  split; [exact Efound|]. split; [exact Eval|]. split; [exact Elock|].
  split.
  { unfold k', Buffer.brelse. cbv zeta.
    change (buffer_head (Buffer.clear_flag v BUFFER_LOCKED ?x))
      with (buffer_head x).
    apply head_after_insert.
    destruct (Buffer.flag ks v BUFFER_DIRTY); [|exact Evs].
    rewrite (same_flag _ _ _ v BUFFER_VALID
               (insert_on_dirty_list_same v ks) eq_refl). exact Evs. }
  set (kg' := Buffer.remove_from_free_list v
                (Buffer.set_flag v BUFFER_LOCKED k')).
  assert (Hg' : Buffer.getblk d b s k' = Some (Some v, kg')).
  { unfold Buffer.getblk. rewrite Efound. cbn [mbind option_bind].
    rewrite Elock. reflexivity. }
  pose proof (taken_same v k') as Hst'. fold kg' in Hst'.
  destruct (bread_reads d b s k' dv read v kg') as (r & k2 & Hb & Hio & _).
  - rewrite (same_devices _ _ _ Hsb), (same_devices _ _ _ Hst),
      (same_devices _ _ _ Hsg). exact Hd.
  - exact Hr.
  - exact Hg'.
  - rewrite (same_flag _ _ _ v BUFFER_VALID Hst' eq_refl). exact Eval.
  - exists r, k2. split; [exact Hb|].
    rewrite (same_io _ _ _ Hst' eq_refl) in Hio. exact Hio.
Qed.

(** * More about [sync_buffers] *)

Lemma calls_since_refl (k : kernel) : calls_since k k = [].
Proof. apply calls_since_app. symmetry. apply app_nil_r. Qed.

(** X11.  [sync_buffers(dev)] with a device number other than 0 touches no
    other device: every driver call it makes is a [write_block] call for
    [dev]; it reads nothing and frees nothing. *)
Theorem X11_sync_buffers_only_its_device (fuel : nat) (dev : Z)
    (k k' : kernel) :
  dev <> 0 ->
  Buffer.sync_buffers fuel dev k = Some k' ->
  io k' = io k ++ calls_since k k'
  /\ Forall (fun e => exists block data size ret,
                        e = write_block_call dev block data size ret)
            (calls_since k k').
Proof.
  intros Hdev Hrun. split; [apply (sync_loop_io _ _ _ _ _ Hrun)|].
  unfold Buffer.sync_buffers in Hrun. revert Hrun.
  generalize (buffer_dirty_head k) as b. revert k.
  induction fuel as [|fuel IH]; intros k b Hrun;
    simpl in Hrun; [discriminate|].
  destruct b as [n|];
    [|injection Hrun as <-; rewrite calls_since_refl; constructor].
  destruct ((dev =? 0) || (Buf.dev (Buffer.buf k n) =? dev)) eqn:Ec.
  - destruct (Buffer.buffer_wait n k) as [k1|] eqn:Hw; [|discriminate].
    simpl in Hrun.
    pose proof (sync_loop_grows _ _ _ _ _ Hrun) as Hg.
    specialize (IH _ _ Hrun).
    destruct (sync_round n k k1 Hw) as [(_ & Ei & _)|(w & _ & Ei & _)].
    + rewrite <- (app_nil_r (io k)) in Ei.
      rewrite (calls_since_trans _ _ _ _ Ei Hg). exact IH.
    + rewrite (calls_since_trans _ _ _ _ Ei Hg).
      apply Forall_app. split; [|exact IH].
      constructor; [|constructor]. unfold write_back_call.
      apply orb_true_iff in Ec as [Ec|Ec]; [lia|].
      apply Z.eqb_eq in Ec. rewrite Ec. eauto.
  - simpl in Hrun. apply (IH _ _ Hrun).
Qed.

Lemma buf_add_dirty_flag (d : Z) (k : kernel) (m : nat) (c : Z) :
  Buffer.flag (Buffer.add_dirty d k) m c = Buffer.flag k m c.
Proof. reflexivity. Qed.

(** [remove_from_dirty_list] clears the [DIRTY] bit of its entry and
    changes the bit of no other entry. *)
Lemma remove_from_dirty_list_flag (n : nat) (k : kernel) (m : nat) :
  Buffer.flag (Buffer.remove_from_dirty_list n k) m BUFFER_DIRTY
  = if decide (m = n) then false else Buffer.flag k m BUFFER_DIRTY.
Proof.
  case_decide as Hm.
  - subst m. unfold Buffer.remove_from_dirty_list. cbv zeta.
    lazymatch goal with
    | |- Buffer.flag (Buffer.add_dirty _ (Buffer.clear_flag n _ ?Y)) _ _ = _ =>
        change (Buffer.flag (Buffer.clear_flag n BUFFER_DIRTY Y) n
                  BUFFER_DIRTY = false);
        generalize Y; intros y
    end.
    destruct (decide (n < Buffer.NR_BUFFERS y)%nat) as [Hn|Hn].
    + apply (flag_clear_flag_eq n BUFFER_DIRTY 2); [reflexivity|lia|exact Hn].
    + apply flag_outside. rewrite NR_BUFFERS_clear_flag. lia.
  - unfold Buffer.remove_from_dirty_list. cbv zeta.
    rewrite buf_add_dirty_flag, flag_clear_flag_ne by congruence.
    unfold Buffer.flag.
    repeat first
      [ rewrite (proj_upd Buf.flags) by (intros []; reflexivity)
      | rewrite (proj_wr Buf.flags) by (intros []; reflexivity)
      | rewrite buf_if_dhead
      | match goal with
        | |- context [if is_null ?p then _ else _] => destruct (is_null p)
        end ].
    all: reflexivity.
Qed.

(** A round of [sync_buffers] sets no [DIRTY] bit, and clears the bit of
    its entry when the driver accepts the block. *)
Lemma sync_round_dirty (n : nat) (k k1 : kernel) (m : nat) :
  Buffer.buffer_wait n k = Some k1 ->
  let k3 := Buffer.clear_flag n BUFFER_LOCKED (Buffer.sync_one_buffer n k1) in
  (Buffer.flag k3 m BUFFER_DIRTY = true -> Buffer.flag k m BUFFER_DIRTY = true)
  /\ (forall w, writer k n = Some w ->
                0 <= call_ret (write_back_call w k n) ->
                Buffer.flag k3 n BUFFER_DIRTY = false).
Proof.
  intros Hw k3. subst k3. apply buffer_wait_inv in Hw as [Hu ->].
  set (k1 := Buffer.set_flag n BUFFER_LOCKED k).
  assert (Hs : same m_lock k k1) by (apply same_set_flag; reflexivity).
  assert (Ew : writer k1 n = writer k n)
    by (apply (writer_same _ _ _ n Hs); reflexivity).
  assert (Ec : forall w, write_back_call w k1 n = write_back_call w k n)
    by (intros w; apply (write_back_call_same _ _ _ w n Hs); reflexivity).
  assert (Ef : forall j, Buffer.flag k1 j BUFFER_DIRTY
                         = Buffer.flag k j BUFFER_DIRTY)
    by (intros j; apply (same_flag _ _ _ j BUFFER_DIRTY Hs); reflexivity).
  assert (El : forall x j,
             Buffer.flag (Buffer.clear_flag n BUFFER_LOCKED x) j BUFFER_DIRTY
             = Buffer.flag x j BUFFER_DIRTY).
  { intros x j. apply (same_flag m_lock); [|reflexivity].
    apply same_clear_flag. reflexivity. }
  rewrite !El.
  destruct (sync_one_buffer_cases n k1)
    as [[Hn ->]|[(w & Hn & Hr & ->)|(w & Hn & Hr & ->)]];
    rewrite Ew in Hn; try rewrite Ec in Hr.
  - rewrite Ef. split; [auto|]. congruence.
  - change (Buffer.flag (Buffer.log (write_back_call w k1 n) k1) m
              BUFFER_DIRTY) with (Buffer.flag k1 m BUFFER_DIRTY).
    rewrite Ef. split; [auto|]. intros w' Hw'. assert (w' = w) by congruence.
    subst w'. lia.
  - rewrite !remove_from_dirty_list_flag. split.
    + case_decide; [discriminate|].
      change (Buffer.flag (Buffer.log (write_back_call w k1 n) k1) m
                BUFFER_DIRTY) with (Buffer.flag k1 m BUFFER_DIRTY).
      rewrite Ef. auto.
    + intros _ _ _. case_decide; congruence.
Qed.

(** The walk of [sync_buffers] along a well-formed dirty list whose entries
    are not held by anybody comes to the end of the list. *)
Lemma sync_loop_total (dev : Z) :
  forall (rest kept : list nat) (k : kernel) (fuel : nat),
    (length rest < fuel)%nat ->
    dirty_wf k (kept ++ rest) ->
    (forall n, In n rest -> concerns dev k n = true ->
               Buffer.flag k n BUFFER_LOCKED = false) ->
    exists k' l',
      Buffer.sync_loop fuel dev (first_of rest) k = Some k'
      /\ dirty_wf k' (kept ++ l')
      /\ (forall n, In n l' -> In n rest)
      /\ (forall m, Buffer.flag k' m BUFFER_DIRTY = true ->
                    Buffer.flag k m BUFFER_DIRTY = true)
      /\ ((forall n, In n rest ->
                     concerns dev k n = true /\ writer k n <> None) ->
          Forall (fun e => 0 <= call_ret e) (calls_since k k') ->
          l' = [] /\ length (calls_since k k') = length rest
          /\ forall n, In n rest -> Buffer.flag k' n BUFFER_DIRTY = false).
Proof.
  induction rest as [|n rest IH]; intros kept k fuel Hfuel Hwf Hu;
    (destruct fuel as [|fuel]; [simpl in Hfuel; lia|]).
  - exists k, []. simpl. split; [reflexivity|]. split; [exact Hwf|].
    split; [auto|]. split; [auto|]. intros _ _.
    rewrite calls_since_refl. split; [reflexivity|]. split; [reflexivity|].
    intros n [].
  - cbn [first_of head Buffer.sync_loop].
    rewrite (dirty_wf_next _ _ _ _ Hwf). fold (concerns dev k n).
    simpl in Hfuel. apply Nat.succ_lt_mono in Hfuel.
    destruct (concerns dev k n) eqn:Ec.
    + assert (Hw : Buffer.buffer_wait n k
                   = Some (Buffer.set_flag n BUFFER_LOCKED k)).
      { unfold Buffer.buffer_wait. rewrite (Hu n (or_introl eq_refl) Ec).
        reflexivity. }
      rewrite Hw. cbn [mbind option_bind].
      pose proof (sync_round_same n k _ Hw) as Hs.
      pose proof (sync_round_dirty n k _ n Hw) as [_ Hclean].
      pose proof (fun m => proj1 (sync_round_dirty n k _ m Hw)) as Hmono.
      pose proof (fun m => sync_round_locked n k _ m Hw) as Hl.
      pose proof (sync_round n k _ Hw) as Hround. cbv zeta in *.
      set (k3 := Buffer.clear_flag n BUFFER_LOCKED
                   (Buffer.sync_one_buffer n
                      (Buffer.set_flag n BUFFER_LOCKED k))) in *.
      assert (Hu3 : forall m, In m rest -> concerns dev k3 m = true ->
                              Buffer.flag k3 m BUFFER_LOCKED = false).
      { intros m Hm. rewrite (concerns_same _ _ _ dev m Hs eq_refl), Hl.
        apply Hu. right. exact Hm. }
      assert (Hkeep : forall kept',
                 dirty_wf k3 (kept' ++ rest) ->
                 exists k' l'',
                   Buffer.sync_loop fuel dev (first_of rest) k3 = Some k'
                   /\ dirty_wf k' (kept' ++ l'')
                   /\ (forall x, In x l'' -> In x rest)
                   /\ (forall m, Buffer.flag k' m BUFFER_DIRTY = true ->
                                 Buffer.flag k m BUFFER_DIRTY = true)
                   /\ ((forall x, In x rest ->
                          concerns dev k x = true /\ writer k x <> None) ->
                       Forall (fun e => 0 <= call_ret e)
                              (calls_since k3 k') ->
                       l'' = []
                       /\ length (calls_since k3 k') = length rest
                       /\ forall x, In x rest ->
                                    Buffer.flag k' x BUFFER_DIRTY = false)).
      { intros kept' Hwf3.
        destruct (IH kept' k3 fuel Hfuel Hwf3 Hu3)
          as (k' & l'' & Hrun & H1 & H2 & H3 & H4).
        exists k', l''. split; [exact Hrun|]. split; [exact H1|].
        split; [exact H2|]. split; [intros m Hm; apply Hmono, H3, Hm|].
        intros Hall. apply H4. intros x Hx.
        rewrite (concerns_same _ _ _ dev x Hs eq_refl),
          (writer_same _ _ _ x Hs eq_refl). apply Hall, Hx. }
      destruct Hround as [(Hn & Ei & Hd)|(w & Hn & Ei & [[Hr Hd]|[Hr Hd]])].
      * destruct (Hkeep (kept ++ [n]))
          as (k' & l'' & Hrun & H1 & H2 & H3 & _).
        { rewrite <- app_assoc. apply Hd, Hwf. }
        exists k', (n :: l''). split; [exact Hrun|].
        split; [rewrite <- app_assoc in H1; exact H1|].
        split; [intros x [<-|Hx]; [left; reflexivity|right; auto]|].
        split; [exact H3|]. intros Hall _.
        destruct (Hall n (or_introl eq_refl)) as [_ Hne]. contradiction.
      * destruct (Hkeep (kept ++ [n]))
          as (k' & l'' & Hrun & H1 & H2 & H3 & _).
        { rewrite <- app_assoc. apply Hd, Hwf. }
        exists k', (n :: l''). split; [exact Hrun|].
        split; [rewrite <- app_assoc in H1; exact H1|].
        split; [intros x [<-|Hx]; [left; reflexivity|right; auto]|].
        split; [exact H3|]. intros _ Hok.
        rewrite (calls_since_trans _ _ _ _ Ei
                   (sync_loop_grows _ _ _ _ _ Hrun)) in Hok.
        apply Forall_app in Hok as [Hok _]. apply Forall_inv in Hok. lia.
      * destruct (Hkeep kept) as (k' & l'' & Hrun & H1 & H2 & H3 & H4).
        { apply Hd, Hwf. }
        exists k', l''. split; [exact Hrun|]. split; [exact H1|].
        split; [intros x Hx; right; auto|].
        split; [exact H3|]. intros Hall Hok.
        rewrite (calls_since_trans _ _ _ _ Ei
                   (sync_loop_grows _ _ _ _ _ Hrun)) in Hok |- *.
        apply Forall_app in Hok as [_ Hok].
        destruct H4 as (E1 & E2 & E3);
          [intros x Hx; apply Hall; right; exact Hx|exact Hok|].
        split; [exact E1|]. split; [simpl; rewrite E2; reflexivity|].
        intros x [<-|Hx]; [|apply E3, Hx].
        destruct (Buffer.flag k' n BUFFER_DIRTY) eqn:Ef; [|reflexivity].
        destruct (IH kept k3 fuel Hfuel (Hd _ _ Hwf) Hu3)
          as (k'' & l3 & Hrun' & _ & _ & Hm3 & _).
        assert (k'' = k') by congruence. subst k''.
        specialize (Hm3 n Ef). rewrite (Hclean w Hn Hr) in Hm3. discriminate.
    + cbn [mbind option_bind].
      destruct (IH (kept ++ [n]) k fuel Hfuel)
        as (k' & l'' & Hrun & H1 & H2 & H3 & _).
      { rewrite <- app_assoc. exact Hwf. }
      { intros m Hm. apply Hu. right. exact Hm. }
      exists k', (n :: l''). split; [exact Hrun|].
      split; [rewrite <- app_assoc in H1; exact H1|].
      split; [intros x [<-|Hx]; [left; reflexivity|right; auto]|].
      split; [exact H3|]. intros Hall _.
      destruct (Hall n (or_introl eq_refl)) as [Hc _]. congruence.
Qed.

(** X12.  [sync_buffers] on a well-formed dirty list.  If no entry the
    pass looks at is locked, [sync_buffers(dev)] returns after one round
    per entry of the dirty list.  It leaves a well-formed dirty list made
    of entries of the old one, sets no [DIRTY] bit, gives every entry its
    [LOCKED] bit back, and changes neither the frames nor the answer of a
    lookup.  If moreover the pass looks at every entry, every entry's device
    has a [write_block] method and no call fails, then the dirty list is
    empty afterwards, every entry that was on it has lost [DIRTY], and the
    driver was called exactly once per entry. *)
Theorem X12_sync_buffers_flushes (fuel : nat) (dev : Z) (k : kernel)
    (l : list nat) :
  dirty_wf k l ->
  (length l < fuel)%nat ->
  (forall n, In n l -> concerns dev k n = true ->
             Buffer.flag k n BUFFER_LOCKED = false) ->
  exists k' l',
    Buffer.sync_buffers fuel dev k = Some k'
    /\ dirty_wf k' l' /\ (forall n, In n l' -> In n l)
    /\ (forall m, Buffer.flag k' m BUFFER_LOCKED
                  = Buffer.flag k m BUFFER_LOCKED)
    /\ (forall m, Buffer.flag k' m BUFFER_DIRTY = true ->
                  Buffer.flag k m BUFFER_DIRTY = true)
    /\ frames k' = frames k
    /\ (forall d b s, Buffer.search_buffer_hash d b s k'
                      = Buffer.search_buffer_hash d b s k)
    /\ ((forall n, In n l ->
                   concerns dev k n = true /\ writer k n <> None) ->
        Forall (fun e => 0 <= call_ret e) (calls_since k k') ->
        buffer_dirty_head k' = None
        /\ length (calls_since k k') = length l
        /\ forall n, In n l -> Buffer.flag k' n BUFFER_DIRTY = false).
Proof.
  intros Hwf Hfuel Hu.
  destruct (sync_loop_total dev l [] k fuel Hfuel Hwf Hu)
    as (k' & l' & Hrun & Hwf' & Hin & Hmono & Hflush).
  assert (Eh : buffer_dirty_head k = first_of l)
    by (destruct Hwf as [Hs _]; apply (seg_first _ _ _ _ _ _ Hs)).
  unfold Buffer.sync_buffers. rewrite Eh.
  pose proof (sync_loop_same fuel dev (first_of l) k k' Hrun) as Hs.
  change (same m_sync k k') in Hs.
  exists k', l'. split; [exact Hrun|]. split; [exact Hwf'|].
  split; [exact Hin|].
  split; [intros m; apply (sync_loop_locked _ _ _ _ _ m Hrun)|].
  split; [exact Hmono|].
  split; [apply (same_frames _ _ _ Hs); reflexivity|].
  split; [intros d b s; apply (search_buffer_hash_same _ _ _ d b s Hs);
          reflexivity|].
  intros Hall Hok. destruct (Hflush Hall Hok) as (-> & E2 & E3).
  split; [|auto]. destruct Hwf' as [Hseg _].
  apply (seg_first _ _ _ _ _ _ Hseg).
Qed.

(** * The dirty list under [bwrite] *)

(** An entry that is on no list and carries no dirty link becomes the head
    of a well-formed dirty list. *)
Lemma dirty_wf_insert (v : nat) (k : kernel) (l : list nat) :
  dirty_wf k l -> (v < Buffer.NR_BUFFERS k)%nat -> ~ In v l ->
  Buf.prev_dirty (Buffer.buf k v) = None ->
  Buf.next_dirty (Buffer.buf k v) = None ->
  dirty_wf (Buffer.insert_on_dirty_list v k) (v :: l)
  /\ dirty (kstat (Buffer.insert_on_dirty_list v k))
     = dirty (kstat k) + PAGE_SIZE / 1024.
Proof.
  intros (Hseg & Hnd & Hr) Hv Hnin Hp Hn.
  unfold Buffer.insert_on_dirty_list. rewrite Hp, Hn. cbn [is_null negb orb].
  pose proof (seg_first _ _ _ _ _ _ Hseg) as Eh.
  destruct l as [|h l].
  - rewrite Eh. split; [|reflexivity]. split; [|split].
    + cbn [seg]. rewrite !buf_add_dirty, !buf_set_dhead, Hp, Hn. auto.
    + apply NoDup_singleton.
    + intros n [<-|[]]. exact Hv.
  - rewrite Eh.
    change (buffer_dirty_head (Buffer.upd v (Buf.set_next_dirty (Some h)) k))
      with (buffer_dirty_head k).
    rewrite Eh. cbn [Buffer.wr]. split; [|reflexivity].
    assert (Hh : (h < Buffer.NR_BUFFERS k)%nat) by (apply Hr; left; auto).
    assert (Hvh : v <> h) by (intros ->; apply Hnin; left; auto).
    destruct Hseg as (_ & Hph & Hseg).
    apply NoDup_cons in Hnd as Hnd'. destruct Hnd' as [Hhl Hnd'].
    rewrite list_elem_of_In in Hhl.
    split; [|split].
    + assert (Hh' : (h < Buffer.NR_BUFFERS
                           (Buffer.upd v (Buf.set_next_dirty (Some h)) k))%nat)
        by (rewrite NR_BUFFERS_upd; exact Hh).
      cbn [seg]. rewrite !buf_add_dirty, !buf_set_dhead.
      rewrite (buf_upd_ne h _ _ v) by congruence.
      rewrite (buf_upd_eq v) by exact Hv.
      rewrite (buf_upd_eq h) by exact Hh'.
      rewrite (buf_upd_ne v _ _ h) by exact Hvh.
      destruct (Buffer.buf k v) eqn:Ev, (Buffer.buf k h) eqn:Eb.
      simpl in Hp, Hseg |- *. split; [reflexivity|]. split; [exact Hp|].
      split; [reflexivity|]. split; [reflexivity|].
      eapply seg_ext; [|exact Hseg]. intros n Hin. cbv beta.
      rewrite !buf_add_dirty, !buf_set_dhead.
      rewrite (buf_upd_ne h _ _ n) by (intros ->; contradiction).
      rewrite (buf_upd_ne v _ _ n)
        by (intros ->; apply Hnin; right; exact Hin).
      auto.
    + apply NoDup_cons. split; [rewrite list_elem_of_In; exact Hnin|exact Hnd].
    + intros n Hin.
      change (n < Buffer.NR_BUFFERS
                    (Buffer.upd h (Buf.set_prev_dirty (Some v))
                       (Buffer.upd v (Buf.set_next_dirty (Some h)) k)))%nat.
      rewrite !NR_BUFFERS_upd. destruct Hin as [<-|Hin]; [exact Hv|].
      apply Hr, Hin.
Qed.

Lemma flag_set_flag_bit (n : nat) (b c j : Z) (k : kernel) :
  c = 2 ^ j -> 0 <= j -> Z.testbit b j = true ->
  (n < Buffer.NR_BUFFERS k)%nat ->
  Buffer.flag (Buffer.set_flag n b k) n c = true.
Proof.
  intros -> Hj Hb Hn. unfold Buffer.flag, Buffer.set_flag.
  rewrite buf_upd_eq by assumption. simpl.
  rewrite tst_bis_pow2, Hb by lia. apply orb_true_r.
Qed.

(** X13.  [bwrite] is a delayed write.  Called on a buffer that is not yet
    on the (well-formed) dirty list, it calls no driver: it marks the
    buffer [DIRTY] and [VALID], unlocks it, makes it the new head of the
    dirty list and counts it in [kstat.dirty].  The block goes to the
    device with the next [sync_buffers] that looks at the buffer and
    returns: that pass calls [write_block] with the buffer's key and the
    bytes its frame holds. *)
Theorem X13_bwrite_is_delayed (v : nat) (k : kernel) (l : list nat) :
  dirty_wf k l -> (v < Buffer.NR_BUFFERS k)%nat -> ~ In v l ->
  Buf.prev_dirty (Buffer.buf k v) = None ->
  Buf.next_dirty (Buffer.buf k v) = None ->
  dirty_wf (Buffer.bwrite v k) (v :: l)
  /\ io (Buffer.bwrite v k) = io k
  /\ Buffer.flag (Buffer.bwrite v k) v BUFFER_DIRTY = true
  /\ Buffer.flag (Buffer.bwrite v k) v BUFFER_VALID = true
  /\ Buffer.flag (Buffer.bwrite v k) v BUFFER_LOCKED = false
  /\ dirty (kstat (Buffer.bwrite v k)) = dirty (kstat k) + PAGE_SIZE / 1024
  /\ forall fuel dev k3 w,
       Buffer.sync_buffers fuel dev (Buffer.bwrite v k) = Some k3 ->
       concerns dev k v = true -> writer k v = Some w ->
       exists ret,
         In (write_block_call (Buf.dev (Buffer.buf k v))
               (Buf.block (Buffer.buf k v))
               (Buffer.contents k (Buf.data (Buffer.buf k v))
                  (Buf.size (Buffer.buf k v)))
               (Buf.size (Buffer.buf k v)) ret)
            (calls_since (Buffer.bwrite v k) k3).
Proof.
  intros Hwf Hv Hnin Hp Hn.
  pose proof (bwrite_same v k) as Hs.
  unfold Buffer.bwrite in *. cbv zeta in *.
  set (k1 := Buffer.set_flag v (Z.lor BUFFER_DIRTY BUFFER_VALID) k) in *.
  assert (Hs1 : same (m_bits (Z.lor BUFFER_DIRTY BUFFER_VALID)) k k1)
    by (apply same_set_flag; reflexivity).
  assert (Hv1 : (v < Buffer.NR_BUFFERS k1)%nat)
    by (unfold k1; rewrite NR_BUFFERS_set_flag; exact Hv).
  assert (Hd1 : Buffer.flag k1 v BUFFER_DIRTY = true)
    by (apply (flag_set_flag_bit v _ _ 2); [reflexivity|lia|reflexivity|exact Hv]).
  assert (Hval1 : Buffer.flag k1 v BUFFER_VALID = true)
    by (apply (flag_set_flag_bit v _ _ 0); [reflexivity|lia|reflexivity|exact Hv]).
  destruct (same_dirty _ _ _ v Hs1 eq_refl) as [Ep En].
  destruct (dirty_wf_insert v k1 l) as [Hwf2 Hcount];
    [apply dirty_wf_set_flag, Hwf|exact Hv1|exact Hnin|congruence..|].
  unfold Buffer.brelse in *. rewrite Hd1 in *. cbv zeta in *.
  set (k2 := Buffer.insert_on_dirty_list v k1) in *.
  assert (Hs2 : same m_take k2
                  (Buffer.clear_flag v BUFFER_LOCKED
                     (Buffer.insert_on_free_list v k2))).
  { apply (same_trans _ _ (Buffer.insert_on_free_list v k2)).
    - apply (same_mono m_freelist); [reflexivity|].
      apply insert_on_free_list_same.
    - apply same_clear_flag. reflexivity. }
  set (k' := Buffer.clear_flag v BUFFER_LOCKED
               (Buffer.insert_on_free_list v k2)) in *.
  assert (Hs12 : same m_dirtyins k1 k2) by apply insert_on_dirty_list_same.
  assert (Hwf' : dirty_wf k' (v :: l))
    by exact (dirty_wf_same _ _ _ _ Hs2 eq_refl eq_refl Hwf2).
  split; [exact Hwf'|].
  split; [apply (same_io _ _ _ Hs); reflexivity|].
  split.
  { rewrite (same_flag _ _ _ v BUFFER_DIRTY Hs2 eq_refl).
    rewrite (same_flag _ _ _ v BUFFER_DIRTY Hs12 eq_refl). exact Hd1. }
  split.
  { rewrite (same_flag _ _ _ v BUFFER_VALID Hs2 eq_refl).
    rewrite (same_flag _ _ _ v BUFFER_VALID Hs12 eq_refl). exact Hval1. }
  split.
  { apply (flag_clear_flag_eq v BUFFER_LOCKED 1); [reflexivity|lia|].
    rewrite (same_NR_BUFFERS _ _ _ (insert_on_free_list_same v k2)).
    rewrite (same_NR_BUFFERS _ _ _ Hs12). exact Hv1. }
  split.
  { rewrite (same_kstat _ _ _ Hs2 eq_refl). rewrite Hcount.
    rewrite (same_kstat _ _ _ Hs1 eq_refl). reflexivity. }
  intros fuel dev k3 w Hrun Hc Hw.
  destruct (sync_buffers_writes fuel dev k' k3 v w (v :: l)) as [ret Hin].
  - left. split; [exact Hwf'|left; reflexivity].
  - exact Hrun.
  - rewrite (concerns_same _ _ _ dev v Hs eq_refl). exact Hc.
  - rewrite (writer_same _ _ _ v Hs eq_refl). exact Hw.
  - exists ret. unfold Buffer.contents in *.
    destruct (same_key _ _ _ v Hs eq_refl) as (Ed & Eb & Es).
    rewrite Ed, Eb, Es, (same_data _ _ _ v Hs eq_refl),
      (same_frames _ _ _ Hs eq_refl) in Hin. exact Hin.
Qed.

(** X14.  Writing a buffer that is already on the dirty list, among at
    least one other entry, queues nothing twice: [bwrite] leaves the dirty
    list, its head and [kstat.dirty] as they were, and calls no driver. *)
Theorem X14_bwrite_of_a_queued_buffer (v : nat) (k : kernel) (l : list nat) :
  dirty_wf k l -> In v l -> (2 <= length l)%nat ->
  dirty_wf (Buffer.bwrite v k) l
  /\ buffer_dirty_head (Buffer.bwrite v k) = buffer_dirty_head k
  /\ dirty (kstat (Buffer.bwrite v k)) = dirty (kstat k)
  /\ io (Buffer.bwrite v k) = io k.
Proof.
  intros Hwf Hin Hlen.
  assert (Hlink : Buf.prev_dirty (Buffer.buf k v) <> None
                  \/ Buf.next_dirty (Buffer.buf k v) <> None).
  { apply in_split in Hin as (l1 & l2 & ->). destruct Hwf as (Hseg & _).
    destruct (seg_middle _ _ _ _ _ _ Hseg) as (Ep & En & _).
    cbv beta in Ep, En. rewrite Ep, En.
    destruct (last_of_cases None l1) as [[-> _]|(y & -> & _)];
      [|left; discriminate].
    destruct l2; [simpl in Hlen; lia|right; discriminate]. }
  unfold Buffer.bwrite. cbv zeta.
  set (k1 := Buffer.set_flag v (Z.lor BUFFER_DIRTY BUFFER_VALID) k).
  assert (Hs1 : same (m_bits (Z.lor BUFFER_DIRTY BUFFER_VALID)) k k1)
    by (apply same_set_flag; reflexivity).
  destruct (same_dirty _ _ _ v Hs1 eq_refl) as [Ep En].
  assert (Ei : Buffer.insert_on_dirty_list v k1 = k1).
  { unfold Buffer.insert_on_dirty_list. rewrite Ep, En.
    destruct (Buf.prev_dirty (Buffer.buf k v)),
      (Buf.next_dirty (Buffer.buf k v)); try reflexivity.
    destruct Hlink; congruence. }
  assert (Hs2 : same m_take k1 (Buffer.brelse v k1)).
  { unfold Buffer.brelse. rewrite Ei.
    destruct (Buffer.flag k1 v BUFFER_DIRTY); cbv zeta;
      (apply (same_trans _ _ (Buffer.insert_on_free_list v k1));
       [apply (same_mono m_freelist); [reflexivity|];
        apply insert_on_free_list_same
       |apply same_clear_flag; reflexivity]). }
  split.
  { apply (dirty_wf_same _ _ _ _ Hs2 eq_refl eq_refl).
    apply dirty_wf_set_flag, Hwf. }
  split.
  { rewrite (same_dhead _ _ _ Hs2 eq_refl).
    apply (same_dhead _ _ _ Hs1 eq_refl). }
  split.
  { rewrite (same_kstat _ _ _ Hs2 eq_refl).
    rewrite (same_kstat _ _ _ Hs1 eq_refl). reflexivity. }
  rewrite (same_io _ _ _ Hs2 eq_refl). apply (same_io _ _ _ Hs1 eq_refl).
Qed.

(** * More about the page cache *)

(** ** The sizes of the page tables *)

Lemma psize_refl (k : kernel) : psize k k.
Proof. split; reflexivity. Qed.

Lemma psize_trans (k1 k2 k3 : kernel) :
  psize k1 k2 -> psize k2 k3 -> psize k1 k3.
Proof. intros [A B] [C D]. split; congruence. Qed.

Lemma psize_of_same (μ : mask) (k k' : kernel) :
  same μ k k' -> m_pages μ = false -> psize k k'.
Proof.
  intros Hs Hm. destruct (same_pages _ _ _ Hs Hm) as (E1 & _ & E2).
  unfold psize. rewrite E1, E2. auto.
Qed.

Lemma psize_upd (n : nat) (f : Pg.t -> Pg.t) (k : kernel) :
  psize k (Page.upd n f k).
Proof. split; [apply length_alter|reflexivity]. Qed.

Lemma psize_wr (p : ptr) (f : Pg.t -> Pg.t) (k : kernel) :
  psize k (Page.wr p f k).
Proof. destruct p; [apply psize_upd|apply psize_refl]. Qed.

Lemma psize_set_bucket (i : nat) (v : ptr) (k : kernel) :
  psize k (Page.set_bucket i v k).
Proof. split; [reflexivity|apply length_insert]. Qed.

Lemma psize_let (k e : kernel) (b : kernel -> kernel) :
  psize k e -> (forall x, psize x (b x)) -> psize k (let x := e in b x).
Proof. intros He Hb. exact (psize_trans _ _ _ He (Hb e)). Qed.

Lemma opsize_ret {A : Type} `{HasState A} (k : kernel) (a : A) :
  psize k (st a) -> opsize k (Some a).
Proof. intros Hs a' [= <-]. exact Hs. Qed.

Lemma opsize_none {A : Type} `{HasState A} (k : kernel) :
  opsize k (@None A).
Proof. intros a [=]. Qed.

Lemma opsize_bind {A B : Type} `{HasState A} `{HasState B}
    (k : kernel) (e : option A) (b : A -> option B) :
  opsize k e -> (forall a, opsize (st a) (b a)) -> opsize k (e ≫= b).
Proof.
  intros He Hb r Hr. destruct e as [a|]; simpl in Hr; [|discriminate].
  eapply psize_trans; [apply He; reflexivity|]. eapply Hb, Hr.
Qed.

Lemma opsize_let {B : Type} `{HasState B} (k e : kernel)
    (b : kernel -> option B) :
  psize k e -> (forall x, opsize x (b x)) -> opsize k (let x := e in b x).
Proof.
  intros He Hb r Hr. eapply psize_trans; [exact He|]. eapply Hb, Hr.
Qed.

Lemma opsize_of_osame {A : Type} `{HasState A} (μ : mask) (k : kernel)
    (o : option A) :
  osame μ k o -> m_pages μ = false -> opsize k o.
Proof. intros Ho Hm a Ha. exact (psize_of_same _ _ _ (Ho a Ha) Hm). Qed.

Create HintDb psize discriminated.

Ltac psize_prim :=
  first
    [ apply psize_refl
    | apply psize_upd | apply psize_wr | apply psize_set_bucket
    | solve [split; reflexivity]
    | solve [eauto with psize]
    | apply (psize_of_same m_buffers); [frame_prim|reflexivity] ].

Ltac psize_steps :=
  lazymatch goal with
  | |- psize ?k (let x := ?e in @?b x) =>
      lazymatch type of e with
      | kernel =>
          apply (psize_let k e b);
          [ psize_steps | intros ?; cbv beta; psize_steps ]
      | _ => change (psize k (b e)); cbv beta; psize_steps
      end
  | |- psize _ (if ?c then _ else _) => destruct c; psize_steps
  | |- psize _ (match ?c with _ => _ end) => destruct c; psize_steps
  | |- _ => psize_prim
  end.

Ltac opsize_steps :=
  lazymatch goal with
  | |- opsize ?k (mbind ?b ?e) =>
      apply (opsize_bind k e b);
      [ opsize_steps
      | let a := fresh "a" in
        intros a; try destruct a as [? ?];
        cbv beta iota delta [st kernel_state pair_state snd]; opsize_steps ]
  | |- opsize ?k (let x := ?e in @?b x) =>
      lazymatch type of e with
      | kernel =>
          apply (opsize_let k e b);
          [ psize_steps | intros ?; cbv beta; opsize_steps ]
      | _ => change (opsize k (b e)); cbv beta; opsize_steps
      end
  | |- opsize _ (if ?c then _ else _) => destruct c; opsize_steps
  | |- opsize _ (match ?c with _ => _ end) => destruct c; opsize_steps
  | |- opsize _ (Some _) =>
      apply opsize_ret; cbv beta iota delta [st kernel_state pair_state snd];
      psize_steps
  | |- opsize _ None => apply opsize_none
  | |- _ =>
      first [ solve [eauto with psize]
            | eapply (opsize_of_osame m_buffers);
              [ eapply osame_mono; cycle 1;
                [ solve [eauto with frames] | reflexivity ]
              | reflexivity ] ]
  end.

Lemma psize_remove_from_free_list (n : nat) (k : kernel) :
  psize k (Page.remove_from_free_list n k).
Proof. cbv beta delta [Page.remove_from_free_list]. psize_steps. Qed.

Lemma psize_insert_on_free_list (n : nat) (k : kernel) :
  psize k (Page.insert_on_free_list n k).
Proof. cbv beta delta [Page.insert_on_free_list]. psize_steps. Qed.

Lemma psize_insert_to_hash (n : nat) (k : kernel) :
  psize k (Page.insert_to_hash n k).
Proof. cbv beta delta [Page.insert_to_hash]. psize_steps. Qed.

Lemma psize_unlink (h : Page.hloc) (k : kernel) :
  psize k (Page.unlink h k).
Proof.
  cbv beta delta [Page.unlink Page.assign].
  destruct h; cbv beta iota delta [Page.is_bucket]; psize_steps.
Qed.

#[export] Hint Resolve psize_remove_from_free_list psize_insert_on_free_list
  psize_insert_to_hash psize_unlink : psize.

Lemma opsize_remove_loop (fuel n : nat) (h : Page.hloc) (k : kernel) :
  opsize k (Page.remove_loop fuel n h k).
Proof.
  revert h. induction fuel as [|fuel IH]; intros h; [apply opsize_none|].
  cbv beta iota delta [Page.remove_loop]. fold Page.remove_loop.
  destruct (Page.deref k h) as [m|]; [|apply opsize_ret, psize_refl].
  destruct (Nat.eqb m n); [apply opsize_ret, psize_unlink|apply IH].
Qed.

Lemma opsize_remove_from_hash (n : nat) (k : kernel) :
  opsize k (Page.remove_from_hash n k).
Proof.
  cbv beta delta [Page.remove_from_hash].
  destruct (_ =? 0); [apply opsize_ret, psize_refl|apply opsize_remove_loop].
Qed.

#[export] Hint Resolve opsize_remove_from_hash : psize.

Lemma opsize_get_free_page (k : kernel) : opsize k (Page.get_free_page k).
Proof. cbv beta delta [Page.get_free_page]. opsize_steps. Qed.

Lemma opsize_release_page (page : Z) (k : kernel) :
  opsize k (Page.release_page page k).
Proof. cbv beta delta [Page.release_page]. opsize_steps. Qed.

#[export] Hint Resolve opsize_get_free_page opsize_release_page : psize.

Lemma opsize_kmalloc (k : kernel) : opsize k (kmalloc k).
Proof. cbv beta delta [kmalloc]. opsize_steps. Qed.

Lemma opsize_kfree (addr : nat) (k : kernel) : opsize k (kfree addr k).
Proof.
  intros k' Hk'. unfold kfree in Hk'.
  apply (psize_trans _ (set_io (io k ++ [kfree_call addr]) k));
    [split; reflexivity|]. exact (opsize_release_page _ _ _ Hk').
Qed.

#[export] Hint Resolve opsize_kmalloc opsize_kfree : psize.

Lemma opsize_getblk (d b s : Z) (k : kernel) :
  opsize k (Buffer.getblk d b s k).
Proof.
  cbv beta delta [Buffer.getblk].
  destruct (Buffer.search_buffer_hash d b s k) as [[n|]|];
    [| |apply opsize_none];
    lazymatch goal with
    | |- opsize _ (mbind ?f (Some ?x)) =>
        change (opsize k (f x)); cbv beta iota
    end; opsize_steps.
Qed.

#[export] Hint Resolve opsize_getblk : psize.

Lemma opsize_bread (d b s : Z) (k : kernel) :
  opsize k (Buffer.bread d b s k).
Proof.
  cbv beta delta [Buffer.bread].
  destruct (blk_devices k d) as [dv|]; [|apply opsize_ret, psize_refl].
  apply (opsize_bind k); [apply opsize_getblk|].
  intros [[n|] kg]; cbv beta iota delta [st pair_state snd];
    [|apply opsize_ret, psize_refl].
  opsize_steps.
Qed.

#[export] Hint Resolve opsize_bread : psize.

Lemma opsize_bread_page_loop (n : nat) (i : inode_t) (offset : Z)
    (fuel : nat) :
  forall (size_read : Z) (k : kernel),
    opsize k (bread_page_loop fuel n i offset size_read k).
Proof.
  induction fuel as [|fuel IH]; intros size_read k; [apply opsize_none|].
  cbv beta iota delta [bread_page_loop]. fold bread_page_loop.
  opsize_steps.
Qed.

(** ** Insertion into the page hash table *)

Lemma PAGE_HASH_lt (k : kernel) (ino off : Z) :
  (0 < length (page_hash_table k))%nat ->
  (Page.PAGE_HASH k ino off < length (page_hash_table k))%nat.
Proof.
  intros H. unfold Page.PAGE_HASH, Page.NR_PAGE_HASH.
  pose proof (Z.mod_pos_bound (Z.lxor ino off)
                (Z.of_nat (length (page_hash_table k))) ltac:(lia)).
  lia.
Qed.

Lemma Page_bucket_wr (p : ptr) (f : Pg.t -> Pg.t) (k : kernel) (i : nat) :
  Page.bucket (Page.wr p f k) i = Page.bucket k i.
Proof. destruct p; reflexivity. Qed.

Lemma Page_hash_table_wr (p : ptr) (f : Pg.t -> Pg.t) (k : kernel) :
  page_hash_table (Page.wr p f k) = page_hash_table k.
Proof. destruct p; reflexivity. Qed.

Lemma Page_bucket_set_bucket (i : nat) (v : ptr) (k : kernel) :
  (i < length (page_hash_table k))%nat ->
  Page.bucket (Page.set_bucket i v k) i = v.
Proof.
  intros Hi. unfold Page.bucket, Page.set_bucket. simpl.
  rewrite list_lookup_total_insert, decide_True; auto.
Qed.

Lemma pg_set_bucket (i : nat) (v : ptr) (k : kernel) (m : nat) :
  Page.pg (Page.set_bucket i v k) m = Page.pg k m.
Proof. reflexivity. Qed.

Lemma pg_add_cached (d : Z) (k : kernel) (m : nat) :
  Page.pg (Page.add_cached d k) m = Page.pg k m.
Proof. reflexivity. Qed.

(** [insert_to_hash] puts the page at the head of the chain of its key and
    leaves its key and its reference count alone. *)
Lemma Page_insert_to_hash_head (n : nat) (k : kernel) :
  (0 < length (page_hash_table k))%nat ->
  Page.bucket (Page.insert_to_hash n k)
    (Page.PAGE_HASH k (Pg.inode (Page.pg k n)) (Pg.offset (Page.pg k n)))
  = Some n
  /\ Pg.inode (Page.pg (Page.insert_to_hash n k) n) = Pg.inode (Page.pg k n)
  /\ Pg.offset (Page.pg (Page.insert_to_hash n k) n)
     = Pg.offset (Page.pg k n)
  /\ Pg.dev (Page.pg (Page.insert_to_hash n k) n) = Pg.dev (Page.pg k n)
  /\ Pg.count (Page.pg (Page.insert_to_hash n k) n)
     = Pg.count (Page.pg k n).
Proof.
  intros Hh. unfold Page.insert_to_hash.
  set (i := Page.PAGE_HASH k _ _).
  assert (Hi : (i < length (page_hash_table k))%nat)
    by (apply PAGE_HASH_lt, Hh).
  cbv zeta. destruct (Page.bucket k i) as [h|] eqn:Eb.
  - split.
    + change (Page.bucket (Page.add_cached ?d ?x) i) with (Page.bucket x i).
      apply Page_bucket_set_bucket.
      rewrite !Page_hash_table_wr. exact Hi.
    + rewrite !pg_add_cached, !pg_set_bucket.
      repeat split;
        repeat first
          [ rewrite (pg_proj_wr Pg.inode) by (intros []; reflexivity)
          | rewrite (pg_proj_upd Pg.inode) by (intros []; reflexivity)
          | rewrite (pg_proj_wr Pg.offset) by (intros []; reflexivity)
          | rewrite (pg_proj_upd Pg.offset) by (intros []; reflexivity)
          | rewrite (pg_proj_wr Pg.dev) by (intros []; reflexivity)
          | rewrite (pg_proj_upd Pg.dev) by (intros []; reflexivity)
          | rewrite (pg_proj_wr Pg.count) by (intros []; reflexivity)
          | rewrite (pg_proj_upd Pg.count) by (intros []; reflexivity) ];
        reflexivity.
  - split.
    + change (Page.bucket (Page.add_cached ?d ?x) i) with (Page.bucket x i).
      rewrite !Page_bucket_wr. apply Page_bucket_set_bucket, Hi.
    + rewrite !pg_add_cached.
      repeat split;
        repeat first
          [ rewrite (pg_proj_wr Pg.inode) by (intros []; reflexivity)
          | rewrite (pg_proj_wr Pg.offset) by (intros []; reflexivity)
          | rewrite (pg_proj_wr Pg.dev) by (intros []; reflexivity)
          | rewrite (pg_proj_wr Pg.count) by (intros []; reflexivity) ];
        rewrite pg_set_bucket; reflexivity.
Qed.

(** X15.  A page that [bread_page] has filled for a read-only or shared
    mapping is in the page cache: when [bread_page] returns 0 for such a
    mapping, [search_page_hash] finds the page under the inode and the
    offset it was filled for. *)
Theorem X15_bread_page_then_lookup (n : nat) (i : inode_t)
    (offset prot flags : Z) (k k' : kernel) :
  (n < length (page_table k))%nat ->
  (0 < length (page_hash_table k))%nat ->
  negb (tst prot PROT_WRITE) || tst flags MAP_SHARED = true ->
  bread_page n i offset prot flags k = Some (0, k') ->
  exists ks, Page.search_page_hash i offset k' = Some (Some n, ks).
Proof.
  intros Hn Hh Hc Hrun. unfold bread_page in Hrun.
  pose proof (opsize_bread_page_loop n i offset (S (Z.to_nat PAGE_SIZE)) 0 k)
    as Hsz.
  destruct (bread_page_loop _ n i offset 0 k) as [[[[]|] kb]|];
    cbn [mbind option_bind] in Hrun; [|discriminate..].
  destruct (Hsz _ eq_refl) as [Ht Eh].
  cbv beta iota delta [st pair_state snd] in Ht, Eh.
  rewrite Hc in Hrun. cbv zeta in Hrun. injection Hrun as <-.
  set (ku := Page.upd n (Pg.set_key (inode i) offset (dev i)) kb).
  assert (Eu : Page.pg ku n
               = Pg.set_key (inode i) offset (dev i) (Page.pg kb n)).
  { unfold ku. rewrite pg_upd, decide_True; [reflexivity|].
    split; [reflexivity|]. rewrite Ht. exact Hn. }
  assert (Hhu : (0 < length (page_hash_table ku))%nat)
    by (unfold ku; simpl; rewrite Eh; exact Hh).
  destruct (Page_insert_to_hash_head n ku Hhu) as (Eb & Ei & Eo & Ed & _).
  rewrite Eu in Eb, Ei, Eo, Ed. simpl in Eb, Ei, Eo, Ed.
  destruct (psize_insert_to_hash n ku) as [Ht' Eh'].
  unfold Page.search_page_hash, Page.chain_fuel.
  replace (Page.PAGE_HASH (Page.insert_to_hash n ku) (inode i) offset)
    with (Page.PAGE_HASH ku (inode i) offset)
    by (unfold Page.PAGE_HASH, Page.NR_PAGE_HASH; rewrite Eh'; reflexivity).
  rewrite Eb, Nat.add_comm. cbn [Nat.add Page.search_loop].
  rewrite Ei, Eo, Ed, !Z.eqb_refl. cbn [andb]. eauto.
Qed.

(** ** The free list of pages *)

Lemma Page_insert_on_free_list_tail (n h : nat) (k : kernel) :
  page_head k = Some h -> (h < length (page_table k))%nat ->
  Pg.prev_free (Page.pg (Page.insert_on_free_list n k) h) = Some n.
Proof.
  intros Hh Hlt. unfold Page.insert_on_free_list. cbv zeta.
  rewrite pg_add_free_pages. rewrite Hh.
  repeat match goal with
  | |- context [page_head (Page.wr ?p ?f ?x)] =>
      rewrite (page_head_wr p f x)
  | |- context [page_head (Page.upd ?a ?f ?x)] =>
      change (page_head (Page.upd a f x)) with (page_head x)
  end.
  rewrite Hh. cbn [Page.wr Page.rd].
  rewrite pg_upd, decide_True; [reflexivity|].
  split; [reflexivity|].
  lazymatch goal with
  | |- (h < length (page_table
                      (Page.wr ?p ?f (Page.upd ?a ?g (Page.upd ?b ?g' k)))))%nat =>
      rewrite (proj1 (psize_wr p f _)), (proj1 (psize_upd a g _)),
        (proj1 (psize_upd b g' _))
  end.
  exact Hlt.
Qed.


Lemma count_insert_on_free_list (n : nat) (k : kernel) (m : nat) :
  Pg.count (Page.pg (Page.insert_on_free_list n k) m)
  = Pg.count (Page.pg k m).
Proof.
  unfold Page.insert_on_free_list. cbv zeta. rewrite pg_add_free_pages.
  destruct (page_head k);
    repeat first
      [ rewrite pg_set_page_head
      | rewrite (pg_proj_wr Pg.count) by (intros []; reflexivity)
      | rewrite (pg_proj_upd Pg.count) by (intros []; reflexivity) ];
    reflexivity.
Qed.

(** X16.  The replacement order of [release_page].  Dropping the last
    reference to a page puts it on the free list and counts it in
    [kstat.free_pages].  A page that is not cached (its inode number is 0)
    becomes the head of the list: it is the page the next [get_free_page]
    hands out.  A cached page leaves the head where it was and becomes the
    tail, so it is the last to be recycled. *)
Theorem X16_release_page_order (n : nat) (k : kernel) :
  (n < length (page_table k))%nat ->
  Pg.count (Page.pg k n) = 1 ->
  0 <= free_pages (kstat k) ->
  exists k',
    Page.release_page (Z.of_nat n) k = Some k'
    /\ Pg.count (Page.pg k' n) = 0
    /\ free_pages (kstat k') = free_pages (kstat k) + 1
    /\ (Pg.inode (Page.pg k n) = 0 ->
        page_head k' = Some n
        /\ exists k2, Page.get_free_page k' = Some (Some n, k2))
    /\ (Pg.inode (Page.pg k n) <> 0 ->
        forall h, page_head k = Some h -> (h < length (page_table k))%nat ->
                  page_head k' = Some h
                  /\ Pg.prev_free (Page.pg k' h) = Some n).
Proof.
  intros Hn Hc Hfree. unfold Page.release_page.
  assert (Hv : Page.is_valid_page k (Z.of_nat n) = true).
  { unfold Page.is_valid_page, Page.NR_PAGES.
    apply andb_true_iff. split; [apply Z.leb_le|apply Z.ltb_lt]; lia. }
  rewrite Hv, Nat2Z.id, Hc. cbn [negb Z.eqb]. cbv zeta.
  set (ku := Page.upd n (fun x => Pg.set_count (Pg.count x - 1) x) k).
  assert (Eu : Page.pg ku n = Pg.set_count 0 (Page.pg k n)).
  { unfold ku. rewrite pg_upd, decide_True by auto. rewrite Hc. reflexivity. }
  rewrite Eu. cbn [Pg.count Pg.set_count Z.ltb Z.compare].
  set (k2 := Page.insert_on_free_list n ku).
  assert (Ei : Pg.inode (Page.pg k2 n) = Pg.inode (Page.pg k n))
    by (unfold k2; rewrite inode_insert_on_free_list, Eu; reflexivity).
  assert (Ec : Pg.count (Page.pg k2 n) = 0)
    by (unfold k2; rewrite count_insert_on_free_list, Eu; reflexivity).
  assert (Ef : free_pages (kstat k2) = free_pages (kstat k) + 1)
    by (unfold k2; rewrite free_pages_insert_on_free_list; reflexivity).
  rewrite Ei. destruct (Z.eqb_spec (Pg.inode (Page.pg k n)) 0) as [E0|E0].
  - exists (set_page_head (Some n) k2).
    split; [reflexivity|]. split; [exact Ec|]. split; [exact Ef|].
    split; [|intros; contradiction]. intros _. split; [reflexivity|].
    unfold Page.get_free_page.
    change (free_pages (kstat (set_page_head (Some n) k2)))
      with (free_pages (kstat k2)).
    rewrite Ef. destruct (Z.eqb_spec (free_pages (kstat k) + 1) 0); [lia|].
    cbn [page_head set_page_head]. cbv zeta.
    set (k3 := Page.remove_from_free_list n (set_page_head (Some n) k2)).
    assert (E3 : Pg.inode (Page.pg k3 n) = 0).
    { destruct (pindex_remove_from_free_list n (set_page_head (Some n) k2))
        as (_ & _ & Hp).
      destruct (perase_fields _ _ (Hp n)) as (_ & _ & Ex & _).
      unfold k3. rewrite Ex, pg_set_page_head, Ei. exact E0. }
    unfold Page.remove_from_hash. rewrite E3. cbn [Z.eqb mbind option_bind].
    eauto.
  - exists k2. split; [reflexivity|]. split; [exact Ec|]. split; [exact Ef|].
    split; [intros; contradiction|]. intros _ h Hh Hlt. unfold k2. split.
    + rewrite page_head_insert_on_free_list.
      change (page_head ku) with (page_head k). rewrite Hh. reflexivity.
    + apply Page_insert_on_free_list_tail; [exact Hh|].
      unfold ku. rewrite (proj1 (psize_upd _ _ _)). exact Hlt.
Qed.

(** ** Lookups in the page cache *)

(** The page a search finds has the key that was asked for. *)
Lemma Page_search_loop_match (i : inode_t) (offset : Z) (k ks : kernel) (n : nat) :
  forall fuel p,
    Page.search_loop fuel i offset p k = Some (Some n, ks) ->
    Pg.inode (Page.pg k n) = inode i /\ Pg.offset (Page.pg k n) = offset
    /\ Pg.dev (Page.pg k n) = dev i.
Proof.
  induction fuel as [|fuel IH]; intros p; simpl; [discriminate|].
  destruct p as [a|]; [|discriminate].
  destruct (_ && _) eqn:E; [|apply IH].
  intros [= <- _]. rewrite !andb_true_iff, !Z.eqb_eq in E. tauto.
Qed.

(** A search that finds nothing changes nothing. *)
Lemma Page_search_loop_miss (i : inode_t) (offset : Z) (k ks : kernel) :
  forall fuel p,
    Page.search_loop fuel i offset p k = Some (None, ks) -> ks = k.
Proof.
  induction fuel as [|fuel IH]; intros p; simpl; [discriminate|].
  destruct p as [a|]; [|intros [= <-]; reflexivity].
  destruct (_ && _); [discriminate|apply IH].
Qed.

Lemma free_pages_remove_from_free_list (n : nat) (k : kernel) :
  free_pages (kstat (Page.remove_from_free_list n k))
  = if free_pages (kstat k) =? 0 then 0 else free_pages (kstat k) - 1.
Proof.
  unfold Page.remove_from_free_list.
  destruct (Z.eqb_spec (free_pages (kstat k)) 0) as [E|E]; [exact E|].
  cbv zeta.
  repeat match goal with
  | |- context [if ?c then _ else _] => destruct c
  end;
    repeat first
      [ progress change (free_pages (kstat (set_page_head ?v ?x)))
          with (free_pages (kstat x))
      | progress change (free_pages (kstat (Page.add_free_pages ?d ?x)))
          with (free_pages (kstat x) + d)
      | rewrite free_pages_wr ];
    reflexivity.
Qed.

Lemma count_remove_from_free_list (n : nat) (k : kernel) (m : nat) :
  Pg.count (Page.pg (Page.remove_from_free_list n k) m)
  = Pg.count (Page.pg k m).
Proof.
  unfold Page.remove_from_free_list. cbv zeta.
  repeat match goal with
  | |- context [if ?c then _ else _] => destruct c
  end;
    repeat first
      [ rewrite pg_set_page_head | rewrite pg_add_free_pages
      | rewrite (pg_proj_wr Pg.count) by (intros []; reflexivity)
      | rewrite (pg_proj_upd Pg.count) by (intros []; reflexivity) ];
    reflexivity.
Qed.

(** X17.  A lookup and the release that follows it cancel out.  The page
    that [search_page_hash] finds has the key asked for and one reference
    more than before.  Releasing it gives the reference back: the count and
    [kstat.free_pages] are what they were before the lookup, no page has
    changed its key, its flags or its frame, and every lookup answers as
    before. *)
Theorem X17_lookup_then_release (i : inode_t) (offset : Z) (k k1 : kernel)
    (n : nat) :
  Page.search_page_hash i offset k = Some (Some n, k1) ->
  (n < length (page_table k))%nat ->
  Pg.page (Page.pg k n) = Z.of_nat n ->
  0 <= Pg.count (Page.pg k n) ->
  (Pg.count (Page.pg k n) = 0 -> 0 < free_pages (kstat k)) ->
  (Pg.inode (Page.pg k n) = inode i /\ Pg.offset (Page.pg k n) = offset
   /\ Pg.dev (Page.pg k n) = dev i)
  /\ Pg.count (Page.pg k1 n) = Pg.count (Page.pg k n) + 1
  /\ exists k2,
       Page.release_page (Pg.page (Page.pg k1 n)) k1 = Some k2
       /\ Pg.count (Page.pg k2 n) = Pg.count (Page.pg k n)
       /\ free_pages (kstat k2) = free_pages (kstat k)
       /\ (forall m, Pg.inode (Page.pg k2 m) = Pg.inode (Page.pg k m)
                     /\ Pg.offset (Page.pg k2 m) = Pg.offset (Page.pg k m)
                     /\ Pg.dev (Page.pg k2 m) = Pg.dev (Page.pg k m)
                     /\ Pg.flags (Page.pg k2 m) = Pg.flags (Page.pg k m)
                     /\ Pg.data (Page.pg k2 m) = Pg.data (Page.pg k m))
       /\ (forall i' offset' r ks,
             Page.search_page_hash i' offset' k = Some (r, ks) ->
             exists ks', Page.search_page_hash i' offset' k2
                         = Some (r, ks')).
Proof.
  intros Hrun Hn Hpage Hc Hfp.
  split; [exact (Page_search_loop_match _ _ _ _ _ _ _ Hrun)|].
  apply search_page_hash_hit in Hrun. subst k1.
  pose proof (pindex_hit n k) as Hp1.
  unfold hit in *. cbv zeta in *.
  set (kr := if Pg.count (Page.pg k n) =? 0
             then Page.remove_from_free_list n k else k) in *.
  assert (Hcr : Pg.count (Page.pg kr n) = Pg.count (Page.pg k n)).
  { unfold kr. destruct (_ =? 0); [|reflexivity].
    apply count_remove_from_free_list. }
  assert (Hlr : length (page_table kr) = length (page_table k)).
  { unfold kr. destruct (_ =? 0); [|reflexivity].
    apply (proj1 (psize_remove_from_free_list n k)). }
  set (k1 := Page.upd n (fun x => Pg.set_count (Pg.count x + 1) x) kr) in *.
  assert (E1 : Page.pg k1 n
               = Pg.set_count (Pg.count (Page.pg k n) + 1) (Page.pg kr n)).
  { unfold k1. rewrite pg_upd, decide_True by (split; [reflexivity|lia]).
    rewrite Hcr. reflexivity. }
  assert (Hl1 : length (page_table k1) = length (page_table k))
    by (unfold k1; rewrite (proj1 (psize_upd _ _ _)); exact Hlr).
  split; [rewrite E1; reflexivity|].
  assert (Epg : Pg.page (Page.pg k1 n) = Z.of_nat n).
  { destruct Hp1 as (_ & _ & Hp1).
    destruct (perase_fields _ _ (Hp1 n)) as (-> & _). exact Hpage. }
  rewrite Epg.
  destruct (release_page_total (Z.of_nat n) k1) as [k2 Hrel].
  { unfold Page.is_valid_page, Page.NR_PAGES. rewrite Hl1.
    apply andb_true_iff. split; [apply Z.leb_le|apply Z.ltb_lt]; lia. }
  exists k2. split; [exact Hrel|].
  pose proof (pindex_trans _ _ _ Hp1 (pindex_release_page _ _ _ Hrel)) as Hp.
  assert (Hfr : free_pages (kstat kr)
                = if Pg.count (Page.pg k n) =? 0
                  then free_pages (kstat k) - 1 else free_pages (kstat k)).
  { unfold kr. destruct (Z.eqb_spec (Pg.count (Page.pg k n)) 0) as [E|E];
      [|reflexivity].
    rewrite free_pages_remove_from_free_list.
    destruct (Z.eqb_spec (free_pages (kstat k)) 0); [|reflexivity].
    specialize (Hfp E). lia. }
  assert (Hres : Pg.count (Page.pg k2 n) = Pg.count (Page.pg k n)
                 /\ free_pages (kstat k2) = free_pages (kstat k)).
  { unfold Page.release_page in Hrel.
    destruct (negb _); [discriminate|]. rewrite Nat2Z.id in Hrel.
    rewrite E1 in Hrel. cbn [Pg.count Pg.set_count] in Hrel.
    destruct (Z.eqb_spec (Pg.count (Page.pg k n) + 1) 0); [lia|].
    cbv zeta in Hrel.
    set (ku := Page.upd n (fun x => Pg.set_count (Pg.count x - 1) x) k1) in *.
    assert (Eu : Page.pg ku n
                 = Pg.set_count (Pg.count (Page.pg k n)) (Page.pg k1 n)).
    { unfold ku. rewrite pg_upd, decide_True by (split; [reflexivity|lia]).
      rewrite E1. cbn [Pg.count Pg.set_count]. f_equal. lia. }
    rewrite Eu in Hrel. cbn [Pg.count Pg.set_count] in Hrel.
    destruct (Z.ltb_spec 0 (Pg.count (Page.pg k n))) as [Hpos|Hz].
    - injection Hrel as <-. rewrite Eu. split; [reflexivity|].
      change (free_pages (kstat ku)) with (free_pages (kstat kr)).
      rewrite Hfr. destruct (Z.eqb_spec (Pg.count (Page.pg k n)) 0); [lia|].
      reflexivity.
    - assert (E0 : Pg.count (Page.pg k n) = 0) by lia.
      assert (Ek : forall c : bool,
                 Pg.count (Page.pg
                   (if c then set_page_head (Some n)
                               (Page.insert_on_free_list n ku)
                    else Page.insert_on_free_list n ku) n) = 0
                 /\ free_pages (kstat
                      (if c then set_page_head (Some n)
                                  (Page.insert_on_free_list n ku)
                       else Page.insert_on_free_list n ku))
                    = free_pages (kstat k)).
      { intros c.
        assert (Ec : Pg.count (Page.pg (Page.insert_on_free_list n ku) n) = 0)
          by (rewrite count_insert_on_free_list, Eu; exact E0).
        assert (Ef : free_pages (kstat (Page.insert_on_free_list n ku))
                     = free_pages (kstat k)).
        { rewrite free_pages_insert_on_free_list.
          change (free_pages (kstat ku)) with (free_pages (kstat kr)).
          rewrite Hfr, E0. simpl. lia. }
        destruct c; auto. }
      injection Hrel as <-. rewrite E0. apply Ek. }
  split; [apply Hres|]. split; [apply Hres|]. split.
  - intros m. destruct Hp as (_ & _ & Hp).
    destruct (perase_fields _ _ (Hp m)) as (_ & Ef & Ei & Eo & Ed & Ea & _).
    auto.
  - intros i' offset' r ks. apply search_page_hash_pindex, Hp.
Qed.

(** ** Holes *)

Lemma set_frames_id (k : kernel) : set_frames (frames k) k = k.
Proof. destruct k. reflexivity. Qed.

Lemma insert_alter_frame (g : frame -> frame) (a : nat) (v : frame)
    (l : list frame) :
  <[a := v]> (alter g a l) = <[a := v]> l.
Proof.
  apply list_eq. intros j.
  rewrite !list_lookup_insert, length_alter, list_lookup_alter.
  repeat case_decide; try reflexivity; try (exfalso; intuition congruence).
  subst j. rewrite lookup_ge_None_2; [reflexivity|].
  destruct (decide (a < length l)%nat); [exfalso; auto|lia].
Qed.

(** The loop of [bread_page] over a hole: block by block, the frame of the
    page is filled with zero bytes. *)
Lemma bread_page_loop_hole (n : nat) (i : inode_t) (offset : Z) (a q : nat) :
  0 < s_blocksize i -> Z.of_nat q * s_blocksize i = PAGE_SIZE ->
  (forall x, 0 <= x < PAGE_SIZE -> bmap i (offset + x) false = 0) ->
  forall (r j fuel : nat) (k : kernel) (fc : frame),
    (j + r = q)%nat -> (r < fuel)%nat ->
    Pg.data (Page.pg k n) = Some a ->
    frames k !! a = Some fc -> length fc = Z.to_nat PAGE_SIZE ->
    bread_page_loop fuel n i offset (Z.of_nat j * s_blocksize i) k
    = Some (Some tt,
            set_frames
              (<[a := take (j * Z.to_nat (s_blocksize i)) fc
                      ++ replicate (r * Z.to_nat (s_blocksize i)) Byte.x00]>
                 (frames k)) k).
Proof.
  intros Hbs Hq Hhole.
  set (bs := s_blocksize i) in *. set (bsn := Z.to_nat bs).
  assert (Hpn : Z.to_nat PAGE_SIZE = (q * bsn)%nat) by (unfold bsn; nia).
  induction r as [|r IH]; intros j fuel k fc Hj Hfuel Hdata Hfr Hlen;
    (destruct fuel as [|fuel]; [lia|]);
    cbv beta iota delta [bread_page_loop]; fold bread_page_loop; fold bs.
  - assert (j = q) by lia. subst j. rewrite Hq, Z.ltb_irrefl. cbn [negb].
    rewrite <- Hpn, <- Hlen, take_ge, app_nil_r by lia.
    rewrite list_insert_id by exact Hfr. rewrite set_frames_id. reflexivity.
  - assert (Hsr : 0 <= Z.of_nat j * bs < PAGE_SIZE) by nia.
    destruct (Z.ltb_spec (Z.of_nat j * bs) PAGE_SIZE) as [_|]; [|lia].
    cbn [negb]. cbv zeta. rewrite (Hhole _ Hsr). cbn [Z.ltb Z.eqb Z.compare negb].
    cbn [mbind option_bind]. rewrite Hdata.
    set (zeros := replicate (Z.to_nat bs) Byte.x00).
    set (k1 := Buffer.store (Some a) (Z.to_nat (Z.of_nat j * bs)) zeros
                 (Z.to_nat bs) k).
    set (fc1 := Buffer.memcpy_b fc (Z.to_nat (Z.of_nat j * bs)) zeros
                  (Z.to_nat bs)).
    assert (Esr : Z.to_nat (Z.of_nat j * bs) = (j * bsn)%nat)
      by (unfold bsn; nia).
    assert (Hfr1 : frames k1 !! a = Some fc1).
    { unfold k1, Buffer.store. simpl.
      rewrite list_lookup_alter, decide_True by reflexivity.
      unfold frame in *. rewrite Hfr. reflexivity. }
    assert (Hlen1 : length fc1 = Z.to_nat PAGE_SIZE).
    { unfold fc1. rewrite memcpy_b_length; [exact Hlen| |].
      - rewrite Hlen, Esr, Hpn. fold bsn. nia.
      - unfold zeros. rewrite length_replicate. lia. }
    replace (Z.of_nat j * bs + bs) with (Z.of_nat (S j) * bs) by lia.
    rewrite (IH (S j) fuel k1 fc1) by (try lia; assumption).
    f_equal. f_equal.
    unfold k1, Buffer.store.
    change (set_frames ?x (set_frames ?y k)) with (set_frames x k).
    f_equal. change (frames (set_frames ?y k)) with y.
    rewrite insert_alter_frame. f_equal.
    unfold fc1, Buffer.memcpy_b, zeros. rewrite Esr. fold bsn.
    assert (Hlt : length (take (j * bsn) fc) = (j * bsn)%nat)
      by (rewrite length_take, Hlen, Hpn; nia).
    replace (S j * bsn)%nat with (length (take (j * bsn) fc) + bsn)%nat
      by (rewrite Hlt; lia).
    rewrite take_app_add, take_replicate, Nat.min_id.
    rewrite take_app_length'
      by (rewrite length_replicate; reflexivity).
    rewrite <- app_assoc, <- replicate_add. reflexivity.
Qed.

Lemma Page_insert_to_hash_same (n : nat) (k : kernel) :
  same m_palloc k (Page.insert_to_hash n k).
Proof. cbv beta delta [Page.insert_to_hash]. frame_steps. Qed.

(** X18.  A hole reads as zeros.  For a page of the file that has no block
    at all ([bmap] answers 0 all over it), [bread_page] returns 0 without
    calling a driver: it fills the frame of the page with zero bytes, block
    by block, and leaves every other frame alone. *)
Theorem X18_bread_page_of_a_hole (n : nat) (i : inode_t)
    (offset prot flags : Z) (k : kernel) (a : nat) (fc : frame) :
  0 < s_blocksize i -> PAGE_SIZE mod s_blocksize i = 0 ->
  (forall x, 0 <= x < PAGE_SIZE -> bmap i (offset + x) false = 0) ->
  Pg.data (Page.pg k n) = Some a ->
  frames k !! a = Some fc -> length fc = Z.to_nat PAGE_SIZE ->
  exists k',
    bread_page n i offset prot flags k = Some (0, k')
    /\ frames k' = <[a := replicate (Z.to_nat PAGE_SIZE) Byte.x00]> (frames k)
    /\ io k' = io k.
Proof.
  intros Hbs Hmod Hhole Hdata Hfr Hlen.
  set (q := Z.to_nat (PAGE_SIZE / s_blocksize i)).
  assert (Hq : Z.of_nat q * s_blocksize i = PAGE_SIZE).
  { unfold q. pose proof PAGE_SIZE_pos.
    pose proof (Z.div_mod PAGE_SIZE (s_blocksize i) ltac:(lia)).
    assert (0 <= PAGE_SIZE / s_blocksize i)
      by (apply Z.div_pos; lia).
    rewrite Z2Nat.id by assumption. lia. }
  unfold bread_page.
  replace 0 with (Z.of_nat 0 * s_blocksize i) at 1 by lia.
  rewrite (bread_page_loop_hole n i offset a q Hbs Hq Hhole q 0 _ k fc)
    by (try assumption; nia).
  cbn [mbind option_bind]. cbv zeta.
  replace (q * Z.to_nat (s_blocksize i))%nat with (Z.to_nat PAGE_SIZE) by nia.
  cbn [Nat.mul take app].
  set (kf := set_frames _ k).
  destruct (negb (tst prot PROT_WRITE) || tst flags MAP_SHARED).
  - eexists. split; [reflexivity|].
    pose proof (Page_insert_to_hash_same n
                  (Page.upd n (Pg.set_key (inode i) offset (dev i)) kf))
      as Hs.
    rewrite (same_frames _ _ _ Hs eq_refl), (same_io _ _ _ Hs eq_refl).
    split; reflexivity.
  - eexists. split; [reflexivity|]. split; reflexivity.
Qed.
(** * What [file_read] and [minix_file_write] answer *)

Lemma MIN_min (a b : Z) : MIN a b = Z.min a b.
Proof. unfold MIN. destruct (Z.ltb_spec a b); lia. Qed.

(** The loop of [file_read]: the inode and the flags of the descriptor are
    never written; the loop ends with everything read that the file has, or
    with an error number and the offset where it stopped. *)
Lemma file_read_loop_shape (i : inode_t) :
  forall (fuel : nat) (fd : fd_t) (out : list Byte.byte) (cnt tr : Z)
         (k : kernel) (o : outcome) (out' : list Byte.byte),
    file_read_loop fuel i fd out cnt tr k = Some (o, out') ->
    0 <= cnt -> fd_offset fd <= i_size i ->
    o_inode o = i /\ fd_flags (o_fd o) = fd_flags fd
    /\ Z.of_nat (length out')
       <= Z.of_nat (length out) + (fd_offset (o_fd o) - fd_offset fd)
    /\ ((ret o = tr + Z.min cnt (i_size i - fd_offset fd)
         /\ fd_offset (o_fd o)
            = fd_offset fd + Z.min cnt (i_size i - fd_offset fd))
        \/ ((ret o = - ENOMEM \/ ret o = - EIO)
            /\ fd_offset fd <= fd_offset (o_fd o)
               < fd_offset fd + Z.min cnt (i_size i - fd_offset fd))).
Proof.
  induction fuel as [|fuel IH]; intros fd out cnt tr k o out' Hrun Hc Hoff;
    [discriminate|].
  cbn [file_read_loop] in Hrun. cbv zeta in Hrun.
  set (cnt' := if i_size i <? fd_offset fd + cnt
               then i_size i - fd_offset fd else cnt) in *.
  assert (Ecnt : cnt' = Z.min cnt (i_size i - fd_offset fd)).
  { unfold cnt'. destruct (Z.ltb_spec (i_size i) (fd_offset fd + cnt)); lia. }
  destruct (Z.eqb_spec cnt' 0) as [E0|Hne].
  { injection Hrun as <- <-. simpl. rewrite <- Ecnt, E0.
    repeat split; lia. }
  pose proof (Z.mod_pos_bound (fd_offset fd) PAGE_SIZE PAGE_SIZE_pos) as Hmp.
  set (bytes := MIN (PAGE_SIZE - fd_offset fd mod PAGE_SIZE) cnt') in *.
  assert (Hb : 0 < bytes <= cnt') by (unfold bytes; rewrite MIN_min; lia).
  destruct (Page.search_page_hash i _ k) as [[pg ks]|]; [|discriminate].
  cbn [mbind option_bind] in Hrun.
  assert (Hfail : forall e kx,
            e = - ENOMEM \/ e = - EIO ->
            Some (mk_outcome e i fd kx, out) = Some (o, out') ->
            o_inode o = i /\ fd_flags (o_fd o) = fd_flags fd
            /\ Z.of_nat (length out')
               <= Z.of_nat (length out) + (fd_offset (o_fd o) - fd_offset fd)
            /\ ((ret o = tr + Z.min cnt (i_size i - fd_offset fd)
                 /\ fd_offset (o_fd o)
                    = fd_offset fd + Z.min cnt (i_size i - fd_offset fd))
                \/ ((ret o = - ENOMEM \/ ret o = - EIO)
                    /\ fd_offset fd <= fd_offset (o_fd o)
                       < fd_offset fd
                         + Z.min cnt (i_size i - fd_offset fd)))).
  { intros e kx He [= <- <-]. simpl. repeat split; lia. }
  assert (Hgo : forall n addr kx,
            (kx ← Page.page_lock n kx;
             kx' ← kfree addr kx;
             file_read_loop fuel i
               (set_fd_offset (fd_offset fd + bytes) fd)
               (out ++ take (Z.to_nat bytes)
                         (drop (Z.to_nat (fd_offset fd mod PAGE_SIZE))
                            (default [] (a ← Pg.data (Page.pg kx n);
                                         frames kx !! a))))
               (cnt' - bytes) (tr + bytes) (Page.page_unlock n kx'))
            = Some (o, out') ->
            o_inode o = i /\ fd_flags (o_fd o) = fd_flags fd
            /\ Z.of_nat (length out')
               <= Z.of_nat (length out) + (fd_offset (o_fd o) - fd_offset fd)
            /\ ((ret o = tr + Z.min cnt (i_size i - fd_offset fd)
                 /\ fd_offset (o_fd o)
                    = fd_offset fd + Z.min cnt (i_size i - fd_offset fd))
                \/ ((ret o = - ENOMEM \/ ret o = - EIO)
                    /\ fd_offset fd <= fd_offset (o_fd o)
                       < fd_offset fd
                         + Z.min cnt (i_size i - fd_offset fd)))).
  { intros n addr kx H.
    destruct (Page.page_lock n kx) as [kl|]; [|discriminate].
    cbn [mbind option_bind] in H.
    destruct (kfree addr kl) as [kf|]; [|discriminate].
    cbn [mbind option_bind] in H.
    apply IH in H; cbn [fd_offset set_fd_offset fd_flags] in *; try lia.
    destruct H as (Hi & Hf & Hl & Hr). split; [exact Hi|].
    split; [exact Hf|]. rewrite length_app, length_take in Hl.
    split; [lia|]. destruct Hr as [[Hr1 Hr2]|[He Hr]]; [left|right]; lia. }
  destruct pg as [n|]; cbn [mbind option_bind] in Hrun.
  - destruct (Pg.data (Page.pg ks n)) as [a|]; [|discriminate].
    cbn [mbind option_bind] in Hrun. exact (Hgo n a ks Hrun).
  - destruct (kmalloc ks) as [[[a|] km]|]; [| |discriminate];
      cbn [mbind option_bind] in Hrun.
    + destruct (bread_page a i _ 0 MAP_SHARED km) as [[err kb]|];
        [|discriminate].
      cbn [mbind option_bind] in Hrun.
      destruct (negb (err =? 0)).
      * destruct (kfree a kb) as [kf|]; [|discriminate].
        cbn [mbind option_bind] in Hrun. apply (Hfail _ _ (or_intror eq_refl) Hrun).
      * cbn [mbind option_bind] in Hrun. exact (Hgo a a kb Hrun).
    + apply (Hfail _ _ (or_introl eq_refl) Hrun).
Qed.

(** The loop of [minix_file_write]: it ends with all of [count] written,
    or with an error number and the offset where it stopped. *)
Lemma minix_file_write_loop_shape (i : inode_t) (buffer : list Byte.byte)
    (count : Z) :
  0 < s_blocksize i ->
  forall (fuel : nat) (fd : fd_t) (tw : Z) (k : kernel) (err : option Z)
         (tw' : Z) (fd' : fd_t) (k' : kernel),
    minix_file_write_loop fuel i fd buffer count tw k
    = Some (err, tw', fd', k') ->
    tw <= count ->
    fd_flags fd' = fd_flags fd
    /\ fd_offset fd' = fd_offset fd + (tw' - tw) /\ tw <= tw' <= count
    /\ match err with
       | None => tw' = count
       | Some e =>
           tw' < count
           /\ (e = - EIO \/ (e = bmap i (fd_offset fd') true /\ e < 0))
       end.
Proof.
  intros Hbs.
  induction fuel as [|fuel IH]; intros fd tw k err tw' fd' k' Hrun Htw;
    [discriminate|].
  cbn [minix_file_write_loop] in Hrun. cbv zeta in Hrun.
  destruct (Z.ltb_spec tw count) as [Hlt|Hge]; cbn [negb] in Hrun.
  2:{ injection Hrun as <- <- <- <-. repeat split; lia. }
  destruct (Z.ltb_spec (bmap i (fd_offset fd) true) 0) as [Hneg|Hpos].
  { injection Hrun as <- <- <- <-. repeat split; lia. }
  destruct (Buffer.bread _ _ _ k) as [[[m|] kb]|]; [| |discriminate];
    cbn [mbind option_bind] in Hrun.
  2:{ injection Hrun as <- <- <- <-. repeat split; lia. }
  destruct (update_page_cache _ _ _ _ _) as [ku|]; [|discriminate].
  cbn [mbind option_bind] in Hrun.
  pose proof (Z.mod_pos_bound (fd_offset fd) (s_blocksize i) Hbs) as Hmb.
  set (bytes := MIN (s_blocksize i - fd_offset fd mod s_blocksize i)
                    (count - tw)) in *.
  assert (Hb : 0 < bytes <= count - tw) by (unfold bytes; rewrite MIN_min; lia).
  apply IH in Hrun; [|lia]. cbn [fd_offset set_fd_offset fd_flags] in Hrun.
  destruct Hrun as (Hf & Ho & Ht & He). repeat split; try lia; try exact Hf.
  exact He.
Qed.




(** X4.  A [minix_file_write] that fails returns [-EIO] or the negative
    block number that [bmap] answered at the offset where the descriptor
    now stands.  The blocks written before the failure stay written and
    the descriptor has advanced over them, by less than [count] bytes; but
    the inode is as it was: its size is not updated and it is not marked
    dirty. *)
Theorem X4_minix_file_write_failure (i : inode_t) (fd : fd_t)
    (buffer : list Byte.byte) (count : Z) (k : kernel) (o : outcome) :
  minix_file_write i fd buffer count k = Some o ->
  0 <= count -> 0 < s_blocksize i -> 0 <= write_offset i fd ->
  ret o < 0 ->
  o_inode o = i /\ fd_flags (o_fd o) = fd_flags fd
  /\ write_offset i fd <= fd_offset (o_fd o) < write_offset i fd + count
  /\ (ret o = - EIO \/ ret o = bmap i (fd_offset (o_fd o)) true).
Proof.
  intros Hrun Hc Hbs Hoff Hret. unfold minix_file_write in Hrun.
  set (fd0 := if tst (fd_flags fd) O_APPEND then set_fd_offset (i_size i) fd
              else fd) in *.
  assert (E0 : fd_offset fd0 = write_offset i fd
               /\ fd_flags fd0 = fd_flags fd).
  { unfold fd0, write_offset. destruct (tst _ _); auto. }
  destruct E0 as [E0 Ef].
  destruct (minix_file_write_loop _ i fd0 buffer count 0 k)
    as [[[[err tw] fd'] k']|] eqn:Hl; [|discriminate].
  cbn [mbind option_bind] in Hrun.
  apply (minix_file_write_loop_shape i buffer count Hbs) in Hl; [|exact Hc].
  rewrite E0, Ef in Hl. destruct Hl as (Hfl & Ho & Ht & He).
  destruct err as [e|]; injection Hrun as <-; cbn [ret o_fd o_inode] in *;
    [|lia].
  split; [reflexivity|]. split; [exact Hfl|]. split; [lia|].
  destruct He as [_ [He|[He _]]]; auto.
Qed.


(** X23.  Reading from the page cache.  When every page of the region is
    in the page cache, [file_read] returns the bytes that the frames of
    these pages hold, and all [count] of them.  It calls no driver (the
    only calls logged are the [kfree] that ends each round), writes no
    frame and leaves the region cached, so that the same read made again
    returns the same bytes. *)
Theorem X23_file_read_from_cache (i : inode_t) (fd : fd_t)
    (buffer : list Byte.byte) (count : Z) (pgof : Z -> nat) (k : kernel) :
  0 <= fd_offset fd -> 0 <= count -> fd_offset fd + count <= i_size i ->
  (Z.to_nat count <= length buffer)%nat ->
  pages_cached i (fd_offset fd) count pgof k ->
  written (fd_offset fd) count buffer pgof k ->
  exists k',
    file_read i fd count k
    = Some (mk_outcome count i (set_fd_offset (fd_offset fd + count) fd) k',
            take (Z.to_nat count) buffer)
    /\ Forall (fun e => is_kfree e = true) (calls_since k k')
    /\ frames k' = frames k
    /\ pages_cached i (fd_offset fd) count pgof k'
    /\ exists k'',
         file_read i fd count k'
         = Some (mk_outcome count i
                   (set_fd_offset (fd_offset fd + count) fd) k'',
                 take (Z.to_nat count) buffer).
Proof.
  intros _ Hc Hsz Hlen Hp Hw.
  assert (Hread : forall k0,
            pages_cached i (fd_offset fd) count pgof k0 ->
            written (fd_offset fd) count buffer pgof k0 ->
            exists k1,
              file_read i fd count k0
              = Some (mk_outcome count i
                        (set_fd_offset (fd_offset fd + count) fd) k1,
                      take (Z.to_nat count) buffer)
              /\ Forall (fun e => is_kfree e = true) (calls_since k0 k1)
              /\ frames k1 = frames k0
              /\ pages_cached i (fd_offset fd) count pgof k1).
  { intros k0 Hp0 Hw0.
    destruct (read_rounds i buffer count (fd_offset fd) pgof Hsz Hlen
                (S (Z.to_nat count)) 0 fd k0)
      as (k1 & evs & Hl & Eio & Hev & Efr & Hp1);
      try assumption; try lia.
    exists k1. split; [|split; [|auto]].
    - unfold file_read.
      destruct (Z.ltb_spec (i_size i) (fd_offset fd)) as [|_]; [lia|].
      rewrite Z.sub_0_r in Hl. exact Hl.
    - rewrite (calls_since_app _ _ _ Eio). exact Hev. }
  destruct (Hread k Hp Hw) as (k' & Hrun & Hev & Efr & Hp').
  exists k'. split; [exact Hrun|]. split; [exact Hev|].
  split; [exact Efr|]. split; [exact Hp'|].
  destruct (Hread k' Hp') as (k'' & Hrun' & _).
  - intros x Hx. rewrite Efr. exact (Hw x Hx).
  - exists k''. exact Hrun'.
Qed.

(** * [invalidate_buffers] and the other entries *)

(** A search along a well-formed chain answers the first entry of the
    chain that has the key. *)
Lemma search_loop_seg (dev block size : Z) (k : kernel) (l : list nat) :
  forall (fuel : nat) (prev p : ptr),
    seg (fun n => Buf.next_hash (Buffer.buf k n))
        (fun n => Buf.prev_hash (Buffer.buf k n)) prev p l None ->
    (length l < fuel)%nat ->
    Buffer.search_loop fuel dev block size p k
    = Some (List.find (keyed k dev block size) l).
Proof.
  induction l as [|x l IH]; intros fuel prev p Hs Hf;
    (destruct fuel as [|fuel]; [simpl in Hf; lia|]); simpl in *.
  - subst p. reflexivity.
  - destruct Hs as (-> & _ & Hs). fold (keyed k dev block size x).
    destruct (keyed k dev block size x); [reflexivity|].
    apply (IH fuel (Some x)); [exact Hs|lia].
Qed.

Lemma search_buffer_hash_seg (dev block size : Z) (k : kernel)
    (c : nat -> list nat) :
  hash_wf k c ->
  Buffer.search_buffer_hash dev block size k
  = Some (List.find (keyed k dev block size)
            (c (Buffer.BUFFER_HASH k dev block))).
Proof.
  intros [H1 H2]. unfold Buffer.search_buffer_hash.
  set (i := Buffer.BUFFER_HASH k dev block) in *.
  destruct (H1 i) as [Hs Hnd].
  apply (search_loop_seg dev block size k (c i) _ None); [exact Hs|].
  assert ((length (c i) <= Buffer.NR_BUFFERS k)%nat)
    by (apply NoDup_bounded; [exact Hnd|]; intros m Hm; apply (H2 i m Hm)).
  unfold Buffer.chain_fuel. fold (Buffer.NR_BUFFERS k). lia.
Qed.

Lemma find_filter (f : nat -> bool) (P : nat -> Prop)
    `{!forall m, Decision (P m)} (l : list nat) :
  (forall m, List.find f l = Some m -> P m) ->
  List.find f (filter P l) = List.find f l.
Proof.
  induction l as [|x l IH]; intros Hp; [reflexivity|].
  simpl in Hp |- *. destruct (f x) eqn:Ef.
  - rewrite filter_cons_True by (apply Hp; reflexivity).
    simpl. rewrite Ef. reflexivity.
  - destruct (decide (P x)).
    + rewrite filter_cons_True by assumption. simpl. rewrite Ef.
      apply IH, Hp.
    + rewrite filter_cons_False by assumption. apply IH, Hp.
Qed.

Lemma filter_all (P : nat -> Prop) `{!forall m, Decision (P m)}
    (l : list nat) :
  (forall m, P m) -> filter P l = l.
Proof.
  intros Hp. induction l as [|x l IH]; [reflexivity|].
  rewrite filter_cons_True by apply Hp. rewrite IH. reflexivity.
Qed.

(** On well-formed chains [invalidate_buffers] returns.  It takes the
    entries it deals with out of their chains, which keep their order, and
    leaves the [VALID] bit of every other entry alone. *)
Lemma invalidate_loop_chains (dev : Z) (todo : nat) :
  forall (n0 : nat) (k : kernel) (c : nat -> list nat),
    hash_wf k c ->
    exists k' c',
      Buffer.invalidate_loop todo n0 dev k = Some k' /\ hash_wf k' c'
      /\ (forall j, c' j = filter (fun m => ~ doomed dev k n0 todo m) (c j))
      /\ (forall m, ~ doomed dev k n0 todo m ->
                    Buffer.flag k' m BUFFER_VALID
                    = Buffer.flag k m BUFFER_VALID).
Proof.
  induction todo as [|todo IH]; intros n0 k c Hwf; simpl.
  - exists k, c. split; [reflexivity|]. split; [exact Hwf|]. split; [|auto].
    intros j. symmetry. apply filter_all. intros m (Hr & _). lia.
  - destruct (negb (Buffer.flag k n0 BUFFER_LOCKED)
              && (Buf.dev (Buffer.buf k n0) =? dev)) eqn:Ec.
    + apply andb_true_iff in Ec as [Eu Ed]. apply negb_true_iff in Eu.
      apply Z.eqb_eq in Ed.
      assert (Hw : Buffer.buffer_wait n0 k
                   = Some (Buffer.set_flag n0 BUFFER_LOCKED k))
        by (unfold Buffer.buffer_wait; rewrite Eu; reflexivity).
      rewrite Hw. simpl.
      destruct (remove_from_hash_chains n0 _ c
                  (hash_wf_set_flag n0 BUFFER_LOCKED k c Hwf))
        as (k2 & c2 & Hr & Hwf2 & _ & Hc2).
      rewrite Hr. simpl.
      set (k3 := Buffer.clear_flag n0 (Z.lor BUFFER_VALID BUFFER_LOCKED) k2).
      destruct (IH (S n0) k3 c2
                  (hash_wf_clear_flag n0 (Z.lor BUFFER_VALID BUFFER_LOCKED)
                     k2 c2 Hwf2))
        as (k' & c' & Hrun & Hwf' & Hc' & Hv').
      pose proof (remove_from_hash_same _ _ _ Hr) as Hs.
      cbv [st kernel_state] in Hs.
      assert (Hdev : forall m, Buf.dev (Buffer.buf k3 m)
                               = Buf.dev (Buffer.buf k m)).
      { intros m. unfold k3, Buffer.clear_flag.
        rewrite (proj_upd Buf.dev) by reflexivity.
        destruct (same_key _ _ _ m Hs eq_refl) as (-> & _).
        unfold Buffer.set_flag. rewrite (proj_upd Buf.dev) by reflexivity.
        reflexivity. }
      assert (Hd : forall m, doomed dev k3 (S n0) todo m
                             <-> doomed dev k n0 (S todo) m /\ m <> n0).
      { intros m. unfold doomed.
        pose proof (invalidate_round_locked n0 k _ k2 m Hw Hr) as El.
        fold k3 in El. rewrite El, Hdev.
        split; [intros (? & ? & ?)|intros ((? & ? & ?) & ?)];
          repeat split; auto; lia. }
      exists k', c'. split; [exact Hrun|]. split; [exact Hwf'|]. split.
      * intros j. rewrite Hc', Hc2, list_filter_filter.
        apply list_filter_iff. intros m. rewrite Hd. split.
        -- intros [Hnd Hne] Hdm. apply Hnd. auto.
        -- intros Hnd. split; [intros [Hdm _]; auto|].
           intros ->. apply Hnd. unfold doomed. repeat split; auto; lia.
      * intros m Hnd. rewrite Hv' by (rewrite Hd; tauto).
        assert (Hne : m <> n0).
        { intros ->. apply Hnd. unfold doomed. repeat split; auto; lia. }
        unfold k3. rewrite flag_clear_flag_ne by congruence.
        rewrite (same_flag _ _ _ m BUFFER_VALID Hs eq_refl).
        apply flag_set_flag_ne. congruence.
    + simpl. destruct (IH (S n0) k c Hwf) as (k' & c' & Hrun & Hwf' & Hc' & Hv').
      assert (Hd : forall m, doomed dev k (S n0) todo m
                             <-> doomed dev k n0 (S todo) m).
      { intros m. unfold doomed.
        split; intros (Hr & Hu & Hdv); (split; [|auto]); [lia|].
        destruct (decide (m = n0)) as [->|Hne]; [|lia].
        rewrite Hu, Hdv, Z.eqb_refl in Ec. discriminate. }
      exists k', c'. split; [exact Hrun|]. split; [exact Hwf'|]. split.
      * intros j. rewrite Hc'. apply list_filter_iff. intros m.
        rewrite Hd. reflexivity.
      * intros m Hnd. apply Hv'. rewrite Hd. exact Hnd.
Qed.

Lemma find_ext_in (f g : nat -> bool) (l : list nat) :
  (forall m, f m = g m) -> List.find f l = List.find g l.
Proof.
  intros E. induction l as [|x l IH]; [reflexivity|].
  simpl. rewrite E, IH. reflexivity.
Qed.

(** X19.  [invalidate_buffers(dev)] drops nothing else.  On well-formed
    hash chains it returns without calling a driver or touching a frame.
    A block that was found in an entry of another device, or in a locked
    entry (one that somebody holds), is still found in that entry, with its
    [VALID] bit and its frame; and a block that was not cached is not
    cached afterwards either. *)
Theorem X19_invalidate_keeps_the_others (dev : Z) (k : kernel)
    (c : nat -> list nat) :
  hash_wf k c ->
  exists k1,
    Buffer.invalidate_buffers dev k = Some k1
    /\ io k1 = io k /\ frames k1 = frames k
    /\ (forall d b s m,
          Buffer.search_buffer_hash d b s k = Some (Some m) ->
          d <> dev \/ Buffer.flag k m BUFFER_LOCKED = true ->
          Buffer.search_buffer_hash d b s k1 = Some (Some m)
          /\ Buffer.flag k1 m BUFFER_VALID = Buffer.flag k m BUFFER_VALID
          /\ Buf.data (Buffer.buf k1 m) = Buf.data (Buffer.buf k m))
    /\ (forall d b s,
          Buffer.search_buffer_hash d b s k = Some None ->
          Buffer.search_buffer_hash d b s k1 = Some None).
Proof.
  intros Hwf. unfold Buffer.invalidate_buffers.
  destruct (invalidate_loop_chains dev (Buffer.NR_BUFFERS k) 0 k c Hwf)
    as (k1 & c1 & Hrun & Hwf1 & Hc1 & Hv1).
  exists k1. split; [exact Hrun|].
  pose proof (invalidate_loop_same _ _ _ _ _ Hrun) as Hs.
  cbv [st kernel_state] in Hs.
  split; [apply (same_io _ _ _ Hs eq_refl)|].
  split; [apply (same_frames _ _ _ Hs eq_refl)|].
  assert (Hsearch : forall d b s,
             Buffer.search_buffer_hash d b s k1
             = Some (List.find (keyed k d b s)
                       (filter (fun m => ~ doomed dev k 0
                                             (Buffer.NR_BUFFERS k) m)
                          (c (Buffer.BUFFER_HASH k d b))))).
  { intros d b s. rewrite (search_buffer_hash_seg d b s k1 c1 Hwf1).
    rewrite (BUFFER_HASH_same _ _ _ d b Hs), Hc1. f_equal.
    apply find_ext_in. intros m. apply (keyed_same _ _ _ d b s m Hs eq_refl). }
  split.
  - intros d b s m Hhit Hkeep.
    rewrite (search_buffer_hash_seg d b s k c Hwf) in Hhit.
    injection Hhit as Hfind.
    assert (Hnd : ~ doomed dev k 0 (Buffer.NR_BUFFERS k) m).
    { intros (_ & Hu & Hd). apply List.find_some in Hfind as [_ Hkey].
      unfold keyed in Hkey. rewrite !andb_true_iff, !Z.eqb_eq in Hkey.
      destruct Hkeep as [Hne|Hl]; [|congruence].
      apply Hne. destruct Hkey as [[<- _] _]. exact Hd. }
    split; [|split].
    + rewrite Hsearch, find_filter; [rewrite Hfind; reflexivity|].
      intros m' Hm'. assert (m' = m) by congruence. subst m'. exact Hnd.
    + apply Hv1, Hnd.
    + apply (same_data _ _ _ m Hs eq_refl).
  - intros d b s Hmiss.
    rewrite (search_buffer_hash_seg d b s k c Hwf) in Hmiss.
    injection Hmiss as Hfind.
    rewrite Hsearch, find_filter; [rewrite Hfind; reflexivity|].
    intros m' Hm'. congruence.
Qed.

(** * The hash chains under [getblk] *)

(** [insert_to_hash] puts an entry that is in no chain at the head of the
    chain of its key. *)
Lemma insert_to_hash_chains (v : nat) (k : kernel) (c : nat -> list nat) :
  hash_wf k c -> (v < Buffer.NR_BUFFERS k)%nat ->
  (0 < length (buffer_hash_table k))%nat ->
  (forall j, ~ In v (c j)) ->
  hash_wf (Buffer.insert_to_hash v k)
    (fun j => if decide (j = Buffer.BUFFER_HASH k (Buf.dev (Buffer.buf k v))
                                 (Buf.block (Buffer.buf k v)))
              then v :: c j else c j).
Proof.
  intros [H1 H2] Hv Hh Hout.
  pose proof (insert_to_hash_same v k) as Hs.
  unfold Buffer.insert_to_hash in *.
  set (i := Buffer.BUFFER_HASH k _ _) in *.
  assert (Hi : (i < length (buffer_hash_table k))%nat)
    by (apply BUFFER_HASH_lt, Hh).
  assert (Hkeys : forall k', same m_hashidx k k' ->
            forall j m,
              In m (if decide (j = i) then v :: c j else c j) ->
              (m < Buffer.NR_BUFFERS k')%nat
              /\ (j < length (buffer_hash_table k'))%nat
              /\ Buffer.BUFFER_HASH k' (Buf.dev (Buffer.buf k' m))
                   (Buf.block (Buffer.buf k' m)) = j).
  { intros k' Hs' j m Hm.
    rewrite (same_NR_BUFFERS _ _ _ Hs').
    destruct (same_key _ _ _ m Hs' eq_refl) as (-> & -> & _).
    rewrite (BUFFER_HASH_same _ _ _ _ _ Hs').
    pose proof (same_NR_BUF_HASH _ _ _ Hs') as E.
    unfold Buffer.NR_BUF_HASH in E.
    assert (Hcase : (m = v /\ j = i) \/ In m (c j)).
    { destruct (decide (j = i)) as [->|_]; [|auto].
      destruct Hm as [<-|Hm]; auto. }
    destruct Hcase as [[-> ->]|Hin].
    - split; [exact Hv|]. split; [lia|reflexivity].
    - destruct (H2 j m Hin) as (A & B & C). split; [exact A|].
      split; [lia|exact C]. }
  destruct (H1 i) as [Hsegi Hndi].
  pose proof (seg_first _ _ _ _ _ _ Hsegi) as Eb.
  destruct (Buffer.bucket k i) as [h|] eqn:Ebk; cbv zeta in *.
  - (* the chain is not empty *)
    destruct (c i) as [|h' l] eqn:Eci; [discriminate|].
    injection Eb as <-.
    assert (Hhi : In h (c i)) by (rewrite Eci; left; reflexivity).
    assert (Hhv : h <> v) by (intros ->; exact (Hout i Hhi)).
    assert (Hhr : (h < Buffer.NR_BUFFERS k)%nat) by apply (H2 i h Hhi).
    rewrite !bucket_upd, Ebk in Hs |- *. cbn [Buffer.wr] in Hs |- *.
    split; [|apply Hkeys, Hs].
    intros j. cbv beta. rewrite bucket_set_bucket_at by exact Hi.
    destruct (decide (j = i)) as [->|Hj].
    + rewrite Eci. split.
      * cbn [seg]. rewrite !buf_set_bucket.
        rewrite (buf_upd_ne h _ _ v) by exact Hhv.
        rewrite (buf_upd_eq v), (buf_upd_eq v);
          [|exact Hv|rewrite NR_BUFFERS_upd; exact Hv].
        rewrite (buf_upd_eq h) by (rewrite !NR_BUFFERS_upd; exact Hhr).
        rewrite !(buf_upd_ne v _ _ h) by congruence.
        cbn [seg] in Hsegi. destruct Hsegi as (_ & Hp & Hrest).
        destruct (Buffer.buf k v), (Buffer.buf k h) eqn:Ebh.
        simpl in Hrest |- *.
        split; [reflexivity|]. split; [reflexivity|].
        split; [reflexivity|]. split; [reflexivity|].
        eapply seg_ext; [|exact Hrest]. intros m Hm. cbv beta.
        rewrite !buf_set_bucket.
        assert (m <> h).
        { intros ->. apply NoDup_cons in Hndi as [Hn _].
          rewrite list_elem_of_In in Hn. exact (Hn Hm). }
        assert (m <> v)
          by (intros ->; apply (Hout i); rewrite Eci; right; exact Hm).
        rewrite (buf_upd_ne h _ _ m), !(buf_upd_ne v _ _ m) by congruence.
        auto.
      * apply NoDup_cons. split; [|exact Hndi].
        rewrite list_elem_of_In, <- Eci. apply Hout.
    + destruct (H1 j) as [Hsegj Hndj]. split; [|exact Hndj].
      rewrite !bucket_upd.
      eapply seg_ext; [|exact Hsegj]. intros m Hm. cbv beta.
      rewrite !buf_set_bucket.
      assert (m <> v) by (intros ->; exact (Hout j Hm)).
      assert (m <> h).
      { intros ->. apply Hj. rewrite <- (proj2 (proj2 (H2 j h Hm))).
        apply (H2 i h Hhi). }
      rewrite (buf_upd_ne h _ _ m), !(buf_upd_ne v _ _ m) by congruence.
      auto.
  - (* the chain is empty *)
    destruct (c i) as [|h' l] eqn:Eci; [|discriminate].
    split; [|apply Hkeys, Hs].
    assert (Eb1 : Buffer.bucket (Buffer.set_bucket i (Some v) k) i = Some v)
      by (rewrite bucket_set_bucket_at, decide_True by auto; reflexivity).
    rewrite Eb1. cbn [Buffer.wr]. rewrite bucket_upd, Eb1. cbn [Buffer.wr].
    intros j. cbv beta. rewrite !bucket_upd.
    rewrite bucket_set_bucket_at by exact Hi.
    destruct (decide (j = i)) as [->|Hj].
    + rewrite Eci. split; [|apply NoDup_singleton].
      cbn [seg]. rewrite (buf_upd_eq v)
        by (rewrite NR_BUFFERS_upd; exact Hv).
      rewrite (buf_upd_eq v) by exact Hv. rewrite buf_set_bucket.
      destruct (Buffer.buf k v). simpl. auto.
    + destruct (H1 j) as [Hsegj Hndj]. split; [|exact Hndj].
      eapply seg_ext; [|exact Hsegj]. intros m Hm. cbv beta.
      assert (m <> v) by (intros ->; exact (Hout j Hm)).
      rewrite !(buf_upd_ne v _ _ m), buf_set_bucket by congruence. auto.
Qed.

Lemma find_ext_list (f g : nat -> bool) (l : list nat) :
  (forall m, In m l -> f m = g m) -> List.find f l = List.find g l.
Proof.
  induction l as [|x l IH]; intros E; [reflexivity|].
  simpl. rewrite (E x (or_introl eq_refl)), IH; [reflexivity|].
  intros m Hm. apply E. right. exact Hm.
Qed.

(** The chains after [getblk] has given the entry [v], which is in no
    chain, the key of the block. *)
Lemma rebind_chains (v : nat) (d b s : Z) (k3 : kernel)
    (c3 : nat -> list nat) :
  hash_wf k3 c3 -> (v < Buffer.NR_BUFFERS k3)%nat ->
  (0 < length (buffer_hash_table k3))%nat ->
  (forall j, ~ In v (c3 j)) ->
  hash_wf (rebind v d b s k3)
    (fun j => if decide (j = Buffer.BUFFER_HASH k3 d b)
              then v :: c3 j else c3 j)
  /\ forall m, m <> v ->
       Buf.dev (Buffer.buf (rebind v d b s k3) m) = Buf.dev (Buffer.buf k3 m)
       /\ Buf.block (Buffer.buf (rebind v d b s k3) m)
          = Buf.block (Buffer.buf k3 m)
       /\ Buf.size (Buffer.buf (rebind v d b s k3) m)
          = Buf.size (Buffer.buf k3 m).
Proof.
  intros [H1 H2] Hv Hh Hout. unfold rebind.
  set (ku := Buffer.upd v (Buf.set_key d b s) k3).
  assert (Hwu : hash_wf ku c3).
  { split.
    - intros j. destruct (H1 j) as [Hseg Hnd]. split; [|exact Hnd].
      eapply seg_ext; [|exact Hseg]. intros m Hm. cbv beta.
      unfold ku. rewrite buf_upd_ne by (intros ->; exact (Hout j Hm)). auto.
    - intros j m Hm. destruct (H2 j m Hm) as (A & B & C).
      unfold ku. rewrite NR_BUFFERS_upd.
      rewrite buf_upd_ne by (intros ->; exact (Hout j Hm)).
      split; [exact A|]. split; [exact B|exact C]. }
  assert (Eu : Buffer.buf ku v = Buf.set_key d b s (Buffer.buf k3 v))
    by (apply buf_upd_eq, Hv).
  pose proof (insert_to_hash_chains v ku c3 Hwu) as Hins.
  rewrite Eu in Hins. cbn [Buf.dev Buf.block Buf.set_key] in Hins.
  split.
  - apply hash_wf_clear_flag. apply Hins; [|exact Hh|exact Hout].
    unfold ku. rewrite NR_BUFFERS_upd. exact Hv.
  - intros m Hm.
    assert (Hs : same (mask_or m_hashidx (m_bits BUFFER_VALID)) ku
                   (Buffer.clear_flag v BUFFER_VALID
                      (Buffer.insert_to_hash v ku))).
    { apply (same_trans _ _ (Buffer.insert_to_hash v ku)).
      - apply (same_mono m_hashidx); [reflexivity|apply insert_to_hash_same].
      - apply same_clear_flag. reflexivity. }
    destruct (same_key _ _ _ m Hs eq_refl) as (-> & -> & ->).
    unfold ku. rewrite buf_upd_ne by congruence. auto.
Qed.

(** The lookups after [getblk] has taken the victim [v] out of the hash
    index and given it the key of a block that was not cached. *)
Lemma recycle_lookup (v : nat) (d b s : Z) (k k2 k3 : kernel)
    (c : nat -> list nat) (μ : mask) :
  hash_wf k c -> (v < Buffer.NR_BUFFERS k)%nat ->
  (0 < length (buffer_hash_table k))%nat ->
  same μ k k2 -> m_key μ = false -> m_hash μ = false ->
  m_buckets μ = false ->
  Buffer.remove_from_hash v k2 = Some k3 ->
  Buffer.search_buffer_hash d b s k = Some None ->
  (exists c', hash_wf (rebind v d b s k3) c')
  /\ (Buf.dev (Buffer.buf (rebind v d b s k3) v) = d
      /\ Buf.block (Buffer.buf (rebind v d b s k3) v) = b
      /\ Buf.size (Buffer.buf (rebind v d b s k3) v) = s)
  /\ (forall d0 b0 s0 m,
        Buffer.search_buffer_hash d0 b0 s0 k = Some (Some m) -> m <> v ->
        Buffer.search_buffer_hash d0 b0 s0 (rebind v d b s k3)
        = Some (Some m))
  /\ (forall d0 b0 s0,
        Buffer.search_buffer_hash d0 b0 s0 k = Some None ->
        (d0, b0, s0) <> (d, b, s) ->
        Buffer.search_buffer_hash d0 b0 s0 (rebind v d b s k3) = Some None).
Proof.
  intros Hwf Hv Hh Hs Hk Hhash Hb Hr Hmiss.
  pose proof (hash_wf_same _ _ _ c Hs Hk Hhash Hb Hwf) as Hwf2.
  destruct (remove_from_hash_chains v k2 c Hwf2)
    as (k3' & c3 & Hr' & Hwf3 & Hmem & Hc3).
  assert (k3' = k3) by congruence. subst k3'.
  pose proof (remove_from_hash_same _ _ _ Hr) as Hs3.
  cbv [st kernel_state] in Hs3.
  assert (Hv3 : (v < Buffer.NR_BUFFERS k3)%nat)
    by (rewrite (same_NR_BUFFERS _ _ _ Hs3), (same_NR_BUFFERS _ _ _ Hs);
        exact Hv).
  assert (Hh3 : (0 < length (buffer_hash_table k3))%nat).
  { destruct Hs3 as (_ & -> & _). destruct Hs as (_ & -> & _). exact Hh. }
  assert (Hout : forall j, ~ In v (c3 j))
    by (intros j Hj; apply Hmem in Hj as [_ Hne]; congruence).
  destruct (rebind_chains v d b s k3 c3 Hwf3 Hv3 Hh3 Hout) as [Hwf' Hkeys].
  destruct (key_rebind v d b s k3 Hv3) as (Kd & Kb & Ks).
  set (k' := rebind v d b s k3) in *.
  set (c' := fun j => if decide (j = Buffer.BUFFER_HASH k3 d b)
                      then v :: c3 j else c3 j) in *.
  assert (Hsr : same m_rebind k2 k') by (apply rebind_same, Hr).
  assert (EH : forall d0 b0, Buffer.BUFFER_HASH k' d0 b0
                             = Buffer.BUFFER_HASH k d0 b0).
  { intros d0 b0. rewrite (BUFFER_HASH_same _ _ _ d0 b0 Hsr).
    apply (BUFFER_HASH_same _ _ _ d0 b0 Hs). }
  assert (Hkey : forall d0 b0 s0 m, m <> v ->
             keyed k' d0 b0 s0 m = keyed k d0 b0 s0 m).
  { intros d0 b0 s0 m Hm. unfold keyed.
    destruct (Hkeys m Hm) as (-> & -> & ->).
    destruct (same_key _ _ _ m Hs3 eq_refl) as (-> & -> & ->).
    destruct (same_key _ _ _ m Hs Hk) as (-> & -> & ->). reflexivity. }
  assert (Hfind : forall d0 b0 s0,
             (d0, b0, s0) <> (d, b, s) ->
             Buffer.search_buffer_hash d0 b0 s0 k'
             = Some (List.find (keyed k d0 b0 s0)
                       (filter (fun m => m <> v)
                          (c (Buffer.BUFFER_HASH k d0 b0))))).
  { intros d0 b0 s0 Hne.
    rewrite (search_buffer_hash_seg d0 b0 s0 k' c' Hwf'), EH. f_equal.
    assert (Ekv : keyed k' d0 b0 s0 v = false).
    { unfold keyed. rewrite Kd, Kb, Ks.
      destruct (Z.eqb_spec d d0), (Z.eqb_spec b b0), (Z.eqb_spec s s0);
        try reflexivity. exfalso. apply Hne. congruence. }
    assert (Etail : List.find (keyed k' d0 b0 s0)
                      (c3 (Buffer.BUFFER_HASH k d0 b0))
                    = List.find (keyed k d0 b0 s0)
                        (filter (fun m => m <> v)
                           (c (Buffer.BUFFER_HASH k d0 b0)))).
    { rewrite Hc3. apply find_ext_list. intros m Hm. apply Hkey.
      apply list_elem_of_In, list_elem_of_filter in Hm as [Hm _]. exact Hm. }
    unfold c'. destruct (decide _) as [_|_]; [|exact Etail].
    cbn [List.find]. rewrite Ekv. exact Etail. }
  split; [exists c'; exact Hwf'|]. split; [auto|]. split.
  - intros d0 b0 s0 m Hhit Hm.
    assert (Hne : (d0, b0, s0) <> (d, b, s))
      by (intros [= E1 E2 E3]; rewrite E1, E2, E3 in Hhit; congruence).
    rewrite (search_buffer_hash_seg d0 b0 s0 k c Hwf) in Hhit.
    injection Hhit as Hhit.
    rewrite (Hfind d0 b0 s0 Hne), find_filter; [rewrite Hhit; reflexivity|].
    intros m' Hm'. congruence.
  - intros d0 b0 s0 Hnone Hne.
    rewrite (search_buffer_hash_seg d0 b0 s0 k c Hwf) in Hnone.
    injection Hnone as Hnone.
    rewrite (Hfind d0 b0 s0 Hne), find_filter; [rewrite Hnone; reflexivity|].
    intros m' Hm'. congruence.
Qed.

Lemma kept_same (d b s : Z) (k k' : kernel) (c : nat -> list nat) (μ : mask) :
  hash_wf k c -> same μ k k' -> m_key μ = false -> m_hash μ = false ->
  m_buckets μ = false -> kept_but_one d b s k k'.
Proof.
  intros Hwf Hs Hk Hh Hb. split; [|split].
  - exists c. exact (hash_wf_same _ _ _ c Hs Hk Hh Hb Hwf).
  - intros d0 b0 s0 m Hhit. left.
    rewrite (search_buffer_hash_same _ _ _ d0 b0 s0 Hs Hk Hh Hb). exact Hhit.
  - intros d0 b0 s0 Hmiss _.
    rewrite (search_buffer_hash_same _ _ _ d0 b0 s0 Hs Hk Hh Hb). exact Hmiss.
Qed.

Lemma kept_then_same (d b s : Z) (k k1 k' : kernel) (μ : mask) :
  kept_but_one d b s k k1 -> same μ k1 k' -> m_key μ = false ->
  m_hash μ = false -> m_buckets μ = false -> kept_but_one d b s k k'.
Proof.
  intros ([c1 Hwf] & Hhit & Hmiss) Hs Hk Hh Hb. split; [|split].
  - exists c1. exact (hash_wf_same _ _ _ c1 Hs Hk Hh Hb Hwf).
  - intros d0 b0 s0 m Hm.
    rewrite (search_buffer_hash_same _ _ _ d0 b0 s0 Hs Hk Hh Hb).
    destruct (same_key _ _ _ m Hs Hk) as (-> & -> & ->).
    apply Hhit, Hm.
  - intros d0 b0 s0 Hm Hne.
    rewrite (search_buffer_hash_same _ _ _ d0 b0 s0 Hs Hk Hh Hb).
    apply Hmiss; assumption.
Qed.

Lemma kept_recycle (v : nat) (d b s : Z) (k k2 k3 : kernel)
    (c : nat -> list nat) (μ : mask) :
  hash_wf k c -> (v < Buffer.NR_BUFFERS k)%nat ->
  (0 < length (buffer_hash_table k))%nat ->
  same μ k k2 -> m_key μ = false -> m_hash μ = false ->
  m_buckets μ = false ->
  Buffer.remove_from_hash v k2 = Some k3 ->
  Buffer.search_buffer_hash d b s k = Some None ->
  kept_but_one d b s k (rebind v d b s k3).
Proof.
  intros Hwf Hv Hh Hs Hk Hhash Hb Hr Hmiss.
  destruct (recycle_lookup v d b s k k2 k3 c μ Hwf Hv Hh Hs Hk Hhash Hb Hr
              Hmiss) as (Hc' & Hkey & Hhit & Hnone).
  split; [exact Hc'|]. split; [|exact Hnone].
  intros d0 b0 s0 m Hm. destruct (decide (m = v)) as [->|Hne].
  - right. split; [exact Hmiss|exact Hkey].
  - left. apply Hhit; assumption.
Qed.

(** What [getblk] leaves of the hash index. *)
Lemma getblk_kept (d b s : Z) (k : kernel) (c : nat -> list nat) (r : ptr)
    (kg : kernel) :
  hash_wf k c -> (0 < length (buffer_hash_table k))%nat ->
  (forall h, buffer_head k = Some h -> (h < Buffer.NR_BUFFERS k)%nat) ->
  Buffer.getblk d b s k = Some (r, kg) ->
  kept_but_one d b s k kg.
Proof.
  intros Hwf Hh Hhead Hg.
  destruct (Buffer.search_buffer_hash d b s k) as [[m|]|] eqn:Hs.
  - unfold Buffer.getblk in Hg. rewrite Hs in Hg.
    cbn [mbind option_bind] in Hg.
    destruct (Buffer.flag k m BUFFER_LOCKED); [discriminate|].
    injection Hg as <- <-.
    apply (kept_same d b s k _ c m_take Hwf (taken_same m k)); reflexivity.
  - destruct (getblk_miss d b s k _ kg Hs Hg) as (v & kv & Hgf & Hcase).
    pose proof (get_free_buffer_same k _ Hgf) as Hsv.
    cbv [st pair_state kernel_state snd] in Hsv.
    assert (Hv : (v < Buffer.NR_BUFFERS k)%nat).
    { apply Hhead. unfold Buffer.get_free_buffer in Hgf.
      destruct (buffer_head k) as [h|]; [|discriminate].
      destruct (Buffer.flag k h BUFFER_LOCKED); [discriminate|].
      injection Hgf as -> _. reflexivity. }
    destruct Hcase
      as [(_ & k3 & Hr & _ & ->)
         |[(_ & _ & km & Hm & _ & ->)
          |[(_ & _ & a & km & k3 & Hm & Hr & _ & ->)
           |(_ & _ & k3 & Hr & _ & ->)]]].
    + apply (kept_recycle v d b s k (Buffer.sync_one_buffer v kv) k3 c
               (mask_or m_take m_writeback) Hwf Hv Hh);
        [|reflexivity..|exact Hr|exact Hs].
      apply (same_trans _ _ kv); [same_weaken Hsv|].
      same_weaken (sync_one_buffer_same v kv).
    + pose proof (kmalloc_same kv _ Hm) as Hsm.
      cbv [st pair_state kernel_state snd] in Hsm.
      apply (kept_same d b s k _ c
               (mask_or m_take (mask_or m_palloc m_release)) Hwf);
        [|reflexivity..].
      apply (same_trans _ _ kv); [same_weaken Hsv|].
      apply (same_trans _ _ km); [same_weaken Hsm|].
      same_weaken (brelse_same v km).
    + pose proof (kmalloc_same kv _ Hm) as Hsm.
      cbv [st pair_state kernel_state snd] in Hsm.
      apply (kept_recycle v d b s k
               (Buffer.add_buffers (PAGE_SIZE / 1024)
                  (Buffer.upd v (Buf.set_data (Some a)) km)) k3 c
               (mask_or m_take (mask_or m_setdata m_palloc)) Hwf Hv Hh);
        [|reflexivity..|exact Hr|exact Hs].
      apply (same_trans _ _ kv); [same_weaken Hsv|].
      apply (same_trans _ _ km); [same_weaken Hsm|].
      apply (same_trans _ _ (Buffer.upd v (Buf.set_data (Some a)) km)).
      * apply same_upd. intros []. reflexivity.
      * apply same_add_buffers. reflexivity.
    + apply (kept_recycle v d b s k kv k3 c m_take Hwf Hv Hh Hsv);
        [reflexivity..|exact Hr|exact Hs].
  - unfold Buffer.getblk in Hg. rewrite Hs in Hg. discriminate.
Qed.

(** X21.  [bread] evicts at most one block, and brings in only the block
    asked for.  On well-formed hash chains, with the head of the free list
    inside the table, the chains are well formed again when
    [bread(d, b, s)] returns.  Every block that a lookup found before is
    still found in the same entry, with one exception: the entry that was
    recycled for [(d, b, s)], which was not cached, now carries that key.
    A block other than [(d, b, s)] that was not found before is not found
    afterwards. *)
Theorem X21_bread_evicts_at_most_one (d b s : Z) (k : kernel)
    (c : nat -> list nat) (r : ptr) (k' : kernel) :
  hash_wf k c -> (0 < length (buffer_hash_table k))%nat ->
  (forall h, buffer_head k = Some h -> (h < Buffer.NR_BUFFERS k)%nat) ->
  Buffer.bread d b s k = Some (r, k') ->
  (exists c', hash_wf k' c')
  /\ (forall d0 b0 s0 m,
        Buffer.search_buffer_hash d0 b0 s0 k = Some (Some m) ->
        Buffer.search_buffer_hash d0 b0 s0 k' = Some (Some m)
        \/ (Buffer.search_buffer_hash d b s k = Some None
            /\ Buf.dev (Buffer.buf k' m) = d
            /\ Buf.block (Buffer.buf k' m) = b
            /\ Buf.size (Buffer.buf k' m) = s))
  /\ (forall d0 b0 s0,
        Buffer.search_buffer_hash d0 b0 s0 k = Some None ->
        (d0, b0, s0) <> (d, b, s) ->
        Buffer.search_buffer_hash d0 b0 s0 k' = Some None).
Proof.
  intros Hwf Hh Hhead Hrun. change (kept_but_one d b s k k').
  unfold Buffer.bread in Hrun.
  destruct (blk_devices k d) as [dv|].
  2:{ injection Hrun as <- <-.
      apply (kept_same d b s k k c m0 Hwf (same_refl _ _)); reflexivity. }
  destruct (Buffer.getblk d b s k) as [[[n|] kg]|] eqn:Hg;
    cbn [mbind option_bind] in Hrun; [| |discriminate].
  2:{ injection Hrun as <- <-.
      exact (getblk_kept d b s k c _ _ Hwf Hh Hhead Hg). }
  pose proof (getblk_kept d b s k c _ _ Hwf Hh Hhead Hg) as Hkept.
  pose proof (bread_tail_same dv d b s n kg) as Hst.
  cbv zeta in Hrun.
  set (kr := if negb (Buffer.flag kg n BUFFER_VALID) then _ else kg) in *.
  assert (Hkr : kept_but_one d b s k kr)
    by (apply (kept_then_same d b s k kg kr _ Hkept Hst); reflexivity).
  destruct (Buffer.flag kr n BUFFER_VALID); injection Hrun as <- <-;
    [exact Hkr|].
  apply (kept_then_same d b s k kr _ _ Hkr (brelse_same n kr)); reflexivity.
Qed.

(** X22.  A dirty victim is written back before it is reused.  When
    [getblk] misses and the head of the free list is a dirty entry whose
    device accepts the block, [getblk] calls [write_block] once, with the
    victim's old key and contents, takes the victim off the dirty list,
    which stays well formed, clears [DIRTY], and hands the entry out under
    the new key with its frame. *)
Theorem X22_getblk_writes_back (dev block size : Z) (k kv : kernel)
    (c : nat -> list nat) (l1 l2 : list nat) (v : nat)
    (w : list event -> Z -> Z -> option frame -> Z -> Z) :
  hash_wf k c -> dirty_wf k (l1 ++ v :: l2) ->
  Buffer.search_buffer_hash dev block size k = Some None ->
  Buffer.get_free_buffer k = Some (Some v, kv) ->
  Buffer.flag k v BUFFER_DIRTY = true ->
  writer k v = Some w -> 0 <= call_ret (write_back_call w k v) ->
  exists k',
    Buffer.getblk dev block size k = Some (Some v, k')
    /\ io k' = io k ++ [write_back_call w k v]
    /\ dirty_wf k' (l1 ++ l2)
    /\ Buffer.flag k' v BUFFER_DIRTY = false
    /\ (Buf.dev (Buffer.buf k' v) = dev
        /\ Buf.block (Buffer.buf k' v) = block
        /\ Buf.size (Buffer.buf k' v) = size)
    /\ Buf.data (Buffer.buf k' v) = Buf.data (Buffer.buf k v)
    /\ frames k' = frames k.
Proof.
  intros Hwf Hdl Hmiss Hg Hd Hw Hok.
  assert (Hv : (v < Buffer.NR_BUFFERS k)%nat).
  { apply Hdl. apply in_or_app. right. left. reflexivity. }
  pose proof (get_free_buffer_same k _ Hg) as Hsv.
  cbv [st pair_state kernel_state snd] in Hsv.
  assert (Hdv : Buffer.flag kv v BUFFER_DIRTY = true)
    by (rewrite (same_flag _ _ _ v BUFFER_DIRTY Hsv eq_refl); exact Hd).
  assert (Hwv : writer kv v = writer k v)
    by (apply (writer_same _ _ _ v Hsv eq_refl)).
  assert (Hcv : write_back_call w kv v = write_back_call w k v)
    by (apply (write_back_call_same _ _ _ w v Hsv); reflexivity).
  set (ks := Buffer.sync_one_buffer v kv).
  pose proof (sync_one_buffer_same v kv) as Hsync. fold ks in Hsync.
  assert (Eks : ks = Buffer.remove_from_dirty_list v
                       (Buffer.log (write_back_call w k v) kv)).
  { unfold ks.
    destruct (sync_one_buffer_cases v kv)
      as [[Hn _]|[(w' & Hn & Hr & _)|(w' & Hn & _ & ->)]];
      rewrite Hwv in Hn; [congruence| |].
    - assert (w' = w) by congruence. subst w'. rewrite Hcv in Hr. lia.
    - assert (w' = w) by congruence. subst w'. rewrite Hcv. reflexivity. }
  assert (Hss : same (mask_or m_take m_writeback) k ks).
  { apply (same_trans _ _ kv); [same_weaken Hsv|same_weaken Hsync]. }
  destruct (remove_from_hash_wf v ks c) as (k3 & c3 & Hr & _).
  { apply (hash_wf_same _ _ _ c Hss); [reflexivity..|exact Hwf]. }
  pose proof (rebind_same v dev block size _ _ Hr) as Hs3.
  set (k' := rebind v dev block size k3) in *.
  exists k'. split.
  { unfold Buffer.getblk. rewrite Hmiss. simpl. rewrite Hg. simpl.
    rewrite Hdv. simpl. fold ks. rewrite Hr. reflexivity. }
  split.
  { rewrite (same_io _ _ _ Hs3 eq_refl), Eks.
    rewrite (same_io _ _ _ (remove_from_dirty_list_same v _) eq_refl).
    simpl. rewrite (same_io _ _ _ Hsv eq_refl). reflexivity. }
  split.
  { apply (dirty_wf_same _ _ _ _ Hs3 eq_refl eq_refl). rewrite Eks.
    apply dirty_wf_remove, dirty_wf_log.
    exact (dirty_wf_same _ _ _ _ Hsv eq_refl eq_refl Hdl). }
  split.
  { rewrite (same_flag _ _ _ v BUFFER_DIRTY Hs3 eq_refl), Eks.
    rewrite remove_from_dirty_list_flag, decide_True by reflexivity.
    reflexivity. }
  split.
  { apply key_rebind.
    pose proof (remove_from_hash_same _ _ _ Hr) as H3.
    cbv [st kernel_state] in H3.
    rewrite (same_NR_BUFFERS _ _ _ H3), (same_NR_BUFFERS _ _ _ Hss).
    exact Hv. }
  split.
  - rewrite (same_data _ _ _ v Hs3 eq_refl).
    apply (same_data _ _ _ v Hss eq_refl).
  - rewrite (same_frames _ _ _ Hs3 eq_refl).
    apply (same_frames _ _ _ Hss eq_refl).
Qed.

(** * The theorems at work on the small machines *)

Lemma C2_witness :
  locking_pass demo_dirty (after (Buffer.sync_buffers 10 1 demo_dirty))
  /\ locked_iff_off_free_list (after (Buffer.sync_buffers 10 1 demo_dirty))
     = locked_iff_off_free_list demo_dirty.
Proof.
  assert (locking_pass demo_dirty
            (after (Buffer.sync_buffers 10 1 demo_dirty))) as H
    by (left; exists 10%nat, 1; vm_compute; reflexivity).
  split; [exact H|].
  exact (proj2 (C2_locking_pass_restores _ _ H)).
Defined.

Lemma C4_witness :
  reachable_without_reclaim demo_clean
  /\ valid_has_data demo_clean = true.
Proof.
  assert (reachable_without_reclaim demo_clean) as H.
  { exists (Page.page_init (fun _ => false) 4
              (boot 3 4 4 4 (one_disk good_disk) 2)),
           [Bread 1 7 1024; Brelse 2].
    split; [split; reflexivity|].
    split; [reflexivity|]. vm_compute. reflexivity. }
  split; [exact H|].
  exact (proj1 (C4_valid_has_data_without_reclaim _ H)).
Defined.

Lemma C6_witness :
  dirty_wf demo_dirty [2%nat]
  /\ Buffer.sync_buffers 5 1 demo_dirty
     = Some (after (Buffer.sync_buffers 5 1 demo_dirty))
  /\ (exists k2, Buffer.sync_buffers 2 1
                   (after (Buffer.sync_buffers 5 1 demo_dirty)) = Some k2)
  /\ (forall fuel' k2,
        Buffer.sync_buffers fuel' 1
          (after (Buffer.sync_buffers 5 1 demo_dirty)) = Some k2 ->
        io k2 = io (after (Buffer.sync_buffers 5 1 demo_dirty))).
Proof.
  assert (Hwf : dirty_wf demo_dirty [2%nat]).
  { split; [vm_compute; auto|]. split; [apply NoDup_singleton|].
    intros n [<-|[]]. vm_compute. lia. }
  assert (Hrun : Buffer.sync_buffers 5 1 demo_dirty
                 = Some (after (Buffer.sync_buffers 5 1 demo_dirty)))
    by (vm_compute; reflexivity).
  split; [exact Hwf|]. split; [exact Hrun|].
  apply (C6_second_sync_after_success 5 1 demo_dirty _ [2%nat] Hwf Hrun).
  vm_compute. repeat constructor. discriminate.
Defined.

Lemma C7_witness :
  exists k1,
    Buffer.invalidate_buffers 1 demo_clean = Some k1
    /\ Buffer.search_buffer_hash 1 7 1024 k1 = Some None
    /\ (forall v kg,
          Buffer.getblk 1 7 1024 k1 = Some (Some v, kg) ->
          exists r k2,
            Buffer.bread 1 7 1024 k1 = Some (r, k2)
            /\ io k2 = io kg ++ [read_block_call 1 7 1024
                                   (fst (1024, replicate 1024 Byte.x00))]
            /\ (r <> None ->
                r = Some v /\ 0 <= fst (1024, replicate 1024 Byte.x00)))
    /\ (forall v,
          usable_victim demo_clean v ->
          exists kg, Buffer.getblk 1 7 1024 k1 = Some (Some v, kg)).
Proof.
  apply (C7_invalidate_then_read 1 7 1024 demo_clean demo_chains good_disk
           (fun _ _ _ size => (size, replicate (Z.to_nat size) Byte.x00))).
  - exact demo_clean_hash_wf.
  - reflexivity.
  - reflexivity.
  - intros m Hm _. vm_compute in Hm. destruct Hm as [<-|[]].
    vm_compute. reflexivity.
Defined.

(** * More theorems at work on the small machines *)




Lemma X4_witness :
  let o := write_result
             (minix_file_write demo_full (mk_fd 0 0)
                (replicate 3000 Byte.x61) 3000 demo_big) in
  o_inode o = demo_full /\ fd_flags (o_fd o) = fd_flags (mk_fd 0 0)
  /\ write_offset demo_full (mk_fd 0 0) <= fd_offset (o_fd o)
     < write_offset demo_full (mk_fd 0 0) + 3000
  /\ (ret o = - EIO \/ ret o = bmap demo_full (fd_offset (o_fd o)) true).
Proof.
  intros o.
  apply (X4_minix_file_write_failure demo_full (mk_fd 0 0)
           (replicate 3000 Byte.x61) 3000 demo_big o).
  - vm_compute. reflexivity.
  - lia.
  - simpl. lia.
  - vm_compute. discriminate.
  - vm_compute. reflexivity.
Defined.


Lemma X6_witness :
  exists k',
    Buffer.bread 1 7 1024 demo_clean = Some (Some 2%nat, k')
    /\ io k' = io demo_clean /\ frames k' = frames demo_clean
    /\ Buffer.flag k' 2 BUFFER_LOCKED = true
    /\ (forall n, n <> 2%nat ->
          Buffer.flag k' n BUFFER_LOCKED
          = Buffer.flag demo_clean n BUFFER_LOCKED)
    /\ (forall n, Buf.data (Buffer.buf k' n)
                  = Buf.data (Buffer.buf demo_clean n))
    /\ (forall d' b' s',
          Buffer.search_buffer_hash d' b' s' k'
          = Buffer.search_buffer_hash d' b' s' demo_clean).
Proof.
  apply (X6_bread_hit 1 7 1024 demo_clean 2 good_disk).
  - reflexivity.
  - vm_compute. reflexivity.
  - vm_compute. reflexivity.
  - vm_compute. reflexivity.
Defined.

Lemma X7_witness :
  let r := bread_result (Buffer.bread 1 7 1024 demo) in
  Buffer.search_buffer_hash 1 7 1024 (snd r) = Some (Some 2%nat).
Proof.
  intros r. apply (X7_bread_then_lookup 1 7 1024 demo 2 (snd r)).
  - vm_compute. lia.
  - vm_compute. reflexivity.
Defined.

Lemma X8_witness :
  exists k',
    Buffer.bread 1 7 1024 demo_nomem = Some (None, k')
    /\ io k' = io demo_nomem /\ frames k' = frames demo_nomem
    /\ page_table k' = page_table demo_nomem
    /\ Buffer.flag k' 2 BUFFER_LOCKED = false
    /\ (forall n, Buf.data (Buffer.buf k' n)
                  = Buf.data (Buffer.buf demo_nomem n))
    /\ (forall d' b' s',
          Buffer.search_buffer_hash d' b' s' k'
          = Buffer.search_buffer_hash d' b' s' demo_nomem).
Proof.
  apply (X8_bread_out_of_memory 1 7 1024 demo_nomem 2 good_disk);
    vm_compute; reflexivity.
Defined.

Lemma X9_witness :
  let k := snd (bread_result (Buffer.bread 1 7 1024 demo)) in
  is_free_tail (Buffer.brelse 2 k) 2 = true
  /\ forall h, buffer_head k = Some h ->
               buffer_head (Buffer.brelse 2 k) = Some h.
Proof.
  intros k. apply (proj2 (X9_brelse_replacement_order 2 k)).
  - vm_compute. reflexivity.
  - split.
    + intros n. vm_compute. intros [= <-]. lia.
    + intros m n. destruct m as [|[|[|m]]]; vm_compute; intros [= <-]; lia.
Defined.

Lemma X10_witness :
  exists k1,
    Buffer.get_free_buffer demo2 = Some (Some 1%nat, k1)
    /\ buffer_head k1 = None
    /\ Buffer.flag k1 0 BUFFER_LOCKED = Buffer.flag demo2 0 BUFFER_LOCKED
    /\ Buffer.get_free_buffer k1 = Some (None, k1)
    /\ forall dev block size,
         Buffer.search_buffer_hash dev block size k1 = Some None ->
         Buffer.getblk dev block size k1 = None.
Proof.
  apply (X10_last_two_free_buffers 1 0 demo2);
    try (vm_compute; reflexivity); vm_compute; lia.
Defined.

Lemma X11_witness :
  let k' := after (Buffer.sync_buffers 5 1 demo_two_dirty) in
  io k' = io demo_two_dirty ++ calls_since demo_two_dirty k'
  /\ Forall (fun e => exists block data size ret,
                        e = write_block_call 1 block data size ret)
            (calls_since demo_two_dirty k').
Proof.
  intros k'. apply (X11_sync_buffers_only_its_device 5 1 demo_two_dirty k').
  - discriminate.
  - vm_compute. reflexivity.
Defined.

Lemma X12_witness :
  exists k' l',
    Buffer.sync_buffers 3 1 demo_two_dirty = Some k'
    /\ dirty_wf k' l' /\ (forall n, In n l' -> In n [1; 2]%nat)
    /\ (forall m, Buffer.flag k' m BUFFER_LOCKED
                  = Buffer.flag demo_two_dirty m BUFFER_LOCKED)
    /\ (forall m, Buffer.flag k' m BUFFER_DIRTY = true ->
                  Buffer.flag demo_two_dirty m BUFFER_DIRTY = true)
    /\ frames k' = frames demo_two_dirty
    /\ (forall d b s, Buffer.search_buffer_hash d b s k'
                      = Buffer.search_buffer_hash d b s demo_two_dirty)
    /\ ((forall n, In n [1; 2]%nat ->
                   concerns 1 demo_two_dirty n = true
                   /\ writer demo_two_dirty n <> None) ->
        Forall (fun e => 0 <= call_ret e) (calls_since demo_two_dirty k') ->
        buffer_dirty_head k' = None
        /\ length (calls_since demo_two_dirty k') = length [1; 2]%nat
        /\ forall n, In n [1; 2]%nat ->
                     Buffer.flag k' n BUFFER_DIRTY = false).
Proof.
  apply (X12_sync_buffers_flushes 3 1 demo_two_dirty [1; 2]%nat).
  - split; [vm_compute; auto|]. split.
    + apply NoDup_cons. split; [|apply NoDup_singleton].
      rewrite list_elem_of_In. intros [H|[]]. discriminate.
    + intros n [<-|[<-|[]]]; vm_compute; lia.
  - simpl. lia.
  - intros n [<-|[<-|[]]] _; vm_compute; reflexivity.
Defined.

Lemma X13_witness :
  let k := snd (bread_result (Buffer.bread 1 7 1024 demo)) in
  dirty_wf (Buffer.bwrite 2 k) [2%nat]
  /\ io (Buffer.bwrite 2 k) = io k
  /\ Buffer.flag (Buffer.bwrite 2 k) 2 BUFFER_DIRTY = true
  /\ Buffer.flag (Buffer.bwrite 2 k) 2 BUFFER_VALID = true
  /\ Buffer.flag (Buffer.bwrite 2 k) 2 BUFFER_LOCKED = false
  /\ dirty (kstat (Buffer.bwrite 2 k)) = dirty (kstat k) + PAGE_SIZE / 1024
  /\ forall fuel dev k3 w,
       Buffer.sync_buffers fuel dev (Buffer.bwrite 2 k) = Some k3 ->
       concerns dev k 2 = true -> writer k 2 = Some w ->
       exists ret,
         In (write_block_call (Buf.dev (Buffer.buf k 2))
               (Buf.block (Buffer.buf k 2))
               (Buffer.contents k (Buf.data (Buffer.buf k 2))
                  (Buf.size (Buffer.buf k 2)))
               (Buf.size (Buffer.buf k 2)) ret)
            (calls_since (Buffer.bwrite 2 k) k3).
Proof.
  intros k. apply (X13_bwrite_is_delayed 2 k []).
  - split; [vm_compute; reflexivity|]. split; [apply NoDup_nil; exact I|].
    intros n [].
  - vm_compute. lia.
  - intros [].
  - vm_compute. reflexivity.
  - vm_compute. reflexivity.
Defined.

Lemma X14_witness :
  let k := snd (bread_result (Buffer.bread 1 7 1024 demo_two_dirty)) in
  dirty_wf (Buffer.bwrite 2 k) [1; 2]%nat
  /\ buffer_dirty_head (Buffer.bwrite 2 k) = buffer_dirty_head k
  /\ dirty (kstat (Buffer.bwrite 2 k)) = dirty (kstat k)
  /\ io (Buffer.bwrite 2 k) = io k.
Proof.
  intros k. apply (X14_bwrite_of_a_queued_buffer 2 k [1; 2]%nat).
  - split; [vm_compute; auto|]. split.
    + apply NoDup_cons. split; [|apply NoDup_singleton].
      rewrite list_elem_of_In. intros [H|[]]. discriminate.
    + intros n [<-|[<-|[]]]; vm_compute; lia.
  - right. left. reflexivity.
  - simpl. lia.
Defined.

Lemma X15_witness :
  let r := bread_page_result
             (bread_page 0 demo_file4k 0 0 MAP_SHARED (snd demo_page)) in
  exists ks, Page.search_page_hash demo_file4k 0 (snd r) = Some (Some 0%nat, ks).
Proof.
  intros r.
  apply (X15_bread_page_then_lookup 0 demo_file4k 0 0 MAP_SHARED
           (snd demo_page) (snd r)).
  - vm_compute. lia.
  - vm_compute. lia.
  - reflexivity.
  - vm_compute. reflexivity.
Defined.

Lemma X16_witness :
  exists k',
    Page.release_page (Z.of_nat 0) (snd demo_page) = Some k'
    /\ Pg.count (Page.pg k' 0) = 0
    /\ free_pages (kstat k') = free_pages (kstat (snd demo_page)) + 1
    /\ (Pg.inode (Page.pg (snd demo_page) 0) = 0 ->
        page_head k' = Some 0%nat
        /\ exists k2, Page.get_free_page k' = Some (Some 0%nat, k2))
    /\ (Pg.inode (Page.pg (snd demo_page) 0) <> 0 ->
        forall h, page_head (snd demo_page) = Some h ->
                  (h < length (page_table (snd demo_page)))%nat ->
                  page_head k' = Some h
                  /\ Pg.prev_free (Page.pg k' h) = Some 0%nat).
Proof.
  apply (X16_release_page_order 0 (snd demo_page)).
  - vm_compute. lia.
  - vm_compute. reflexivity.
  - vm_compute. discriminate.
Defined.

Lemma X17_witness :
  (Pg.inode (Page.pg demo_cached 0) = inode demo_file
   /\ Pg.offset (Page.pg demo_cached 0) = 0
   /\ Pg.dev (Page.pg demo_cached 0) = dev demo_file)
  /\ Pg.count (Page.pg (hit 0 demo_cached) 0)
     = Pg.count (Page.pg demo_cached 0) + 1
  /\ exists k2,
       Page.release_page (Pg.page (Page.pg (hit 0 demo_cached) 0))
         (hit 0 demo_cached) = Some k2
       /\ Pg.count (Page.pg k2 0) = Pg.count (Page.pg demo_cached 0)
       /\ free_pages (kstat k2) = free_pages (kstat demo_cached)
       /\ (forall m,
             Pg.inode (Page.pg k2 m) = Pg.inode (Page.pg demo_cached m)
             /\ Pg.offset (Page.pg k2 m) = Pg.offset (Page.pg demo_cached m)
             /\ Pg.dev (Page.pg k2 m) = Pg.dev (Page.pg demo_cached m)
             /\ Pg.flags (Page.pg k2 m) = Pg.flags (Page.pg demo_cached m)
             /\ Pg.data (Page.pg k2 m) = Pg.data (Page.pg demo_cached m))
       /\ (forall i' offset' r ks,
             Page.search_page_hash i' offset' demo_cached = Some (r, ks) ->
             exists ks', Page.search_page_hash i' offset' k2
                         = Some (r, ks')).
Proof.
  apply (X17_lookup_then_release demo_file 0 demo_cached (hit 0 demo_cached) 0).
  - vm_compute. reflexivity.
  - vm_compute. lia.
  - vm_compute. reflexivity.
  - vm_compute. discriminate.
  - intros _. vm_compute. reflexivity.
Defined.

Lemma X18_witness :
  exists k',
    bread_page 0 demo_sparse 4096 0 MAP_SHARED (snd demo_page) = Some (0, k')
    /\ frames k'
       = <[0%nat := replicate (Z.to_nat PAGE_SIZE) Byte.x00]>
           (frames (snd demo_page))
    /\ io k' = io (snd demo_page).
Proof.
  apply (X18_bread_page_of_a_hole 0 demo_sparse 4096 0 MAP_SHARED
           (snd demo_page) 0 (replicate (Z.to_nat PAGE_SIZE) Byte.x00)).
  - simpl. lia.
  - reflexivity.
  - intros x _. reflexivity.
  - vm_compute. reflexivity.
  - vm_compute. reflexivity.
  - apply length_replicate.
Defined.

Lemma X19_witness :
  exists k1,
    Buffer.invalidate_buffers 2 demo_clean = Some k1
    /\ io k1 = io demo_clean /\ frames k1 = frames demo_clean
    /\ (forall d b s m,
          Buffer.search_buffer_hash d b s demo_clean = Some (Some m) ->
          d <> 2 \/ Buffer.flag demo_clean m BUFFER_LOCKED = true ->
          Buffer.search_buffer_hash d b s k1 = Some (Some m)
          /\ Buffer.flag k1 m BUFFER_VALID
             = Buffer.flag demo_clean m BUFFER_VALID
          /\ Buf.data (Buffer.buf k1 m) = Buf.data (Buffer.buf demo_clean m))
    /\ (forall d b s,
          Buffer.search_buffer_hash d b s demo_clean = Some None ->
          Buffer.search_buffer_hash d b s k1 = Some None).
Proof.
  apply (X19_invalidate_keeps_the_others 2 demo_clean demo_chains).
  exact demo_clean_hash_wf.
Defined.

Lemma X20_witness :
  let kg := snd (bread_result (Buffer.getblk 1 7 1024 demo_fail)) in
  exists k',
    Buffer.bread 1 7 1024 demo_fail = Some (None, k')
    /\ io k' = io kg ++ [read_block_call 1 7 1024 (fst (-5, @nil Byte.byte))]
    /\ Buffer.search_buffer_hash 1 7 1024 k' = Some (Some 2%nat)
    /\ Buffer.flag k' 2 BUFFER_VALID = false
    /\ Buffer.flag k' 2 BUFFER_LOCKED = false
    /\ buffer_head k' = Some 2%nat
    /\ exists r k'',
         Buffer.bread 1 7 1024 k' = Some (r, k'')
         /\ io k'' = io k' ++ [read_block_call 1 7 1024
                                 (fst (-5, @nil Byte.byte))].
Proof.
  intros kg.
  apply (X20_failed_read_is_retried 1 7 1024 demo_fail failing_disk
           (fun _ _ _ _ => (-5, [])) 2 kg).
  - reflexivity.
  - reflexivity.
  - vm_compute. lia.
  - vm_compute. reflexivity.
  - vm_compute. lia.
  - vm_compute. reflexivity.
  - simpl. lia.
Defined.

Lemma X21_witness :
  let r := bread_result (Buffer.bread 1 8 1024 demo_clean) in
  (exists c', hash_wf (snd r) c')
  /\ (forall d0 b0 s0 m,
        Buffer.search_buffer_hash d0 b0 s0 demo_clean = Some (Some m) ->
        Buffer.search_buffer_hash d0 b0 s0 (snd r) = Some (Some m)
        \/ (Buffer.search_buffer_hash 1 8 1024 demo_clean = Some None
            /\ Buf.dev (Buffer.buf (snd r) m) = 1
            /\ Buf.block (Buffer.buf (snd r) m) = 8
            /\ Buf.size (Buffer.buf (snd r) m) = 1024))
  /\ (forall d0 b0 s0,
        Buffer.search_buffer_hash d0 b0 s0 demo_clean = Some None ->
        (d0, b0, s0) <> (1, 8, 1024) ->
        Buffer.search_buffer_hash d0 b0 s0 (snd r) = Some None).
Proof.
  intros r.
  apply (X21_bread_evicts_at_most_one 1 8 1024 demo_clean demo_chains
           (fst r) (snd r)).
  - exact demo_clean_hash_wf.
  - vm_compute. lia.
  - intros h. vm_compute. intros [= <-]. lia.
  - vm_compute. reflexivity.
Defined.

Lemma X22_witness :
  exists k',
    Buffer.getblk 1 10 1024 demo_writeback = Some (Some 2%nat, k')
    /\ io k' = io demo_writeback
               ++ [write_back_call
                     (fun _ _ _ _ size => size) demo_writeback 2]
    /\ dirty_wf k' ([] ++ [])
    /\ Buffer.flag k' 2 BUFFER_DIRTY = false
    /\ (Buf.dev (Buffer.buf k' 2) = 1
        /\ Buf.block (Buffer.buf k' 2) = 10
        /\ Buf.size (Buffer.buf k' 2) = 1024)
    /\ Buf.data (Buffer.buf k' 2) = Buf.data (Buffer.buf demo_writeback 2)
    /\ frames k' = frames demo_writeback.
Proof.
  apply (X22_getblk_writes_back 1 10 1024 demo_writeback
           (Buffer.set_flag 2 BUFFER_LOCKED
              (Buffer.remove_from_free_list 2 demo_writeback))
           demo_steal_chains [] [] 2).
  - split.
    + intros i. do 4 (try destruct i as [|i]); vm_compute;
        (split; [auto|]); try apply NoDup_nil_2; apply NoDup_singleton.
    + intros i n Hin. unfold demo_steal_chains in Hin.
      destruct (Nat.ltb_spec i 3) as [Hi|_]; [|destruct Hin].
      destruct Hin as [<-|[]].
      do 3 (try destruct i as [|i]); try lia; vm_compute; repeat split; lia.
  - split; [vm_compute; auto|]. split; [apply NoDup_singleton|].
    intros n [<-|[]]. vm_compute. lia.
  - vm_compute. reflexivity.
  - vm_compute. reflexivity.
  - vm_compute. reflexivity.
  - reflexivity.
  - vm_compute. discriminate.
Defined.

Lemma X23_witness :
  exists k',
    file_read demo_file (mk_fd 0 2) 4 demo_cached
    = Some (mk_outcome 4 demo_file
              (set_fd_offset (fd_offset (mk_fd 0 2) + 4) (mk_fd 0 2)) k',
            take (Z.to_nat 4) [Byte.x00; Byte.x00; Byte.x00; Byte.x00])
    /\ Forall (fun e => is_kfree e = true) (calls_since demo_cached k')
    /\ frames k' = frames demo_cached
    /\ pages_cached demo_file (fd_offset (mk_fd 0 2)) 4 (fun _ => 0%nat) k'
    /\ exists k'',
         file_read demo_file (mk_fd 0 2) 4 k'
         = Some (mk_outcome 4 demo_file
                   (set_fd_offset (fd_offset (mk_fd 0 2) + 4) (mk_fd 0 2))
                   k'',
                 take (Z.to_nat 4) [Byte.x00; Byte.x00; Byte.x00; Byte.x00]).
Proof.
  apply (X23_file_read_from_cache demo_file (mk_fd 0 2)
           [Byte.x00; Byte.x00; Byte.x00; Byte.x00] 4 (fun _ => 0%nat)
           demo_cached).
  - simpl. lia.
  - lia.
  - simpl. lia.
  - simpl. lia.
  - change (fd_offset (mk_fd 0 2)) with 2. intros x Hx.
    assert (Ex : x = 2 \/ x = 3 \/ x = 4 \/ x = 5) by lia.
    repeat (destruct Ex as [->|Ex]); try subst x;
      (split; [exists (hit 0 demo_cached); vm_compute; reflexivity|]);
      (split; [vm_compute; reflexivity|]);
      (split; [vm_compute; reflexivity|]);
      (split; [vm_compute; reflexivity|]);
      (split; [vm_compute; lia|]);
      (eexists; split; [vm_compute; reflexivity|vm_compute; reflexivity]).
  - change (fd_offset (mk_fd 0 2)) with 2. intros x Hx.
    assert (Ex : x = 2 \/ x = 3 \/ x = 4 \/ x = 5) by lia.
    repeat (destruct Ex as [->|Ex]); try subst x;
      (eexists; split; [vm_compute; reflexivity|vm_compute; reflexivity]).
Defined.
